(** * Fenix.AI: a shallow embedding of the perceptron engine

    The development follows the JavaScript sources of the library:
    the activation catalog ([activations]), [Neuron], [Layer] and
    [Network].  Mutable objects become records that are threaded through
    a small state-and-exception monad, so that a call that throws still
    exposes the state it leaves behind.

    Numbers.  A JavaScript number is modelled as a real number extended
    with [NaN] and the two infinities.  Arithmetic on finite values is the
    exact arithmetic of [R]: rounding, overflow of finite results and the
    sign of zero are not modelled there.  Module [Double] adds the rounded
    operations of binary64; they are used where a property of the code
    depends on rounding, as the range of [sigmoid.func] does. *)

From Stdlib Require Import Reals Lra Lia ZArith List String Permutation DecimalString.
From stdpp Require Import base list.

Local Open Scope R_scope.
#[local] Set Warnings "-register-all".

(** ** JavaScript numbers *)

Inductive number : Type :=
| NaN
| PosInf
| NegInf
| Fin (r : R).

Definition Rltb (x y : R) : bool := if Rlt_dec x y then true else false.
Definition Rleb (x y : R) : bool := if Rle_dec x y then true else false.
Definition Reqb (x y : R) : bool := if Req_dec_T x y then true else false.

Module Num.

Definition zero : number := Fin 0.
Definition one : number := Fin 1.

(** Unary minus. *)
Definition neg (a : number) : number :=
  match a with
  | NaN => NaN
  | PosInf => NegInf
  | NegInf => PosInf
  | Fin r => Fin (- r)
  end.

(** [a + b]. *)
Definition add (a b : number) : number :=
  match a, b with
  | NaN, _ | _, NaN => NaN
  | PosInf, NegInf | NegInf, PosInf => NaN
  | PosInf, _ | _, PosInf => PosInf
  | NegInf, _ | _, NegInf => NegInf
  | Fin x, Fin y => Fin (x + y)
  end.

(** [a - b]. *)
Definition sub (a b : number) : number := add a (neg b).

(** The infinity that has the sign of the real [x], [NaN] when [x] is 0. *)
Definition signed_inf (x : R) : number :=
  if Rltb 0 x then PosInf else if Rltb x 0 then NegInf else NaN.

(** [a * b]. *)
Definition mul (a b : number) : number :=
  match a, b with
  | NaN, _ | _, NaN => NaN
  | PosInf, PosInf | NegInf, NegInf => PosInf
  | PosInf, NegInf | NegInf, PosInf => NegInf
  | PosInf, Fin y => signed_inf y
  | NegInf, Fin y => signed_inf (- y)
  | Fin x, PosInf => signed_inf x
  | Fin x, NegInf => signed_inf (- x)
  | Fin x, Fin y => Fin (x * y)
  end.

(** [a / b]; a finite non-zero value over zero is an infinity. *)
Definition div (a b : number) : number :=
  match a, b with
  | NaN, _ | _, NaN => NaN
  | Fin x, Fin y => if Reqb y 0 then signed_inf x else Fin (x / y)
  | Fin _, (PosInf | NegInf) => Fin 0
  | PosInf, Fin y => if Rltb y 0 then NegInf else PosInf
  | NegInf, Fin y => if Rltb y 0 then PosInf else NegInf
  | (PosInf | NegInf), (PosInf | NegInf) => NaN
  end.

(** [a < b], [a <= b], [a > b], [a >= b]: false as soon as one side
    is [NaN]. *)
Definition lt (a b : number) : bool :=
  match a, b with
  | NaN, _ | _, NaN => false
  | _, NegInf => false
  | PosInf, _ => false
  | NegInf, _ => true
  | Fin _, PosInf => true
  | Fin x, Fin y => Rltb x y
  end.

Definition le (a b : number) : bool :=
  match a, b with
  | NaN, _ | _, NaN => false
  | NegInf, _ => true
  | _, PosInf => true
  | _, NegInf => false
  | PosInf, _ => false
  | Fin x, Fin y => Rleb x y
  end.

Definition gt (a b : number) : bool := lt b a.
Definition ge (a b : number) : bool := le b a.

(** [a === b] on numbers. *)
Definition eq (a b : number) : bool :=
  match a, b with
  | PosInf, PosInf | NegInf, NegInf => true
  | Fin x, Fin y => Reqb x y
  | _, _ => false
  end.

(** [isFinite(a)] and [Number.isInteger(a)] on a number. *)
Definition isFinite (a : number) : bool :=
  match a with Fin _ => true | _ => false end.

Definition isInteger (a : number) : bool :=
  match a with Fin r => Reqb (IZR (Zfloor r)) r | _ => false end.

(** The [Math] object. *)
Definition Math_max (a b : number) : number :=
  match a, b with
  | NaN, _ | _, NaN => NaN
  | PosInf, _ | _, PosInf => PosInf
  | NegInf, c | c, NegInf => c
  | Fin x, Fin y => Fin (Rmax x y)
  end.

Definition Math_min (a b : number) : number :=
  match a, b with
  | NaN, _ | _, NaN => NaN
  | NegInf, _ | _, NegInf => NegInf
  | PosInf, c | c, PosInf => c
  | Fin x, Fin y => Fin (Rmin x y)
  end.

Definition Math_exp (a : number) : number :=
  match a with
  | NaN => NaN
  | PosInf => PosInf
  | NegInf => Fin 0
  | Fin r => Fin (exp r)
  end.

Definition Math_log (a : number) : number :=
  match a with
  | NaN | NegInf => NaN
  | PosInf => PosInf
  | Fin r => if Rltb 0 r then Fin (ln r)
             else if Reqb r 0 then NegInf else NaN
  end.

Definition Math_tanh (a : number) : number :=
  match a with
  | NaN => NaN
  | PosInf => Fin 1
  | NegInf => Fin (-1)
  | Fin r => Fin (tanh r)
  end.

Definition Math_sin (a : number) : number :=
  match a with Fin r => Fin (sin r) | _ => NaN end.

Definition Math_cos (a : number) : number :=
  match a with Fin r => Fin (cos r) | _ => NaN end.

Definition Math_sqrt (a : number) : number :=
  match a with
  | NaN | NegInf => NaN
  | PosInf => PosInf
  | Fin r => if Rltb r 0 then NaN else Fin (sqrt r)
  end.

Definition Math_abs (a : number) : number :=
  match a with
  | NaN => NaN
  | PosInf | NegInf => PosInf
  | Fin r => Fin (Rabs r)
  end.

Definition Math_floor (a : number) : number :=
  match a with Fin r => Fin (IZR (Zfloor r)) | _ => a end.

(** [Math.pow(a, k)] for the literal natural exponents the sources use. *)
Fixpoint Math_pow (a : number) (k : nat) : number :=
  match k with
  | O => Fin 1
  | S O => a
  | S k' => mul a (Math_pow a k')
  end.

Definition of_nat (n : nat) : number := Fin (INR n).

(** The count that a non-negative integer number stands for. *)
Definition to_nat (a : number) : nat :=
  match a with Fin r => Z.to_nat (Zfloor r) | _ => 0%nat end.

End Num.

Declare Scope js_scope.
Delimit Scope js_scope with js.
Bind Scope js_scope with number.
Infix "+" := Num.add : js_scope.
Infix "-" := Num.sub : js_scope.
Infix "*" := Num.mul : js_scope.
Infix "/" := Num.div : js_scope.
Notation "- a" := (Num.neg a) : js_scope.
Infix "<?" := Num.lt : js_scope.
Infix "<=?" := Num.le : js_scope.
Infix ">?" := Num.gt : js_scope.
Infix ">=?" := Num.ge : js_scope.
Coercion Fin : R >-> number.

(** ** The activation catalog ([activations]) *)

Record ActivationFunction : Type := {
  func : number -> number;
  derivative : number -> number;
  name : option string
}.

Module activations.
Import Num.
Local Open Scope js_scope.

Definition sigmoid : ActivationFunction := {|
  func := fun x => 1 / (1 + Math_exp (- Math_max (-500) (Math_min 500 x)));
  derivative := fun x => x * (1 - x);
  name := None
|}.

Definition relu : ActivationFunction := {|
  func := fun x => Math_max 0 x;
  derivative := fun x => if x >? 0 then 1 else 0;
  name := None
|}.

Definition leakyRelu : ActivationFunction := {|
  func := fun x => if x >? 0 then x else 0.01 * x;
  derivative := fun x => if x >? 0 then 1 else 0.01;
  name := None
|}.

Definition elu : ActivationFunction := {|
  func := fun x => if x >=? 0 then x else Math_exp x - 1;
  derivative := fun x => if x >=? 0 then 1 else Math_exp x;
  name := None
|}.

Definition tanh : ActivationFunction := {|
  func := fun x => Math_tanh x;
  derivative := fun x => 1 - x * x;
  name := None
|}.

Definition swish : ActivationFunction := {|
  func := fun x => x / (1 + Math_exp (- x));
  derivative := fun x =>
    let sig := 1 / (1 + Math_exp (- x)) in
    sig + x * sig * (1 - sig);
  name := None
|}.

Definition mish : ActivationFunction := {|
  func := fun x => x * Math_tanh (Math_log (1 + Math_exp x));
  derivative := fun x =>
    let sp := Math_log (1 + Math_exp x) in
    let tsp := Math_tanh sp in
    let sig := 1 / (1 + Math_exp (- x)) in
    tsp + x * sig * (1 - Math_pow tsp 2);
  name := None
|}.

Definition sin : ActivationFunction := {|
  func := fun x => Math_sin x;
  derivative := fun x => Math_cos x;
  name := None
|}.

Definition cos : ActivationFunction := {|
  func := fun x => Math_cos x;
  derivative := fun x => - Math_sin x;
  name := None
|}.

Definition gaussian : ActivationFunction := {|
  func := fun x => Math_exp (- x * x);
  derivative := fun x => -2 * x * Math_exp (- x * x);
  name := None
|}.

Definition step : ActivationFunction := {|
  func := fun x => if x >? 0 then 1 else 0;
  derivative := fun x => 0;
  name := None
|}.

Definition linear : ActivationFunction := {|
  func := fun x => x;
  derivative := fun x => 1;
  name := None
|}.

(** The catalog entries whose [derivative] reads the activation's
    output, and the others. *)
Definition output_convention : list ActivationFunction := [sigmoid; tanh].

Definition smooth_input_convention : list ActivationFunction :=
  [elu; swish; mish; sin; cos; gaussian; linear].

Definition kinked_input_convention : list ActivationFunction :=
  [relu; leakyRelu; step].

Definition input_convention : list ActivationFunction :=
  [relu; leakyRelu; elu; swish; mish; sin; cos; gaussian; step; linear].

End activations.

(** The real function computed by a JavaScript function on finite
    arguments. *)
Definition real_of (g : number -> number) (t : R) : R :=
  match g (Fin t) with Fin r => r | _ => 0 end.

(** [derivative a] at the finite argument [x] is finite and is the
    derivative at [x] of the real function that [func a] computes. *)
Definition derivative_at_input (a : ActivationFunction) (x : R) : Prop :=
  (forall t : R, exists r : R, func a (Fin t) = Fin r) /\
  exists d : R,
    derivative a (Fin x) = Fin d /\
    derivable_pt_lim (real_of (func a)) x d.

(** The argument of [sigmoid]'s exponential: the input clamped to [-500, 500]. *)
Definition clamp500 (t : R) : R := Rmax (-500) (Rmin 500 t).

(** [Number.MAX_VALUE], the largest finite double: beyond it an
    exponential overflows to [Infinity]. *)
Definition MAX_VALUE : R := (2 - / 2 ^ 52) * 2 ^ 1023.


(** ** JavaScript values

    Arguments that the library inspects at run time ([Array.isArray],
    [typeof], truthiness, [.length]) are values.  Arrays and objects carry
    a reference, which is all that [===] looks at.  Arrays are lists: the
    engine's limit on the length of an array is not modelled. *)

Inductive value : Type :=
| VUndefined
| VNull
| VBool (b : bool)
| VNum (n : number)
| VStr (s : string)
| VArr (ref : nat) (elems : list value)
| VObj (ref : nat) (props : list (string * value)).

(** Errors: [new Error(message)] thrown by the library, and the
    [TypeError] the runtime raises on a property of [undefined] or [null]
    or on an iteration over a value that is not iterable. *)
Inductive message : Type :=
| MsgInputNotArray
    (* 'Input data must be an array' *)
| MsgInputSizeWeights (got : value) (expected : nat)
    (* `Input size (${inputs.length}) does not match number of weights (${this.weights.length})` *)
| MsgInputsNotFinite
    (* 'All input values must be finite numbers' *)
| MsgNoLastInputs
    (* 'Cannot update weights: no last inputs data available' *)
| MsgInvalidWeights
    (* 'Invalid weights format' *)
| MsgNeuronCount
    (* 'Number of neurons must be a positive integer' *)
| MsgInputSizePositive
    (* 'Input size must be a positive integer' *)
| MsgActivationMethods
    (* 'Activation function must contain func and derivative methods' *)
| MsgInputSizeExpected (got : value) (expected : number)
    (* `Input size (${inputs.length}) does not match expected size (${expected})` *)
| MsgTargetSize (got : value) (expected : nat)
    (* `Target size (${targets?.length}) does not match number of neurons (${this.neurons.length})` *)
| MsgDeltasCount
    (* 'Number of deltas must match number of weight vectors' *)
| MsgInvalidWeightsData
    (* 'Invalid weights data format' *)
| MsgActivationFunc
    (* 'Activation function must be an object with func method' *)
| MsgFirstLayerInputSize
    (* 'Input size must be specified for the first layer' *)
| MsgCompileNoLayers
    (* 'Network must contain at least one layer' *)
| MsgNoLayers
    (* 'Network contains no layers' *)
| MsgTrainingDataEmpty
    (* 'Training data must be a non-empty array' *)
| MsgExampleFields
    (* 'Each example must contain input and target fields' *)
| MsgInputVectorsSize
    (* 'All input vectors must have the same size' *)
| MsgTargetVectorsSize
    (* 'All target vectors must have the same size' *)
| MsgNetworkInputSize (network : number) (data : value)
    (* `Network input size (${...}) does not match input data size (${inputSize})` *)
| MsgOutputLayerSize (network : number) (data : value)
    (* `Output layer size (${...}) does not match target data size (${outputSize})` *)
| MsgPredictedActualLength
    (* 'Predicted and actual values must have the same length' *)
| MsgLearningRate
    (* 'Learning rate must be a positive number' *).

Inductive error : Type :=
| Error (m : message)
| TypeError.

(** The two kinds of error the library distinguishes by purpose: an
    operation that needs an earlier [forward], and malformed arguments. *)
Inductive error_kind : Type := ValidationError | StateError.

Definition kind_of (e : error) : option error_kind :=
  match e with
  | Error MsgNoLastInputs => Some StateError
  | Error _ => Some ValidationError
  | TypeError => None
  end.

Module Js.

Definition isArray (v : value) : bool :=
  match v with VArr _ _ => true | _ => false end.

(** [typeof v === 'number'] *)
Definition is_number (v : value) : bool :=
  match v with VNum _ => true | _ => false end.

(** Truthiness, as [if (v)] and [!v] see it. *)
Definition truthy (v : value) : bool :=
  match v with
  | VUndefined | VNull => false
  | VBool b => b
  | VNum (Fin r) => negb (Reqb r 0)
  | VNum NaN => false
  | VNum _ => true
  | VStr s => negb (String.eqb s "")
  | VArr _ _ | VObj _ _ => true
  end.

Definition array (l : list number) : value := VArr 0 (map VNum l).

(** The number that a value is once [typeof v === 'number'] has been
    checked, or when its JSDoc type is [number]. *)
Definition number_of (v : value) : number :=
  match v with VNum n => n | _ => NaN end.

(** [isFinite(v)] and [Number.isInteger(v)]. *)
Definition isFinite (v : value) : bool := Num.isFinite (number_of v).

Definition isInteger (v : value) : bool :=
  match v with VNum n => Num.isInteger n | _ => false end.

(** The elements of an array (the empty list for anything else). *)
Definition elements (v : value) : list value :=
  match v with VArr _ l => l | _ => [] end.

Definition index_key (i : nat) : string := NilZero.string_of_uint (Nat.to_uint i).

Fixpoint assoc (k : string) (props : list (string * value)) : value :=
  match props with
  | [] => VUndefined
  | (k', v) :: rest => if String.eqb k k' then v else assoc k rest
  end.

(** [v.length]; [None] is the runtime's TypeError. *)
Definition length_of (v : value) : option value :=
  match v with
  | VUndefined | VNull => None
  | VArr _ l => Some (VNum (Num.of_nat (length l)))
  | VStr s => Some (VNum (Num.of_nat (String.length s)))
  | VObj _ props => Some (assoc "length" props)
  | VBool _ | VNum _ => Some VUndefined
  end.

(** [v?.length] *)
Definition length_opt (v : value) : value :=
  match length_of v with Some n => n | None => VUndefined end.

(** [v.k] for a property [k] that is not [length]. *)
Definition get (v : value) (k : string) : option value :=
  match v with
  | VUndefined | VNull => None
  | VObj _ props => Some (assoc k props)
  | _ => Some VUndefined
  end.

(** [v[i]] on a value that is neither [undefined] nor [null]. *)
Definition at_index (v : value) (i : nat) : value :=
  match v with
  | VArr _ l => nth i l VUndefined
  | VStr s => match String.get i s with
              | Some c => VStr (String c EmptyString)
              | None => VUndefined
              end
  | VObj _ props => assoc (index_key i) props
  | _ => VUndefined
  end.

(** The values a [for ... of] loop visits; [None] when the value is not
    iterable. *)
Definition iterate (v : value) : option (list value) :=
  match v with
  | VArr _ l => Some l
  | VStr s => Some (map (fun c => VStr (String c EmptyString)) (list_ascii_of_string s))
  | _ => None
  end.

(** [a === b] *)
Definition strict_eq (a b : value) : bool :=
  match a, b with
  | VUndefined, VUndefined | VNull, VNull => true
  | VBool x, VBool y => Bool.eqb x y
  | VNum x, VNum y => Num.eq x y
  | VStr x, VStr y => String.eqb x y
  | VArr r _, VArr r' _ | VObj r _, VObj r' _ => Nat.eqb r r'
  | _, _ => false
  end.

Section Coercion.

(** The runtime's [ToNumber] on strings, arrays and objects is left open. *)
Context (coerce : value -> number).

Definition ToNumber (v : value) : number :=
  match v with
  | VNum n => n
  | VUndefined => NaN
  | VNull => Fin 0
  | VBool true => Fin 1
  | VBool false => Fin 0
  | _ => coerce v
  end.

End Coercion.

End Js.

(** ** Methods: state and exceptions

    A method is a function of the state of its receiver.  It returns a
    value or throws, and in both cases it hands back the state it has
    reached. *)

Inductive outcome (S A : Type) : Type :=
| Returned (a : A) (s : S)
| Thrown (e : error) (s : S).
Arguments Returned {S A} a s.
Arguments Thrown {S A} e s.

Definition M (S A : Type) : Type := S -> outcome S A.

Definition final_state {S A} (o : outcome S A) : S :=
  match o with Returned _ s | Thrown _ s => s end.

Definition ret {S A} (a : A) : M S A := fun s => Returned a s.

Definition bind {S A B} (m : M S A) (k : A -> M S B) : M S B :=
  fun s => match m s with
           | Returned a s' => k a s'
           | Thrown e s' => Thrown e s'
           end.

Definition throw {S A} (e : error) : M S A := fun s => Thrown e s.

Definition read {S} : M S S := fun s => Returned s s.

Definition modify {S} (f : S -> S) : M S unit := fun s => Returned tt (f s).

Arguments ret {S A} a s /.
Arguments bind {S A B} m k s /.
Arguments throw {S A} e s /.
Arguments read {S} s /.
Arguments modify {S} f s /.

Notation "x <- m ;; k" := (bind m (fun x => k))
  (at level 100, m at next level, right associativity).
Notation "m ;; k" := (bind m (fun _ => k))
  (at level 100, right associativity).

(** A value obtained from the runtime, or its TypeError. *)
Definition runtime {S A} (o : option A) : M S A :=
  match o with Some a => ret a | None => throw TypeError end.

Arguments runtime {S A} o s /.

(** A method of a part of the state, run in place. *)
Definition zoom {S T A} (proj : S -> T) (upd : T -> S -> S) (m : M T A) : M S A :=
  fun s => match m (proj s) with
           | Returned a t => Returned a (upd t s)
           | Thrown e t => Thrown e (upd t s)
           end.

Arguments zoom {S T A} proj upd m s /.

(** [objects[i].method(...)]; a missing element is [undefined]. *)
Definition on_index {T A} (i : nat) (m : M T A) : M (list T) A :=
  fun l => match l !! i with
           | None => Thrown TypeError l
           | Some t => match m t with
                       | Returned a t' => Returned a (<[i:=t']> l)
                       | Thrown e t' => Thrown e (<[i:=t']> l)
                       end
           end.

(** [objects.map(o => o.method(...))]: the method runs on every object in
    turn; when one call throws, the objects before it keep what the
    method did to them. *)
Fixpoint map_objects {T B} (m : M T B) (l : list T) : outcome (list T) (list B) :=
  match l with
  | [] => Returned [] []
  | t :: rest =>
      match m t with
      | Thrown e t' => Thrown e (t' :: rest)
      | Returned b t' =>
          match map_objects m rest with
          | Returned bs rest' => Returned (b :: bs) (t' :: rest')
          | Thrown e rest' => Thrown e (t' :: rest')
          end
      end
  end.

(** [for (const x of l) { acc = body(acc, x) }] *)
Fixpoint for_of {S A B} (l : list A) (acc : B) (body : B -> A -> M S B) : M S B :=
  match l with
  | [] => ret acc
  | x :: rest => acc' <- body acc x ;; for_of rest acc' body
  end.

(** [for (let i = 0; i < n; i++) { acc = body(acc, i) }] *)
Definition for_range {S B} (n : nat) (acc : B) (body : B -> nat -> M S B) : M S B :=
  for_of (seq 0 n) acc body.

(** [array.map(x => f(x))] for an [f] with effects. *)
Definition map_of {S A B} (l : list A) (f : A -> M S B) : M S (list B) :=
  for_of l [] (fun acc x => b <- f x ;; ret (acc ++ [b])).

(** [array.reduce((acc, x, index) => f(acc, x, index), init)] *)
Definition reduce {A B} (f : B -> A -> nat -> B) (init : B) (l : list A) : B :=
  fold_left (fun acc ix => f acc (snd ix) (fst ix)) (imap (fun i x => (i, x)) l) init.

(** ** The ambient random generator: [Math.random()] draws from [0, 1). *)

Record draw : Type := { draw_value :> R; draw_range : 0 <= draw_value < 1 }.

Definition generator : Type := nat -> draw.

Definition Math_random : M generator number :=
  fun g => Returned (Fin (g 0%nat)) (fun k => g (S k)).

(** ** Functions that a caller passes

    The [activationFunction] of [Neuron.forward] is whatever the caller
    has passed: a value that cannot be called, or a function, which
    returns a number or throws. *)

Inductive completion : Type :=
| Normal (y : number)
| Abrupt (e : error).

Inductive callable : Type :=
| NotCallable
| Callable (body : number -> completion).

(** A function that returns a number on every number. *)
Definition returning (f : number -> number) : callable :=
  Callable (fun x => Normal (f x)).

(** [f(x)]: a [TypeError] when [f] is not callable. *)
Definition invoke {S} (f : callable) (x : number) : M S number :=
  match f with
  | NotCallable => throw TypeError
  | Callable body =>
      match body x with
      | Normal y => ret y
      | Abrupt e => throw e
      end
  end.

(** ** Neuron *)

Module Neuron.
Import Num.
Local Open Scope js_scope.

Record t : Type := {
  weights : list number;
  bias : number;
  lastInputs : option (list number);
  lastOutput : option number
}.

Definition set_weights (w : list number) (n : t) : t :=
  {| weights := w; bias := bias n; lastInputs := lastInputs n; lastOutput := lastOutput n |}.

Definition set_bias (b : number) (n : t) : t :=
  {| weights := weights n; bias := b; lastInputs := lastInputs n; lastOutput := lastOutput n |}.

Definition set_lastInputs (i : option (list number)) (n : t) : t :=
  {| weights := weights n; bias := bias n; lastInputs := i; lastOutput := lastOutput n |}.

Definition set_lastOutput (o : option number) (n : t) : t :=
  {| weights := weights n; bias := bias n; lastInputs := lastInputs n; lastOutput := o |}.

(** [Math.sqrt(6 / (inputSize + 1))] *)
Definition limit (inputSize : nat) : number :=
  Math_sqrt (6 / (of_nat inputSize + 1)).

Definition initializeWeights (inputSize : nat) : M generator (list number) :=
  let limit := limit inputSize in
  map_of (repeat (Fin 0) inputSize)
         (fun _ => r <- Math_random ;; ret ((r * 2 - 1) * limit)).

Definition initializeBias : M generator number :=
  r <- Math_random ;; ret ((r * 2 - 1) * 0.1).

Definition constructor (inputSize : nat) : M generator t :=
  w <- initializeWeights inputSize ;;
  b <- initializeBias ;;
  ret {| weights := w; bias := b; lastInputs := None; lastOutput := None |}.

Definition validateInputs (inputs : value) : M t unit :=
  this <- read ;;
  if negb (Js.isArray inputs) then throw (Error MsgInputNotArray)
  else if negb (Js.strict_eq (Js.length_opt inputs)
                             (VNum (of_nat (length (weights this)))))
  then throw (Error (MsgInputSizeWeights (Js.length_opt inputs) (length (weights this))))
  else if existsb (fun input => negb (Js.is_number input) || negb (Js.isFinite input))
                  (Js.elements inputs)
  then throw (Error MsgInputsNotFinite)
  else ret tt.

Definition calculateWeightedSum (inputs : list number) : M t number :=
  this <- read ;;
  ret (reduce (fun sum input index => sum + input * nth index (weights this) NaN)
              (bias this) inputs).

Definition forward (inputs : value) (activationFunction : callable) : M t number :=
  validateInputs inputs ;;
  modify (set_lastInputs (Some (map Js.number_of (Js.elements inputs)))) ;;
  weightedSum <- calculateWeightedSum (map Js.number_of (Js.elements inputs)) ;;
  output <- invoke activationFunction weightedSum ;;
  modify (set_lastOutput (Some output)) ;;
  ret output.

Definition updateWeights (delta learningRate : number) : M t unit :=
  this <- read ;;
  match lastInputs this with
  | None => throw (Error MsgNoLastInputs)
  | Some _ =>
      for_range (length (weights this)) tt
        (fun _ i =>
           this <- read ;;
           inputs <- runtime (lastInputs this) ;;
           modify (set_weights
                     (<[i := nth i (weights this) NaN
                             + learningRate * delta * nth i inputs NaN]>
                        (weights this)))) ;;
      modify (fun this => set_bias (bias this + learningRate * delta) this)
  end.

Definition getWeights (n : t) : list number * number := (weights n, bias n).

(** [setWeights(weights, bias)]: the elements of [weights] and [bias] are
    taken to be numbers, their documented type. *)
Definition setWeights (weights' : value) (bias' : number) : M t unit :=
  this <- read ;;
  if negb (Js.isArray weights')
     || negb (Js.strict_eq (Js.length_opt weights') (VNum (of_nat (length (weights this)))))
  then throw (Error MsgInvalidWeights)
  else modify (set_weights (map Js.number_of (Js.elements weights'))) ;;
       modify (set_bias bias').

(** The object that [getInfo()] returns. *)
Record info : Type := {
  info_inputSize : nat;
  info_weightsSum : number;
  info_bias : number;
  info_lastOutput : option number
}.

Definition getInfo (n : t) : info :=
  {| info_inputSize := length (weights n);
     info_weightsSum := reduce (fun sum w _ => sum + Math_abs w) (Fin 0) (weights n);
     info_bias := bias n;
     info_lastOutput := lastOutput n |}.

End Neuron.

(** ** Layer *)

(** An activation object as a caller passes it: [func] and [derivative]
    may be missing or not callable.  A falsy argument is [None]. *)
Record activation_object : Type := {
  obj_func : option (number -> number);
  obj_derivative : option (number -> number);
  obj_name : option string
}.

Definition object_of (a : ActivationFunction) : activation_object :=
  {| obj_func := Some (func a); obj_derivative := Some (derivative a); obj_name := name a |}.

Module Layer.
Import Num.
Local Open Scope js_scope.

Record t : Type := {
  neurons : list Neuron.t;
  activationFunction : ActivationFunction;
  outputs : list number;
  size : number;
  inputSize : number
}.

Definition set_neurons (ns : list Neuron.t) (l : t) : t :=
  {| neurons := ns; activationFunction := activationFunction l;
     outputs := outputs l; size := size l; inputSize := inputSize l |}.

Definition set_outputs (o : list number) (l : t) : t :=
  {| neurons := neurons l; activationFunction := activationFunction l;
     outputs := o; size := size l; inputSize := inputSize l |}.

(** The checks of [validateParameters]; on success, the activation with
    both of its methods. *)
Definition validateParameters {S} (neuronCount inputSize : value)
    (activationFunction : option activation_object) : M S ActivationFunction :=
  if negb (Js.isInteger neuronCount) || (Js.number_of neuronCount <=? 0)
  then throw (Error MsgNeuronCount)
  else if negb (Js.isInteger inputSize) || (Js.number_of inputSize <=? 0)
  then throw (Error MsgInputSizePositive)
  else match activationFunction with
       | Some {| obj_func := Some f; obj_derivative := Some d; obj_name := nm |} =>
           ret {| func := f; derivative := d; name := nm |}
       | _ => throw (Error MsgActivationMethods)
       end.

Definition createNeurons (neuronCount inputSize : number) : M generator (list Neuron.t) :=
  map_of (repeat tt (to_nat neuronCount))
         (fun _ => Neuron.constructor (to_nat inputSize)).

Definition constructor (neuronCount inputSize : value)
    (activationFunction : option activation_object) : M generator t :=
  a <- validateParameters neuronCount inputSize activationFunction ;;
  ns <- createNeurons (Js.number_of neuronCount) (Js.number_of inputSize) ;;
  ret {| neurons := ns; activationFunction := a; outputs := [];
         size := Js.number_of neuronCount; inputSize := Js.number_of inputSize |}.

Definition validateInputs (inputs : value) : M t unit :=
  this <- read ;;
  if negb (Js.isArray inputs)
     || negb (Js.strict_eq (Js.length_opt inputs) (VNum (inputSize this)))
  then throw (Error (MsgInputSizeExpected (Js.length_opt inputs) (inputSize this)))
  else ret tt.

Definition forward (inputs : value) : M t (list number) :=
  validateInputs inputs ;;
  this <- read ;;
  outs <- zoom neurons set_neurons
               (map_objects (Neuron.forward inputs
                                            (returning (func (activationFunction this))))) ;;
  modify (set_outputs outs) ;;
  ret outs.

Definition validateTargets (targets : value) : M t unit :=
  this <- read ;;
  if negb (Js.isArray targets)
     || negb (Js.strict_eq (Js.length_opt targets) (VNum (of_nat (length (neurons this)))))
  then throw (Error (MsgTargetSize (Js.length_opt targets) (length (neurons this))))
  else ret tt.

(** [const delta = error * this.activationFunction.derivative(this.outputs[i]);
     deltas.push(delta); this.neurons[i].updateWeights(delta, learningRate)] *)
Definition update_neuron (error : number) (learningRate : number) (i : nat)
    (deltas : list number) : M t (list number) :=
  this <- read ;;
  let delta := error * derivative (activationFunction this) (nth i (outputs this) NaN) in
  zoom neurons set_neurons (on_index i (Neuron.updateWeights delta learningRate)) ;;
  ret (deltas ++ [delta]).

(** [nextLayerDeltas.reduce((error, delta, deltaIndex) =>
       error + delta * nextLayerWeights[deltaIndex][neuronIndex], 0)] *)
Definition calculateNeuronError (neuronIndex : nat) (nextLayerDeltas : list number)
    (nextLayerWeights : list (list number)) : number :=
  reduce (fun error delta deltaIndex =>
            error + delta * nth neuronIndex (nth deltaIndex nextLayerWeights []) NaN)
         (Fin 0) nextLayerDeltas.

(** Both arguments are arrays by their type here; what remains of
    [validateBackpropagationInputs] is the comparison of the lengths. *)
Definition validateBackpropagationInputs {S} (deltas : list number)
    (weights : list (list number)) : M S unit :=
  if negb (Nat.eqb (length deltas) (length weights))
  then throw (Error MsgDeltasCount)
  else ret tt.

Definition backwardHidden (nextLayerDeltas : list number)
    (nextLayerWeights : list (list number)) (learningRate : number) : M t (list number) :=
  validateBackpropagationInputs nextLayerDeltas nextLayerWeights ;;
  this <- read ;;
  for_range (length (neurons this)) []
    (fun deltas i =>
       update_neuron (calculateNeuronError i nextLayerDeltas nextLayerWeights)
                     learningRate i deltas).

Definition getWeights (l : t) : list (list number * number) :=
  map Neuron.getWeights (neurons l).

Definition getConnectionWeights (l : t) : list (list number) :=
  map Neuron.weights (neurons l).

Definition setWeights (weightsData : value) : M t unit :=
  this <- read ;;
  if negb (Js.isArray weightsData)
     || negb (Js.strict_eq (Js.length_opt weightsData)
                           (VNum (of_nat (length (neurons this)))))
  then throw (Error MsgInvalidWeightsData)
  else for_of (imap (fun index data => (index, data)) (Js.elements weightsData)) tt
         (fun _ entry =>
            w <- runtime (Js.get (snd entry) "weights") ;;
            b <- runtime (Js.get (snd entry) "bias") ;;
            zoom neurons set_neurons
                 (on_index (fst entry) (Neuron.setWeights w (Js.number_of b)))).

Definition reset : M t unit :=
  modify (set_outputs []) ;;
  modify (fun this =>
            set_neurons (map (fun n => Neuron.set_lastOutput None
                                         (Neuron.set_lastInputs None n))
                             (neurons this)) this).

(** The object that [getInfo()] returns; [name || 'unknown'] falls back
    on a missing or empty name. *)
Record info : Type := {
  info_neuronCount : number;
  info_inputSize : number;
  info_activationFunction : string;
  info_totalWeights : number;
  info_lastOutputs : list number
}.

Definition getInfo (l : t) : info :=
  {| info_neuronCount := size l;
     info_inputSize := inputSize l;
     info_activationFunction :=
       match name (activationFunction l) with
       | Some nm => if String.eqb nm "" then "unknown"%string else nm
       | None => "unknown"%string
       end;
     info_totalWeights := of_nat (length (neurons l)) * inputSize l;
     info_lastOutputs := outputs l |}.

Section Coercion.
Context (coerce : value -> number).

Definition backwardOutput (targets : value) (learningRate : number) : M t (list number) :=
  validateTargets targets ;;
  this <- read ;;
  for_range (length (neurons this)) []
    (fun deltas i =>
       this <- read ;;
       update_neuron (Js.ToNumber coerce (Js.at_index targets i) - nth i (outputs this) NaN)
                     learningRate i deltas).

End Coercion.

End Layer.

(** ** Network *)

(** The [options] argument of [train]; a missing field is [VUndefined]
    and takes its default. Progress messages on the console are not
    modelled, so [verbose] has no effect here. *)
Record train_options : Type := {
  verbose : value;
  validationData : value;
  earlyStoppingPatience : value
}.

Definition no_options : train_options :=
  {| verbose := VUndefined; validationData := VUndefined; earlyStoppingPatience := VUndefined |}.

(** A parameter's default value, used when the argument is [undefined]. *)
Definition default (d v : value) : value :=
  match v with VUndefined => d | _ => v end.

(** How the epoch loop of [train] ended: it ran out of epochs, or it left
    through [break] in the epoch of the given index. *)
Inductive loop_exit : Type :=
| Exhausted
| Break (epoch : nat).

Module Network.
Import Num.
Local Open Scope js_scope.

Record t : Type := {
  layers : list Layer.t;
  learningRate : number;
  trainingHistory : list number;
  isCompiled : bool
}.

Definition set_layers (ls : list Layer.t) (n : t) : t :=
  {| layers := ls; learningRate := learningRate n;
     trainingHistory := trainingHistory n; isCompiled := isCompiled n |}.

Definition set_learningRate (r : number) (n : t) : t :=
  {| layers := layers n; learningRate := r;
     trainingHistory := trainingHistory n; isCompiled := isCompiled n |}.

Definition set_trainingHistory (h : list number) (n : t) : t :=
  {| layers := layers n; learningRate := learningRate n;
     trainingHistory := h; isCompiled := isCompiled n |}.

Definition set_isCompiled (b : bool) (n : t) : t :=
  {| layers := layers n; learningRate := learningRate n;
     trainingHistory := trainingHistory n; isCompiled := b |}.

Definition constructor : t :=
  {| layers := []; learningRate := Fin 0.1; trainingHistory := []; isCompiled := false |}.

(** Methods that create neurons or shuffle run on the network together
    with the random generator. *)
Definition world : Type := t * generator.

Definition on_network {A} (m : M t A) : M world A :=
  zoom fst (fun n w => (n, snd w)) m.

Definition on_generator {A} (m : M generator A) : M world A :=
  zoom snd (fun g w => (fst w, g)) m.

Definition compile : M t unit :=
  this <- read ;;
  if Nat.eqb (length (layers this)) 0
  then throw (Error MsgCompileNoLayers)
  else modify (set_isCompiled true).

Definition validatePredictionInputs (inputs : value) : M t unit :=
  this <- read ;;
  if negb (Js.isArray inputs) then throw (Error MsgInputNotArray)
  else if Nat.eqb (length (layers this)) 0 then throw (Error MsgNoLayers)
  else
    first <- runtime (layers this !! 0%nat) ;;
    if negb (Js.strict_eq (Js.length_opt inputs) (VNum (Layer.inputSize first)))
    then throw (Error (MsgInputSizeExpected (Js.length_opt inputs) (Layer.inputSize first)))
    else ret tt.

Definition predict (inputs : value) : M t (list number) :=
  validatePredictionInputs inputs ;;
  this <- read ;;
  currentInputs <-
    for_range (length (layers this)) (VArr 0 (Js.elements inputs))
      (fun currentInputs i =>
         outs <- zoom layers set_layers (on_index i (Layer.forward currentInputs)) ;;
         ret (Js.array outs)) ;;
  ret (map Js.number_of (Js.elements currentInputs)).

(** [[array[i], array[j]] = [array[j], array[i]]] *)
Definition swap (array : list value) (i j : nat) : list value :=
  <[j := nth i array VUndefined]> (<[i := nth j array VUndefined]> array).

(** [for (let i = array.length - 1; i > 0; i--)]: the indices visited. *)
Definition countdown (n : nat) : list nat := rev (seq 1 (n - 1)).

Definition shuffleArray (array : list value) : M generator (list value) :=
  for_of (countdown (length array)) array
    (fun array i =>
       r <- Math_random ;;
       let j := to_nat (Math_floor (r * (of_nat i + 1))) in
       ret (swap array i j)).

Definition backpropagate_hidden (i : nat) (deltas : list number) : M t (list number) :=
  this <- read ;;
  nextLayer <- runtime (layers this !! (i + 1)%nat) ;;
  zoom layers set_layers
       (on_index i (Layer.backwardHidden deltas (Layer.getConnectionWeights nextLayer)
                                         (learningRate this))).

Definition validateTrainingData {S} (trainingData : value) : M S unit :=
  if negb (Js.isArray trainingData) || Nat.eqb (length (Js.elements trainingData)) 0
  then throw (Error MsgTrainingDataEmpty)
  else
    let firstExample := Js.at_index trainingData 0 in
    first_input <- runtime (Js.get firstExample "input") ;;
    if negb (Js.truthy first_input) then throw (Error MsgExampleFields)
    else
      first_target <- runtime (Js.get firstExample "target") ;;
      if negb (Js.truthy first_target) then throw (Error MsgExampleFields)
      else
        inputSize <- runtime (Js.length_of first_input) ;;
        outputSize <- runtime (Js.length_of first_target) ;;
        for_of (Js.elements trainingData) tt
          (fun _ example =>
             input <- runtime (Js.get example "input") ;;
             input_length <- runtime (Js.length_of input) ;;
             if negb (Js.strict_eq input_length inputSize)
             then throw (Error MsgInputVectorsSize)
             else
               target <- runtime (Js.get example "target") ;;
               target_length <- runtime (Js.length_of target) ;;
               if negb (Js.strict_eq target_length outputSize)
               then throw (Error MsgTargetVectorsSize)
               else ret tt).

Definition prepareForTraining (trainingData : value) : M t unit :=
  this <- read ;;
  (if negb (isCompiled this) then compile else ret tt) ;;
  modify (set_trainingHistory []) ;;
  first_input <- runtime (Js.get (Js.at_index trainingData 0) "input") ;;
  inputSize <- runtime (Js.length_of first_input) ;;
  first_target <- runtime (Js.get (Js.at_index trainingData 0) "target") ;;
  outputSize <- runtime (Js.length_of first_target) ;;
  this <- read ;;
  first <- runtime (layers this !! 0%nat) ;;
  if negb (Js.strict_eq (VNum (Layer.inputSize first)) inputSize)
  then throw (Error (MsgNetworkInputSize (Layer.inputSize first) inputSize))
  else
    last <- runtime (layers this !! (length (layers this) - 1)%nat) ;;
    if negb (Js.strict_eq (VNum (Layer.size last)) outputSize)
    then throw (Error (MsgOutputLayerSize (Layer.size last) outputSize))
    else ret tt.

Definition setLearningRate (rate : value) : M t t :=
  if negb (Js.is_number rate) || (Js.number_of rate <=? 0)
  then throw (Error MsgLearningRate)
  else modify (set_learningRate (Js.number_of rate)) ;;
       read.

Definition reset : M t unit :=
  this <- read ;;
  for_range (length (layers this)) tt
    (fun _ i => zoom layers set_layers (on_index i Layer.reset)) ;;
  modify (set_trainingHistory []).

Definition getTrainingHistory (n : t) : list number := trainingHistory n.

(** The object that [getInfo()] returns; [lastError] is [null] for an
    empty history. *)
Record info : Type := {
  info_layers : nat;
  info_architecture : list number;
  info_inputSize : number;
  info_outputSize : number;
  info_totalParameters : number;
  info_learningRate : number;
  info_isCompiled : bool;
  info_trainedEpochs : nat;
  info_lastError : option number
}.

Definition getInfo (n : t) : info :=
  {| info_layers := length (layers n);
     info_architecture := map Layer.size (layers n);
     info_inputSize :=
       match layers n with l :: _ => Layer.inputSize l | [] => Fin 0 end;
     info_outputSize :=
       match last (layers n) with Some l => Layer.size l | None => Fin 0 end;
     info_totalParameters :=
       reduce (fun total layer _ =>
                 total + Layer.size layer * Layer.inputSize layer + Layer.size layer)
              (Fin 0) (layers n);
     info_learningRate := learningRate n;
     info_isCompiled := isCompiled n;
     info_trainedEpochs := length (trainingHistory n);
     info_lastError := last (trainingHistory n) |}.

Section Coercion.
Context (coerce : value -> number).

Definition validateLayerParameters (neuronCount : value)
    (activationFunction : option activation_object) (inputSize : value) : M t unit :=
  this <- read ;;
  if negb (Js.isInteger neuronCount) || (Js.number_of neuronCount <=? 0)
  then throw (Error MsgNeuronCount)
  else match activationFunction with
       | Some {| obj_func := Some _ |} =>
           if Nat.eqb (length (layers this)) 0
              && (Js.strict_eq inputSize VNull || (Js.ToNumber coerce inputSize <=? 0))
           then throw (Error MsgFirstLayerInputSize)
           else ret tt
       | _ => throw (Error MsgActivationFunc)
       end.

Definition determineLayerInputSize (inputSize : value) : M t value :=
  this <- read ;;
  if Nat.eqb (length (layers this)) 0 then ret inputSize
  else
    last <- runtime (layers this !! (length (layers this) - 1)%nat) ;;
    ret (VNum (Layer.size last)).

Definition addLayer (neuronCount : value) (activationFunction : option activation_object)
    (inputSize : value) : M world t :=
  let inputSize := default VNull inputSize in
  on_network (validateLayerParameters neuronCount activationFunction inputSize) ;;
  layerInputSize <- on_network (determineLayerInputSize inputSize) ;;
  layer <- on_generator (Layer.constructor neuronCount layerInputSize activationFunction) ;;
  on_network (modify (fun this => set_layers (layers this ++ [layer]) this)) ;;
  on_network (modify (set_isCompiled false)) ;;
  on_network read.

Definition calculateError {S} (predicted : list number) (actual : value) : M S number :=
  actual_length <- runtime (Js.length_of actual) ;;
  if negb (Js.strict_eq (VNum (of_nat (length predicted))) actual_length)
  then throw (Error MsgPredictedActualLength)
  else
    let sumSquaredError :=
      reduce (fun sum pred index =>
                sum + Math_pow (pred - Js.ToNumber coerce (Js.at_index actual index)) 2)
             (Fin 0) predicted in
    ret (sumSquaredError / of_nat (length predicted)).

Definition backpropagate (targets : value) : M t unit :=
  this <- read ;;
  deltas <- zoom layers set_layers
                 (on_index (length (layers this) - 1)
                           (Layer.backwardOutput coerce targets (learningRate this))) ;;
  for_of (rev (seq 0 (length (layers this) - 1))) deltas
         (fun deltas i => backpropagate_hidden i deltas) ;;
  ret tt.

(** The body of the example loop of [trainEpoch]. *)
Definition train_example (totalError : number) (example : value) : M t number :=
  input <- runtime (Js.get example "input") ;;
  output <- predict input ;;
  target <- runtime (Js.get example "target") ;;
  error <- calculateError output target ;;
  backpropagate target ;;
  ret (totalError + error).

Definition trainEpoch (trainingData : value) : M world number :=
  copy <- runtime (Js.iterate trainingData) ;;
  shuffledData <- on_generator (shuffleArray copy) ;;
  totalError <- on_network (for_of shuffledData (Fin 0) train_example) ;;
  data_length <- runtime (Js.length_of trainingData) ;;
  ret (totalError / Js.ToNumber coerce data_length).

Definition evaluateValidation (validationData : value) : M t number :=
  examples <- runtime (Js.iterate validationData) ;;
  totalError <-
    for_of examples (Fin 0)
      (fun totalError example =>
         input <- runtime (Js.get example "input") ;;
         output <- predict input ;;
         target <- runtime (Js.get example "target") ;;
         error <- calculateError output target ;;
         ret (totalError + error)) ;;
  validation_length <- runtime (Js.length_of validationData) ;;
  ret (totalError / Js.ToNumber coerce validation_length).

(** The epoch loop of [train], from the epoch of index [epoch] on, with
    [remaining] epochs still to run. *)
Fixpoint train_loop (trainingData validationData earlyStoppingPatience : value)
    (remaining epoch : nat) (bestValidationError : number) (patienceCounter : nat)
    : M world loop_exit :=
  match remaining with
  | O => ret Exhausted
  | S remaining' =>
      epochError <- trainEpoch trainingData ;;
      on_network (modify (fun this =>
                            set_trainingHistory (trainingHistory this ++ [epochError]) this)) ;;
      if Js.truthy validationData && Js.truthy earlyStoppingPatience
      then
        validationError <- on_network (evaluateValidation validationData) ;;
        if validationError <? bestValidationError
        then train_loop trainingData validationData earlyStoppingPatience
                        remaining' (S epoch) validationError 0
        else if of_nat (S patienceCounter) >=? Js.ToNumber coerce earlyStoppingPatience
        then ret (Break epoch)
        else train_loop trainingData validationData earlyStoppingPatience
                        remaining' (S epoch) bestValidationError (S patienceCounter)
      else train_loop trainingData validationData earlyStoppingPatience
                      remaining' (S epoch) bestValidationError patienceCounter
  end.

(** [train(trainingData, epochs, options)]; [epochs] is the number of
    epochs, a natural number.  The result is the network itself, and how
    the epoch loop ended. *)
Definition train (trainingData : value) (epochs : nat) (options : train_options)
    : M world (t * loop_exit) :=
  validateTrainingData trainingData ;;
  on_network (prepareForTraining trainingData) ;;
  let validationData := default VNull (validationData options) in
  let earlyStoppingPatience := default VNull (earlyStoppingPatience options) in
  exit <- train_loop trainingData validationData earlyStoppingPatience
                     epochs 0 PosInf 0 ;;
  this <- on_network read ;;
  ret (this, exit).

End Coercion.

End Network.

(** ** Auxiliary definitions of the proofs *)

(** What a method does to the state of its receiver. *)
Section Behaviours.
Context {S A : Type}.

(** Whatever the outcome, the states before and after are related by [R]. *)
Definition preserves (R : S -> S -> Prop) (m : M S A) : Prop :=
  forall s, R s (final_state (m s)).

(** The method never changes the state. *)
Definition readonly (m : M S A) : Prop :=
  forall s, final_state (m s) = s.

(** A call that throws leaves the state as it was. *)
Definition unchanged_on_failure (m : M S A) : Prop :=
  forall s e s', m s = Thrown e s' -> s' = s.

(** The method returns from the state [s], with a result and a final
    state that satisfy [Q]. *)
Definition returns (m : M S A) (s : S) (Q : A -> S -> Prop) : Prop :=
  exists a s', m s = Returned a s' /\ Q a s'.

End Behaviours.

Section Auxiliary.
Import Num.
Local Open Scope js_scope.

(** [weights[i] += step * inputs[i]] for the indices in [l], one after
    the other. *)
Definition add_steps (step : number) (inputs : list number) (l : list nat)
    (w : list number) : list number :=
  fold_left (fun w i => <[i := nth i w NaN + step * nth i inputs NaN]> w) l w.

(** *** Well-formed networks *)

Definition finite (x : number) : Prop := isFinite x = true.

(** A JavaScript function that maps finite numbers to finite numbers. *)
Definition finite_preserving (f : number -> number) : Prop :=
  forall r : R, finite (f (Fin r)).

(** An array whose elements are the numbers [xs]. *)
Definition array_of (v : value) (xs : list number) : Prop :=
  exists r, v = VArr r (map VNum xs).

(** A neuron with [n] finite weights and a finite bias. *)
Definition neuron_ok (n : nat) (this : Neuron.t) : Prop :=
  length (Neuron.weights this) = n /\
  Forall finite (Neuron.weights this) /\
  finite (Neuron.bias this).

(** A neuron that has cached [n] finite inputs. *)
Definition neuron_forwarded (n : nat) (this : Neuron.t) : Prop :=
  exists inputs,
    Neuron.lastInputs this = Some inputs /\ length inputs = n /\ Forall finite inputs.

Definition inputs_of (l : Layer.t) : nat := to_nat (Layer.inputSize l).
Definition outputs_of (l : Layer.t) : nat := to_nat (Layer.size l).

(** A layer as its constructor builds it: positive integer sizes, as many
    neurons as [size], each with [inputSize] weights; moreover every
    number in it is finite and the activation keeps numbers finite. *)
Definition layer_ok (l : Layer.t) : Prop :=
  Layer.inputSize l = of_nat (inputs_of l) /\
  Layer.size l = of_nat (outputs_of l) /\
  (0 < inputs_of l)%nat /\
  (0 < outputs_of l)%nat /\
  length (Layer.neurons l) = outputs_of l /\
  Forall (neuron_ok (inputs_of l)) (Layer.neurons l) /\
  finite_preserving (func (Layer.activationFunction l)) /\
  finite_preserving (derivative (Layer.activationFunction l)).

(** A layer after a forward pass: one finite output per neuron, and every
    neuron has cached the inputs. *)
Definition layer_forwarded (l : Layer.t) : Prop :=
  length (Layer.outputs l) = length (Layer.neurons l) /\
  Forall finite (Layer.outputs l) /\
  Forall (neuron_forwarded (inputs_of l)) (Layer.neurons l).

(** What the methods of a network never change in a neuron, a layer and a
    network: the number of weights; the sizes, the activation and the
    number of neurons; the learning rate, the history, the compiled flag
    and the number of layers. *)
Definition neuron_frame (a b : Neuron.t) : Prop :=
  length (Neuron.weights a) = length (Neuron.weights b).

Definition layer_frame (a b : Layer.t) : Prop :=
  Layer.size a = Layer.size b /\
  Layer.inputSize a = Layer.inputSize b /\
  Layer.activationFunction a = Layer.activationFunction b /\
  Forall2 neuron_frame (Layer.neurons a) (Layer.neurons b).

Definition layers_frame (n n' : Network.t) : Prop :=
  Forall2 layer_frame (Network.layers n) (Network.layers n').

Definition network_frame (n n' : Network.t) : Prop :=
  Network.learningRate n = Network.learningRate n' /\
  Network.trainingHistory n = Network.trainingHistory n' /\
  Network.isCompiled n = Network.isCompiled n' /\
  layers_frame n n'.

(** What training never changes: the learning rate, the compiled flag and
    the frame of the layers. *)
Definition training_frame (n n' : Network.t) : Prop :=
  Network.learningRate n = Network.learningRate n' /\
  Network.isCompiled n = Network.isCompiled n' /\
  layers_frame n n'.

Definition world_training_frame (w w' : Network.world) : Prop :=
  training_frame (fst w) (fst w').

Definition world_frame (w w' : Network.world) : Prop :=
  network_frame (fst w) (fst w').

Definition world_layers_frame (w w' : Network.world) : Prop :=
  layers_frame (fst w) (fst w').

(** Every layer takes as many inputs as the layer before it has neurons. *)
Definition chained (ls : list Layer.t) : Prop :=
  forall i a b, ls !! i = Some a -> ls !! (S i) = Some b ->
                Layer.inputSize b = Layer.size a.

End Auxiliary.

Definition network_ok (n : Network.t) : Prop :=
  Network.layers n <> [] /\
  Forall layer_ok (Network.layers n) /\
  chained (Network.layers n) /\
  finite (Network.learningRate n).

(** The sizes of a network: the inputs of its first layer and the outputs
    of its last layer. *)
Definition network_inputs (n : Network.t) : nat :=
  match Network.layers n !! 0%nat with Some l => inputs_of l | None => 0%nat end.

Definition network_outputs (n : Network.t) : nat :=
  match last (Network.layers n) with Some l => outputs_of l | None => 0%nat end.

(** An example [{input, target}] of finite numbers, [n_in] inputs and
    [n_out] targets. *)
Definition example_ok (n_in n_out : nat) (example : value) : Prop :=
  exists input target xs ts,
    Js.get example "input" = Some input /\
    Js.get example "target" = Some target /\
    array_of input xs /\ length xs = n_in /\ Forall finite xs /\
    array_of target ts /\ length ts = n_out /\ Forall finite ts.

(** The weighted sum and the state of a neuron after [forward]. *)
Definition weighted_sum (this : Neuron.t) (xs : list number) : number :=
  reduce (fun sum input index => (sum + input * nth index (Neuron.weights this) NaN)%js)
         (Neuron.bias this) xs.

Definition neuron_after (f : number -> number) (xs : list number) (this : Neuron.t)
    : Neuron.t :=
  {| Neuron.weights := Neuron.weights this; Neuron.bias := Neuron.bias this;
     Neuron.lastInputs := Some xs;
     Neuron.lastOutput := Some (f (weighted_sum this xs)) |}.

(** The state of a neuron after [updateWeights]. *)
Definition neuron_updated (delta learningRate : number) (inputs : list number)
    (this : Neuron.t) : Neuron.t :=
  {| Neuron.weights :=
       imap (fun i w => (w + learningRate * delta * nth i inputs NaN)%js)
            (Neuron.weights this);
     Neuron.bias := (Neuron.bias this + learningRate * delta)%js;
     Neuron.lastInputs := Some inputs;
     Neuron.lastOutput := Neuron.lastOutput this |}.

(** An epoch as the specification describes it: the examples are taken
    in order; each one gets a forward pass, its loss is added to the
    total, and its weight update is applied before the next example. *)
Section Epoch.
Context (coerce : value -> number).

Inductive epoch_run : Network.t -> list value -> number -> Network.t -> number -> Prop :=
| epoch_done (s : Network.t) (total : number) : epoch_run s [] total s total
| epoch_step (s s1 s2 s' : Network.t) (example input target : value)
    (rest : list value) (output : list number) (error total total' : number) :
    Js.get example "input" = Some input ->
    Js.get example "target" = Some target ->
    Network.predict input s = Returned output s1 ->
    Network.calculateError coerce output target s1 = Returned error s1 ->
    Network.backpropagate coerce target s1 = Returned tt s2 ->
    epoch_run s2 rest (total + error)%js s' total' ->
    epoch_run s (example :: rest) total s' total'.

End Epoch.

(** The input size that [addLayer] gives to a new layer: the argument for
    the first layer, the size of the last layer afterwards. *)
Definition layer_input_size (s : Network.t) (inputSize : value) : value :=
  match last (Network.layers s) with
  | Some l => VNum (Layer.size l)
  | None => default VNull inputSize
  end.

(** The network after [addLayer] has pushed the layer [l]. *)
Definition with_layer (l : Layer.t) (s : Network.t) : Network.t :=
  Network.set_isCompiled false (Network.set_layers (Network.layers s ++ [l]) s).

(** A generator whose every draw is 0. *)
Definition zero_draw : draw :=
  {| draw_value := 0; draw_range := conj (Rle_refl 0) Rlt_0_1 |}.

Definition zeros : generator := fun _ => zero_draw.

(** The calls of the public interface, and the networks that a caller can
    build with them from [new Network()]. *)
Inductive call : Type :=
| CallAddLayer (neuronCount : value) (activationFunction : option activation_object)
               (inputSize : value)
| CallCompile
| CallPredict (inputs : value)
| CallTrain (trainingData : value) (epochs : nat) (options : train_options)
| CallSetLearningRate (rate : value)
| CallReset.

Section Reachable.
Context (coerce : value -> number).

Definition run (c : call) : M Network.world unit :=
  match c with
  | CallAddLayer neuronCount activationFunction inputSize =>
      Network.addLayer coerce neuronCount activationFunction inputSize ;; ret tt
  | CallCompile => Network.on_network Network.compile
  | CallPredict inputs => Network.on_network (Network.predict inputs) ;; ret tt
  | CallTrain trainingData epochs options =>
      Network.train coerce trainingData epochs options ;; ret tt
  | CallSetLearningRate rate =>
      Network.on_network (Network.setLearningRate rate) ;; ret tt
  | CallReset => Network.on_network Network.reset
  end.

(** A call may return or throw: the caller goes on with the network as
    the call has left it. *)
Inductive reachable : Network.world -> Prop :=
| reachable_new (g : generator) : reachable (Network.constructor, g)
| reachable_call (w : Network.world) (c : call) :
    reachable w -> reachable (final_state (run c w)).

End Reachable.

(** A run of the test suite: one sigmoid neuron with one input, built from
    a generator whose draws are all 0, and one training example. *)
Definition no_coercion : value -> number := fun _ => NaN.

Definition one_neuron_network : Network.world :=
  final_state
    (Network.addLayer no_coercion (VNum (Fin 1)) (Some (object_of activations.sigmoid))
                      (VNum (Fin 1)) (Network.constructor, zeros)).

Definition one_example : value :=
  VArr 1 [VObj 2 [("input"%string, VArr 3 [VNum (Fin (1 / 2))]);
                  ("target"%string, VArr 4 [VNum (Fin (4 / 5))])]].

(** An example with two inputs, which the network above cannot take. *)
Definition wide_example : value :=
  VArr 1 [VObj 2 [("input"%string, VArr 3 [VNum (Fin 1); VNum (Fin 2)]);
                  ("target"%string, VArr 4 [VNum (Fin 0)])]].

(** Early stopping on an empty validation set, with a patience of 1. *)
Definition early_stopping : train_options :=
  {| verbose := VBool false; validationData := VArr 5 [];
     earlyStoppingPatience := VNum (Fin 1) |}.

(** *** Closed forms over the reals *)

(** The real number that a finite number holds. *)
Definition value_of (x : number) : R :=
  match x with Fin r => r | _ => 0 end.

(** [x_0 w_0 + x_1 w_1 + ...] *)
Fixpoint dot (xs ws : list R) : R :=
  match xs, ws with
  | x :: xs', w :: ws' => x * w + dot xs' ws'
  | _, _ => 0
  end.

(** [|w_0| + |w_1| + ...] *)
Definition abs_sum (ws : list R) : R := fold_right (fun w acc => Rabs w + acc) 0 ws.

(** A neuron whose weights and bias are the given real numbers. *)
Definition real_neuron (ws : list R) (b : R) (lastInputs : option (list number))
    (lastOutput : option number) : Neuron.t :=
  {| Neuron.weights := map Fin ws; Neuron.bias := Fin b;
     Neuron.lastInputs := lastInputs; Neuron.lastOutput := lastOutput |}.

(** A value that is not a finite number. *)
Definition not_finite_number (v : value) : Prop :=
  forall r : R, v <> VNum (Fin r).

(** *** Layers as functions of their weights *)

(** The outputs of a layer on the inputs [xs], and the layer after
    [forward]. *)
Definition layer_outputs (l : Layer.t) (xs : list number) : list number :=
  map (fun n => func (Layer.activationFunction l) (weighted_sum n xs)) (Layer.neurons l).

Definition layer_after (l : Layer.t) (xs : list number) : Layer.t :=
  Layer.set_outputs (layer_outputs l xs)
    (Layer.set_neurons
       (map (neuron_after (func (Layer.activationFunction l)) xs) (Layer.neurons l)) l).

(** The outputs of the last layer when [xs] goes through the layers, and
    the layers afterwards. *)
Fixpoint feed_forward (ls : list Layer.t) (xs : list number) : list number :=
  match ls with
  | [] => xs
  | l :: rest => feed_forward rest (layer_outputs l xs)
  end.

Fixpoint forward_layers (ls : list Layer.t) (xs : list number) : list Layer.t :=
  match ls with
  | [] => []
  | l :: rest => layer_after l xs :: forward_layers rest (layer_outputs l xs)
  end.

(** The update of a neuron that has cached inputs. *)
Definition neuron_step (delta learningRate : number) (n : Neuron.t) : Neuron.t :=
  match Neuron.lastInputs n with
  | Some inputs => neuron_updated delta learningRate inputs n
  | None => n
  end.

(** The delta of the neuron of index [i] for the error [e]:
    [e * derivative(outputs[i])]. *)
Definition delta_of (l : Layer.t) (i : nat) (e : number) : number :=
  (e * derivative (Layer.activationFunction l) (nth i (Layer.outputs l) NaN))%js.

(** The layer once every neuron has made its step for its delta. *)
Definition layer_updated (l : Layer.t) (deltas : list number) (learningRate : number)
    : Layer.t :=
  Layer.set_neurons
    (imap (fun i n => neuron_step (nth i deltas NaN) learningRate n) (Layer.neurons l)) l.

(** A layer whose neurons all hold the inputs of a forward pass. *)
Definition has_inputs (l : Layer.t) : Prop :=
  Forall (fun n => Neuron.lastInputs n <> None) (Layer.neurons l).

(** The layer of the tests: two sigmoid neurons with two inputs, weights
    [0.5, 0.3] and [-0.2, 0.4], biases 0.1 and -0.1. *)
Definition sample_layer : Layer.t :=
  {| Layer.neurons := [real_neuron [0.5; 0.3] 0.1 None None;
                       real_neuron [-0.2; 0.4] (-0.1) None None];
     Layer.activationFunction := activations.sigmoid;
     Layer.outputs := [];
     Layer.size := Num.of_nat 2;
     Layer.inputSize := Num.of_nat 2 |}.

(** An entry [{weights, bias}] of the argument of [Layer.setWeights], and
    the neuron once it has taken the entry. *)
Definition weights_entry (r : nat) (wb : list number * number) : value :=
  VObj r [("weights"%string, Js.array (fst wb)); ("bias"%string, VNum (snd wb))].

Definition neuron_set (wb : list number * number) (n : Neuron.t) : Neuron.t :=
  Neuron.set_bias (snd wb) (Neuron.set_weights (fst wb) n).

(** A layer after [reset]. *)
Definition layer_cleared (l : Layer.t) : Layer.t :=
  Layer.set_neurons
    (map (fun n => Neuron.set_lastOutput None (Neuron.set_lastInputs None n))
         (Layer.neurons l))
    (Layer.set_outputs [] l).

(** [(p_0 - t_0)^2 + (p_1 - t_1)^2 + ...] *)
Fixpoint squared_error (ps ts : list R) : R :=
  match ps, ts with
  | p :: ps', t :: ts' => (p - t) * (p - t) + squared_error ps' ts'
  | _, _ => 0
  end.

(** The deltas that [backwardOutput] computes for the targets [ts], and
    those that [backwardHidden] computes from the deltas and the weights
    of the next layer. *)
Definition output_deltas (l : Layer.t) (ts : list number) : list number :=
  map (fun i => delta_of l i (nth i ts NaN - nth i (Layer.outputs l) NaN)%js)
      (seq 0 (length (Layer.neurons l))).

Definition hidden_deltas (l : Layer.t) (nextLayerDeltas : list number)
    (nextLayerWeights : list (list number)) : list number :=
  map (fun i => delta_of l i
                  (Layer.calculateNeuronError i nextLayerDeltas nextLayerWeights))
      (seq 0 (length (Layer.neurons l))).

Section Validation.
Context (coerce : value -> number).

(** What [calculateError] returns for arrays of the same length. *)
Definition mean_squared (predicted : list number) (actual : value) : number :=
  (reduce (fun sum pred index =>
             sum + Num.Math_pow (pred - Js.ToNumber coerce (Js.at_index actual index)) 2)
          (Fin 0) predicted
   / Num.of_nat (length predicted))%js.

(** The error of the layers [ls] on an example. *)
Definition example_error (ls : list Layer.t) (example : value) : number :=
  match Js.get example "input", Js.get example "target" with
  | Some input, Some target =>
      mean_squared (feed_forward ls (map Js.number_of (Js.elements input))) target
  | _, _ => NaN
  end.

End Validation.

(** *** Shapes

    The shape of a layer as its constructor builds it, and of a network
    as [addLayer] builds it, whatever the numbers they hold: weights and
    outputs may be infinite or [NaN] here. *)
Definition layer_shaped (l : Layer.t) : Prop :=
  Layer.inputSize l = Num.of_nat (inputs_of l) /\
  Layer.size l = Num.of_nat (length (Layer.neurons l)) /\
  Layer.neurons l <> [] /\
  Forall (fun n => length (Neuron.weights n) = inputs_of l) (Layer.neurons l).

Definition network_shaped (n : Network.t) : Prop :=
  Network.layers n <> [] /\
  Forall layer_shaped (Network.layers n) /\
  chained (Network.layers n).

(** The inputs [xs] and the outputs of every layer of [ls] but the last
    are finite numbers. *)
Fixpoint forward_finite (ls : list Layer.t) (xs : list number) : Prop :=
  match ls with
  | [] => True
  | l :: rest => Forall finite xs /\ forward_finite rest (layer_outputs l xs)
  end.

(** The forward passes of the layers [ls] on [xs], one after the other,
    up to the first layer that is handed a number that is not finite: the
    layers as they are left, and the outputs of the last one if it has
    been reached. *)
Fixpoint forward_run (ls : list Layer.t) (xs : list number)
    : list Layer.t * option (list number) :=
  match ls with
  | [] => ([], Some xs)
  | l :: rest =>
      if forallb Num.isFinite xs
      then (layer_after l xs :: fst (forward_run rest (layer_outputs l xs)),
            snd (forward_run rest (layer_outputs l xs)))
      else (l :: rest, None)
  end.

(** *** Backpropagation as a function of the layers

    [rev_hidden] are the layers that remain, from the last to the first;
    [next'] is the layer after them, already updated, and [deltas] are
    its deltas. *)
Fixpoint backward_hidden (learningRate : number) (rev_hidden : list Layer.t)
    (deltas : list number) (next' : Layer.t) : list Layer.t :=
  match rev_hidden with
  | [] => []
  | l :: before =>
      let ds := hidden_deltas l deltas (Layer.getConnectionWeights next') in
      let l' := layer_updated l ds learningRate in
      l' :: backward_hidden learningRate before ds l'
  end.

(** The layers after [backpropagate] for the targets [ts]. *)
Definition backward_layers (learningRate : number) (ls : list Layer.t)
    (ts : list number) : list Layer.t :=
  match rev ls with
  | [] => []
  | output :: rev_hidden =>
      let ds := output_deltas output ts in
      let output' := layer_updated output ds learningRate in
      rev (output' :: backward_hidden learningRate rev_hidden ds output')
  end.

(** The numbers of the field [k] of an example. *)
Definition example_numbers (example : value) (k : string) : list number :=
  match Js.get example k with
  | Some v => map Js.number_of (Js.elements v)
  | None => []
  end.

(** The layers after one example of an epoch: a forward pass on its
    input, then the update for its target. *)
Definition train_step (learningRate : number) (ls : list Layer.t) (example : value)
    : list Layer.t :=
  backward_layers learningRate
    (forward_layers ls (example_numbers example "input"))
    (example_numbers example "target").

(** The layers after the examples of an epoch, taken in order. *)
Definition epoch_layers (learningRate : number) (ls : list Layer.t)
    (examples : list value) : list Layer.t :=
  fold_left (train_step learningRate) examples ls.

Section EpochErrors.
Context (coerce : value -> number).

(** The errors of the examples of an epoch, added up: each example is
    measured on the layers that the examples before it have left. *)
Fixpoint epoch_error (learningRate : number) (ls : list Layer.t)
    (examples : list value) (total : number) : number :=
  match examples with
  | [] => total
  | example :: rest =>
      epoch_error learningRate (train_step learningRate ls example) rest
                  (Num.add total (example_error coerce ls example))
  end.

End EpochErrors.

(** *** Samples *)

(** A layer of one sigmoid neuron with two inputs, and the network of the
    two sample layers, with its default settings. *)
Definition sample_output_layer : Layer.t :=
  {| Layer.neurons := [real_neuron [0.7; -0.6] 0.2 None None];
     Layer.activationFunction := activations.sigmoid;
     Layer.outputs := [];
     Layer.size := Num.of_nat 1;
     Layer.inputSize := Num.of_nat 2 |}.

Definition sample_network : Network.t :=
  Network.set_layers [sample_layer; sample_output_layer] Network.constructor.

(** Two examples for the sample network. *)
Definition sample_examples : value :=
  VArr 1 [VObj 2 [("input"%string, VArr 3 [VNum (Fin 1); VNum (Fin 0.5)]);
                  ("target"%string, VArr 4 [VNum (Fin 0.8)])];
          VObj 5 [("input"%string, VArr 6 [VNum (Fin 0); VNum (Fin 1)]);
                  ("target"%string, VArr 7 [VNum (Fin 0.2)])]].

(** The sample network after a prediction, with an error in its
    history. *)
Definition sample_network_used : Network.t :=
  Network.set_trainingHistory [Fin 0.5]
    (Network.set_layers
       (forward_layers (Network.layers sample_network) [Fin 1; Fin 0.5])
       sample_network).

(** A linear layer that holds an infinite weight, as [setWeights] or a
    training with an infinite learning rate can leave it, and a network
    that starts with it. *)
Definition infinite_layer : Layer.t :=
  {| Layer.neurons := [{| Neuron.weights := [PosInf; Fin 0.3]; Neuron.bias := Fin 0.1;
                          Neuron.lastInputs := None; Neuron.lastOutput := None |};
                       real_neuron [-0.2; 0.4] (-0.1) None None];
     Layer.activationFunction := activations.linear;
     Layer.outputs := [];
     Layer.size := Num.of_nat 2;
     Layer.inputSize := Num.of_nat 2 |}.

Definition infinite_network : Network.t :=
  Network.set_layers [infinite_layer; sample_output_layer] Network.constructor.

(** The sigmoid of the tests, which has a name. *)
Definition named_sigmoid : ActivationFunction :=
  {| func := func activations.sigmoid; derivative := derivative activations.sigmoid;
     name := Some "sigmoid"%string |}.

Definition named_layer : Layer.t :=
  {| Layer.neurons := Layer.neurons sample_layer;
     Layer.activationFunction := named_sigmoid;
     Layer.outputs := [];
     Layer.size := Num.of_nat 2;
     Layer.inputSize := Num.of_nat 2 |}.

(** ** Binary64 arithmetic

    The operations of [Num] are exact on finite values.  Where a property
    depends on rounding, the operations of this module are used in their
    place: an operation of IEEE 754 returns the exact result rounded to the
    nearest double, ties to the even significand, and an infinity when the
    rounded value leaves the range of the doubles. *)
Module Double.

(** The exponent of the binade of [x]; the subnormal numbers share the
    exponent -1022. *)
Definition exponent (x : R) : Z :=
  Z.max (-1022) (Zfloor (ln (Rabs x) / ln 2)).

(** The distance between the doubles around [x]: significands have 52
    fraction bits. *)
Definition ulp (x : R) : R := powerRZ 2 (exponent x - 52).

(** The integer nearest to [t], the even one of the two when [t] is half
    way. *)
Definition nearest_even (t : R) : Z :=
  if Rltb (t - IZR (Zfloor t)) (/ 2) then Zfloor t
  else if Rltb (/ 2) (t - IZR (Zfloor t)) then (Zfloor t + 1)%Z
  else if Z.even (Zfloor t) then Zfloor t else (Zfloor t + 1)%Z.

(** The double that a real result is rounded to. *)
Definition round (x : R) : number :=
  let y := IZR (nearest_even (x / ulp x)) * ulp x in
  if Rleb (powerRZ 2 1024) (Rabs y) then Num.signed_inf x else Fin y.

Definition rounded (a : number) : number :=
  match a with
  | Fin x => round x
  | _ => a
  end.

(** [a + b] and [a / b] on doubles. *)
Definition add (a b : number) : number := rounded (Num.add a b).
Definition div (a b : number) : number := rounded (Num.div a b).

(** [Math.exp] is left to the implementation by the language, which asks
    for an approximation.  [Math_exp] is the correctly rounded one;
    [accurate_exp] admits every implementation whose relative error on
    [-500, 500] is at most [2^-52], one unit in the last place. *)
Definition Math_exp (a : number) : number := rounded (Num.Math_exp a).

Definition accurate_exp (impl : number -> number) : Prop :=
  forall x : R, -500 <= x <= 500 ->
    exists y : R, impl (Fin x) = Fin y /\ Rabs (y - exp x) <= exp x / 2 ^ 52.

(** [activations.sigmoid.func], computed on doubles with [Math.exp]
    implemented by [Math_exp]:
    [x => 1 / (1 + Math.exp(-Math.max(-500, Math.min(500, x))))]. *)
Definition sigmoid_func (Math_exp : number -> number) (x : number) : number :=
  div (Fin 1)
      (add (Fin 1)
           (Math_exp (Num.neg (Num.Math_max (Fin (-500)) (Num.Math_min (Fin 500) x))))).

End Double.
(** ** Real analysis behind the catalog *)

Section BoolReal.

Lemma Rltb_true (x y : R) : x < y -> Rltb x y = true.
Proof. intros H. unfold Rltb. destruct (Rlt_dec x y); [reflexivity | contradiction]. Qed.

Lemma Rltb_false (x y : R) : y <= x -> Rltb x y = false.
Proof. intros H. unfold Rltb. destruct (Rlt_dec x y); [lra | reflexivity]. Qed.

Lemma Rleb_true (x y : R) : x <= y -> Rleb x y = true.
Proof. intros H. unfold Rleb. destruct (Rle_dec x y); [reflexivity | contradiction]. Qed.

Lemma Rleb_false (x y : R) : y < x -> Rleb x y = false.
Proof. intros H. unfold Rleb. destruct (Rle_dec x y); [lra | reflexivity]. Qed.

Lemma Reqb_true (x y : R) : x = y -> Reqb x y = true.
Proof. intros H. unfold Reqb. destruct (Req_dec_T x y); [reflexivity | contradiction]. Qed.

Lemma Reqb_false (x y : R) : x <> y -> Reqb x y = false.
Proof. intros H. unfold Reqb. destruct (Req_dec_T x y); [contradiction | reflexivity]. Qed.

Lemma Rltb_spec (x y : R) : Rltb x y = true <-> x < y.
Proof. unfold Rltb. destruct (Rlt_dec x y); split; intros; [assumption | reflexivity | discriminate | contradiction]. Qed.

Lemma Rleb_spec (x y : R) : Rleb x y = true <-> x <= y.
Proof. unfold Rleb. destruct (Rle_dec x y); split; intros; [assumption | reflexivity | discriminate | contradiction]. Qed.

Lemma Reqb_spec (x y : R) : Reqb x y = true <-> x = y.
Proof. unfold Reqb. destruct (Req_dec_T x y); split; intros; [assumption | reflexivity | discriminate | contradiction]. Qed.

End BoolReal.

(** Derivation rules in pointwise form. *)
Section Derive.

Lemma D_eq (f : R -> R) (x l l' : R) :
  derivable_pt_lim f x l -> l = l' -> derivable_pt_lim f x l'.
Proof. intros H <-. exact H. Qed.

Lemma D_id (x : R) : derivable_pt_lim (fun t => t) x 1.
Proof. exact (derivable_pt_lim_id x). Qed.

Lemma D_const (c x : R) : derivable_pt_lim (fun _ => c) x 0.
Proof. exact (derivable_pt_lim_const c x). Qed.

Lemma D_plus (f g : R -> R) (x lf lg : R) :
  derivable_pt_lim f x lf -> derivable_pt_lim g x lg ->
  derivable_pt_lim (fun t => f t + g t) x (lf + lg).
Proof. exact (derivable_pt_lim_plus f g x lf lg). Qed.

Lemma D_minus (f g : R -> R) (x lf lg : R) :
  derivable_pt_lim f x lf -> derivable_pt_lim g x lg ->
  derivable_pt_lim (fun t => f t - g t) x (lf - lg).
Proof. exact (derivable_pt_lim_minus f g x lf lg). Qed.

Lemma D_opp (f : R -> R) (x lf : R) :
  derivable_pt_lim f x lf -> derivable_pt_lim (fun t => - f t) x (- lf).
Proof. exact (derivable_pt_lim_opp f x lf). Qed.

Lemma D_mult (f g : R -> R) (x lf lg : R) :
  derivable_pt_lim f x lf -> derivable_pt_lim g x lg ->
  derivable_pt_lim (fun t => f t * g t) x (lf * g x + f x * lg).
Proof. exact (derivable_pt_lim_mult f g x lf lg). Qed.

Lemma D_div (f g : R -> R) (x lf lg : R) :
  derivable_pt_lim f x lf -> derivable_pt_lim g x lg -> g x <> 0 ->
  derivable_pt_lim (fun t => f t / g t) x ((lf * g x - lg * f x) / Rsqr (g x)).
Proof. exact (derivable_pt_lim_div f g x lf lg). Qed.

Lemma D_comp (f g : R -> R) (x lf lg : R) :
  derivable_pt_lim f x lf -> derivable_pt_lim g (f x) lg ->
  derivable_pt_lim (fun t => g (f t)) x (lg * lf).
Proof. exact (derivable_pt_lim_comp f g x lf lg). Qed.

Lemma cosh_pos (x : R) : 0 < cosh x.
Proof. unfold cosh. pose proof (exp_pos x). pose proof (exp_pos (- x)). lra. Qed.

Lemma D_tanh (x : R) : derivable_pt_lim tanh x (1 - tanh x * tanh x).
Proof.
  pose proof (cosh_pos x) as Hc.
  eapply D_eq.
  - apply (D_div sinh cosh x (cosh x) (sinh x)).
    + apply derivable_pt_lim_sinh.
    + apply derivable_pt_lim_cosh.
    + lra.
  - unfold tanh, Rsqr. field. lra.
Qed.

(** A function glued from two pieces that agree at [x] and have the same
    derivative there. *)
Lemma D_glue (f g1 g2 : R -> R) (x l : R) :
  (forall t, x <= t -> f t = g1 t) ->
  (forall t, t <= x -> f t = g2 t) ->
  derivable_pt_lim g1 x l -> derivable_pt_lim g2 x l ->
  derivable_pt_lim f x l.
Proof.
  intros H1 H2 D1 D2 eps Heps.
  destruct (D1 eps Heps) as [d1 Hd1], (D2 eps Heps) as [d2 Hd2].
  assert (Hmin : 0 < Rmin d1 d2).
  { apply Rmin_glb_lt; [apply (cond_pos d1) | apply (cond_pos d2)]. }
  exists (mkposreal _ Hmin). intros h Hh0 Hh. simpl in Hh.
  destruct (Rle_dec 0 h) as [Hpos | Hneg].
  - rewrite (H1 (x + h)), (H1 x) by lra.
    apply Hd1; [assumption |].
    eapply Rlt_le_trans; [exact Hh | apply Rmin_l].
  - rewrite (H2 (x + h)), (H2 x) by lra.
    apply Hd2; [assumption |].
    eapply Rlt_le_trans; [exact Hh | apply Rmin_r].
Qed.

(** A function that agrees with [g] around [x]. *)
Lemma D_near (f g : R -> R) (x l a b : R) :
  a < x < b -> (forall t, a < t < b -> f t = g t) ->
  derivable_pt_lim g x l -> derivable_pt_lim f x l.
Proof.
  intros Hx Hfg Dg.
  apply (derivable_pt_lim_locally_ext g f x a b l Hx); [| exact Dg].
  intros z Hz. symmetry. apply Hfg, Hz.
Qed.

Lemma exp_INR (n : nat) : exp (INR n) = exp 1 ^ n.
Proof.
  induction n as [| n IH].
  - simpl. apply exp_0.
  - rewrite S_INR, exp_plus, IH. simpl. ring.
Qed.

End Derive.

(** *** What the catalog computes on finite arguments *)

Section CatalogValues.
Import Num.

Lemma clamp500_bounds (t : R) : -500 <= clamp500 t <= 500.
Proof.
  unfold clamp500. split.
  - apply Rmax_l.
  - apply Rmax_lub; [lra |]. apply Rmin_l.
Qed.

Lemma one_plus_exp_pos (t : R) : 0 < 1 + exp t.
Proof. pose proof (exp_pos t). lra. Qed.

Lemma sigmoid_func_fin (t : R) :
  func activations.sigmoid (Fin t) = Fin (1 / (1 + exp (- clamp500 t))).
Proof.
  cbn. rewrite Reqb_false; [reflexivity |].
  pose proof (one_plus_exp_pos (- Rmax (-500) (Rmin 500 t))). lra.
Qed.

Lemma sigmoid_derivative_fin (y : R) :
  derivative activations.sigmoid (Fin y) = Fin (y * (1 - y)).
Proof. reflexivity. Qed.

Lemma tanh_func_fin (t : R) : func activations.tanh (Fin t) = Fin (tanh t).
Proof. reflexivity. Qed.

Lemma tanh_derivative_fin (y : R) :
  derivative activations.tanh (Fin y) = Fin (1 - y * y).
Proof. reflexivity. Qed.

Lemma relu_func_fin (t : R) : func activations.relu (Fin t) = Fin (Rmax 0 t).
Proof. reflexivity. Qed.

Lemma relu_derivative_fin (x : R) :
  derivative activations.relu (Fin x) = Fin (if Rltb 0 x then 1 else 0).
Proof. cbn. destruct (Rltb 0 x); reflexivity. Qed.

Lemma leakyRelu_func_fin (t : R) :
  func activations.leakyRelu (Fin t) = Fin (if Rltb 0 t then t else 0.01 * t).
Proof. cbn. destruct (Rltb 0 t); reflexivity. Qed.

Lemma leakyRelu_derivative_fin (x : R) :
  derivative activations.leakyRelu (Fin x) = Fin (if Rltb 0 x then 1 else 0.01).
Proof. cbn. destruct (Rltb 0 x); reflexivity. Qed.

Lemma elu_func_fin (t : R) :
  func activations.elu (Fin t) = Fin (if Rleb 0 t then t else exp t - 1).
Proof. cbn. destruct (Rleb 0 t); reflexivity. Qed.

Lemma elu_derivative_fin (x : R) :
  derivative activations.elu (Fin x) = Fin (if Rleb 0 x then 1 else exp x).
Proof. cbn. destruct (Rleb 0 x); reflexivity. Qed.

Lemma swish_func_fin (t : R) :
  func activations.swish (Fin t) = Fin (t / (1 + exp (- t))).
Proof.
  cbn. rewrite Reqb_false; [reflexivity |].
  pose proof (one_plus_exp_pos (- t)). lra.
Qed.

Lemma swish_derivative_fin (x : R) :
  derivative activations.swish (Fin x) =
  Fin (let sig := 1 / (1 + exp (- x)) in sig + x * sig * (1 - sig)).
Proof.
  cbn. rewrite Reqb_false; [reflexivity |].
  pose proof (one_plus_exp_pos (- x)). lra.
Qed.

Lemma mish_func_fin (t : R) :
  func activations.mish (Fin t) = Fin (t * tanh (ln (1 + exp t))).
Proof. cbn. rewrite Rltb_true by apply one_plus_exp_pos. reflexivity. Qed.

Lemma mish_derivative_fin (x : R) :
  derivative activations.mish (Fin x) =
  Fin (let tsp := tanh (ln (1 + exp x)) in
       let sig := 1 / (1 + exp (- x)) in
       tsp + x * sig * (1 - tsp * tsp)).
Proof.
  cbn. rewrite Rltb_true by apply one_plus_exp_pos.
  rewrite Reqb_false; [reflexivity |].
  pose proof (one_plus_exp_pos (- x)). lra.
Qed.

Lemma sin_func_fin (t : R) : func activations.sin (Fin t) = Fin (sin t).
Proof. reflexivity. Qed.

Lemma sin_derivative_fin (x : R) : derivative activations.sin (Fin x) = Fin (cos x).
Proof. reflexivity. Qed.

Lemma cos_func_fin (t : R) : func activations.cos (Fin t) = Fin (cos t).
Proof. reflexivity. Qed.

Lemma cos_derivative_fin (x : R) : derivative activations.cos (Fin x) = Fin (- sin x).
Proof. reflexivity. Qed.

Lemma gaussian_func_fin (t : R) :
  func activations.gaussian (Fin t) = Fin (exp (- t * t)).
Proof. reflexivity. Qed.

Lemma gaussian_derivative_fin (x : R) :
  derivative activations.gaussian (Fin x) = Fin (-2 * x * exp (- x * x)).
Proof. reflexivity. Qed.

Lemma step_func_fin (t : R) :
  func activations.step (Fin t) = Fin (if Rltb 0 t then 1 else 0).
Proof. cbn. destruct (Rltb 0 t); reflexivity. Qed.

Lemma step_derivative_fin (x : R) : derivative activations.step (Fin x) = Fin 0.
Proof. reflexivity. Qed.

Lemma linear_func_fin (t : R) : func activations.linear (Fin t) = Fin t.
Proof. reflexivity. Qed.

Lemma linear_derivative_fin (x : R) : derivative activations.linear (Fin x) = Fin 1.
Proof. reflexivity. Qed.

End CatalogValues.

(** *** The derivatives of the catalog's real functions *)

Section CatalogDerivatives.

Lemma derivative_at_input_intro (a : ActivationFunction) (f : R -> R) (d x : R) :
  (forall t, func a (Fin t) = Fin (f t)) ->
  derivative a (Fin x) = Fin d ->
  derivable_pt_lim f x d ->
  derivative_at_input a x.
Proof.
  intros Hf Hd HD. split.
  - intros t. exists (f t). apply Hf.
  - exists d. split; [exact Hd |].
    apply (derivable_pt_lim_ext f); [| exact HD].
    intros z. unfold real_of. rewrite Hf. reflexivity.
Qed.

Lemma D_gaussian (x : R) :
  derivable_pt_lim (fun t => exp (- t * t)) x (-2 * x * exp (- x * x)).
Proof.
  eapply D_eq.
  - apply (D_comp (fun t => - t * t) exp).
    + apply (D_mult (fun t => - t) (fun t => t)).
      * apply D_opp, D_id.
      * apply D_id.
    + apply derivable_pt_lim_exp.
  - cbv beta. ring.
Qed.

Lemma D_exp_opp (x : R) : derivable_pt_lim (fun t => exp (- t)) x (- exp (- x)).
Proof.
  eapply D_eq.
  - apply (D_comp (fun t => - t) exp).
    + apply D_opp, D_id.
    + apply derivable_pt_lim_exp.
  - cbv beta. ring.
Qed.

Lemma D_swish (x : R) :
  derivable_pt_lim (fun t => t / (1 + exp (- t))) x
    (let sig := 1 / (1 + exp (- x)) in sig + x * sig * (1 - sig)).
Proof.
  pose proof (one_plus_exp_pos (- x)) as Hpos.
  eapply D_eq.
  - apply (D_div (fun t => t) (fun t => 1 + exp (- t))).
    + apply D_id.
    + apply (D_plus (fun _ => 1) (fun t => exp (- t))).
      * apply D_const.
      * apply D_exp_opp.
    + cbv beta. lra.
  - cbv beta zeta. unfold Rsqr. field. lra.
Qed.

Lemma D_softplus (x : R) :
  derivable_pt_lim (fun t => ln (1 + exp t)) x (1 / (1 + exp (- x))).
Proof.
  pose proof (one_plus_exp_pos x) as Hpos.
  pose proof (exp_pos x) as Hex.
  eapply D_eq.
  - apply (D_comp (fun t => 1 + exp t) ln).
    + apply (D_plus (fun _ => 1) exp).
      * apply D_const.
      * apply derivable_pt_lim_exp.
    + apply derivable_pt_lim_ln. exact Hpos.
  - cbv beta. rewrite exp_Ropp. field. lra.
Qed.

Lemma D_mish (x : R) :
  derivable_pt_lim (fun t => t * tanh (ln (1 + exp t))) x
    (let tsp := tanh (ln (1 + exp x)) in
     let sig := 1 / (1 + exp (- x)) in
     tsp + x * sig * (1 - tsp * tsp)).
Proof.
  eapply D_eq.
  - apply (D_mult (fun t => t) (fun t => tanh (ln (1 + exp t)))).
    + apply D_id.
    + apply (D_comp (fun t => ln (1 + exp t)) tanh).
      * apply D_softplus.
      * apply D_tanh.
  - cbv beta zeta. ring.
Qed.

Lemma D_elu (x : R) :
  derivable_pt_lim (fun t => if Rleb 0 t then t else exp t - 1) x
    (if Rleb 0 x then 1 else exp x).
Proof.
  assert (Dneg : forall y, derivable_pt_lim (fun t => exp t - 1) y (exp y)).
  { intros y. eapply D_eq.
    - apply (D_minus exp (fun _ => 1)).
      + apply derivable_pt_lim_exp.
      + apply D_const.
    - ring. }
  destruct (Rtotal_order x 0) as [Hlt | [Heq | Hgt]].
  - rewrite Rleb_false by lra.
    apply (D_near _ (fun t => exp t - 1) x _ (x - 1) 0); [lra | | apply Dneg].
    intros t Ht. rewrite Rleb_false by lra. reflexivity.
  - subst x. rewrite Rleb_true by lra.
    apply (D_glue _ (fun t => t) (fun t => exp t - 1)).
    + intros t Ht. rewrite Rleb_true by lra. reflexivity.
    + intros t Ht. destruct (Req_dec_T t 0) as [-> | Hne].
      * rewrite Rleb_true by lra. rewrite exp_0. ring.
      * rewrite Rleb_false by lra. reflexivity.
    + apply D_id.
    + eapply D_eq; [apply Dneg | apply exp_0].
  - rewrite Rleb_true by lra.
    apply (D_near _ (fun t => t) x _ 0 (x + 1)); [lra | | apply D_id].
    intros t Ht. rewrite Rleb_true by lra. reflexivity.
Qed.

Lemma D_relu (x : R) :
  x <> 0 -> derivable_pt_lim (Rmax 0) x (if Rltb 0 x then 1 else 0).
Proof.
  intros Hx. destruct (Rtotal_order x 0) as [Hlt | [Heq | Hgt]]; [| contradiction |].
  - rewrite Rltb_false by lra.
    apply (D_near _ (fun _ => 0) x _ (x - 1) 0); [lra | | apply D_const].
    intros t Ht. apply Rmax_left. lra.
  - rewrite Rltb_true by lra.
    apply (D_near _ (fun t => t) x _ 0 (x + 1)); [lra | | apply D_id].
    intros t Ht. apply Rmax_right. lra.
Qed.

Lemma D_leakyRelu (x : R) :
  x <> 0 ->
  derivable_pt_lim (fun t => if Rltb 0 t then t else 0.01 * t) x
    (if Rltb 0 x then 1 else 0.01).
Proof.
  intros Hx. destruct (Rtotal_order x 0) as [Hlt | [Heq | Hgt]]; [| contradiction |].
  - rewrite Rltb_false by lra.
    apply (D_near _ (fun t => 0.01 * t) x _ (x - 1) 0); [lra | |].
    + intros t Ht. rewrite Rltb_false by lra. reflexivity.
    + eapply D_eq.
      * apply (D_mult (fun _ => 0.01) (fun t => t)); [apply D_const | apply D_id].
      * cbv beta. ring.
  - rewrite Rltb_true by lra.
    apply (D_near _ (fun t => t) x _ 0 (x + 1)); [lra | | apply D_id].
    intros t Ht. rewrite Rltb_true by lra. reflexivity.
Qed.

Lemma D_step (x : R) :
  x <> 0 -> derivable_pt_lim (fun t => if Rltb 0 t then 1 else 0) x 0.
Proof.
  intros Hx. destruct (Rtotal_order x 0) as [Hlt | [Heq | Hgt]]; [| contradiction |].
  - apply (D_near _ (fun _ => 0) x _ (x - 1) 0); [lra | | apply D_const].
    intros t Ht. rewrite Rltb_false by lra. reflexivity.
  - apply (D_near _ (fun _ => 1) x _ 0 (x + 1)); [lra | | apply D_const].
    intros t Ht. rewrite Rltb_true by lra. reflexivity.
Qed.

(** At the kink the one-sided slopes of [relu] differ. *)
Lemma relu_not_derivable_at_0 (l : R) : ~ derivable_pt_lim (Rmax 0) 0 l.
Proof.
  intros HD.
  destruct (HD (1 / 2)) as [d Hd]; [lra |].
  pose proof (cond_pos d) as Hdpos.
  assert (Hr : Rabs ((Rmax 0 (0 + d / 2) - Rmax 0 0) / (d / 2) - l) < 1 / 2).
  { apply Hd; [lra |]. rewrite Rabs_right; lra. }
  assert (Hl : Rabs ((Rmax 0 (0 + - (d / 2)) - Rmax 0 0) / (- (d / 2)) - l) < 1 / 2).
  { apply Hd; [lra |]. rewrite Rabs_left; lra. }
  rewrite (Rmax_right 0 (0 + d / 2)) in Hr by lra.
  rewrite (Rmax_left 0 (0 + - (d / 2))) in Hl by lra.
  rewrite (Rmax_left 0 0) in Hr, Hl by lra.
  replace ((0 + d / 2 - 0) / (d / 2) - l) with (1 - l) in Hr by (field; lra).
  replace ((0 - 0) / - (d / 2) - l) with (- l) in Hl by (field; lra).
  apply Rabs_def2 in Hr, Hl. lra.
Qed.

End CatalogDerivatives.

(** ** The sigmoid of the catalog *)

Section Sigmoid.

Lemma exp_500_small : 1 + exp 500 < MAX_VALUE.
Proof.
  assert (H3 : exp 500 <= 3 ^ 500).
  { replace 500 with (INR 500) at 1 by (rewrite INR_IZR_INZ; reflexivity).
    rewrite exp_INR.
    apply pow_incr. split; [left; apply exp_pos | apply exp_le_3]. }
  assert (Hz : 1 + 3 ^ 500 < 2 ^ 1023).
  { change 1 with (IZR 1) at 1. rewrite !pow_IZR, <- plus_IZR.
    apply IZR_lt. vm_compute. reflexivity. }
  assert (H52 : 0 < / 2 ^ 52 <= / 2).
  { split.
    - apply Rinv_0_lt_compat, pow_lt. lra.
    - assert (H51 : 1 <= 2 ^ 51) by (apply pow_R1_Rle; lra).
      change (2 ^ 52) with (2 * 2 ^ 51).
      apply Rinv_le_contravar; lra. }
  assert (Hp : 0 < 2 ^ 1023) by (apply pow_lt; lra).
  unfold MAX_VALUE. nra.
Qed.

Lemma exp_le_mono (x y : R) : x <= y -> exp x <= exp y.
Proof.
  intros [H | ->]; [left; apply exp_increasing, H | right; reflexivity].
Qed.

Lemma sigmoid_value_range (c : R) : 0 < 1 / (1 + exp (- c)) < 1.
Proof.
  pose proof (exp_pos (- c)) as He.
  split.
  - apply Rdiv_lt_0_compat; lra.
  - apply Rmult_lt_reg_r with (1 + exp (- c)); [lra |].
    unfold Rdiv. rewrite Rmult_assoc, Rinv_l by lra. lra.
Qed.

(** In exact arithmetic [sigmoid.func] clamps its input to [-500, 500] and
    computes [1 / (1 + e^(-c))] of the clamped value [c]: a real strictly
    between 0 and 1, with the exponential and the sum under the division
    below the largest finite number.  What the rounded operations make of
    it is the matter of [Double.sigmoid_func]. *)
Lemma sigmoid_func_clamped_range (t : R) :
  func activations.sigmoid (Fin t)
    = Fin (1 / (1 + exp (- Rmax (-500) (Rmin 500 t)))) /\
  -500 <= Rmax (-500) (Rmin 500 t) <= 500 /\
  0 < 1 / (1 + exp (- Rmax (-500) (Rmin 500 t))) < 1 /\
  1 + exp (- Rmax (-500) (Rmin 500 t)) < MAX_VALUE /\
  func activations.sigmoid PosInf = Fin (1 / (1 + exp (- 500))) /\
  func activations.sigmoid NegInf = Fin (1 / (1 + exp (- -500))).
Proof.
  pose proof (clamp500_bounds t) as Hc. unfold clamp500 in Hc.
  repeat split; try apply Hc.
  - apply sigmoid_func_fin.
  - apply sigmoid_value_range.
  - apply sigmoid_value_range.
  - eapply Rle_lt_trans; [| apply exp_500_small].
    apply Rplus_le_compat_l, exp_le_mono. lra.
  - cbn. rewrite Rmax_right by lra.
    rewrite Reqb_false by (pose proof (exp_pos (- (500))); lra).
    replace (- (500)) with (-500) by lra. reflexivity.
  - cbn.
    rewrite Reqb_false by (pose proof (exp_pos (- (-500))); lra).
    reflexivity.
Qed.

End Sigmoid.

(** ** The two conventions of [derivative] *)

Section Conventions.

Lemma smooth_derivative_at_input (a : ActivationFunction) (x : R) :
  In a activations.smooth_input_convention -> derivative_at_input a x.
Proof.
  unfold activations.smooth_input_convention. simpl.
  intros [<- | [<- | [<- | [<- | [<- | [<- | [<- | []]]]]]]].
  - eapply derivative_at_input_intro;
      [apply elu_func_fin | apply elu_derivative_fin | apply D_elu].
  - eapply derivative_at_input_intro;
      [apply swish_func_fin | apply swish_derivative_fin | apply D_swish].
  - eapply derivative_at_input_intro;
      [apply mish_func_fin | apply mish_derivative_fin | apply D_mish].
  - eapply derivative_at_input_intro;
      [apply sin_func_fin | apply sin_derivative_fin | apply derivable_pt_lim_sin].
  - eapply derivative_at_input_intro;
      [apply cos_func_fin | apply cos_derivative_fin | apply derivable_pt_lim_cos].
  - eapply derivative_at_input_intro;
      [apply gaussian_func_fin | apply gaussian_derivative_fin | apply D_gaussian].
  - eapply derivative_at_input_intro;
      [apply linear_func_fin | apply linear_derivative_fin | apply D_id].
Qed.

Lemma kinked_derivative_at_input (a : ActivationFunction) (x : R) :
  In a activations.kinked_input_convention -> x <> 0 -> derivative_at_input a x.
Proof.
  unfold activations.kinked_input_convention. simpl.
  intros [<- | [<- | [<- | []]]] Hx.
  - eapply derivative_at_input_intro;
      [apply relu_func_fin | apply relu_derivative_fin | apply D_relu, Hx].
  - eapply derivative_at_input_intro;
      [apply leakyRelu_func_fin | apply leakyRelu_derivative_fin | apply D_leakyRelu, Hx].
  - eapply derivative_at_input_intro;
      [apply step_func_fin | apply step_derivative_fin | apply D_step, Hx].
Qed.




End Conventions.

(** ** [Network.setLearningRate] *)

Section LearningRate.
Import Num.

Lemma setLearningRate_throws (this : Network.t) (rate : value) :
  Js.is_number rate = false \/ (Js.number_of rate <=? 0)%js = true ->
  Network.setLearningRate rate this = Thrown (Error MsgLearningRate) this.
Proof.
  intros H. unfold Network.setLearningRate.
  destruct H as [-> | ->]; [reflexivity |].
  destruct (Js.is_number rate); reflexivity.
Qed.

Lemma setLearningRate_sets (this : Network.t) (n : number) :
  (n <=? 0)%js = false ->
  Network.setLearningRate (VNum n) this
  = Returned (Network.set_learningRate n this) (Network.set_learningRate n this).
Proof.
  intros H. unfold Network.setLearningRate. cbn. rewrite H. reflexivity.
Qed.

Lemma positive_not_le_zero (n : number) : (0 <? n)%js = true -> (n <=? 0)%js = false.
Proof.
  destruct n as [| | | r]; cbn; try (discriminate || reflexivity).
  intros H%Rltb_spec. apply Rleb_false, H.
Qed.

(** C3, as the code has it.  [setLearningRate(rate)] throws the
    validation error and leaves the network as it was when [rate] is not
    a number or is a number [<= 0] ([-Infinity] included); for every
    number [rate > 0], [+Infinity] included, it stores [rate] in
    [learningRate], changes nothing else and returns the network; and it
    does the same for [NaN], for which [rate <= 0] is false.  There is no
    other case. *)
Theorem setLearningRate_positive_number (this : Network.t) (rate : value) :
  (Js.is_number rate = false \/
   (exists r : R, rate = VNum (Fin r) /\ r <= 0) \/
   rate = VNum NegInf ->
   Network.setLearningRate rate this = Thrown (Error MsgLearningRate) this /\
   kind_of (Error MsgLearningRate) = Some ValidationError) /\
  (forall n : number, rate = VNum n -> (0 <? n)%js = true ->
   exists this',
     Network.setLearningRate rate this = Returned this' this' /\
     Network.learningRate this' = n /\
     Network.layers this' = Network.layers this /\
     Network.trainingHistory this' = Network.trainingHistory this /\
     Network.isCompiled this' = Network.isCompiled this) /\
  (rate = VNum NaN ->
   exists this',
     Network.setLearningRate rate this = Returned this' this' /\
     Network.learningRate this' = NaN /\
     Network.layers this' = Network.layers this /\
     Network.trainingHistory this' = Network.trainingHistory this /\
     Network.isCompiled this' = Network.isCompiled this) /\
  (Js.is_number rate = false \/
   (exists r : R, rate = VNum (Fin r) /\ r <= 0) \/
   rate = VNum NegInf \/
   (exists n : number, rate = VNum n /\ (0 <? n)%js = true) \/
   rate = VNum NaN).
Proof.
  split_and!.
  - intros H. split; [| reflexivity].
    apply setLearningRate_throws.
    destruct H as [H | [(r & -> & Hr) | ->]].
    + left. exact H.
    + right. cbn. apply Rleb_true, Hr.
    + right. reflexivity.
  - intros n -> Hn. exists (Network.set_learningRate n this).
    split; [| repeat split].
    apply setLearningRate_sets, positive_not_le_zero, Hn.
  - intros ->. exists (Network.set_learningRate NaN this). repeat split.
  - destruct rate as [| | b | n | str | ref elems | ref props];
      try (left; reflexivity).
    destruct n as [| | | r].
    + do 4 right. reflexivity.
    + do 3 right. left. exists PosInf. split; reflexivity.
    + do 2 right. left. reflexivity.
    + destruct (Rle_dec r 0) as [Hr | Hr].
      * right. left. exists r. split; [reflexivity | exact Hr].
      * do 3 right. left. exists (Fin r). split; [reflexivity |].
        cbn. apply Rltb_true. lra.
Qed.

(** The rates of the test-suite: 0.05 is stored, 0 is refused. *)
Lemma setLearningRate_positive_number_witness :
  (exists this',
     Network.setLearningRate (VNum (Fin 0.05)) Network.constructor = Returned this' this' /\
     Network.learningRate this' = Fin 0.05) /\
  Network.setLearningRate (VNum (Fin 0)) Network.constructor
  = Thrown (Error MsgLearningRate) Network.constructor.
Proof.
  split.
  - destruct (setLearningRate_positive_number Network.constructor (VNum (Fin 0.05)))
      as (_ & H & _).
    destruct (H (Fin 0.05) eq_refl) as (this' & H1 & H2 & _).
    + cbn. apply Rltb_true. lra.
    + exists this'. split; assumption.
  - destruct (setLearningRate_positive_number Network.constructor (VNum (Fin 0)))
      as (H & _).
    apply H. right. left. exists 0. split; [reflexivity | lra].
Defined.

(** C3 as stated fails: [Infinity] is not finite, and [setLearningRate]
    stores it instead of throwing. *)
Lemma setLearningRate_accepts_Infinity :
  Num.isFinite PosInf = false /\
  Network.setLearningRate (VNum PosInf) Network.constructor
  = Returned (Network.set_learningRate PosInf Network.constructor)
             (Network.set_learningRate PosInf Network.constructor) /\
  Network.learningRate (Network.set_learningRate PosInf Network.constructor) = PosInf.
Proof. repeat split. Qed.

(** [NaN <= 0] is false, so the guard lets [NaN] through as well. *)
Lemma setLearningRate_NaN (this : Network.t) :
  Network.setLearningRate (VNum NaN) this
  = Returned (Network.set_learningRate NaN this) (Network.set_learningRate NaN this).
Proof. reflexivity. Qed.

End LearningRate.

(** ** Loops *)

Section Loops.
Context {S : Type}.

Lemma for_of_app {A B} (l1 l2 : list A) (acc : B) (body : B -> A -> M S B) (s : S) :
  for_of (l1 ++ l2) acc body s
  = match for_of l1 acc body s with
    | Returned acc' s' => for_of l2 acc' body s'
    | Thrown e s' => Thrown e s'
    end.
Proof.
  revert acc s. induction l1 as [| x l1 IH]; intros acc s; simpl.
  - reflexivity.
  - unfold bind. destruct (body acc x s) as [acc' s' | e s']; [apply IH | reflexivity].
Qed.

(** A loop whose body is a function of the state as long as [P] holds. *)
Lemma for_of_pure {A} (P : S -> Prop) (body : unit -> A -> M S unit) (g : A -> S -> S) :
  (forall x s, P s -> body tt x s = Returned tt (g x s) /\ P (g x s)) ->
  forall l s, P s ->
    for_of l tt body s = Returned tt (fold_left (fun s x => g x s) l s) /\
    P (fold_left (fun s x => g x s) l s).
Proof.
  intros Hbody l. induction l as [| x l IH]; intros s Hs; simpl.
  - split; [reflexivity | exact Hs].
  - unfold bind. destruct (Hbody x s Hs) as [-> HP]. apply IH, HP.
Qed.

End Loops.

(** ** Reasoning about methods *)

Section Methods.
Context {S : Type}.

Lemma bind_returned {A B} (m : M S A) (k : A -> M S B) (s s' : S) (a : A) :
  m s = Returned a s' -> bind m k s = k a s'.
Proof. intros H. unfold bind. rewrite H. reflexivity. Qed.

Lemma bind_thrown {A B} (m : M S A) (k : A -> M S B) (s s' : S) (e : error) :
  m s = Thrown e s' -> bind m k s = Thrown e s'.
Proof. intros H. unfold bind. rewrite H. reflexivity. Qed.

Lemma bind_inv_returned {A B} (m : M S A) (k : A -> M S B) (s s'' : S) (b : B) :
  bind m k s = Returned b s'' ->
  exists a s', m s = Returned a s' /\ k a s' = Returned b s''.
Proof.
  unfold bind. destruct (m s) as [a s' | e s']; [| discriminate].
  intros H. exists a, s'. split; [reflexivity | exact H].
Qed.

Lemma bind_inv_thrown {A B} (m : M S A) (k : A -> M S B) (s s'' : S) (e : error) :
  bind m k s = Thrown e s'' ->
  m s = Thrown e s'' \/ exists a s', m s = Returned a s' /\ k a s' = Thrown e s''.
Proof.
  unfold bind. destruct (m s) as [a s' | e' s'].
  - intros H. right. exists a, s'. split; [reflexivity | exact H].
  - intros H. left. injection H as -> ->. reflexivity.
Qed.

(** *** Relations kept by every outcome *)

Section Preserves.
Context (R : S -> S -> Prop) `{!Reflexive R} `{!Transitive R}.

Lemma preserves_ret {A} (a : A) : preserves R (ret a).
Proof. intros s. simpl. reflexivity. Qed.

Lemma preserves_throw {A} (e : error) : preserves R (@throw S A e).
Proof. intros s. simpl. reflexivity. Qed.

Lemma preserves_read : preserves R (@read S).
Proof. intros s. simpl. reflexivity. Qed.

Lemma preserves_runtime {A} (o : option A) : preserves R (@runtime S A o).
Proof. destruct o; [apply preserves_ret | apply preserves_throw]. Qed.

Lemma preserves_modify (f : S -> S) : (forall s, R s (f s)) -> preserves R (modify f).
Proof. intros H s. apply H. Qed.

Lemma preserves_bind {A B} (m : M S A) (k : A -> M S B) :
  preserves R m -> (forall a, preserves R (k a)) -> preserves R (bind m k).
Proof.
  intros Hm Hk s. unfold bind. specialize (Hm s).
  destruct (m s) as [a s' | e s']; simpl in *; [| exact Hm].
  etransitivity; [exact Hm | apply Hk].
Qed.

Lemma preserves_if {A} (b : bool) (m1 m2 : M S A) :
  preserves R m1 -> preserves R m2 -> preserves R (if b then m1 else m2).
Proof. destruct b; auto. Qed.

Lemma preserves_for_of {A B} (l : list A) (acc : B) (body : B -> A -> M S B) :
  (forall acc x, preserves R (body acc x)) -> preserves R (for_of l acc body).
Proof.
  intros Hbody. revert acc. induction l as [| x l IH]; intros acc; simpl.
  - apply preserves_ret.
  - apply preserves_bind; [apply Hbody | intros acc'; apply IH].
Qed.

Lemma preserves_for_range {B} (n : nat) (acc : B) (body : B -> nat -> M S B) :
  (forall acc i, preserves R (body acc i)) -> preserves R (for_range n acc body).
Proof. apply preserves_for_of. Qed.

End Preserves.

Lemma preserves_zoom {T A} (R : S -> S -> Prop) (R' : T -> T -> Prop)
    (proj : S -> T) (upd : T -> S -> S) (m : M T A) :
  preserves R' m ->
  (forall s t', R' (proj s) t' -> R s (upd t' s)) ->
  preserves R (zoom proj upd m).
Proof.
  intros Hm Hupd s. unfold zoom. specialize (Hm (proj s)).
  destruct (m (proj s)) as [a t | e t]; simpl in *; apply Hupd, Hm.
Qed.

(** *** Methods that only read, and failures that change nothing *)

Lemma readonly_preserves {A} (m : M S A) : readonly m <-> preserves eq m.
Proof. split; intros H s; symmetry; apply H. Qed.

Lemma readonly_unchanged {A} (m : M S A) : readonly m -> unchanged_on_failure m.
Proof. intros H s e s' Hm. rewrite <- (H s), Hm. reflexivity. Qed.

Lemma unchanged_bind {A B} (m : M S A) (k : A -> M S B) :
  readonly m -> (forall a, unchanged_on_failure (k a)) ->
  unchanged_on_failure (bind m k).
Proof.
  intros Hm Hk s e s'' [H | (a & s' & H1 & H2)]%bind_inv_thrown.
  - rewrite <- (Hm s), H. reflexivity.
  - assert (s' = s) as -> by (rewrite <- (Hm s), H1; reflexivity).
    apply (Hk a s e s'' H2).
Qed.

Lemma unchanged_no_throw {A} (m : M S A) :
  (forall s, exists a s', m s = Returned a s') -> unchanged_on_failure m.
Proof. intros H s e s' Hm. destruct (H s) as (a & s1 & Hr). congruence. Qed.

(** *** Calls that return *)

Lemma returns_ret {A} (a : A) (s : S) (Q : A -> S -> Prop) :
  Q a s -> returns (ret a) s Q.
Proof. intros H. exists a, s. split; [reflexivity | exact H]. Qed.

Lemma returns_read (s : S) (Q : S -> S -> Prop) : Q s s -> returns read s Q.
Proof. intros H. exists s, s. split; [reflexivity | exact H]. Qed.

Lemma returns_modify (f : S -> S) (s : S) (Q : unit -> S -> Prop) :
  Q tt (f s) -> returns (modify f) s Q.
Proof. intros H. exists tt, (f s). split; [reflexivity | exact H]. Qed.

Lemma returns_bind {A B} (m : M S A) (k : A -> M S B) (s : S) (Q : B -> S -> Prop) :
  returns m s (fun a s' => returns (k a) s' Q) -> returns (bind m k) s Q.
Proof.
  intros (a & s' & Hm & (b & s'' & Hk & HQ)).
  exists b, s''. split; [| exact HQ].
  rewrite (bind_returned _ _ _ _ _ Hm). exact Hk.
Qed.

Lemma returns_bind_eq {A B} (m : M S A) (k : A -> M S B) (s s' : S) (a : A)
    (Q : B -> S -> Prop) :
  m s = Returned a s' -> returns (k a) s' Q -> returns (bind m k) s Q.
Proof.
  intros Hm (b & s'' & Hk & HQ). exists b, s''. split; [| exact HQ].
  rewrite (bind_returned _ _ _ _ _ Hm). exact Hk.
Qed.

Lemma returns_weaken {A} (m : M S A) (s : S) (Q Q' : A -> S -> Prop) :
  returns m s Q -> (forall a s', Q a s' -> Q' a s') -> returns m s Q'.
Proof. intros (a & s' & Hm & HQ) H. exists a, s'. split; [exact Hm | apply H, HQ]. Qed.

Lemma returns_for_of {A B} (I : list A -> B -> S -> Prop) (body : B -> A -> M S B) :
  (forall x rest acc s, I (x :: rest) acc s ->
     returns (body acc x) s (fun acc' s' => I rest acc' s')) ->
  forall l acc s, I l acc s ->
    returns (for_of l acc body) s (fun acc' s' => I [] acc' s').
Proof.
  intros Hbody l. induction l as [| x l IH]; intros acc s HI; simpl.
  - apply returns_ret, HI.
  - apply returns_bind. eapply returns_weaken; [apply Hbody, HI |].
    intros acc' s' HI'. apply IH, HI'.
Qed.

End Methods.

Lemma returns_zoom {S T A} (proj : S -> T) (upd : T -> S -> S) (m : M T A) (s : S)
    (Q : A -> S -> Prop) :
  returns m (proj s) (fun a t => Q a (upd t s)) -> returns (zoom proj upd m) s Q.
Proof.
  intros (a & t & Hm & HQ). exists a, (upd t s). split; [| exact HQ].
  unfold zoom. rewrite Hm. reflexivity.
Qed.

Lemma returns_on_index {T A} (i : nat) (m : M T A) (l : list T) (t : T)
    (Q : A -> list T -> Prop) :
  l !! i = Some t ->
  returns m t (fun a t' => Q a (<[i := t']> l)) -> returns (on_index i m) l Q.
Proof.
  intros Hi (a & t' & Hm & HQ). exists a, (<[i := t']> l). split; [| exact HQ].
  unfold on_index. rewrite Hi, Hm. reflexivity.
Qed.

(** ** [Neuron.updateWeights] *)

Section UpdateWeights.
Import Num.
Local Open Scope js_scope.

Lemma add_steps_lookup (step : number) (inputs w : list number) (n j : nat) :
  add_steps step inputs (seq 0 n) w !! j
  = if decide (j < n)%nat
    then (fun x => x + step * nth j inputs NaN) <$> w !! j
    else w !! j.
Proof.
  induction n as [| n IH].
  - simpl. destruct (decide (j < 0)%nat); [lia | reflexivity].
  - rewrite seq_S. unfold add_steps in *. rewrite fold_left_app. simpl.
    set (w' := fold_left _ (seq 0 n) w) in *.
    assert (Hlen : length w' = length w).
    { subst w'. clear IH. generalize (seq 0 n). intros l. revert w.
      induction l as [| i l IHl]; intros w; simpl; [reflexivity |].
      rewrite IHl. apply length_insert. }
    destruct (decide (j = n)) as [-> | Hne].
    + destruct (decide (n < S n)%nat); [| lia].
      destruct (decide (n < length w)%nat) as [Hlt | Hge].
      * rewrite list_lookup_insert_eq by lia.
        assert (Hn : w' !! n = w !! n).
        { rewrite IH. destruct (decide (n < n)%nat); [lia | reflexivity]. }
        destruct (lookup_lt_is_Some_2 w n Hlt) as [x Hx].
        rewrite Hx. simpl. f_equal. f_equal.
        rewrite (nth_lookup w' n NaN), Hn, Hx. reflexivity.
      * rewrite list_insert_ge by lia.
        rewrite IH. destruct (decide (n < n)%nat); [lia |].
        rewrite (lookup_ge_None_2 w n) by lia. reflexivity.
    + rewrite list_lookup_insert_ne by congruence. rewrite IH.
      destruct (decide (j < n)%nat), (decide (j < S n)%nat); (reflexivity || lia).
Qed.

Lemma add_steps_imap (step : number) (inputs w : list number) :
  add_steps step inputs (seq 0 (length w)) w
  = imap (fun i x => x + step * nth i inputs NaN) w.
Proof.
  apply list_eq. intros j. rewrite add_steps_lookup, list_lookup_imap.
  destruct (decide (j < length w)%nat) as [Hlt | Hge].
  - destruct (lookup_lt_is_Some_2 w j Hlt) as [x ->]. reflexivity.
  - rewrite (lookup_ge_None_2 w j) by lia. reflexivity.
Qed.

Lemma updateWeights_no_inputs (this : Neuron.t) (delta learningRate : number) :
  Neuron.lastInputs this = None ->
  Neuron.updateWeights delta learningRate this = Thrown (Error MsgNoLastInputs) this.
Proof. intros H. unfold Neuron.updateWeights, bind, read. rewrite H. reflexivity. Qed.

Lemma updateWeights_returns (this : Neuron.t) (delta learningRate : number)
    (inputs : list number) :
  Neuron.lastInputs this = Some inputs ->
  Neuron.updateWeights delta learningRate this
  = Returned tt (neuron_updated delta learningRate inputs this).
Proof.
  intros Hin. unfold Neuron.updateWeights, bind at 1, read at 1. rewrite Hin.
  unfold for_range, bind at 1.
  pose (g := fun (i : nat) (n : Neuron.t) =>
               Neuron.set_weights
                 (<[i := nth i (Neuron.weights n) NaN
                         + learningRate * delta * nth i inputs NaN]>
                    (Neuron.weights n)) n).
  match goal with
  | |- context [for_of ?idx tt ?body this] =>
      destruct (fun H => for_of_pure (fun n => Neuron.lastInputs n = Some inputs)
                                     body g H idx this) as [-> _]
  end.
  - intros i n Hn. unfold bind, read, runtime, modify. rewrite Hn. simpl.
    split; [reflexivity | exact Hn].
  - exact Hin.
  - unfold modify. f_equal.
    assert (Hfold : forall l n,
               fold_left (fun s x => g x s) l n
               = Neuron.set_weights
                   (add_steps (learningRate * delta) inputs l (Neuron.weights n)) n).
    { induction l as [| i l IH]; intros n; simpl.
      - destruct n; reflexivity.
      - rewrite IH. destruct n; reflexivity. }
    rewrite Hfold, add_steps_imap. unfold Neuron.set_bias, Neuron.set_weights. simpl.
    rewrite Hin. reflexivity.
Qed.

(** C7.  Without a forward pass ([lastInputs] is [null]),
    [updateWeights] throws the state error and leaves the neuron as it
    was.  Otherwise it returns, every [weights[i]] has become
    [weights[i] + learningRate * delta * lastInputs[i]], [bias] has become
    [bias + learningRate * delta], and the caches are untouched. *)
Theorem updateWeights_spec (this : Neuron.t) (delta learningRate : number) :
  (Neuron.lastInputs this = None ->
   Neuron.updateWeights delta learningRate this = Thrown (Error MsgNoLastInputs) this /\
   kind_of (Error MsgNoLastInputs) = Some StateError) /\
  (forall inputs, Neuron.lastInputs this = Some inputs ->
   exists this',
     Neuron.updateWeights delta learningRate this = Returned tt this' /\
     length (Neuron.weights this') = length (Neuron.weights this) /\
     (forall i w, Neuron.weights this !! i = Some w ->
        Neuron.weights this' !! i = Some (w + learningRate * delta * nth i inputs NaN)) /\
     Neuron.bias this' = Neuron.bias this + learningRate * delta /\
     Neuron.lastInputs this' = Neuron.lastInputs this /\
     Neuron.lastOutput this' = Neuron.lastOutput this).
Proof.
  split.
  - intros H. split; [apply updateWeights_no_inputs, H | reflexivity].
  - intros inputs Hin. eexists. split; [apply updateWeights_returns, Hin |].
    simpl. repeat split.
    + apply length_imap.
    + intros i w Hw. rewrite list_lookup_imap, Hw. reflexivity.
    + symmetry. exact Hin.
Qed.

(** The example of the test-suite: weights [0.5, -0.3], bias 0.1, inputs
    [1.0, 0.5], delta 0.2 and learning rate 0.1 give the weights
    [0.52, -0.29] and the bias 0.12. *)
Lemma updateWeights_spec_witness :
  exists this',
    Neuron.updateWeights (Fin 0.2) (Fin 0.1)
      {| Neuron.weights := [Fin 0.5; Fin (-0.3)]; Neuron.bias := Fin 0.1;
         Neuron.lastInputs := Some [Fin 1; Fin 0.5]; Neuron.lastOutput := None |}
    = Returned tt this' /\
    Neuron.weights this' !! 0%nat = Some (Fin 0.52) /\
    Neuron.weights this' !! 1%nat = Some (Fin (-0.29)) /\
    Neuron.bias this' = Fin 0.12.
Proof.
  destruct (updateWeights_spec
              {| Neuron.weights := [Fin 0.5; Fin (-0.3)]; Neuron.bias := Fin 0.1;
                 Neuron.lastInputs := Some [Fin 1; Fin 0.5]; Neuron.lastOutput := None |}
              (Fin 0.2) (Fin 0.1)) as [_ H].
  destruct (H [Fin 1; Fin 0.5] eq_refl) as (this' & Hrun & _ & Hw & Hb & _).
  exists this'. split; [exact Hrun |].
  split; [| split].
  - rewrite (Hw 0%nat (Fin 0.5) eq_refl). cbn. do 2 f_equal. lra.
  - rewrite (Hw 1%nat (Fin (-0.3)) eq_refl). cbn. do 2 f_equal. lra.
  - rewrite Hb. cbn. f_equal. lra.
Defined.

End UpdateWeights.

(** ** A new [Neuron] *)

Section NewNeuron.
Import Num.
Local Open Scope js_scope.

(** Drawing one random number per element of [l]. *)
Lemma for_of_random {A} (h : number -> number) (l : list A) (acc : list number)
    (g : generator) :
  for_of l acc (fun acc _ => r <- Math_random ;; ret (acc ++ [h r])) g
  = Returned (acc ++ map (fun k => h (Fin (g k))) (seq 0 (length l)))
             (fun k => g (length l + k)%nat).
Proof.
  revert acc g. induction l as [| x l IH]; intros acc g; simpl.
  - rewrite app_nil_r. reflexivity.
  - unfold Math_random at 1. rewrite IH. f_equal.
    rewrite <- app_assoc. simpl. do 2 f_equal.
    rewrite <- seq_shift, map_map. reflexivity.
Qed.

Lemma limit_fin (n : nat) : Neuron.limit n = Fin (sqrt (6 / (INR n + 1))).
Proof.
  pose proof (pos_INR n) as Hn.
  unfold Neuron.limit. cbn.
  rewrite Reqb_false by lra. cbn.
  rewrite Rltb_false; [reflexivity |].
  apply Rlt_le, Rdiv_lt_0_compat; lra.
Qed.

Lemma scaled_draw_bound (d : draw) (L : R) :
  0 <= L -> Rabs ((d * 2 - 1) * L) <= L.
Proof.
  intros HL. pose proof (draw_range d) as Hd.
  rewrite Rabs_mult, (Rabs_right L) by lra.
  assert (Rabs (d * 2 - 1) <= 1) by (apply Rabs_le; lra).
  nra.
Qed.

Lemma initializeWeights_returns (n : nat) (g : generator) :
  Neuron.initializeWeights n g
  = Returned (map (fun k => Fin ((g k * 2 - 1) * sqrt (6 / (INR n + 1)))) (seq 0 n))
             (fun k => g (n + k)%nat).
Proof.
  unfold Neuron.initializeWeights, map_of. rewrite limit_fin.
  rewrite (for_of_random (fun r => (r * 2 - 1) * Fin (sqrt (6 / (INR n + 1))))).
  rewrite repeat_length. reflexivity.
Qed.

(** C9.  For every input size [n] (in particular every [n > 0]) and every
    sequence of draws from [0, 1), the constructor returns a neuron with
    [n] weights, each of absolute value at most [sqrt (6 / (n + 1))], a
    bias of absolute value at most 0.1, and both caches [null]. *)
Theorem neuron_constructor_bounds (n : nat) (g : generator) :
  exists (this : Neuron.t) (g' : generator),
    Neuron.constructor n g = Returned this g' /\
    length (Neuron.weights this) = n /\
    (forall w, In w (Neuron.weights this) ->
       exists r : R, w = Fin r /\ Rabs r <= sqrt (6 / (INR n + 1))) /\
    (exists b : R, Neuron.bias this = Fin b /\ Rabs b <= 0.1) /\
    Neuron.lastInputs this = None /\
    Neuron.lastOutput this = None.
Proof.
  unfold Neuron.constructor, bind at 1. rewrite initializeWeights_returns.
  unfold bind, Neuron.initializeBias, bind, Math_random, ret.
  do 2 eexists. split; [reflexivity |]. simpl.
  split; [rewrite length_map, length_seq; reflexivity |].
  split; [| split; [| split; reflexivity]].
  - intros w Hw. apply in_map_iff in Hw as (k & <- & _).
    eexists. split; [reflexivity |].
    apply scaled_draw_bound, sqrt_pos.
  - eexists. split; [reflexivity |].
    apply scaled_draw_bound. lra.
Qed.

End NewNeuron.

(** ** Lengths and comparisons *)

Section Lengths.
Import Num.

Lemma Reqb_INR (a b : nat) : Reqb (INR a) (INR b) = Nat.eqb a b.
Proof.
  destruct (Nat.eqb_spec a b) as [-> | Hne].
  - apply Reqb_true. reflexivity.
  - apply Reqb_false. intros H. apply Hne, INR_eq, H.
Qed.

Lemma strict_eq_of_nat (a b : nat) :
  Js.strict_eq (VNum (of_nat a)) (VNum (of_nat b)) = Nat.eqb a b.
Proof. apply Reqb_INR. Qed.

Lemma eq_of_nat (a b : nat) : Num.eq (of_nat a) (of_nat b) = Nat.eqb a b.
Proof. apply Reqb_INR. Qed.

Lemma length_of_array (r : nat) (l : list value) :
  Js.length_of (VArr r l) = Some (VNum (of_nat (length l))).
Proof. reflexivity. Qed.

Lemma length_opt_array (l : list number) :
  Js.length_opt (Js.array l) = VNum (of_nat (length l)).
Proof. unfold Js.array, Js.length_opt. simpl. rewrite length_map. reflexivity. Qed.

Lemma elements_array (l : list number) : Js.elements (Js.array l) = map VNum l.
Proof. reflexivity. Qed.

Lemma number_of_elements (l : list number) : map Js.number_of (map VNum l) = l.
Proof. rewrite map_map. simpl. apply map_id. Qed.

Lemma Zfloor_INR (n : nat) : Zfloor (INR n) = Z.of_nat n.
Proof. rewrite INR_IZR_INZ. apply ZfloorZ. Qed.

Lemma to_nat_of_nat (n : nat) : to_nat (of_nat n) = n.
Proof. unfold to_nat, of_nat. rewrite Zfloor_INR. apply Nat2Z.id. Qed.

Lemma isInteger_of_nat (n : nat) : isInteger (of_nat n) = true.
Proof.
  unfold isInteger, of_nat. rewrite Zfloor_INR, <- INR_IZR_INZ.
  apply Reqb_true. reflexivity.
Qed.

End Lengths.

(** ** [validateTrainingData] *)

Section TrainingData.
Import Num.
Context (coerce : value -> number).

Lemma validateTrainingData_readonly {S} (data : value) :
  readonly (@Network.validateTrainingData S data).
Proof.
  apply readonly_preserves. unfold Network.validateTrainingData.
  repeat first
    [ apply preserves_if
    | apply preserves_throw; typeclasses eauto
    | apply preserves_ret; typeclasses eauto
    | apply preserves_runtime; typeclasses eauto
    | apply preserves_for_of; [typeclasses eauto .. | intros [] ?]
    | apply preserves_bind; [typeclasses eauto .. | | intros ?] ].
Qed.

Lemma train_validation_failure (data : value) (epochs : nat) (options : train_options)
    (w : Network.world) (e : error) :
  Network.validateTrainingData data w = Thrown e w ->
  Network.train coerce data epochs options w = Thrown e w.
Proof. intros H. unfold Network.train. apply bind_thrown, H. Qed.

(** Not an array, or an empty one. *)
Lemma train_rejects_empty (data : value) (epochs : nat) (options : train_options)
    (w : Network.world) :
  Js.isArray data = false \/ Js.elements data = [] ->
  Network.train coerce data epochs options w = Thrown (Error MsgTrainingDataEmpty) w.
Proof.
  intros H. apply train_validation_failure. unfold Network.validateTrainingData.
  destruct H as [-> | ->]; [reflexivity |].
  simpl. rewrite orb_true_r. reflexivity.
Qed.

(** The first example lacks [input] or [target]. *)
Lemma train_rejects_first_example (r : nat) (first : value) (rest : list value)
    (epochs : nat) (options : train_options) (w : Network.world) (input : value) :
  Js.get first "input" = Some input ->
  Js.truthy input = false \/ Js.get first "target" = Some VUndefined ->
  Network.train coerce (VArr r (first :: rest)) epochs options w
  = Thrown (Error MsgExampleFields) w.
Proof.
  intros Hin H. apply train_validation_failure. unfold Network.validateTrainingData.
  simpl. unfold bind at 1. rewrite Hin. simpl.
  destruct (Js.truthy input) eqn:Ht; simpl.
  - destruct H as [H | H]; [discriminate |].
    unfold bind at 1. rewrite H. reflexivity.
  - reflexivity.
Qed.

(** C4 at a failing input.  The second example has no [input] field: the
    loop that compares the sizes reads [example.input.length], the runtime
    raises a TypeError, and the validation error 'Each example must
    contain input and target fields' is never thrown.  The network is
    left as it was. *)
Theorem train_later_example_without_input (epochs : nat) (options : train_options)
    (w : Network.world) :
  Network.train coerce
    (VArr 0 [VObj 1 [("input"%string, Js.array [Fin 1; Fin 2]);
                     ("target"%string, Js.array [Fin 0])];
             VObj 2 [("target"%string, Js.array [Fin 0])]])
    epochs options w
  = Thrown TypeError w /\
  kind_of TypeError = None.
Proof.
  split; [| reflexivity].
  apply train_validation_failure. unfold Network.validateTrainingData.
  cbn. unfold bind, runtime, ret, throw. cbn.
  rewrite !Reqb_true by reflexivity. reflexivity.
Qed.

End TrainingData.

(** ** What the methods leave alone *)

Section Frames.
Import Num.

#[global] Instance neuron_frame_refl : Reflexive neuron_frame.
Proof. intros n. reflexivity. Qed.

#[global] Instance neuron_frame_trans : Transitive neuron_frame.
Proof. intros a b c. unfold neuron_frame. congruence. Qed.

#[global] Instance layer_frame_refl : Reflexive layer_frame.
Proof. intros l. repeat split. reflexivity. Qed.

#[global] Instance layer_frame_trans : Transitive layer_frame.
Proof.
  intros a b c (H1 & H2 & H3 & H4) (H1' & H2' & H3' & H4').
  repeat split; try congruence.
  etransitivity; eassumption.
Qed.

#[global] Instance layers_frame_refl : Reflexive layers_frame.
Proof.
  intros n. unfold layers_frame. reflexivity.
Qed.

#[global] Instance layers_frame_trans : Transitive layers_frame.
Proof.
  intros a b c H H'. unfold layers_frame in *.
  etransitivity; eassumption.
Qed.

#[global] Instance network_frame_refl : Reflexive network_frame.
Proof. intros n. repeat split. reflexivity. Qed.

#[global] Instance network_frame_trans : Transitive network_frame.
Proof.
  intros a b c (H1 & H2 & H3 & H4) (H1' & H2' & H3' & H4').
  repeat split; try congruence. etransitivity; eassumption.
Qed.

Lemma preserves_weaken {S A} (R R' : S -> S -> Prop) (m : M S A) :
  (forall s s', R s s' -> R' s s') -> preserves R m -> preserves R' m.
Proof. intros H Hm s. apply H, Hm. Qed.

Lemma on_index_frame {T A} (R : T -> T -> Prop) `{!Reflexive R} (i : nat) (m : M T A) :
  preserves R m -> preserves (Forall2 R) (on_index i m).
Proof.
  intros Hm l. unfold on_index.
  destruct (l !! i) as [t |] eqn:Hi; simpl.
  - specialize (Hm t).
    assert (H : forall t', R t t' -> Forall2 R l (<[i := t']> l)).
    { intros t' Ht. rewrite <- (list_insert_id l i t Hi) at 1.
      apply Forall2_insert; [reflexivity | exact Ht]. }
    destruct (m t) as [a t' | e t']; simpl in *; apply H, Hm.
  - reflexivity.
Qed.

Lemma map_objects_frame {T B} (R : T -> T -> Prop) `{!Reflexive R} (m : M T B) :
  preserves R m -> preserves (Forall2 R) (map_objects m).
Proof.
  intros Hm l. induction l as [| t rest IH]; simpl.
  - constructor.
  - specialize (Hm t).
    assert (Hrefl : Forall2 R rest rest) by reflexivity.
    destruct (m t) as [b t' | e t']; simpl in *.
    + destruct (map_objects m rest) as [bs rest' | e rest']; simpl in *;
        constructor; assumption.
    + constructor; assumption.
Qed.

(** *** Neuron *)

Lemma Neuron_validateInputs_readonly (inputs : value) :
  readonly (Neuron.validateInputs inputs).
Proof.
  intros s. unfold Neuron.validateInputs, bind, read.
  repeat match goal with |- context [if ?b then _ else _] => destruct b end;
    reflexivity.
Qed.

(** The output that [forward] computes from valid inputs. *)
Lemma Neuron_forward_outcome (inputs : value) (f : number -> number) (s : Neuron.t) :
  (exists e, Neuron.validateInputs inputs s = Thrown e s /\
             Neuron.forward inputs (returning f) s = Thrown e s) \/
  (Neuron.validateInputs inputs s = Returned tt s /\
   Neuron.forward inputs (returning f) s
   = Returned (f (weighted_sum s (map Js.number_of (Js.elements inputs))))
              (neuron_after f (map Js.number_of (Js.elements inputs)) s)).
Proof.
  pose proof (Neuron_validateInputs_readonly inputs s) as Hro.
  unfold Neuron.forward.
  destruct (Neuron.validateInputs inputs s) as [[] s' | e s'] eqn:Hv;
    simpl in Hro; subst s'.
  - right. split; [reflexivity |].
    rewrite (bind_returned _ _ _ _ _ Hv). reflexivity.
  - left. exists e. split; [reflexivity |]. apply bind_thrown, Hv.
Qed.

Lemma Neuron_forward_frame (inputs : value) (f : number -> number) :
  preserves neuron_frame (Neuron.forward inputs (returning f)).
Proof.
  intros s. unfold neuron_frame.
  destruct (Neuron_forward_outcome inputs f s) as [(e & _ & ->) | (_ & ->)];
    reflexivity.
Qed.

Lemma Neuron_updateWeights_frame (delta learningRate : number) :
  preserves neuron_frame (Neuron.updateWeights delta learningRate).
Proof.
  intros s. unfold neuron_frame.
  destruct (Neuron.lastInputs s) as [inputs |] eqn:Hin.
  - rewrite (updateWeights_returns s delta learningRate inputs Hin). simpl.
    rewrite length_imap. reflexivity.
  - rewrite (updateWeights_no_inputs s delta learningRate Hin). reflexivity.
Qed.

(** *** Layer *)

Lemma set_neurons_frame (s : Layer.t) (ns : list Neuron.t) :
  Forall2 neuron_frame (Layer.neurons s) ns -> layer_frame s (Layer.set_neurons ns s).
Proof. intros H. repeat split. exact H. Qed.

Lemma set_outputs_frame (s : Layer.t) (o : list number) :
  layer_frame s (Layer.set_outputs o s).
Proof. repeat split. simpl. apply (layer_frame_refl s). Qed.

Lemma Layer_forward_frame (inputs : value) : preserves layer_frame (Layer.forward inputs).
Proof.
  unfold Layer.forward, Layer.validateInputs.
  apply preserves_bind; [typeclasses eauto .. | | intros _].
  { apply preserves_bind; [typeclasses eauto .. | apply preserves_read, _ | intros this].
    apply preserves_if; [apply preserves_throw | apply preserves_ret]; typeclasses eauto. }
  apply preserves_bind; [typeclasses eauto .. | apply preserves_read, _ | intros this].
  apply preserves_bind; [typeclasses eauto .. | | intros outs].
  { apply (preserves_zoom _ (Forall2 neuron_frame)); [| apply set_neurons_frame].
    apply map_objects_frame; [typeclasses eauto | apply Neuron_forward_frame]. }
  apply preserves_bind; [typeclasses eauto .. | | intros _].
  { apply preserves_modify. intros s. apply set_outputs_frame. }
  apply preserves_ret. typeclasses eauto.
Qed.

Lemma update_neuron_frame (error learningRate : number) (i : nat) (deltas : list number) :
  preserves layer_frame (Layer.update_neuron error learningRate i deltas).
Proof.
  unfold Layer.update_neuron.
  apply preserves_bind; [typeclasses eauto .. | apply preserves_read, _ | intros this].
  apply preserves_bind; [typeclasses eauto .. | | intros _].
  { apply (preserves_zoom _ (Forall2 neuron_frame)); [| apply set_neurons_frame].
    apply on_index_frame; [typeclasses eauto | apply Neuron_updateWeights_frame]. }
  apply preserves_ret. typeclasses eauto.
Qed.

Lemma Layer_backwardHidden_frame (deltas : list number) (weights : list (list number))
    (learningRate : number) :
  preserves layer_frame (Layer.backwardHidden deltas weights learningRate).
Proof.
  unfold Layer.backwardHidden, Layer.validateBackpropagationInputs.
  apply preserves_bind; [typeclasses eauto .. | | intros _].
  { apply preserves_if; [apply preserves_throw | apply preserves_ret]; typeclasses eauto. }
  apply preserves_bind; [typeclasses eauto .. | apply preserves_read, _ | intros this].
  apply preserves_for_range; [typeclasses eauto .. |].
  intros acc i. apply update_neuron_frame.
Qed.

Lemma Layer_reset_frame : preserves layer_frame Layer.reset.
Proof.
  unfold Layer.reset.
  apply preserves_bind; [typeclasses eauto .. | | intros _].
  { apply preserves_modify. intros s. apply set_outputs_frame. }
  apply preserves_modify. intros s. apply set_neurons_frame.
  apply Forall2_fmap_r, Forall_Forall2_diag, Forall_forall.
  intros n _. reflexivity.
Qed.

(** *** Network *)

#[global] Instance world_frame_refl : Reflexive world_frame.
Proof. intros w. unfold world_frame. reflexivity. Qed.

#[global] Instance world_frame_trans : Transitive world_frame.
Proof. intros a b c. unfold world_frame. apply network_frame_trans. Qed.

#[global] Instance world_layers_frame_refl : Reflexive world_layers_frame.
Proof. intros w. unfold world_layers_frame. reflexivity. Qed.

#[global] Instance world_layers_frame_trans : Transitive world_layers_frame.
Proof. intros a b c. unfold world_layers_frame. apply layers_frame_trans. Qed.

Lemma set_layers_frame (s : Network.t) (ls : list Layer.t) :
  Forall2 layer_frame (Network.layers s) ls -> network_frame s (Network.set_layers ls s).
Proof. intros H. repeat split. exact H. Qed.

Lemma on_network_preserves {A} (R : Network.t -> Network.t -> Prop) (m : M Network.t A) :
  preserves R m -> preserves (fun w w' => R (fst w) (fst w')) (Network.on_network m).
Proof.
  intros Hm. unfold Network.on_network.
  apply (preserves_zoom _ R); [exact Hm |]. intros s t' H. exact H.
Qed.

Lemma on_generator_preserves {A} (R : Network.t -> Network.t -> Prop) `{!Reflexive R}
    (m : M generator A) :
  preserves (fun w w' => R (fst w) (fst w')) (Network.on_generator m).
Proof.
  unfold Network.on_generator.
  apply (preserves_zoom _ (fun _ _ => True)); [intros s; exact I |].
  intros s t' _. simpl. reflexivity.
Qed.

Lemma on_layer_frame {A} (i : nat) (m : M Layer.t A) :
  preserves layer_frame m ->
  preserves network_frame (zoom Network.layers Network.set_layers (on_index i m)).
Proof.
  intros Hm.
  apply (preserves_zoom _ (Forall2 layer_frame)); [| apply set_layers_frame].
  apply on_index_frame; [typeclasses eauto | exact Hm].
Qed.

Lemma validatePredictionInputs_readonly (inputs : value) :
  readonly (Network.validatePredictionInputs inputs).
Proof.
  intros s. unfold Network.validatePredictionInputs, bind, read.
  destruct (negb (Js.isArray inputs)); [reflexivity |].
  destruct (length (Network.layers s) =? 0)%nat; [reflexivity |].
  destruct (Network.layers s !! 0%nat); simpl; [| reflexivity].
  match goal with |- context [if ?b then _ else _] => destruct b end; reflexivity.
Qed.

Lemma Network_predict_frame (inputs : value) :
  preserves network_frame (Network.predict inputs).
Proof.
  unfold Network.predict.
  apply preserves_bind; [typeclasses eauto .. | | intros _].
  { apply (preserves_weaken Logic.eq); [intros s s' <-; reflexivity |].
    apply readonly_preserves, validatePredictionInputs_readonly. }
  apply preserves_bind; [typeclasses eauto .. | apply preserves_read, _ | intros this].
  apply preserves_bind; [typeclasses eauto .. | | intros cur].
  { apply preserves_for_range; [typeclasses eauto .. |]. intros acc i.
    apply preserves_bind; [typeclasses eauto .. | | intros outs].
    - apply on_layer_frame, Layer_forward_frame.
    - apply preserves_ret. typeclasses eauto. }
  apply preserves_ret. typeclasses eauto.
Qed.

Lemma backpropagate_hidden_frame (i : nat) (deltas : list number) :
  preserves network_frame (Network.backpropagate_hidden i deltas).
Proof.
  unfold Network.backpropagate_hidden.
  apply preserves_bind; [typeclasses eauto .. | apply preserves_read, _ | intros this].
  apply preserves_bind; [typeclasses eauto .. | apply preserves_runtime, _ | intros next].
  apply on_layer_frame, Layer_backwardHidden_frame.
Qed.

Lemma Network_compile_outcome (s : Network.t) :
  (Network.layers s = [] /\ Network.compile s = Thrown (Error MsgCompileNoLayers) s) \/
  (Network.layers s <> [] /\
   Network.compile s = Returned tt (Network.set_isCompiled true s)).
Proof.
  unfold Network.compile, bind, read.
  destruct (Network.layers s) as [| l ls]; simpl.
  - left. split; reflexivity.
  - right. split; [discriminate | reflexivity].
Qed.

Lemma Network_reset_layers_frame : preserves layers_frame Network.reset.
Proof.
  unfold Network.reset.
  apply preserves_bind; [typeclasses eauto .. | apply preserves_read, _ | intros this].
  apply preserves_bind; [typeclasses eauto .. | | intros _].
  - apply preserves_for_range; [typeclasses eauto .. |]. intros acc i.
    apply (preserves_weaken network_frame); [intros s s' H; apply H |].
    apply on_layer_frame, Layer_reset_frame.
  - apply preserves_modify. intros s. apply (layers_frame_refl s).
Qed.

Section Coercion.
Context (coerce : value -> number).

Lemma Layer_backwardOutput_frame (targets : value) (learningRate : number) :
  preserves layer_frame (Layer.backwardOutput coerce targets learningRate).
Proof.
  unfold Layer.backwardOutput, Layer.validateTargets.
  apply preserves_bind; [typeclasses eauto .. | | intros _].
  { apply preserves_bind; [typeclasses eauto .. | apply preserves_read, _ | intros this].
    apply preserves_if; [apply preserves_throw | apply preserves_ret]; typeclasses eauto. }
  apply preserves_bind; [typeclasses eauto .. | apply preserves_read, _ | intros this].
  apply preserves_for_range; [typeclasses eauto .. |].
  intros acc i.
  apply preserves_bind; [typeclasses eauto .. | apply preserves_read, _ | intros this'].
  apply update_neuron_frame.
Qed.

Lemma calculateError_readonly {S} (predicted : list number) (actual : value) :
  readonly (@Network.calculateError coerce S predicted actual).
Proof.
  intros s. unfold Network.calculateError, bind, runtime.
  destruct (Js.length_of actual); simpl; [| reflexivity].
  match goal with |- context [if ?b then _ else _] => destruct b end; reflexivity.
Qed.

Lemma Network_backpropagate_frame (targets : value) :
  preserves network_frame (Network.backpropagate coerce targets).
Proof.
  unfold Network.backpropagate.
  apply preserves_bind; [typeclasses eauto .. | apply preserves_read, _ | intros this].
  apply preserves_bind; [typeclasses eauto .. | | intros deltas].
  { apply on_layer_frame, Layer_backwardOutput_frame. }
  apply preserves_bind; [typeclasses eauto .. | | intros _].
  { apply preserves_for_of; [typeclasses eauto .. |]. intros acc i.
    apply backpropagate_hidden_frame. }
  apply preserves_ret. typeclasses eauto.
Qed.

Lemma train_example_frame (totalError : number) (example : value) :
  preserves network_frame (Network.train_example coerce totalError example).
Proof.
  unfold Network.train_example.
  apply preserves_bind; [typeclasses eauto .. | apply preserves_runtime, _ | intros input].
  apply preserves_bind; [typeclasses eauto .. | apply Network_predict_frame | intros out].
  apply preserves_bind; [typeclasses eauto .. | apply preserves_runtime, _ | intros target].
  apply preserves_bind; [typeclasses eauto .. | | intros err].
  { apply (preserves_weaken Logic.eq); [intros s s' <-; reflexivity |].
    apply readonly_preserves, calculateError_readonly. }
  apply preserves_bind; [typeclasses eauto .. | apply Network_backpropagate_frame | intros _].
  apply preserves_ret. typeclasses eauto.
Qed.

Lemma evaluateValidation_frame (validationData : value) :
  preserves network_frame (Network.evaluateValidation coerce validationData).
Proof.
  unfold Network.evaluateValidation.
  apply preserves_bind; [typeclasses eauto .. | apply preserves_runtime, _ | intros exs].
  apply preserves_bind; [typeclasses eauto .. | | intros total].
  { apply preserves_for_of; [typeclasses eauto .. |]. intros acc example.
    apply preserves_bind; [typeclasses eauto .. | apply preserves_runtime, _ | intros input].
    apply preserves_bind; [typeclasses eauto .. | apply Network_predict_frame | intros out].
    apply preserves_bind; [typeclasses eauto .. | apply preserves_runtime, _ | intros target].
    apply preserves_bind; [typeclasses eauto .. | | intros err].
    { apply (preserves_weaken Logic.eq); [intros s s' <-; reflexivity |].
      apply readonly_preserves, calculateError_readonly. }
    apply preserves_ret. typeclasses eauto. }
  apply preserves_bind; [typeclasses eauto .. | apply preserves_runtime, _ | intros len].
  apply preserves_ret. typeclasses eauto.
Qed.

Lemma trainEpoch_frame (trainingData : value) :
  preserves world_frame (Network.trainEpoch coerce trainingData).
Proof.
  unfold Network.trainEpoch.
  apply preserves_bind; [typeclasses eauto .. | apply preserves_runtime, _ | intros copy].
  apply preserves_bind; [typeclasses eauto .. | | intros shuffled].
  { apply (on_generator_preserves network_frame). }
  apply preserves_bind; [typeclasses eauto .. | | intros total].
  { apply (on_network_preserves network_frame).
    apply preserves_for_of; [typeclasses eauto .. |]. intros acc example.
    apply train_example_frame. }
  apply preserves_bind; [typeclasses eauto .. | apply preserves_runtime, _ | intros len].
  apply preserves_ret. typeclasses eauto.
Qed.

End Coercion.

End Frames.

(** ** Finite numbers *)

Section Finite.
Import Num.
Local Open Scope js_scope.

Lemma finite_Fin (r : R) : finite (Fin r).
Proof. reflexivity. Qed.

Lemma finite_inv (x : number) : finite x -> exists r, x = Fin r.
Proof. destruct x; try discriminate. intros _. eexists. reflexivity. Qed.

Lemma finite_add (a b : number) : finite a -> finite b -> finite (a + b).
Proof. intros [x ->]%finite_inv [y ->]%finite_inv. reflexivity. Qed.

Lemma finite_sub (a b : number) : finite a -> finite b -> finite (a - b).
Proof. intros [x ->]%finite_inv [y ->]%finite_inv. reflexivity. Qed.

Lemma finite_mul (a b : number) : finite a -> finite b -> finite (a * b).
Proof. intros [x ->]%finite_inv [y ->]%finite_inv. reflexivity. Qed.

Lemma finite_apply (f : number -> number) (x : number) :
  finite_preserving f -> finite x -> finite (f x).
Proof. intros Hf [r ->]%finite_inv. apply Hf. Qed.

Lemma finite_nth (l : list number) (i : nat) :
  Forall finite l -> (i < length l)%nat -> finite (nth i l NaN).
Proof.
  intros Hl Hi. destruct (lookup_lt_is_Some_2 l i Hi) as [x Hx].
  rewrite (nth_lookup_Some l i NaN x Hx).
  eapply Forall_lookup_1; eassumption.
Qed.

Lemma reduce_ind {A B} (P : B -> Prop) (f : B -> A -> nat -> B) (init : B) (l : list A) :
  P init ->
  (forall acc x i, P acc -> l !! i = Some x -> P (f acc x i)) ->
  P (reduce f init l).
Proof.
  intros Hinit Hstep. unfold reduce.
  assert (Hps : Forall (fun p => l !! fst p = Some (snd p))
                       (imap (fun i x => (i, x)) l)).
  { apply Forall_forall. intros [i x] Hin.
    apply elem_of_lookup_imap_1 in Hin as (j & y & Heq & Hj).
    injection Heq as -> ->. exact Hj. }
  revert Hps init Hinit. generalize (imap (fun i x => (i, x)) l) as ps.
  induction ps as [| [i x] ps IH]; intros Hps init Hinit; simpl.
  - exact Hinit.
  - inversion Hps as [| ? ? Hp Hps']; subst.
    apply IH; [exact Hps' |]. apply Hstep; assumption.
Qed.

Lemma weighted_sum_finite (this : Neuron.t) (xs : list number) :
  neuron_ok (length xs) this -> Forall finite xs -> finite (weighted_sum this xs).
Proof.
  intros (Hlen & Hw & Hb) Hxs. unfold weighted_sum.
  apply reduce_ind; [exact Hb |].
  intros acc x i Hacc Hx. apply finite_add; [exact Hacc |].
  apply finite_mul.
  - eapply Forall_lookup_1; eassumption.
  - apply finite_nth; [exact Hw |]. rewrite Hlen. eapply lookup_lt_Some, Hx.
Qed.

End Finite.

(** ** The forward pass *)

Section Forward.
Import Num.
Local Open Scope js_scope.

Lemma existsb_not_finite (xs : list number) :
  Forall finite xs ->
  existsb (fun input => negb (Js.is_number input) || negb (Js.isFinite input))
          (map VNum xs) = false.
Proof.
  induction 1 as [| x xs Hx _ IH]; simpl; [reflexivity |].
  rewrite IH, orb_false_r. unfold Js.isFinite. simpl. rewrite Hx. reflexivity.
Qed.

Lemma Neuron_forward_returns (v : value) (xs : list number) (f : number -> number)
    (this : Neuron.t) :
  array_of v xs -> length xs = length (Neuron.weights this) -> Forall finite xs ->
  Neuron.forward v (returning f) this = Returned (f (weighted_sum this xs)) (neuron_after f xs this).
Proof.
  intros [r ->] Hlen Hxs.
  destruct (Neuron_forward_outcome (VArr r (map VNum xs)) f this)
    as [(e & Hv & _) | (_ & Hf)].
  - exfalso. revert Hv. unfold Neuron.validateInputs. simpl.
    unfold Js.length_opt. simpl. rewrite length_map, Hlen.
    rewrite Reqb_INR, Nat.eqb_refl. simpl.
    rewrite existsb_not_finite by exact Hxs. discriminate.
  - rewrite Hf. simpl. rewrite number_of_elements. reflexivity.
Qed.

Lemma map_objects_pure {T B} (m : M T B) (g : T -> B) (h : T -> T) (l : list T) :
  Forall (fun t => m t = Returned (g t) (h t)) l ->
  map_objects m l = Returned (map g l) (map h l).
Proof.
  induction 1 as [| t l Ht _ IH]; simpl; [reflexivity |].
  rewrite Ht, IH. reflexivity.
Qed.

(** The outputs and the state of a layer after [forward]. *)
Lemma Layer_forward_returns (v : value) (xs : list number) (l : Layer.t) :
  layer_ok l -> array_of v xs -> length xs = inputs_of l -> Forall finite xs ->
  Layer.forward v l
  = Returned
      (map (fun n => func (Layer.activationFunction l) (weighted_sum n xs))
           (Layer.neurons l))
      (Layer.set_outputs
         (map (fun n => func (Layer.activationFunction l) (weighted_sum n xs))
              (Layer.neurons l))
         (Layer.set_neurons
            (map (neuron_after (func (Layer.activationFunction l)) xs) (Layer.neurons l))
            l)).
Proof.
  intros (Hin & Hout & _ & _ & Hn & Hns & _) Harr Hlen Hxs.
  unfold Layer.forward, Layer.validateInputs. simpl.
  destruct Harr as [r ->]. simpl.
  unfold Js.length_opt. simpl. rewrite length_map, Hlen, Hin. simpl.
  rewrite Reqb_INR, Nat.eqb_refl. simpl.
  rewrite (map_objects_pure _
             (fun n => func (Layer.activationFunction l) (weighted_sum n xs))
             (neuron_after (func (Layer.activationFunction l)) xs)).
  - reflexivity.
  - eapply Forall_impl; [exact Hns |]. intros n (Hw & _).
    apply Neuron_forward_returns; [exists r; reflexivity | congruence | exact Hxs].
Qed.

Lemma Layer_forward_ok (v : value) (xs : list number) (l : Layer.t) :
  layer_ok l -> array_of v xs -> length xs = inputs_of l -> Forall finite xs ->
  returns (Layer.forward v) l
    (fun outs l' =>
       layer_ok l' /\ layer_forwarded l' /\ layer_frame l l' /\
       length outs = outputs_of l /\ Forall finite outs /\
       Layer.outputs l' = outs).
Proof.
  intros Hok Harr Hlen Hxs.
  eexists _, _. split; [apply (Layer_forward_returns v xs l); assumption |].
  destruct Hok as (Hin & Hout & Hpi & Hpo & Hn & Hns & Hf & Hd).
  assert (Houts : Forall finite
            (map (fun n => func (Layer.activationFunction l) (weighted_sum n xs))
                 (Layer.neurons l))).
  { apply Forall_fmap. eapply Forall_impl; [exact Hns |]. intros n Hnok. simpl.
    apply finite_apply; [exact Hf |].
    apply weighted_sum_finite; [rewrite Hlen; exact Hnok | exact Hxs]. }
  repeat split; simpl; try assumption.
  - rewrite length_map. exact Hn.
  - apply Forall_fmap. eapply Forall_impl; [exact Hns |]. intros n H. exact H.
  - rewrite !length_map. reflexivity.
  - apply Forall_fmap, Forall_forall. intros n _. simpl.
    exists xs. repeat split; assumption.
  - apply Forall2_fmap_r, Forall_Forall2_diag, Forall_forall. intros n _. reflexivity.
  - rewrite length_map. exact Hn.
Qed.

End Forward.

(** ** The backward pass of a layer *)

Section Backward.
Import Num.
Local Open Scope js_scope.

Lemma layer_frame_sizes (l l' : Layer.t) :
  layer_frame l l' ->
  inputs_of l' = inputs_of l /\ outputs_of l' = outputs_of l /\
  length (Layer.neurons l') = length (Layer.neurons l).
Proof.
  intros (Hs & Hi & _ & Hn). unfold inputs_of, outputs_of. rewrite Hs, Hi.
  repeat split. symmetry. eapply Forall2_length, Hn.
Qed.

Lemma neuron_updated_ok (n : nat) (delta learningRate : number) (inputs : list number)
    (this : Neuron.t) :
  neuron_ok n this -> length inputs = n -> Forall finite inputs ->
  finite delta -> finite learningRate ->
  neuron_ok n (neuron_updated delta learningRate inputs this).
Proof.
  intros (Hlen & Hw & Hb) Hin Hfin Hd Hlr. unfold neuron_ok. simpl.
  split; [rewrite length_imap; exact Hlen |]. split.
  - apply Forall_lookup_2. intros i x. rewrite list_lookup_imap.
    destruct (Neuron.weights this !! i) as [w |] eqn:Hi; [| discriminate].
    simpl. intros [= <-]. apply finite_add.
    + apply (Forall_lookup_1 _ _ _ _ Hw Hi).
    + apply finite_mul; [apply finite_mul; assumption |].
      apply finite_nth; [exact Hfin |].
      rewrite Hin, <- Hlen. eapply lookup_lt_Some, Hi.
  - apply finite_add; [exact Hb | apply finite_mul; assumption].
Qed.

Lemma update_neuron_ok (error learningRate : number) (i : nat) (deltas : list number)
    (l : Layer.t) :
  layer_ok l -> layer_forwarded l -> finite error -> finite learningRate ->
  (i < length (Layer.neurons l))%nat ->
  returns (Layer.update_neuron error learningRate i deltas) l
    (fun ds l' =>
       layer_ok l' /\ layer_forwarded l' /\ layer_frame l l' /\
       Layer.outputs l' = Layer.outputs l /\
       exists d, ds = deltas ++ [d] /\ finite d).
Proof.
  intros Hok Hfw Herr Hlr Hi.
  destruct Hok as (Hin & Hout & Hpi & Hpo & Hn & Hns & Hf & Hd).
  destruct Hfw as (Hol & Hofin & Hnf).
  destruct (lookup_lt_is_Some_2 _ i Hi) as [n Hni].
  pose proof (Forall_lookup_1 _ _ _ _ Hns Hni) as Hnok.
  pose proof (Forall_lookup_1 _ _ _ _ Hnf Hni) as (ins & Hlast & Hinslen & Hinsfin).
  set (delta := error * derivative (Layer.activationFunction l)
                                   (nth i (Layer.outputs l) NaN)).
  assert (Hdelta : finite delta).
  { apply finite_mul; [exact Herr |]. apply finite_apply; [exact Hd |].
    apply finite_nth; [exact Hofin | lia]. }
  exists (deltas ++ [delta]),
         (Layer.set_neurons (<[i := neuron_updated delta learningRate ins n]>
                               (Layer.neurons l)) l).
  split.
  { unfold Layer.update_neuron. simpl. unfold on_index. rewrite Hni.
    fold delta. rewrite (updateWeights_returns n delta learningRate ins Hlast).
    reflexivity. }
  assert (Hnok' : neuron_ok (inputs_of l) (neuron_updated delta learningRate ins n)).
  { apply neuron_updated_ok; assumption. }
  repeat split; simpl; try assumption.
  - rewrite length_insert. exact Hn.
  - apply Forall_insert; assumption.
  - rewrite length_insert. exact Hol.
  - apply Forall_insert; [exact Hnf |]. exists ins. repeat split; assumption.
  - rewrite <- (list_insert_id _ _ _ Hni) at 1.
    apply Forall2_insert; [reflexivity |].
    unfold neuron_frame. simpl. rewrite length_imap. reflexivity.
  - exists delta. split; [reflexivity | exact Hdelta].
Qed.

(** The loop over the neurons that both backward passes run. *)
Lemma update_loop_ok (body : list number -> nat -> M Layer.t (list number)) (l : Layer.t) :
  layer_ok l -> layer_forwarded l ->
  (forall deltas i s,
     layer_ok s -> layer_forwarded s -> layer_frame l s ->
     Layer.outputs s = Layer.outputs l ->
     (i < length (Layer.neurons l))%nat ->
     returns (body deltas i) s
       (fun ds s' =>
          layer_ok s' /\ layer_forwarded s' /\ layer_frame s s' /\
          Layer.outputs s' = Layer.outputs s /\
          exists d, ds = deltas ++ [d] /\ finite d)) ->
  returns (for_range (length (Layer.neurons l)) [] body) l
    (fun ds l' =>
       layer_ok l' /\ layer_forwarded l' /\ layer_frame l l' /\
       Layer.outputs l' = Layer.outputs l /\
       length ds = length (Layer.neurons l) /\ Forall finite ds).
Proof.
  intros Hok Hfw Hbody. unfold for_range.
  set (n := length (Layer.neurons l)).
  pose (I := fun (rest : list nat) (acc : list number) (s : Layer.t) =>
               layer_ok s /\ layer_forwarded s /\ layer_frame l s /\
               Layer.outputs s = Layer.outputs l /\
               (length acc + length rest = n)%nat /\ Forall finite acc /\
               Forall (fun i => (i < n)%nat) rest).
  eapply returns_weaken.
  - apply (returns_for_of I).
    + intros i rest acc s (Hs1 & Hs2 & Hs3 & Hs4 & Hs5 & Hs6 & Hs7).
      inversion Hs7 as [| ? ? Hi Hrest]; subst.
      eapply returns_weaken; [apply Hbody; assumption |].
      intros ds s' (H1 & H2 & H3 & H4 & d & -> & Hd).
      unfold I. split_and!; try assumption.
      * etransitivity; eassumption.
      * congruence.
      * rewrite length_app. simpl in *. lia.
      * apply Forall_app. split; [exact Hs6 | constructor; [exact Hd | constructor]].
    + unfold I. split_and!; try assumption; try reflexivity.
      * simpl. rewrite length_seq. reflexivity.
      * constructor.
      * apply Forall_forall. intros i Hi%elem_of_seq. lia.
  - intros ds l' (H1 & H2 & H3 & H4 & H5 & H6 & _).
    split_and!; try assumption. simpl in H5. lia.
Qed.

Lemma calculateNeuronError_finite (i : nat) (deltas : list number)
    (weights : list (list number)) (n : nat) :
  length deltas = length weights -> Forall finite deltas ->
  Forall (fun ws => length ws = n /\ Forall finite ws) weights ->
  (i < n)%nat ->
  finite (Layer.calculateNeuronError i deltas weights).
Proof.
  intros Hlen Hd Hw Hi. unfold Layer.calculateNeuronError.
  apply reduce_ind; [reflexivity |].
  intros acc delta j Hacc Hj. apply finite_add; [exact Hacc |].
  apply finite_mul; [apply (Forall_lookup_1 _ _ _ _ Hd Hj) |].
  assert (Hjw : (j < length weights)%nat).
  { rewrite <- Hlen. eapply lookup_lt_Some, Hj. }
  destruct (lookup_lt_is_Some_2 _ _ Hjw) as [ws Hws].
  rewrite (nth_lookup_Some _ _ _ _ Hws).
  destruct (Forall_lookup_1 _ _ _ _ Hw Hws) as [Hwl Hwf].
  apply finite_nth; [exact Hwf | lia].
Qed.

Lemma Layer_backwardHidden_ok (deltas : list number) (weights : list (list number))
    (learningRate : number) (l : Layer.t) :
  layer_ok l -> layer_forwarded l -> finite learningRate ->
  length deltas = length weights -> Forall finite deltas ->
  Forall (fun ws => length ws = outputs_of l /\ Forall finite ws) weights ->
  returns (Layer.backwardHidden deltas weights learningRate) l
    (fun ds l' =>
       layer_ok l' /\ layer_forwarded l' /\ layer_frame l l' /\
       Layer.outputs l' = Layer.outputs l /\
       length ds = outputs_of l /\ Forall finite ds).
Proof.
  intros Hok Hfw Hlr Hlen Hd Hw.
  unfold Layer.backwardHidden, Layer.validateBackpropagationInputs.
  rewrite Hlen, Nat.eqb_refl. simpl.
  assert (Hn : length (Layer.neurons l) = outputs_of l) by apply Hok.
  eapply returns_weaken.
  - apply (update_loop_ok _ l Hok Hfw).
    intros ds i s Hs1 Hs2 Hs3 Hs4 Hi.
    apply (update_neuron_ok _ learningRate i ds s Hs1 Hs2); [| exact Hlr |].
    + apply (calculateNeuronError_finite i deltas weights (outputs_of l) Hlen Hd Hw). lia.
    + destruct (layer_frame_sizes _ _ Hs3) as (_ & _ & ->). exact Hi.
  - intros ds l' (H1 & H2 & H3 & H4 & H5 & H6).
    split_and!; try assumption. congruence.
Qed.

Section Coercion.
Context (coerce : value -> number).

Lemma Layer_backwardOutput_ok (targets : value) (ts : list number)
    (learningRate : number) (l : Layer.t) :
  layer_ok l -> layer_forwarded l -> finite learningRate ->
  array_of targets ts -> length ts = outputs_of l -> Forall finite ts ->
  returns (Layer.backwardOutput coerce targets learningRate) l
    (fun ds l' =>
       layer_ok l' /\ layer_forwarded l' /\ layer_frame l l' /\
       Layer.outputs l' = Layer.outputs l /\
       length ds = outputs_of l /\ Forall finite ds).
Proof.
  intros Hok Hfw Hlr [r ->] Hlen Hts.
  assert (Hn : length (Layer.neurons l) = outputs_of l) by apply Hok.
  unfold Layer.backwardOutput.
  apply (returns_bind_eq _ _ l l tt).
  { unfold Layer.validateTargets, Js.length_opt. simpl.
    rewrite length_map, Hlen, Hn, Reqb_INR, Nat.eqb_refl. reflexivity. }
  apply (returns_bind_eq _ _ l l l); [reflexivity |].
  eapply returns_weaken.
  - apply (update_loop_ok _ l Hok Hfw).
    intros ds i s Hs1 Hs2 Hs3 Hs4 Hi.
    apply (returns_bind_eq _ _ s s s); [reflexivity |].
    apply (update_neuron_ok _ learningRate i ds s Hs1 Hs2); [| exact Hlr |].
    + apply finite_sub.
      * assert (Hit : (i < length ts)%nat) by lia.
        destruct (lookup_lt_is_Some_2 _ _ Hit) as [t Ht].
        unfold Js.at_index.
        rewrite (nth_lookup_Some (map VNum ts) i VUndefined (VNum t)).
        -- simpl. apply (Forall_lookup_1 _ _ _ _ Hts Ht).
        -- rewrite list_lookup_fmap, Ht. reflexivity.
      * rewrite Hs4. apply finite_nth; [apply Hfw |].
        destruct Hfw as (-> & _). exact Hi.
    + destruct (layer_frame_sizes _ _ Hs3) as (_ & _ & ->). exact Hi.
  - intros ds l' (H1 & H2 & H3 & H4 & H5 & H6).
    split_and!; try assumption. congruence.
Qed.

End Coercion.

End Backward.

(** ** Prediction *)

Section Predict.
Import Num.
Local Open Scope js_scope.

Lemma seq_cons_inv (k m i : nat) (rest : list nat) :
  seq k m = i :: rest -> i = k /\ exists m', m = S m' /\ rest = seq (S k) m'.
Proof.
  destruct m as [| m']; simpl; [discriminate |].
  intros [= <- <-]. split; [reflexivity |]. exists m'. split; reflexivity.
Qed.

Lemma chained_frame (ls ls' : list Layer.t) :
  Forall2 layer_frame ls ls' -> chained ls -> chained ls'.
Proof.
  intros HF Hc i a' b' Ha' Hb'.
  destruct (Forall2_lookup_r _ _ _ _ _ HF Ha') as (a & Ha & Hfa).
  destruct (Forall2_lookup_r _ _ _ _ _ HF Hb') as (b & Hb & Hfb).
  destruct Hfa as (Hsa & _), Hfb as (_ & Hib & _).
  rewrite <- Hib, <- Hsa. eapply Hc; eassumption.
Qed.

Lemma chained_sizes (ls : list Layer.t) (i : nat) (a b : Layer.t) :
  chained ls -> ls !! i = Some a -> ls !! S i = Some b -> inputs_of b = outputs_of a.
Proof. intros Hc Ha Hb. unfold inputs_of, outputs_of. rewrite (Hc i a b Ha Hb). reflexivity. Qed.

Lemma network_frame_sizes (n n' : Network.t) :
  network_frame n n' ->
  network_inputs n' = network_inputs n /\ network_outputs n' = network_outputs n /\
  length (Network.layers n') = length (Network.layers n).
Proof.
  intros (_ & _ & _ & HF). unfold layers_frame in HF.
  pose proof (Forall2_length _ _ _ HF) as Hlen.
  split; [| split; [| congruence]].
  - unfold network_inputs.
    destruct (Network.layers n !! 0%nat) as [l |] eqn:Hl.
    + destruct (Forall2_lookup_l _ _ _ _ _ HF Hl) as (l' & -> & Hf).
      apply layer_frame_sizes in Hf. apply Hf.
    + apply lookup_ge_None in Hl.
      rewrite (lookup_ge_None_2 (Network.layers n')) by lia. reflexivity.
  - unfold network_outputs. rewrite !last_lookup, <- Hlen.
    destruct (Network.layers n !! pred (length (Network.layers n))) as [l |] eqn:Hl.
    + destruct (Forall2_lookup_l _ _ _ _ _ HF Hl) as (l' & -> & Hf).
      apply layer_frame_sizes in Hf. apply Hf.
    + apply lookup_ge_None in Hl.
      rewrite (lookup_ge_None_2 (Network.layers n')) by lia. reflexivity.
Qed.

(** Replacing a layer by one with the same frame keeps the network well
    formed. *)
Lemma network_ok_insert (s : Network.t) (i : nat) (l l' : Layer.t) :
  network_ok s -> Network.layers s !! i = Some l ->
  layer_ok l' -> layer_frame l l' ->
  network_ok (Network.set_layers (<[i := l']> (Network.layers s)) s) /\
  network_frame s (Network.set_layers (<[i := l']> (Network.layers s)) s).
Proof.
  intros (Hne & Hall & Hch & Hlr) Hi Hok Hfr.
  assert (HF : Forall2 layer_frame (Network.layers s) (<[i := l']> (Network.layers s))).
  { rewrite <- (list_insert_id _ _ _ Hi) at 1. apply Forall2_insert; [reflexivity | exact Hfr]. }
  split.
  - split_and!; simpl.
    + intros Hnil. apply (f_equal length) in Hnil. rewrite length_insert in Hnil.
      destruct (Network.layers s); [contradiction | discriminate].
    + apply Forall_insert; assumption.
    + eapply chained_frame; eassumption.
    + exact Hlr.
  - apply set_layers_frame, HF.
Qed.

Lemma validatePredictionInputs_returns (v : value) (xs : list number) (s : Network.t) :
  network_ok s -> array_of v xs -> length xs = network_inputs s ->
  Network.validatePredictionInputs v s = Returned tt s.
Proof.
  intros (Hne & Hall & _) [r ->] Hlen.
  unfold Network.validatePredictionInputs, network_inputs in *. simpl.
  destruct (Network.layers s) as [| l ls] eqn:Hls; [contradiction |]. simpl in *.
  inversion Hall as [| ? ? Hl _]; subst.
  destruct Hl as (-> & _).
  unfold Js.length_opt. simpl. rewrite length_map, Hlen, Reqb_INR, Nat.eqb_refl.
  reflexivity.
Qed.

(** [predict] on a well-formed network and an array of finite numbers of
    the right length returns one finite number per output neuron, leaves
    every layer with its outputs and inputs cached, and changes nothing
    else. *)
Lemma Network_predict_ok (v : value) (xs : list number) (s : Network.t) :
  network_ok s -> array_of v xs -> length xs = network_inputs s -> Forall finite xs ->
  returns (Network.predict v) s
    (fun outs s' =>
       network_ok s' /\ Forall layer_forwarded (Network.layers s') /\
       network_frame s s' /\
       length outs = network_outputs s /\ Forall finite outs).
Proof.
  intros Hok Harr Hlen Hxs.
  unfold Network.predict.
  apply (returns_bind_eq _ _ s s tt).
  { eapply validatePredictionInputs_returns; eassumption. }
  apply (returns_bind_eq _ _ s s s); [reflexivity |].
  set (n := length (Network.layers s)).
  pose (I := fun (rest : list nat) (cur : value) (s' : Network.t) =>
     exists k ys,
       rest = seq k (n - k) /\ (k <= n)%nat /\
       array_of cur ys /\ Forall finite ys /\
       network_ok s' /\ network_frame s s' /\
       Forall layer_forwarded (take k (Network.layers s')) /\
       (forall l, Network.layers s' !! k = Some l -> length ys = inputs_of l) /\
       (k = n -> length ys = network_outputs s)).
  apply returns_bind. unfold for_range.
  eapply returns_weaken.
  - apply (returns_for_of I).
    + intros i rest cur s' (k & ys & Hrest & Hk & Hcur & Hys & Hs' & Hfr & Hfw & Hin & _).
      symmetry in Hrest. apply seq_cons_inv in Hrest as (-> & m' & Hm & ->).
      destruct (network_frame_sizes _ _ Hfr) as (_ & Hout & Hlen').
      assert (Hkn : (k < length (Network.layers s'))%nat) by (rewrite Hlen'; fold n; lia).
      destruct (lookup_lt_is_Some_2 _ _ Hkn) as [l Hl].
      assert (Hlok : layer_ok l).
      { destruct Hs' as (_ & Hall & _). apply (Forall_lookup_1 _ _ _ _ Hall Hl). }
      destruct (Layer_forward_ok cur ys l Hlok Hcur (Hin l Hl) Hys)
        as (outs & l' & Hrun & Hl'ok & Hl'fw & Hl'fr & Hlo & Hfo & _).
      destruct (network_ok_insert s' k l l' Hs' Hl Hl'ok Hl'fr) as [Hs'' Hfr''].
      apply returns_bind. apply returns_zoom.
      apply (returns_on_index k _ _ l _ Hl).
      exists outs, l'. split; [exact Hrun |].
      apply returns_ret.
      exists (S k), outs. split_and!.
      * f_equal. lia.
      * lia.
      * exists 0%nat. reflexivity.
      * exact Hfo.
      * exact Hs''.
      * etransitivity; eassumption.
      * simpl. rewrite (take_S_r _ k l') by (apply list_lookup_insert_eq; exact Hkn).
        rewrite take_insert_ge by lia.
        apply Forall_app. split; [exact Hfw | constructor; [exact Hl'fw | constructor]].
      * simpl. intros l2 Hl2. rewrite list_lookup_insert_ne in Hl2 by lia.
        rewrite Hlo. symmetry.
        destruct Hs' as (_ & _ & Hch & _).
        apply (chained_sizes _ k l l2 Hch Hl Hl2).
      * intros Hn. rewrite Hlo, <- Hout. unfold network_outputs.
        rewrite last_lookup.
        replace (pred (length (Network.layers s'))) with k by lia.
        rewrite Hl. reflexivity.
    + exists 0%nat, xs. split_and!.
      * rewrite Nat.sub_0_r. reflexivity.
      * lia.
      * destruct Harr as [r ->]. exists 0%nat. reflexivity.
      * exact Hxs.
      * exact Hok.
      * reflexivity.
      * constructor.
      * intros l Hl. rewrite Hlen. unfold network_inputs. rewrite Hl. reflexivity.
      * intros Hn. destruct Hok as (Hne & _).
        destruct (Network.layers s); [contradiction | discriminate].
  - intros cur s' (k & ys & Hrest & Hk & [r ->] & Hys & Hs' & Hfr & Hfw & _ & Hout).
    assert (k = n) as ->.
    { destruct (decide (k = n)) as [-> | Hne]; [reflexivity |].
      destruct (n - k)%nat eqn:Hnk; [lia | discriminate]. }
    apply returns_ret. simpl. rewrite number_of_elements.
    split_and!; try assumption.
    + destruct (network_frame_sizes _ _ Hfr) as (_ & _ & Hlen').
      rewrite take_ge in Hfw by (rewrite Hlen'; fold n; lia). exact Hfw.
    + apply Hout. reflexivity.
Qed.

End Predict.

(** ** Backpropagation *)

Section Backpropagation.
Import Num.
Local Open Scope js_scope.
Context (coerce : value -> number).

Lemma rev_seq_cons_inv (k i : nat) (rest : list nat) :
  rev (seq 0 k) = i :: rest -> exists k', k = S k' /\ i = k' /\ rest = rev (seq 0 k').
Proof.
  destruct k as [| k']; [discriminate |].
  rewrite seq_S, rev_app_distr. simpl. intros [= <- <-].
  exists k'. split_and!; reflexivity.
Qed.

Lemma connection_weights_ok (l : Layer.t) :
  layer_ok l ->
  length (Layer.getConnectionWeights l) = outputs_of l /\
  Forall (fun ws => length ws = inputs_of l /\ Forall finite ws)
         (Layer.getConnectionWeights l).
Proof.
  intros (_ & _ & _ & _ & Hn & Hns & _). unfold Layer.getConnectionWeights.
  split; [rewrite length_map; exact Hn |].
  apply Forall_fmap. eapply Forall_impl; [exact Hns |].
  intros n (Hlen & Hfin & _). split; assumption.
Qed.

Lemma Network_backpropagate_ok (targets : value) (ts : list number) (s : Network.t) :
  network_ok s -> Forall layer_forwarded (Network.layers s) ->
  array_of targets ts -> length ts = network_outputs s -> Forall finite ts ->
  returns (Network.backpropagate coerce targets) s
    (fun _ s' =>
       network_ok s' /\ Forall layer_forwarded (Network.layers s') /\
       network_frame s s').
Proof.
  intros Hok Hfw Harr Hlen Hts.
  unfold Network.backpropagate.
  apply (returns_bind_eq _ _ s s s); [reflexivity |].
  set (n := length (Network.layers s)).
  assert (Hn : (0 < n)%nat).
  { destruct Hok as (Hne & _). subst n.
    destruct (Network.layers s); [contradiction | simpl; lia]. }
  assert (Hlast : (n - 1 < length (Network.layers s))%nat) by (fold n; lia).
  destruct (lookup_lt_is_Some_2 _ _ Hlast) as [lz Hlz].
  assert (Hlzout : network_outputs s = outputs_of lz).
  { unfold network_outputs. rewrite last_lookup. fold n.
    replace (pred n) with (n - 1)%nat by lia. rewrite Hlz. reflexivity. }
  assert (Hlr : finite (Network.learningRate s)) by apply Hok.
  pose proof (Forall_lookup_1 _ _ _ _ (proj1 (proj2 Hok)) Hlz) as Hlzok.
  pose proof (Forall_lookup_1 _ _ _ _ Hfw Hlz) as Hlzfw.
  destruct (Layer_backwardOutput_ok coerce targets ts (Network.learningRate s) lz
              Hlzok Hlzfw Hlr Harr (eq_trans Hlen Hlzout) Hts)
    as (deltas & lz' & Hrun & Hlz'ok & Hlz'fw & Hlz'fr & _ & Hdl & Hdf).
  destruct (network_ok_insert s (n - 1) lz lz' Hok Hlz Hlz'ok Hlz'fr) as [Hs1 Hfr1].
  apply returns_bind. apply returns_zoom.
  apply (returns_on_index (n - 1) _ _ lz _ Hlz).
  exists deltas, lz'. split; [exact Hrun |].
  set (s1 := Network.set_layers (<[(n - 1)%nat := lz']> (Network.layers s)) s) in *.
  assert (Hfw1 : Forall layer_forwarded (Network.layers s1)).
  { simpl. apply Forall_insert; assumption. }
  pose (I := fun (rest : list nat) (ds : list number) (s' : Network.t) =>
     exists k lk,
       rest = rev (seq 0 k) /\ (k < n)%nat /\
       network_ok s' /\ Forall layer_forwarded (Network.layers s') /\
       network_frame s s' /\
       Network.layers s' !! k = Some lk /\
       length ds = outputs_of lk /\ Forall finite ds).
  apply returns_bind.
  eapply returns_weaken.
  - apply (returns_for_of I).
    + intros i rest ds s' (k & lk & Hrest & Hk & Hs' & Hfw' & Hfr' & Hlk & Hdsl & Hdsf).
      symmetry in Hrest. apply rev_seq_cons_inv in Hrest as (k' & -> & -> & ->).
      destruct (network_frame_sizes _ _ Hfr') as (_ & _ & Hlen').
      assert (Hk' : (k' < length (Network.layers s'))%nat) by (rewrite Hlen'; fold n; lia).
      destruct (lookup_lt_is_Some_2 _ _ Hk') as [li Hli].
      pose proof (Forall_lookup_1 _ _ _ _ (proj1 (proj2 Hs')) Hli) as Hliok.
      pose proof (Forall_lookup_1 _ _ _ _ (proj1 (proj2 Hs')) Hlk) as Hlkok.
      pose proof (Forall_lookup_1 _ _ _ _ Hfw' Hli) as Hlifw.
      destruct (connection_weights_ok lk Hlkok) as [Hwl Hwf].
      assert (Hio : inputs_of lk = outputs_of li).
      { destruct Hs' as (_ & _ & Hch & _). apply (chained_sizes _ k' li lk Hch Hli Hlk). }
      assert (Hlr' : finite (Network.learningRate s')) by apply Hs'.
      destruct (Layer_backwardHidden_ok ds (Layer.getConnectionWeights lk)
                  (Network.learningRate s') li Hliok Hlifw Hlr')
        as (ds' & li' & Hrun' & Hli'ok & Hli'fw & Hli'fr & _ & Hds'l & Hds'f).
      { congruence. }
      { exact Hdsf. }
      { rewrite <- Hio. exact Hwf. }
      destruct (network_ok_insert s' k' li li' Hs' Hli Hli'ok Hli'fr) as [Hs'' Hfr''].
      unfold Network.backpropagate_hidden.
      apply (returns_bind_eq _ _ s' s' s'); [reflexivity |].
      apply (returns_bind_eq _ _ s' s' lk).
      { simpl. rewrite Nat.add_1_r, Hlk. reflexivity. }
      apply returns_zoom. apply (returns_on_index k' _ _ li _ Hli).
      exists ds', li'. split; [exact Hrun' |].
      exists k', li'. split_and!; try assumption.
      * reflexivity.
      * lia.
      * simpl. apply Forall_insert; assumption.
      * etransitivity; eassumption.
      * simpl. apply list_lookup_insert_eq. exact Hk'.
      * rewrite Hds'l. symmetry. apply (layer_frame_sizes _ _ Hli'fr).
    + exists (n - 1)%nat, lz'. split_and!; try assumption.
      * reflexivity.
      * simpl. apply list_lookup_insert_eq. exact Hlast.
      * rewrite Hdl. symmetry. apply (layer_frame_sizes _ _ Hlz'fr).
  - intros ds s' (k & lk & _ & _ & Hs' & Hfw' & Hfr' & _).
    apply returns_ret. split_and!; assumption.
Qed.

Lemma calculateError_returns {S} (predicted : list number) (actual : value)
    (ts : list number) (s : S) :
  array_of actual ts -> length predicted = length ts ->
  exists error, Network.calculateError coerce predicted actual s = Returned error s.
Proof.
  intros [r ->] Hlen. unfold Network.calculateError. simpl.
  rewrite length_map, Hlen, Reqb_INR, Nat.eqb_refl. simpl.
  eexists. reflexivity.
Qed.

(** One example of an epoch: forward pass, loss, weight update. *)
Lemma train_example_ok (totalError : number) (example : value) (s : Network.t) :
  network_ok s -> example_ok (network_inputs s) (network_outputs s) example ->
  returns (Network.train_example coerce totalError example) s
    (fun _ s' => network_ok s' /\ network_frame s s').
Proof.
  intros Hok (input & target & xs & ts & Hgi & Hgt & Hai & Hli & Hfi & Hat & Hlt & Hft).
  unfold Network.train_example.
  apply (returns_bind_eq _ _ s s input); [simpl; rewrite Hgi; reflexivity |].
  apply returns_bind.
  eapply returns_weaken; [apply (Network_predict_ok input xs s); assumption |].
  intros outs s1 (Hs1 & Hfw1 & Hfr1 & Hlo & Hfo).
  apply (returns_bind_eq _ _ s1 s1 target); [simpl; rewrite Hgt; reflexivity |].
  destruct (calculateError_returns outs target ts s1 Hat) as [err Herr]; [congruence |].
  apply (returns_bind_eq _ _ s1 s1 err); [exact Herr |].
  destruct (network_frame_sizes _ _ Hfr1) as (_ & Hout1 & _).
  apply returns_bind.
  eapply returns_weaken.
  - apply (Network_backpropagate_ok target ts s1); try assumption. congruence.
  - intros _ s2 (Hs2 & _ & Hfr2). apply returns_ret.
    split; [exact Hs2 | etransitivity; eassumption].
Qed.

End Backpropagation.

(** ** Shuffling *)

Section Shuffle.
Import Num.
Local Open Scope js_scope.

Lemma swap_length (array : list value) (i j : nat) :
  length (Network.swap array i j) = length array.
Proof. unfold Network.swap. rewrite !length_insert. reflexivity. Qed.

Lemma swap_Permutation (array : list value) (i j : nat) :
  (i < length array)%nat -> (j < length array)%nat ->
  Permutation array (Network.swap array i j).
Proof.
  intros Hi Hj. apply Permutation_inj. split; [symmetry; apply swap_length |].
  exists (fun k => if decide (k = i) then j else if decide (k = j) then i else k).
  split.
  - intros a b. repeat case_decide; intros; subst; congruence.
  - intros k. unfold Network.swap.
    destruct (lookup_lt_is_Some_2 _ _ Hi) as [x Hx].
    destruct (lookup_lt_is_Some_2 _ _ Hj) as [y Hy].
    rewrite (nth_lookup_Some _ _ _ _ Hx), (nth_lookup_Some _ _ _ _ Hy).
    repeat case_decide; subst.
    + rewrite list_lookup_insert_eq by (rewrite length_insert; lia). exact Hx.
    + rewrite list_lookup_insert_ne by congruence.
      rewrite list_lookup_insert_eq by lia. exact Hy.
    + rewrite !list_lookup_insert_ne by congruence. reflexivity.
Qed.

(** [Math.floor(Math.random() * (i + 1))] is an index between 0 and [i]. *)
Lemma random_index_bound (d : draw) (i : nat) :
  exists j, Math_floor (Fin d * (of_nat i + 1)) = of_nat j /\ (j <= i)%nat.
Proof.
  pose proof (draw_range d) as Hd. pose proof (pos_INR i) as Hi. simpl.
  set (x := (d * (INR i + 1))%R).
  assert (Hx : (0 <= x < INR i + 1)%R) by (unfold x; nra).
  pose proof (Zfloor_bound x) as Hb.
  assert (H0 : (0 <= Zfloor x)%Z) by (apply Zfloor_lub; simpl; lra).
  assert (Hle : (Zfloor x <= Z.of_nat i)%Z).
  { apply Z.lt_succ_r, lt_IZR. rewrite succ_IZR, <- INR_IZR_INZ. lra. }
  exists (Z.to_nat (Zfloor x)). split; [| lia].
  unfold of_nat. rewrite INR_IZR_INZ, Z2Nat.id by lia. reflexivity.
Qed.

Lemma shuffleArray_returns (array : list value) (g : generator) :
  exists shuffled g',
    Network.shuffleArray array g = Returned shuffled g' /\
    Permutation array shuffled.
Proof.
  unfold Network.shuffleArray.
  pose (I := fun (rest : list nat) (arr : list value) (_ : generator) =>
               Permutation array arr /\
               Forall (fun i => (i < length array)%nat) rest).
  destruct (returns_for_of I
              (fun arr i =>
                 r <- Math_random ;;
                 ret (Network.swap arr i (to_nat (Math_floor (r * (of_nat i + 1))))))
              ) with (l := Network.countdown (length array)) (acc := array) (s := g)
    as (shuffled & g' & Hrun & Hperm & _).
  - intros i rest arr g0 [Hperm Hall].
    inversion Hall as [| ? ? Hi Hrest]; subst.
    eexists _, _. split; [reflexivity |].
    split; [| exact Hrest].
    destruct (random_index_bound (g0 0%nat) i) as (j & -> & Hj).
    rewrite to_nat_of_nat.
    etransitivity; [exact Hperm |].
    apply swap_Permutation; rewrite <- (Permutation_length Hperm); lia.
  - split; [reflexivity |].
    unfold Network.countdown. apply Forall_forall.
    intros i Hi. apply list_elem_of_In, in_rev, in_seq in Hi. lia.
  - exists shuffled, g'. split; assumption.
Qed.

End Shuffle.

(** ** One epoch *)

Section EpochProofs.
Import Num.
Local Open Scope js_scope.
Context (coerce : value -> number).

(** Whenever the example loop returns, it has gone through the examples
    one by one as [epoch_run] says. *)
Lemma example_loop_run (examples : list value) (total : number) (s s' : Network.t)
    (total' : number) :
  for_of examples total (Network.train_example coerce) s = Returned total' s' ->
  epoch_run coerce s examples total s' total'.
Proof.
  revert total s. induction examples as [| example rest IH]; intros total s; simpl.
  - intros [= <- <-]. constructor.
  - destruct (Network.train_example coerce total example s) as [acc s2 | e s2] eqn:Hex;
      [| discriminate].
    intros Hrest. apply IH in Hrest.
    unfold Network.train_example in Hex.
    apply bind_inv_returned in Hex as (input & s0 & Hin & Hex).
    destruct (Js.get example "input") as [input' |] eqn:Hgi; [| discriminate].
    simpl in Hin. injection Hin as <- <-.
    apply bind_inv_returned in Hex as (output & s1 & Hpred & Hex).
    apply bind_inv_returned in Hex as (target & s1' & Htg & Hex).
    destruct (Js.get example "target") as [target' |] eqn:Hgt; [| discriminate].
    simpl in Htg. injection Htg as <- <-.
    apply bind_inv_returned in Hex as (error & s1' & Herr & Hex).
    assert (s1' = s1) as ->.
    { pose proof (calculateError_readonly coerce output target' s1) as Hro.
      rewrite Herr in Hro. exact Hro. }
    apply bind_inv_returned in Hex as ([] & s2' & Hback & Hex).
    simpl in Hex. injection Hex as <- <-.
    econstructor; eassumption.
Qed.

Lemma example_loop_ok (examples : list value) (total : number) (s : Network.t) :
  network_ok s ->
  Forall (example_ok (network_inputs s) (network_outputs s)) examples ->
  returns (for_of examples total (Network.train_example coerce)) s
    (fun _ s' => network_ok s' /\ network_frame s s').
Proof.
  intros Hok Hex.
  pose (I := fun (rest : list value) (_ : number) (s' : Network.t) =>
               network_ok s' /\ network_frame s s' /\
               Forall (example_ok (network_inputs s) (network_outputs s)) rest).
  eapply returns_weaken.
  - apply (returns_for_of I).
    + intros example rest acc s' (Hs' & Hfr & Hall).
      inversion Hall as [| ? ? Hexample Hrest]; subst.
      destruct (network_frame_sizes _ _ Hfr) as (Hi & Ho & _).
      eapply returns_weaken.
      * apply train_example_ok; [exact Hs' |]. rewrite Hi, Ho. exact Hexample.
      * intros acc' s'' [Hs'' Hfr'']. unfold I.
        split_and!; [assumption | etransitivity; eassumption | assumption].
    + unfold I. split_and!; [assumption | reflexivity | assumption].
  - intros acc s' (H1 & H2 & _). split; assumption.
Qed.

Lemma on_generator_returned {A} (m : M generator A) (s : Network.t) (g g' : generator)
    (a : A) :
  m g = Returned a g' -> Network.on_generator m (s, g) = Returned a (s, g').
Proof. intros H. unfold Network.on_generator, zoom. simpl. rewrite H. reflexivity. Qed.

Lemma on_network_returned {A} (m : M Network.t A) (s s' : Network.t) (g : generator)
    (a : A) :
  m s = Returned a s' -> Network.on_network m (s, g) = Returned a (s', g).
Proof. intros H. unfold Network.on_network, zoom. simpl. rewrite H. reflexivity. Qed.

Lemma on_network_thrown {A} (m : M Network.t A) (s s' : Network.t) (g : generator)
    (e : error) :
  m s = Thrown e s' -> Network.on_network m (s, g) = Thrown e (s', g).
Proof. intros H. unfold Network.on_network, zoom. simpl. rewrite H. reflexivity. Qed.

(** An epoch on a well-formed network and well-formed examples returns:
    it has processed a permutation of the examples one by one, and its
    result is the total error over the number of examples. *)
Lemma trainEpoch_ok (r : nat) (examples : list value) (s : Network.t) (g : generator) :
  network_ok s ->
  Forall (example_ok (network_inputs s) (network_outputs s)) examples ->
  exists shuffled g' s' total,
    Network.shuffleArray examples g = Returned shuffled g' /\
    Permutation examples shuffled /\
    epoch_run coerce s shuffled (Fin 0) s' total /\
    Network.trainEpoch coerce (VArr r examples) (s, g)
    = Returned (total / of_nat (length examples)) (s', g') /\
    network_ok s' /\ network_frame s s'.
Proof.
  intros Hok Hex.
  destruct (shuffleArray_returns examples g) as (shuffled & g' & Hsh & Hperm).
  assert (Hex' : Forall (example_ok (network_inputs s) (network_outputs s)) shuffled).
  { apply Forall_forall. intros x Hx. rewrite Forall_forall in Hex. apply Hex.
    rewrite Hperm. exact Hx. }
  destruct (example_loop_ok shuffled (Fin 0) s Hok Hex') as (total & s' & Hrun & Hs' & Hfr).
  exists shuffled, g', s', total.
  split_and!; try assumption.
  - apply example_loop_run, Hrun.
  - unfold Network.trainEpoch.
    rewrite (bind_returned _ _ (s, g) (s, g) examples) by reflexivity.
    rewrite (bind_returned _ _ _ _ _ (on_generator_returned _ s _ _ _ Hsh)).
    rewrite (bind_returned _ _ _ _ _ (on_network_returned _ _ _ g' _ Hrun)).
    reflexivity.
Qed.

End EpochProofs.

(** ** Building layers *)

Section Construction.
Import Num.
Local Open Scope js_scope.

Lemma positive_integer (n : number) :
  isInteger n = true -> (n <=? 0) = false ->
  n = of_nat (to_nat n) /\ (0 < to_nat n)%nat.
Proof.
  destruct n as [| | | r]; simpl; try discriminate.
  intros Hint%Reqb_spec Hpos.
  assert (Hr : (0 < r)%R).
  { unfold Rleb in Hpos. destruct (Rle_dec r 0); [discriminate | lra]. }
  assert (Hz : (0 < Zfloor r)%Z).
  { apply lt_IZR. rewrite Hint. exact Hr. }
  split; [| lia].
  unfold of_nat. rewrite INR_IZR_INZ, Z2Nat.id by lia. rewrite Hint. reflexivity.
Qed.

Lemma of_nat_positive (n : nat) :
  (0 < n)%nat -> isInteger (of_nat n) = true /\ (of_nat n <=? 0) = false.
Proof.
  intros Hn. split; [apply isInteger_of_nat |].
  simpl. apply Rleb_false. apply lt_0_INR. exact Hn.
Qed.

Lemma Neuron_constructor_returns (n : nat) (g : generator) :
  exists this g',
    Neuron.constructor n g = Returned this g' /\
    neuron_ok n this /\
    Neuron.lastInputs this = None /\ Neuron.lastOutput this = None.
Proof.
  unfold Neuron.constructor.
  rewrite (bind_returned _ _ _ _ _ (initializeWeights_returns n g)).
  eexists _, _. split; [reflexivity |]. simpl.
  split; [| split; reflexivity].
  split_and!; simpl.
  - rewrite length_map, length_seq. reflexivity.
  - apply Forall_fmap, Forall_forall. intros k _. reflexivity.
  - reflexivity.
Qed.

Lemma map_of_returns {S A B} (f : A -> M S B) (P : B -> Prop) (l : list A) (s : S) :
  (forall x s, returns (f x) s (fun b _ => P b)) ->
  returns (map_of l f) s (fun bs _ => length bs = length l /\ Forall P bs).
Proof.
  intros Hf. unfold map_of.
  pose (I := fun (rest : list A) (acc : list B) (_ : S) =>
               (length acc + length rest = length l)%nat /\ Forall P acc).
  eapply returns_weaken.
  - apply (returns_for_of I).
    + intros x rest acc s0 [Hlen Hall]. apply returns_bind.
      eapply returns_weaken; [apply Hf |].
      intros b s1 Hb. apply returns_ret. split.
      * rewrite length_app. simpl in *. lia.
      * apply Forall_app. split; [exact Hall | constructor; [exact Hb | constructor]].
    + split; [reflexivity | constructor].
  - intros bs s' [Hlen Hall]. split; [simpl in Hlen; lia | exact Hall].
Qed.

Lemma createNeurons_returns (neuronCount inputSize : number) (g : generator) :
  returns (Layer.createNeurons neuronCount inputSize) g
    (fun ns _ =>
       length ns = to_nat neuronCount /\
       Forall (fun n => neuron_ok (to_nat inputSize) n /\
                        Neuron.lastInputs n = None /\ Neuron.lastOutput n = None) ns).
Proof.
  unfold Layer.createNeurons.
  eapply returns_weaken.
  - apply (map_of_returns _
             (fun n => neuron_ok (to_nat inputSize) n /\
                       Neuron.lastInputs n = None /\ Neuron.lastOutput n = None)).
    intros [] g0.
    destruct (Neuron_constructor_returns (to_nat inputSize) g0) as (n & g1 & Hrun & Hn).
    exists n, g1. split; assumption.
  - intros ns g' [Hlen Hall]. split; [| exact Hall].
    rewrite Hlen. apply repeat_length.
Qed.

(** The two outcomes of [new Layer(...)]. *)
Lemma Layer_constructor_outcome (neuronCount inputSize : value)
    (activationFunction : option activation_object) (g : generator) :
  (exists e, Layer.constructor neuronCount inputSize activationFunction g = Thrown e g /\
             kind_of e = Some ValidationError) \/
  (exists l g' f d nm,
     Layer.constructor neuronCount inputSize activationFunction g = Returned l g' /\
     activationFunction
     = Some {| obj_func := Some f; obj_derivative := Some d; obj_name := nm |} /\
     Layer.activationFunction l = {| func := f; derivative := d; name := nm |} /\
     Js.isInteger neuronCount = true /\ (Js.number_of neuronCount <=? 0) = false /\
     Js.isInteger inputSize = true /\ (Js.number_of inputSize <=? 0) = false /\
     Layer.size l = Js.number_of neuronCount /\
     Layer.inputSize l = Js.number_of inputSize /\
     Layer.outputs l = [] /\
     length (Layer.neurons l) = to_nat (Js.number_of neuronCount) /\
     Forall (fun n => neuron_ok (to_nat (Js.number_of inputSize)) n /\
                      Neuron.lastInputs n = None /\ Neuron.lastOutput n = None)
            (Layer.neurons l)).
Proof.
  unfold Layer.constructor, Layer.validateParameters.
  destruct (Js.isInteger neuronCount) eqn:H1; simpl;
    [| left; eexists; split; reflexivity].
  destruct (Js.number_of neuronCount <=? 0) eqn:H2; simpl;
    [left; eexists; split; reflexivity |].
  destruct (Js.isInteger inputSize) eqn:H3; simpl;
    [| left; eexists; split; reflexivity].
  destruct (Js.number_of inputSize <=? 0) eqn:H4; simpl;
    [left; eexists; split; reflexivity |].
  destruct activationFunction as [[[f |] [d |] nm] |]; simpl;
    try (left; eexists; split; reflexivity).
  destruct (createNeurons_returns (Js.number_of neuronCount) (Js.number_of inputSize) g)
    as (ns & g' & Hrun & Hlen & Hall).
  right. rewrite Hrun. eexists _, g', f, d, nm.
  split; [reflexivity |]. simpl. split_and!; try reflexivity; assumption.
Qed.

Lemma Layer_constructor_ok (neuronCount inputSize : value) (f d : number -> number)
    (nm : option string) (g g' : generator) (l : Layer.t) :
  Layer.constructor neuronCount inputSize
    (Some {| obj_func := Some f; obj_derivative := Some d; obj_name := nm |}) g
  = Returned l g' ->
  finite_preserving f -> finite_preserving d ->
  layer_ok l.
Proof.
  intros Hrun Hf Hd.
  destruct (Layer_constructor_outcome neuronCount inputSize
              (Some {| obj_func := Some f; obj_derivative := Some d; obj_name := nm |}) g)
    as [(e & He & _) | (l0 & g0 & f0 & d0 & nm0 & Hrun0 & Hact & Hl & H1 & H2 & H3 & H4
                        & Hs & Hi & _ & Hn & Hns)];
    [congruence |].
  rewrite Hrun in Hrun0. injection Hrun0 as <- <-. injection Hact as <- <- <-.
  destruct neuronCount as [| | | n | | |]; try discriminate.
  destruct inputSize as [| | | m | | |]; try discriminate.
  simpl in *.
  destruct (positive_integer n H1 H2) as [Hn1 Hn2].
  destruct (positive_integer m H3 H4) as [Hm1 Hm2].
  unfold layer_ok, inputs_of, outputs_of. rewrite Hs, Hi, Hl. simpl.
  split_and!; try assumption.
  eapply Forall_impl; [exact Hns |]. intros x Hx. apply Hx.
Qed.

End Construction.

(** ** [Network.addLayer] *)

Section AddLayer.
Import Num.
Local Open Scope js_scope.
Context (coerce : value -> number).

Lemma validateLayerParameters_outcome (neuronCount : value)
    (activationFunction : option activation_object) (inputSize : value) (s : Network.t) :
  (exists e, Network.validateLayerParameters coerce neuronCount activationFunction
                                             inputSize s = Thrown e s /\
             kind_of e = Some ValidationError) \/
  Network.validateLayerParameters coerce neuronCount activationFunction inputSize s
  = Returned tt s.
Proof.
  unfold Network.validateLayerParameters. simpl.
  destruct (negb (Js.isInteger neuronCount) || (Js.number_of neuronCount <=? 0));
    [left; eexists; split; reflexivity |].
  destruct activationFunction as [[[f |] d nm] |];
    try (left; eexists; split; reflexivity).
  match goal with |- context [if ?b then _ else _] => destruct b end;
    [left; eexists; split; reflexivity | right; reflexivity].
Qed.

Lemma determineLayerInputSize_returns (inputSize : value) (s : Network.t) :
  Network.determineLayerInputSize (default VNull inputSize) s
  = Returned (layer_input_size s inputSize) s.
Proof.
  unfold Network.determineLayerInputSize, layer_input_size. simpl.
  rewrite last_lookup.
  destruct (Network.layers s) as [| l ls] eqn:Hls; [reflexivity |].
  replace (length (l :: ls) - 1)%nat with (pred (length (l :: ls))) by (simpl; lia).
  destruct (lookup_lt_is_Some_2 (l :: ls) (pred (length (l :: ls)))) as [lz Hlz];
    [simpl; lia |].
  simpl in *. rewrite Hlz. reflexivity.
Qed.

(** [addLayer] either throws a validation error and changes nothing, or
    pushes the layer that [new Layer] has built and returns the network. *)
Lemma addLayer_outcome (neuronCount : value) (activationFunction : option activation_object)
    (inputSize : value) (s : Network.t) (g : generator) :
  (exists e,
     Network.addLayer coerce neuronCount activationFunction inputSize (s, g)
     = Thrown e (s, g) /\ kind_of e = Some ValidationError) \/
  (exists l g',
     Layer.constructor neuronCount (layer_input_size s inputSize) activationFunction g
     = Returned l g' /\
     Network.addLayer coerce neuronCount activationFunction inputSize (s, g)
     = Returned (with_layer l s) (with_layer l s, g')).
Proof.
  unfold Network.addLayer.
  destruct (validateLayerParameters_outcome neuronCount activationFunction
              (default VNull inputSize) s) as [(e & He & Hk) | Hv].
  { left. exists e. split; [| exact Hk].
    apply bind_thrown. apply on_network_thrown, He. }
  rewrite (bind_returned _ _ _ _ _ (on_network_returned _ _ _ g _ Hv)).
  rewrite (bind_returned _ _ _ _ _
             (on_network_returned _ _ _ g _ (determineLayerInputSize_returns inputSize s))).
  destruct (Layer_constructor_outcome neuronCount (layer_input_size s inputSize)
              activationFunction g)
    as [(e & He & Hk) | (l & g' & f & d & nm & Hrun & _)].
  - left. exists e. split; [| exact Hk].
    apply bind_thrown. unfold Network.on_generator, zoom. simpl. rewrite He. reflexivity.
  - right. exists l, g'. split; [exact Hrun |].
    rewrite (bind_returned _ _ _ _ _ (on_generator_returned _ s _ _ _ Hrun)).
    reflexivity.
Qed.

Lemma chained_app (ls : list Layer.t) (l : Layer.t) :
  chained ls ->
  (forall lz, last ls = Some lz -> Layer.inputSize l = Layer.size lz) ->
  chained (ls ++ [l]).
Proof.
  intros Hch Hlast i a b Ha Hb.
  destruct (decide (S i < length ls)%nat) as [Hlt | Hge].
  - rewrite lookup_app_l in Ha, Hb by lia. eapply Hch; eassumption.
  - assert (Hi : S i = length ls).
    { apply lookup_lt_Some in Hb. rewrite length_app in Hb. simpl in Hb. lia. }
    rewrite lookup_app_l in Ha by lia.
    rewrite lookup_app_r, Hi, Nat.sub_diag in Hb by lia.
    simpl in Hb. injection Hb as <-.
    apply Hlast. rewrite last_lookup, <- Hi. exact Ha.
Qed.

Lemma addLayer_chained (neuronCount : value) (activationFunction : option activation_object)
    (inputSize : value) (w : Network.world) :
  chained (Network.layers (fst w)) ->
  chained (Network.layers
             (fst (final_state
                     (Network.addLayer coerce neuronCount activationFunction inputSize w)))).
Proof.
  destruct w as [s g]. intros Hch.
  destruct (addLayer_outcome neuronCount activationFunction inputSize s g)
    as [(e & -> & _) | (l & g' & Hl & ->)]; [exact Hch |].
  simpl. apply chained_app; [exact Hch |].
  intros lz Hlz.
  destruct (Layer_constructor_outcome neuronCount (layer_input_size s inputSize)
              activationFunction g)
    as [(e & He & _) | (l0 & g0 & f & d & nm & Hrun & _ & _ & _ & _ & _ & _ & _ & Hi & _)];
    [congruence |].
  rewrite Hl in Hrun. injection Hrun as <- <-.
  rewrite Hi. unfold layer_input_size. rewrite Hlz. reflexivity.
Qed.

End AddLayer.

(** ** Training *)

Section Training.
Import Num.
Local Open Scope js_scope.
Context (coerce : value -> number).

#[global] Instance training_frame_refl : Reflexive training_frame.
Proof. intros n. split_and!; reflexivity. Qed.

#[global] Instance training_frame_trans : Transitive training_frame.
Proof.
  intros a b c (H1 & H2 & H3) (H1' & H2' & H3').
  split_and!; try congruence. etransitivity; eassumption.
Qed.

#[global] Instance world_training_frame_refl : Reflexive world_training_frame.
Proof. intros w. unfold world_training_frame. reflexivity. Qed.

#[global] Instance world_training_frame_trans : Transitive world_training_frame.
Proof. intros a b c. unfold world_training_frame. apply training_frame_trans. Qed.

Lemma network_training_frame (n n' : Network.t) :
  network_frame n n' -> training_frame n n'.
Proof. intros (H1 & _ & H3 & H4). split_and!; assumption. Qed.

Lemma push_history_frame (x : number) :
  preserves world_training_frame
    (Network.on_network
       (modify (fun this => Network.set_trainingHistory
                              (Network.trainingHistory this ++ [x]) this))).
Proof.
  intros [s g]. unfold world_training_frame, training_frame, layers_frame. simpl.
  split_and!; reflexivity.
Qed.

Lemma train_loop_frame (trainingData validationData earlyStoppingPatience : value)
    (remaining epoch : nat) (best : number) (patienceCounter : nat) :
  preserves world_training_frame
    (Network.train_loop coerce trainingData validationData earlyStoppingPatience
                        remaining epoch best patienceCounter).
Proof.
  revert epoch best patienceCounter.
  induction remaining as [| remaining IH]; intros epoch best patienceCounter; simpl.
  - apply preserves_ret. typeclasses eauto.
  - apply preserves_bind; [typeclasses eauto .. | | intros epochError].
    { apply (preserves_weaken world_frame); [| apply trainEpoch_frame].
      intros w w'. apply network_training_frame. }
    apply preserves_bind; [typeclasses eauto .. | apply push_history_frame | intros _].
    apply preserves_if; [| apply IH].
    apply preserves_bind; [typeclasses eauto .. | | intros validationError].
    { apply (preserves_weaken world_frame).
      - intros w w'. apply network_training_frame.
      - apply (on_network_preserves network_frame), evaluateValidation_frame. }
    apply preserves_if; [apply IH |].
    apply preserves_if; [apply preserves_ret; typeclasses eauto | apply IH].
Qed.

(** [prepareForTraining]: without layers and not compiled it throws at
    once; otherwise, whatever it does next, it has compiled the network
    and emptied the history, and has touched nothing else. *)
Lemma prepareForTraining_no_layers (trainingData : value) (s : Network.t) :
  Network.isCompiled s = false -> Network.layers s = [] ->
  Network.prepareForTraining trainingData s = Thrown (Error MsgCompileNoLayers) s.
Proof.
  intros Hc Hl. unfold Network.prepareForTraining, Network.compile. simpl.
  rewrite Hc. simpl. rewrite Hl. reflexivity.
Qed.

Lemma final_state_bind {S A B} (m : M S A) (k : A -> M S B) (s : S) :
  final_state (bind m k s)
  = match m s with
    | Returned a s' => final_state (k a s')
    | Thrown e s' => s'
    end.
Proof. unfold bind. destruct (m s); reflexivity. Qed.

Lemma compile_if_needed (s : Network.t) :
  Network.isCompiled s = true \/ Network.layers s <> [] ->
  (if negb (Network.isCompiled s) then Network.compile else ret tt) s
  = Returned tt (Network.set_isCompiled true s).
Proof.
  intros H. destruct (Network.isCompiled s) eqn:Hc; simpl.
  - destruct s; simpl in *; subst; reflexivity.
  - destruct H as [H | H]; [discriminate |].
    destruct (Network_compile_outcome s) as [[Hl _] | [_ ->]]; [contradiction | reflexivity].
Qed.

Lemma prepareForTraining_state (trainingData : value) (s : Network.t) :
  Network.isCompiled s = true \/ Network.layers s <> [] ->
  final_state (Network.prepareForTraining trainingData s)
  = Network.set_trainingHistory [] (Network.set_isCompiled true s).
Proof.
  intros H. unfold Network.prepareForTraining.
  rewrite final_state_bind. simpl (read s). cbv iota.
  rewrite final_state_bind.
  pose proof (compile_if_needed s H) as Hcompile.
  rewrite Hcompile. rewrite final_state_bind. simpl (modify _ _). cbv iota.
  match goal with
  | |- final_state (?tail ?s0) = _ =>
      assert (Hro : preserves Logic.eq tail); [| symmetry; apply Hro]
  end.
  repeat first
    [ apply preserves_if
    | apply preserves_throw; typeclasses eauto
    | apply preserves_ret; typeclasses eauto
    | apply preserves_read; typeclasses eauto
    | apply preserves_runtime; typeclasses eauto
    | apply preserves_bind; [typeclasses eauto .. | | intros ?] ].
Qed.

Lemma example_ok_fields (n_in n_out : nat) (example : value) :
  example_ok n_in n_out example ->
  exists input target,
    Js.get example "input" = Some input /\ Js.get example "target" = Some target /\
    Js.truthy input = true /\ Js.truthy target = true /\
    Js.length_of input = Some (VNum (of_nat n_in)) /\
    Js.length_of target = Some (VNum (of_nat n_out)).
Proof.
  intros (input & target & xs & ts & Hi & Ht & [r ->] & Hli & _ & [r' ->] & Hlt & _).
  exists (VArr r (map VNum xs)), (VArr r' (map VNum ts)).
  split_and!; try assumption; try reflexivity.
  - simpl. rewrite length_map, Hli. reflexivity.
  - simpl. rewrite length_map, Hlt. reflexivity.
Qed.

(** Well-formed examples of one size pass [validateTrainingData]. *)
Lemma validateTrainingData_returns {S} (r : nat) (first : value) (rest : list value)
    (n_in n_out : nat) (s : S) :
  Forall (example_ok n_in n_out) (first :: rest) ->
  Network.validateTrainingData (VArr r (first :: rest)) s = Returned tt s.
Proof.
  intros Hall. inversion Hall as [| ? ? Hfirst _]; subst.
  destruct (example_ok_fields _ _ _ Hfirst) as (fi & ft & Hgi & Hgt & Hti & Htt & Hli & Hlt).
  unfold Network.validateTrainingData.
  cbn [Js.isArray Js.elements negb orb length Nat.eqb Js.at_index nth].
  rewrite (bind_returned _ _ s s fi) by (rewrite Hgi; reflexivity).
  rewrite Hti. cbn [negb].
  rewrite (bind_returned _ _ s s ft) by (rewrite Hgt; reflexivity).
  rewrite Htt. cbn [negb].
  rewrite (bind_returned _ _ s s (VNum (of_nat n_in))) by (rewrite Hli; reflexivity).
  rewrite (bind_returned _ _ s s (VNum (of_nat n_out))) by (rewrite Hlt; reflexivity).
  generalize (first :: rest) Hall. clear.
  intros l Hall. induction Hall as [| example l Hex _ IH]; [reflexivity |].
  destruct (example_ok_fields _ _ _ Hex) as (ei & et & Hgi & Hgt & _ & _ & Hli & Hlt).
  cbn [for_of].
  erewrite bind_returned; [exact IH |].
  rewrite (bind_returned _ _ s s ei) by (rewrite Hgi; reflexivity).
  rewrite (bind_returned _ _ s s (VNum (of_nat n_in))) by (rewrite Hli; reflexivity).
  rewrite strict_eq_of_nat, Nat.eqb_refl. cbn [negb].
  rewrite (bind_returned _ _ s s et) by (rewrite Hgt; reflexivity).
  rewrite (bind_returned _ _ s s (VNum (of_nat n_out))) by (rewrite Hlt; reflexivity).
  rewrite strict_eq_of_nat, Nat.eqb_refl. reflexivity.
Qed.

Lemma network_ok_layers (s : Network.t) :
  network_ok s ->
  exists l0 lz,
    Network.layers s !! 0%nat = Some l0 /\
    Network.layers s !! (length (Network.layers s) - 1)%nat = Some lz /\
    Layer.inputSize l0 = of_nat (network_inputs s) /\
    Layer.size lz = of_nat (network_outputs s).
Proof.
  intros (Hne & Hall & _).
  destruct (Network.layers s) as [| l ls] eqn:Hls; [contradiction |].
  destruct (lookup_lt_is_Some_2 (l :: ls) (length (l :: ls) - 1)) as [lz Hlz];
    [simpl; lia |].
  exists l, lz. split_and!; [reflexivity | exact Hlz | |].
  - unfold network_inputs. rewrite Hls. simpl.
    inversion Hall; subst. match goal with H : layer_ok l |- _ => apply H end.
  - unfold network_outputs. rewrite Hls, last_lookup.
    replace (pred (length (l :: ls))) with (length (l :: ls) - 1)%nat by (simpl; lia).
    rewrite Hlz. apply (Forall_lookup_1 _ _ _ _ Hall Hlz).
Qed.

Lemma prepareForTraining_returns (r : nat) (first : value) (rest : list value)
    (s : Network.t) :
  network_ok s -> example_ok (network_inputs s) (network_outputs s) first ->
  Network.prepareForTraining (VArr r (first :: rest)) s
  = Returned tt (Network.set_trainingHistory [] (Network.set_isCompiled true s)).
Proof.
  intros Hok Hex.
  destruct (network_ok_layers s Hok) as (l0 & lz & Hl0 & Hlz & Hin & Hout).
  destruct (example_ok_fields _ _ _ Hex) as (fi & ft & Hgi & Hgt & _ & _ & Hli & Hlt).
  assert (Hne : Network.layers s <> []) by apply Hok.
  unfold Network.prepareForTraining.
  rewrite (bind_returned _ _ s s s) by reflexivity.
  rewrite (bind_returned _ _ _ _ _ (compile_if_needed s (or_intror Hne))).
  set (s2 := Network.set_trainingHistory [] (Network.set_isCompiled true s)).
  rewrite (bind_returned _ _ _ s2 tt) by reflexivity.
  cbn [Js.at_index nth].
  rewrite (bind_returned _ _ s2 s2 fi) by (rewrite Hgi; reflexivity).
  rewrite (bind_returned _ _ s2 s2 (VNum (of_nat (network_inputs s))))
    by (rewrite Hli; reflexivity).
  rewrite (bind_returned _ _ s2 s2 ft) by (rewrite Hgt; reflexivity).
  rewrite (bind_returned _ _ s2 s2 (VNum (of_nat (network_outputs s))))
    by (rewrite Hlt; reflexivity).
  rewrite (bind_returned _ _ s2 s2 s2) by reflexivity.
  rewrite (bind_returned _ _ s2 s2 l0) by (simpl; rewrite Hl0; reflexivity).
  rewrite Hin, strict_eq_of_nat, Nat.eqb_refl. cbn [negb].
  rewrite (bind_returned _ _ s2 s2 lz) by (simpl; rewrite Hlz; reflexivity).
  rewrite Hout, strict_eq_of_nat, Nat.eqb_refl. reflexivity.
Qed.

(** The history grows by one entry per epoch that has run. *)
Lemma train_loop_history (trainingData validationData earlyStoppingPatience : value)
    (remaining epoch : nat) (best : number) (patienceCounter : nat)
    (w w' : Network.world) (exit : loop_exit) :
  Network.train_loop coerce trainingData validationData earlyStoppingPatience
                     remaining epoch best patienceCounter w
  = Returned exit w' ->
  match exit with
  | Exhausted =>
      length (Network.trainingHistory (fst w'))
      = (length (Network.trainingHistory (fst w)) + remaining)%nat
  | Break e =>
      (epoch <= e < epoch + remaining)%nat /\
      length (Network.trainingHistory (fst w'))
      = (length (Network.trainingHistory (fst w)) + (e - epoch) + 1)%nat /\
      Js.truthy validationData = true /\ Js.truthy earlyStoppingPatience = true
  end.
Proof.
  revert epoch best patienceCounter w.
  induction remaining as [| remaining IH]; intros epoch best patienceCounter w; simpl.
  - intros [= <- <-]. lia.
  - destruct (Network.trainEpoch coerce trainingData w) as [epochError [s1 g1] | e w1] eqn:Hep;
      [| discriminate].
    pose proof (trainEpoch_frame coerce trainingData w) as Hfr.
    rewrite Hep in Hfr. destruct Hfr as (_ & Hh1 & _). simpl in Hh1.
    simpl.
    set (s2 := Network.set_trainingHistory (Network.trainingHistory s1 ++ [epochError]) s1).
    assert (Hlen2 : length (Network.trainingHistory s2)
                    = S (length (Network.trainingHistory (fst w)))).
    { subst s2. simpl. rewrite length_app, <- Hh1. simpl. lia. }
    destruct (Js.truthy validationData && Js.truthy earlyStoppingPatience) eqn:Hes.
    + apply andb_true_iff in Hes as [Hvd Hpat].
      destruct (Network.evaluateValidation coerce validationData s2)
        as [validationError s3 | e s3] eqn:Hval.
      2: { rewrite (bind_thrown _ _ _ _ _ (on_network_thrown _ _ _ g1 _ Hval)).
           discriminate. }
      rewrite (bind_returned _ _ _ _ _ (on_network_returned _ _ _ g1 _ Hval)).
      pose proof (evaluateValidation_frame coerce validationData s2) as Hfr3.
      rewrite Hval in Hfr3.
      assert (Hlen3 : length (Network.trainingHistory s3)
                      = S (length (Network.trainingHistory (fst w)))).
      { destruct Hfr3 as (_ & Hh3 & _). simpl in Hh3. rewrite <- Hh3.
        rewrite length_app, <- Hh1. simpl. lia. }
      destruct (validationError <? best).
      * intros Hrun. apply IH in Hrun. simpl in Hrun.
        destruct exit as [| e]; rewrite Hlen3 in Hrun.
        -- lia.
        -- destruct Hrun as (He & Hl & _). split_and!; try assumption; lia.
      * destruct (of_nat (S patienceCounter) >=? Js.ToNumber coerce earlyStoppingPatience).
        -- intros [= <- <-]. simpl. rewrite Hlen3.
           split_and!; try assumption; lia.
        -- intros Hrun. apply IH in Hrun. simpl in Hrun.
           destruct exit as [| e]; rewrite Hlen3 in Hrun.
           ++ lia.
           ++ destruct Hrun as (He & Hl & _). split_and!; try assumption; lia.
    + intros Hrun. apply IH in Hrun. cbn [fst] in Hrun.
      destruct exit as [| e]; rewrite Hlen2 in Hrun.
      * lia.
      * destruct Hrun as (_ & _ & Hvd & Hpat). rewrite Hvd, Hpat in Hes. discriminate.
Qed.

End Training.

(** ** Runs that return *)

Section Runs.
Import Num.
Local Open Scope js_scope.
Context (coerce : value -> number).

Lemma finite_preserving_catalog :
  Forall (fun a => finite_preserving (func a) /\ finite_preserving (derivative a))
         [activations.sigmoid; activations.tanh; activations.relu; activations.linear].
Proof.
  unfold finite_preserving.
  repeat constructor; intros r;
    rewrite ?sigmoid_func_fin, ?sigmoid_derivative_fin, ?tanh_func_fin,
      ?tanh_derivative_fin, ?relu_func_fin, ?relu_derivative_fin,
      ?linear_func_fin, ?linear_derivative_fin;
    try destruct (Rltb 0 r); reflexivity.
Qed.

(** [addLayer] with a positive neuron count and an activation that has
    both methods returns; the first layer also needs a positive input
    size. *)
Lemma addLayer_returns (a : nat) (af : ActivationFunction) (inputSize : value)
    (s : Network.t) (g : generator) :
  (0 < a)%nat ->
  (Network.layers s = [] -> exists b, inputSize = VNum (of_nat b) /\ (0 < b)%nat) ->
  Forall layer_ok (Network.layers s) ->
  exists l g' k,
    Network.addLayer coerce (VNum (of_nat a)) (Some (object_of af)) inputSize (s, g)
    = Returned (with_layer l s) (with_layer l s, g') /\
    layer_input_size s inputSize = VNum (of_nat k) /\ (0 < k)%nat /\
    Layer.size l = of_nat a /\ Layer.inputSize l = of_nat k /\
    Layer.activationFunction l
    = {| func := func af; derivative := derivative af; name := name af |} /\
    (finite_preserving (func af) -> finite_preserving (derivative af) -> layer_ok l).
Proof.
  intros Ha Hfirst Hall.
  destruct (of_nat_positive a Ha) as [Hai Hap].
  assert (Hk : exists k, layer_input_size s inputSize = VNum (of_nat k) /\ (0 < k)%nat).
  { unfold layer_input_size. destruct (last (Network.layers s)) as [lz |] eqn:Hlz.
    - apply last_Some in Hlz as [ls Hls].
      rewrite Hls in Hall. apply Forall_app in Hall as [_ Hlzok].
      inversion Hlzok as [| ? ? (_ & Hs & _ & Hpo & _) _]; subst.
      exists (outputs_of lz). split; [rewrite <- Hs; reflexivity | exact Hpo].
    - apply last_None in Hlz. destruct (Hfirst Hlz) as (b & -> & Hb).
      exists b. split; [reflexivity | exact Hb]. }
  destruct Hk as (k & Hk & Hkpos).
  destruct (of_nat_positive k Hkpos) as [Hki Hkp].
  assert (Hv : Network.validateLayerParameters coerce (VNum (of_nat a))
                 (Some (object_of af)) (default VNull inputSize) s = Returned tt s).
  { unfold Network.validateLayerParameters.
    rewrite (bind_returned _ _ s s s) by reflexivity.
    cbn [Js.isInteger Js.number_of]. rewrite Hai, Hap. cbn [negb orb object_of].
    destruct (Network.layers s) as [| l0 ls] eqn:Hls; [| reflexivity].
    destruct (Hfirst eq_refl) as (b & -> & Hb).
    destruct (of_nat_positive b Hb) as [_ Hbp].
    cbn [length Nat.eqb andb default Js.strict_eq Js.ToNumber orb]. rewrite Hbp.
    reflexivity. }
  destruct (Layer_constructor_outcome (VNum (of_nat a)) (layer_input_size s inputSize)
              (Some (object_of af)) g)
    as [(e & He & _) | (l & g' & f & d & nm & Hrun & Hact & Hl & _ & _ & _ & _
                        & Hs & Hi & _)].
  { exfalso. revert He. unfold Layer.constructor, Layer.validateParameters. rewrite Hk.
    cbn [Js.isInteger Js.number_of]. rewrite Hai, Hap, Hki, Hkp.
    cbn [negb orb object_of].
    destruct (createNeurons_returns (of_nat a) (of_nat k) g) as (ns & g' & Hns & _).
    simpl. rewrite Hns. discriminate. }
  injection Hact as <- <- <-.
  exists l, g', k. split_and!; try assumption.
  - unfold Network.addLayer.
    rewrite (bind_returned _ _ _ _ _ (on_network_returned _ _ _ g _ Hv)).
    rewrite (bind_returned _ _ _ _ _
               (on_network_returned _ _ _ g _ (determineLayerInputSize_returns inputSize s))).
    rewrite (bind_returned _ _ _ _ _ (on_generator_returned _ s _ _ _ Hrun)).
    reflexivity.
  - rewrite Hi, Hk. reflexivity.
  - intros Hf Hd. eapply Layer_constructor_ok; eassumption.
Qed.

(** The first layer of a new network. *)
Lemma first_layer_ok (a b : nat) (af : ActivationFunction) (g : generator) :
  (0 < a)%nat -> (0 < b)%nat ->
  finite_preserving (func af) -> finite_preserving (derivative af) ->
  exists s g',
    Network.addLayer coerce (VNum (of_nat a)) (Some (object_of af)) (VNum (of_nat b))
                     (Network.constructor, g)
    = Returned s (s, g') /\
    network_ok s /\ network_inputs s = b /\ network_outputs s = a /\
    length (Network.layers s) = 1%nat /\
    Network.isCompiled s = false /\ Network.trainingHistory s = [].
Proof.
  intros Ha Hb Hf Hd.
  destruct (addLayer_returns a af (VNum (of_nat b)) Network.constructor g Ha)
    as (l & g' & k & Hrun & Hk & Hkpos & Hs & Hi & _ & Hok).
  { intros _. exists b. split; [reflexivity | exact Hb]. }
  { constructor. }
  exists (with_layer l Network.constructor), g'.
  unfold layer_input_size in Hk. simpl in Hk. injection Hk as Hk%INR_eq. subst k.
  specialize (Hok Hf Hd).
  split_and!; try reflexivity; try assumption.
  - split_and!; simpl.
    + discriminate.
    + constructor; [exact Hok | constructor].
    + intros i x y Hx Hy. destruct i; discriminate.
    + reflexivity.
  - unfold network_inputs. simpl. unfold inputs_of. rewrite Hi. apply to_nat_of_nat.
  - unfold network_outputs. simpl. unfold outputs_of. rewrite Hs. apply to_nat_of_nat.
Qed.

Lemma history_ok (s : Network.t) (h : list number) :
  network_ok s -> network_ok (Network.set_trainingHistory h s).
Proof. intros H. exact H. Qed.

Lemma compiled_ok (s : Network.t) (b : bool) :
  network_ok s -> network_ok (Network.set_isCompiled b s).
Proof. intros H. exact H. Qed.

(** Validation on well-formed examples returns and only touches the
    caches. *)
Lemma evaluateValidation_ok (r : nat) (examples : list value) (s : Network.t) :
  network_ok s ->
  Forall (example_ok (network_inputs s) (network_outputs s)) examples ->
  returns (Network.evaluateValidation coerce (VArr r examples)) s
    (fun _ s' => network_ok s' /\ network_frame s s').
Proof.
  intros Hok Hex. unfold Network.evaluateValidation.
  apply (returns_bind_eq _ _ s s examples); [reflexivity |].
  apply returns_bind.
  pose (I := fun (rest : list value) (_ : number) (s' : Network.t) =>
               network_ok s' /\ network_frame s s' /\
               Forall (example_ok (network_inputs s) (network_outputs s)) rest).
  eapply returns_weaken.
  - apply (returns_for_of I).
    + intros example rest acc s' (Hs' & Hfr & Hall).
      inversion Hall as [| ? ? Hexample Hrest]; subst.
      destruct Hexample as (input & target & xs & ts & Hgi & Hgt & Hai & Hli & Hfi
                            & Hat & Hlt & Hft).
      destruct (network_frame_sizes _ _ Hfr) as (Hi & Ho & _).
      apply (returns_bind_eq _ _ s' s' input); [simpl; rewrite Hgi; reflexivity |].
      apply returns_bind.
      eapply returns_weaken;
        [apply (Network_predict_ok input xs s'); try assumption; congruence |].
      intros outs s1 (Hs1 & _ & Hfr1 & Hlo & _).
      apply (returns_bind_eq _ _ s1 s1 target); [simpl; rewrite Hgt; reflexivity |].
      destruct (calculateError_returns coerce outs target ts s1 Hat) as [err Herr];
        [congruence |].
      apply (returns_bind_eq _ _ s1 s1 err); [exact Herr |].
      apply returns_ret. unfold I.
      split_and!; [assumption | etransitivity; eassumption | assumption].
    + unfold I. split_and!; [assumption | reflexivity | assumption].
  - intros total s' (Hs' & Hfr & _).
    apply (returns_bind_eq _ _ s' s' (VNum (of_nat (length examples)))); [reflexivity |].
    apply returns_ret. split; assumption.
Qed.

(** The epoch loop on well-formed data returns, whatever the early
    stopping options are, provided validation itself returns. *)
Lemma train_loop_ok (r : nat) (examples : list value)
    (validationData earlyStoppingPatience : value)
    (remaining epoch : nat) (best : number) (patienceCounter : nat)
    (s : Network.t) (g : generator) :
  network_ok s ->
  Forall (example_ok (network_inputs s) (network_outputs s)) examples ->
  (Js.truthy validationData && Js.truthy earlyStoppingPatience = true ->
   forall s', network_ok s' -> network_frame s s' \/ True ->
     network_inputs s' = network_inputs s -> network_outputs s' = network_outputs s ->
     returns (Network.evaluateValidation coerce validationData) s'
       (fun _ s'' => network_ok s'' /\ network_frame s' s'')) ->
  returns (Network.train_loop coerce (VArr r examples) validationData
                              earlyStoppingPatience remaining epoch best patienceCounter)
    (s, g)
    (fun _ w' => network_ok (fst w') /\
                 network_inputs (fst w') = network_inputs s /\
                 network_outputs (fst w') = network_outputs s).
Proof.
  intros Hok Hex Hval.
  assert (Hgen : forall remaining epoch best patienceCounter s0 g0,
            network_ok s0 ->
            network_inputs s0 = network_inputs s ->
            network_outputs s0 = network_outputs s ->
            returns (Network.train_loop coerce (VArr r examples) validationData
                       earlyStoppingPatience remaining epoch best patienceCounter)
              (s0, g0)
              (fun _ w' => network_ok (fst w') /\
                           network_inputs (fst w') = network_inputs s /\
                           network_outputs (fst w') = network_outputs s)).
  { clear remaining epoch best patienceCounter.
    induction remaining as [| remaining IH]; intros epoch best pc s0 g0 Hs0 Hi0 Ho0.
    - apply returns_ret. split_and!; assumption.
    - cbn [Network.train_loop].
      destruct (trainEpoch_ok coerce r examples s0 g0 Hs0)
        as (shuffled & g1 & s1 & total & _ & _ & _ & Hrun & Hs1 & Hfr1).
      { rewrite Hi0, Ho0. exact Hex. }
      destruct (network_frame_sizes _ _ Hfr1) as (Hi1 & Ho1 & _).
      apply (returns_bind_eq _ _ _ _ _ _ Hrun).
      set (s2 := Network.set_trainingHistory
                   (Network.trainingHistory s1 ++ [total / of_nat (length examples)]) s1).
      apply (returns_bind_eq _ _ (s1, g1) (s2, g1) tt); [reflexivity |].
      assert (Hs2 : network_ok s2) by exact Hs1.
      assert (Hi2 : network_inputs s2 = network_inputs s)
        by (transitivity (network_inputs s1); [reflexivity | congruence]).
      assert (Ho2 : network_outputs s2 = network_outputs s)
        by (transitivity (network_outputs s1); [reflexivity | congruence]).
      destruct (Js.truthy validationData && Js.truthy earlyStoppingPatience) eqn:Hes.
      + destruct (Hval eq_refl s2 Hs2 (or_intror I) Hi2 Ho2)
          as (verr & s3 & Hv & Hs3 & Hfr3).
        destruct (network_frame_sizes _ _ Hfr3) as (Hi3 & Ho3 & _).
        apply (returns_bind_eq _ _ _ _ _ _ (on_network_returned _ _ _ g1 _ Hv)).
        destruct (verr <? best); [apply IH; congruence |].
        destruct (of_nat (S pc) >=? Js.ToNumber coerce earlyStoppingPatience).
        * apply returns_ret. simpl. split_and!; congruence.
        * apply IH; congruence.
      + apply IH; assumption. }
  apply Hgen; [exact Hok | reflexivity | reflexivity].
Qed.

End Runs.

(** ** Training runs *)

Section TrainRuns.
Import Num.
Local Open Scope js_scope.
Context (coerce : value -> number).

Lemma on_network_outcome {A} (m : M Network.t A) (w : Network.world) :
  Network.on_network m w
  = match m (fst w) with
    | Returned a s' => Returned a (s', snd w)
    | Thrown e s' => Thrown e (s', snd w)
    end.
Proof. reflexivity. Qed.

(** What [prepareForTraining] leaves behind, whether it returns or throws. *)
Lemma prepareForTraining_outcome (trainingData : value) (s : Network.t) :
  (Network.isCompiled s = false /\ Network.layers s = [] /\
   Network.prepareForTraining trainingData s = Thrown (Error MsgCompileNoLayers) s) \/
  ((Network.isCompiled s = true \/ Network.layers s <> []) /\
   final_state (Network.prepareForTraining trainingData s)
   = Network.set_trainingHistory [] (Network.set_isCompiled true s)).
Proof.
  destruct (Network.isCompiled s) eqn:Hc.
  - right. split; [left; reflexivity |].
    apply prepareForTraining_state. left. exact Hc.
  - destruct (Network.layers s) as [| l ls] eqn:Hl.
    + left. split_and!; try reflexivity.
      apply prepareForTraining_no_layers; assumption.
    + right. split; [right; discriminate |].
      apply prepareForTraining_state. right. rewrite Hl. discriminate.
Qed.

(** A call of [train] that returns has passed the validation, has
    prepared the network, and has left the epoch loop. *)
Lemma train_returned (data : value) (epochs : nat) (options : train_options)
    (w w' : Network.world) (res : Network.t * loop_exit) :
  Network.train coerce data epochs options w = Returned res w' ->
  Network.validateTrainingData data w = Returned tt w /\
  Network.prepareForTraining data (fst w)
  = Returned tt (Network.set_trainingHistory [] (Network.set_isCompiled true (fst w))) /\
  Network.train_loop coerce data (default VNull (validationData options))
    (default VNull (earlyStoppingPatience options)) epochs 0 PosInf 0
    (Network.set_trainingHistory [] (Network.set_isCompiled true (fst w)), snd w)
  = Returned (snd res) w' /\
  fst res = fst w'.
Proof.
  unfold Network.train. intros H.
  apply bind_inv_returned in H as ([] & w0 & Hv & H).
  pose proof (validateTrainingData_readonly (S := Network.world) data w) as Hro.
  rewrite Hv in Hro. simpl in Hro. subst w0.
  apply bind_inv_returned in H as ([] & w1 & Hp & H).
  rewrite on_network_outcome in Hp.
  destruct (Network.prepareForTraining data (fst w)) as [[] s1 | e s1] eqn:Hprep;
    [| discriminate].
  injection Hp as <-.
  destruct (prepareForTraining_outcome data (fst w)) as [(_ & _ & Hthrow) | [_ Hstate]].
  { rewrite Hthrow in Hprep. discriminate. }
  rewrite Hprep in Hstate. simpl in Hstate. subst s1.
  apply bind_inv_returned in H as (exit & w2 & Hloop & H).
  apply bind_inv_returned in H as (this & w3 & Hread & H).
  rewrite on_network_outcome in Hread. simpl in Hread.
  injection Hread as <- <-. injection H as <- <-.
  destruct w2 as [s2 g2].
  split_and!; try reflexivity; assumption.
Qed.

(** [train] on a well-formed network and well-formed examples returns. *)
Lemma train_returns (r : nat) (first : value) (rest : list value) (epochs : nat)
    (options : train_options) (s : Network.t) (g : generator) :
  network_ok s ->
  Forall (example_ok (network_inputs s) (network_outputs s)) (first :: rest) ->
  (Js.truthy (default VNull (validationData options))
   && Js.truthy (default VNull (earlyStoppingPatience options)) = true ->
   exists r' examples,
     default VNull (validationData options) = VArr r' examples /\
     Forall (example_ok (network_inputs s) (network_outputs s)) examples) ->
  returns (Network.train coerce (VArr r (first :: rest)) epochs options) (s, g)
    (fun res w' => fst res = fst w' /\ network_ok (fst w') /\
                   network_inputs (fst w') = network_inputs s /\
                   network_outputs (fst w') = network_outputs s).
Proof.
  intros Hok Hex Hval. unfold Network.train.
  apply (returns_bind_eq _ _ (s, g) (s, g) tt).
  { eapply validateTrainingData_returns. exact Hex. }
  set (s0 := Network.set_trainingHistory [] (Network.set_isCompiled true s)).
  apply (returns_bind_eq _ _ (s, g) (s0, g) tt).
  { apply on_network_returned. apply prepareForTraining_returns; [exact Hok |].
    inversion Hex; assumption. }
  apply returns_bind.
  eapply returns_weaken.
  - apply (train_loop_ok coerce r (first :: rest) _ _ epochs 0 PosInf 0 s0 g).
    + exact Hok.
    + exact Hex.
    + intros Hes s' Hs' _ Hi Ho.
      destruct (Hval Hes) as (r' & examples & -> & Hexs).
      apply evaluateValidation_ok; [exact Hs' |].
      rewrite Hi, Ho. exact Hexs.
  - intros exit [s1 g1] (Hs1 & Hi1 & Ho1).
    apply (returns_bind_eq _ _ (s1, g1) (s1, g1) s1); [reflexivity |].
    apply returns_ret. split_and!; [reflexivity | assumption ..].
Qed.

End TrainRuns.

(** ** The sample network *)

Section Samples.
Import Num.
Local Open Scope js_scope.

Lemma one_neuron_network_ok :
  exists s g,
    one_neuron_network = (s, g) /\ network_ok s /\
    network_inputs s = 1%nat /\ network_outputs s = 1%nat /\
    length (Network.layers s) = 1%nat /\
    Network.isCompiled s = false /\ Network.trainingHistory s = [].
Proof.
  destruct (Forall_inv finite_preserving_catalog) as [Hf Hd].
  destruct (first_layer_ok no_coercion 1 1 activations.sigmoid zeros
              Nat.lt_0_1 Nat.lt_0_1 Hf Hd) as (s & g & Hrun & H).
  exists s, g. split; [| exact H].
  unfold one_neuron_network. change (Fin 1) with (of_nat 1). rewrite Hrun. reflexivity.
Qed.

Lemma one_example_ok :
  Forall (example_ok 1 1) (Js.elements one_example).
Proof.
  repeat constructor.
  exists (VArr 3 [VNum (Fin (1 / 2))]), (VArr 4 [VNum (Fin (4 / 5))]),
         [Fin (1 / 2)], [Fin (4 / 5)].
  split_and!; try reflexivity; try (eexists; reflexivity); repeat constructor.
Qed.

Lemma wide_example_ok :
  Forall (example_ok 2 1) (Js.elements wide_example).
Proof.
  repeat constructor.
  exists (VArr 3 [VNum (Fin 1); VNum (Fin 2)]), (VArr 4 [VNum (Fin 0)]),
         [Fin 1; Fin 2], [Fin 0].
  split_and!; try reflexivity; try (eexists; reflexivity); repeat constructor.
Qed.

End Samples.

(** ** The length of the training history *)

Section History.
Import Num.
Local Open Scope js_scope.
Context (coerce : value -> number).

(** C5, amended.  A call of [train] that returns has emptied the history
    and pushed one error per executed epoch: the history has [epochs]
    entries when the loop ran out of epochs, and [e + 1 <= epochs] entries
    when early stopping left the loop in the epoch of index [e], which
    needs truthy [validationData] and [earlyStoppingPatience]. *)
Theorem train_history_length (data : value) (epochs : nat) (options : train_options)
    (w w' : Network.world) (this : Network.t) (exit : loop_exit) :
  Network.train coerce data epochs options w = Returned (this, exit) w' ->
  this = fst w' /\
  match exit with
  | Exhausted => length (Network.trainingHistory this) = epochs
  | Break e =>
      (e < epochs)%nat /\ length (Network.trainingHistory this) = S e /\
      Js.truthy (default VNull (validationData options)) = true /\
      Js.truthy (default VNull (earlyStoppingPatience options)) = true
  end.
Proof.
  intros H. apply train_returned in H as (_ & _ & Hloop & Hthis).
  simpl in Hthis. subst this. split; [reflexivity |].
  apply train_loop_history in Hloop. simpl in Hloop.
  destruct exit as [| e].
  - exact Hloop.
  - destruct Hloop as ([_ He] & Hlen & Hv & Hp).
    split_and!; try assumption. rewrite Hlen. lia.
Qed.

End History.

Lemma train_history_length_witness :
  exists this exit w',
    Network.train no_coercion one_example 3 no_options one_neuron_network
    = Returned (this, exit) w' /\
    this = fst w' /\
    match exit with
    | Exhausted => length (Network.trainingHistory this) = 3%nat
    | Break e =>
        (e < 3)%nat /\ length (Network.trainingHistory this) = S e /\
        Js.truthy (default VNull (validationData no_options)) = true /\
        Js.truthy (default VNull (earlyStoppingPatience no_options)) = true
    end.
Proof.
  destruct one_neuron_network_ok as (s & g & -> & Hok & Hi & Ho & _).
  destruct (train_returns no_coercion 1 (Js.at_index one_example 0) [] 3 no_options s g Hok)
    as ([this exit] & w' & Hrun & _).
  { rewrite Hi, Ho. exact one_example_ok. }
  { discriminate. }
  exists this, exit, w'. split; [exact Hrun |].
  exact (train_history_length no_coercion _ _ _ _ _ _ _ Hrun).
Defined.

(** C5 as stated fails when early stopping leaves the loop in the last
    epoch.  One epoch is asked for, the validation set is empty and the
    patience is 1: the validation error is 0 / 0, which is not below
    [Infinity], the counter reaches the patience, and the loop is left in
    the epoch of index 0 with one entry in the history, which is not less
    than [epochs]. *)
Lemma early_stop_in_last_epoch :
  exists this w',
    Network.train no_coercion one_example 1 early_stopping one_neuron_network
    = Returned (this, Break 0) w' /\
    length (Network.trainingHistory this) = 1%nat.
Proof.
  destruct one_neuron_network_ok as (s & g & -> & Hok & Hi & Ho & _).
  assert (Hex : Forall (example_ok (network_inputs s) (network_outputs s))
                       (Js.elements one_example))
    by (rewrite Hi, Ho; exact one_example_ok).
  set (s0 := Network.set_trainingHistory [] (Network.set_isCompiled true s)).
  destruct (trainEpoch_ok no_coercion 1 (Js.elements one_example) s0 g Hok Hex)
    as (shuffled & g1 & s1 & total & _ & _ & _ & Hepoch & _ & Hfr).
  destruct Hfr as (_ & Hhist & _).
  set (s2 := Network.set_trainingHistory
               (Network.trainingHistory s1
                ++ [(total / Num.of_nat (length (Js.elements one_example)))%js]) s1).
  assert (Hloop : Network.train_loop no_coercion one_example (VArr 5 []) (VNum (Fin 1))
                    1 0 PosInf 0 (s0, g)
                  = Returned (Break 0) (s2, g1)).
  { cbn [Network.train_loop].
    change one_example with (VArr 1 (Js.elements one_example)) at 1.
    rewrite (bind_returned _ _ _ _ _ Hepoch).
    rewrite (bind_returned _ _ (s1, g1) (s2, g1) tt) by reflexivity.
    cbn [Js.truthy andb]. rewrite (Reqb_false 1 0) by lra. cbn [negb].
    rewrite (bind_returned _ _ (s2, g1) (s2, g1) NaN).
    2: { apply on_network_returned. unfold Network.evaluateValidation. simpl.
         rewrite (Reqb_true 0 0) by reflexivity.
         unfold Num.signed_inf. rewrite !(Rltb_false 0 0) by lra. reflexivity. }
    cbn [Num.lt Num.ge Num.le Num.of_nat Js.ToNumber].
    rewrite (Rleb_true 1 (INR 1)) by (simpl; lra). reflexivity. }
  exists s2, (s2, g1). split.
  - unfold Network.train.
    rewrite (bind_returned _ _ (s, g) (s, g) tt).
    2: { apply (validateTrainingData_returns 1 _ _ _ _ _ Hex). }
    rewrite (bind_returned _ _ (s, g) (s0, g) tt).
    2: { apply on_network_returned. apply prepareForTraining_returns; [exact Hok |].
         inversion Hex; assumption. }
    cbn [early_stopping validationData earlyStoppingPatience default].
    rewrite (bind_returned _ _ _ _ _ Hloop). reflexivity.
  - unfold s2. simpl. rewrite <- Hhist. reflexivity.
Qed.

(** ** The outcomes of [train] *)

Section TrainOutcome.
Import Num.
Local Open Scope js_scope.
Context (coerce : value -> number).

(** [train] fails in the validation of the data, which changes nothing;
    or in [compile], on a network without layers, which changes nothing;
    or in the comparison of the data with the architecture, once the
    network has been compiled and its history emptied; or later. *)
Lemma train_outcome (data : value) (epochs : nat) (options : train_options)
    (w : Network.world) :
  let s0 := Network.set_trainingHistory [] (Network.set_isCompiled true (fst w)) in
  (exists e, Network.validateTrainingData data w = Thrown e w /\
             Network.train coerce data epochs options w = Thrown e w) \/
  (Network.validateTrainingData data w = Returned tt w /\
   Network.isCompiled (fst w) = false /\ Network.layers (fst w) = [] /\
   Network.train coerce data epochs options w = Thrown (Error MsgCompileNoLayers) w) \/
  (Network.validateTrainingData data w = Returned tt w /\
   (Network.isCompiled (fst w) = true \/ Network.layers (fst w) <> []) /\
   exists e, Network.prepareForTraining data (fst w) = Thrown e s0 /\
             Network.train coerce data epochs options w = Thrown e (s0, snd w)) \/
  (Network.validateTrainingData data w = Returned tt w /\
   Network.prepareForTraining data (fst w) = Returned tt s0 /\
   world_training_frame (s0, snd w)
     (final_state (Network.train coerce data epochs options w))).
Proof.
  intros s0.
  pose proof (validateTrainingData_readonly (S := Network.world) data w) as Hro.
  destruct (Network.validateTrainingData data w) as [[] w0 | e w0] eqn:Hv;
    simpl in Hro; subst w0.
  2: { left. exists e. split; [reflexivity |]. apply train_validation_failure, Hv. }
  right. unfold Network.train. rewrite (bind_returned _ _ _ _ _ Hv).
  destruct (prepareForTraining_outcome data (fst w)) as [(Hc & Hl & Hthrow) | [Hc Hstate]].
  { left. split_and!; try reflexivity; try assumption.
    apply bind_thrown. rewrite on_network_outcome, Hthrow.
    destruct w; reflexivity. }
  right. fold s0 in Hstate.
  destruct (Network.prepareForTraining data (fst w)) as [[] s1 | e s1] eqn:Hprep;
    simpl in Hstate; subst s1.
  - right. split_and!; try reflexivity.
    rewrite (bind_returned _ _ w (s0, snd w) tt)
      by (rewrite on_network_outcome, Hprep; reflexivity).
    rewrite final_state_bind.
    pose proof (train_loop_frame coerce data (default VNull (validationData options))
                  (default VNull (earlyStoppingPatience options)) epochs 0 PosInf 0
                  (s0, snd w)) as Hframe.
    destruct (Network.train_loop _ _ _ _ _ _ _ _ _) as [exit w1 | e w1]; exact Hframe.
  - left. split_and!; try reflexivity; try assumption.
    exists e. split; [reflexivity |].
    apply bind_thrown. rewrite on_network_outcome, Hprep. reflexivity.
Qed.

Lemma train_layers_frame (data : value) (epochs : nat) (options : train_options) :
  preserves world_layers_frame (Network.train coerce data epochs options).
Proof.
  intros w. unfold world_layers_frame.
  destruct (train_outcome data epochs options w)
    as [(e & _ & ->) | [(_ & _ & _ & ->) | [(_ & _ & e & _ & ->) | (_ & _ & Hfr)]]].
  - reflexivity.
  - reflexivity.
  - unfold layers_frame. simpl. reflexivity.
  - destruct Hfr as (_ & _ & Hfr). exact Hfr.
Qed.

End TrainOutcome.

(** ** The sizes of adjacent layers *)

Section Invariant.
Import Num.
Local Open Scope js_scope.
Context (coerce : value -> number).

Lemma run_chained (c : call) (w : Network.world) :
  chained (Network.layers (fst w)) ->
  chained (Network.layers (fst (final_state (run coerce c w)))).
Proof.
  intros Hc. destruct c as [nc act isz | | inputs | data epochs options | rate |];
    cbn [run].
  - rewrite final_state_bind.
    pose proof (addLayer_chained coerce nc act isz w Hc) as H.
    destruct (Network.addLayer coerce nc act isz w); exact H.
  - rewrite on_network_outcome.
    destruct (Network_compile_outcome (fst w)) as [[_ ->] | [_ ->]]; exact Hc.
  - rewrite final_state_bind, on_network_outcome.
    pose proof (Network_predict_frame inputs (fst w)) as (_ & _ & _ & Hfr).
    destruct (Network.predict inputs (fst w)); simpl in *;
      exact (chained_frame _ _ Hfr Hc).
  - rewrite final_state_bind.
    pose proof (train_layers_frame coerce data epochs options w) as Hfr.
    destruct (Network.train coerce data epochs options w); simpl in *;
      exact (chained_frame _ _ Hfr Hc).
  - rewrite final_state_bind, on_network_outcome. unfold Network.setLearningRate.
    destruct (negb (Js.is_number rate) || (Js.number_of rate <=? 0)); exact Hc.
  - rewrite on_network_outcome.
    pose proof (Network_reset_layers_frame (fst w)) as Hfr.
    destruct (Network.reset (fst w)); simpl in *; exact (chained_frame _ _ Hfr Hc).
Qed.

(** C8.  In every network built from [new Network()] by calls of
    [addLayer], [compile], [predict], [train], [setLearningRate] and
    [reset], whether they return or throw, each layer takes as many inputs
    as the layer before it has neurons.  A call of [addLayer] on a network
    without layers that returns has stored the [inputSize] argument in the
    new layer; on a network with layers the outcome does not depend on the
    [inputSize] argument, and the new layer takes as many inputs as the
    last layer has neurons. *)
Theorem adjacent_layer_sizes :
  (forall w, reachable coerce w -> chained (Network.layers (fst w))) /\
  (forall neuronCount activationFunction inputSize w this w',
     Network.layers (fst w) = [] ->
     Network.addLayer coerce neuronCount activationFunction inputSize w
     = Returned this w' ->
     exists l, Network.layers this = [l] /\ inputSize = VNum (Layer.inputSize l)) /\
  (forall neuronCount activationFunction inputSize inputSize' w,
     Network.layers (fst w) <> [] ->
     Network.addLayer coerce neuronCount activationFunction inputSize w
     = Network.addLayer coerce neuronCount activationFunction inputSize' w) /\
  (forall neuronCount activationFunction inputSize w this w' lz,
     last (Network.layers (fst w)) = Some lz ->
     Network.addLayer coerce neuronCount activationFunction inputSize w
     = Returned this w' ->
     exists l, Network.layers this = Network.layers (fst w) ++ [l] /\
               Layer.inputSize l = Layer.size lz).
Proof.
  split_and!.
  - intros w Hw. induction Hw as [g | w c _ IH].
    + intros i a b Ha. destruct i; discriminate.
    + apply run_chained, IH.
  - intros nc act isz [s g] this w' Hl Hrun. simpl in Hl.
    destruct (addLayer_outcome coerce nc act isz s g)
      as [(e & He & _) | (l & g' & Hnew & Hadd)].
    { rewrite He in Hrun. discriminate. }
    rewrite Hadd in Hrun. injection Hrun as <- <-.
    exists l. split; [simpl; rewrite Hl; reflexivity |].
    destruct (Layer_constructor_outcome nc (layer_input_size s isz) act g)
      as [(e & He & _) | (l1 & g1 & f & d & nm & Hnew1 & _ & _ & _ & _ & Hint & _
                          & _ & Hsize & _)].
    { rewrite He in Hnew. discriminate. }
    rewrite Hnew1 in Hnew. injection Hnew as -> ->.
    unfold layer_input_size in Hint, Hsize. rewrite Hl in Hint, Hsize.
    simpl in Hint, Hsize. rewrite Hsize.
    destruct isz as [| | | n | | |]; try discriminate. reflexivity.
  - intros nc act isz isz' [s g] Hl. simpl in Hl.
    assert (Hv : forall v,
               Network.validateLayerParameters coerce nc act (default VNull v) s
               = Network.validateLayerParameters coerce nc act VNull s).
    { intros v. unfold Network.validateLayerParameters. cbn [bind read].
      destruct (Network.layers s); [contradiction | reflexivity]. }
    assert (Hd : forall v,
               Network.determineLayerInputSize (default VNull v) s
               = Network.determineLayerInputSize VNull s).
    { intros v. unfold Network.determineLayerInputSize. cbn [bind read].
      destruct (Network.layers s); [contradiction | reflexivity]. }
    unfold Network.addLayer, bind. rewrite !on_network_outcome. cbn [fst snd].
    rewrite (Hv isz), (Hv isz').
    destruct (validateLayerParameters_outcome coerce nc act VNull s)
      as [(e & -> & _) | ->]; [reflexivity |].
    rewrite !on_network_outcome. cbn [fst snd]. rewrite (Hd isz), (Hd isz').
    reflexivity.
  - intros nc act isz [s g] this w' lz Hlast Hrun. simpl in Hlast.
    destruct (addLayer_outcome coerce nc act isz s g)
      as [(e & He & _) | (l & g' & Hnew & Hadd)].
    { rewrite He in Hrun. discriminate. }
    rewrite Hadd in Hrun. injection Hrun as <- <-.
    exists l. split; [reflexivity |].
    destruct (Layer_constructor_outcome nc (layer_input_size s isz) act g)
      as [(e & He & _) | (l1 & g1 & f & d & nm & Hnew1 & _ & _ & _ & _ & _ & _
                          & _ & Hsize & _)].
    { rewrite He in Hnew. discriminate. }
    rewrite Hnew1 in Hnew. injection Hnew as -> ->.
    unfold layer_input_size in Hsize. rewrite Hlast in Hsize. exact Hsize.
Qed.

End Invariant.

Lemma adjacent_layer_sizes_witness :
  exists s g l0 l1,
    final_state
      (run no_coercion
           (CallAddLayer (VNum (Fin 2)) (Some (object_of activations.tanh)) (VNum (Fin 7)))
           one_neuron_network)
    = (s, g) /\
    Network.layers s = [l0; l1] /\ chained [l0; l1] /\
    Layer.inputSize l1 = Layer.size l0.
Proof.
  destruct (adjacent_layer_sizes no_coercion) as (Hinv & Hfirst & Hignored & Hnext).
  assert (Hreach : reachable no_coercion one_neuron_network).
  { pose proof (reachable_call no_coercion _
                  (CallAddLayer (VNum (Fin 1)) (Some (object_of activations.sigmoid))
                                (VNum (Fin 1)))
                  (reachable_new no_coercion zeros)) as H.
    cbn [run] in H. rewrite final_state_bind in H. unfold one_neuron_network.
    destruct (Network.addLayer _ _ _ _ _); exact H. }
  pose proof (Hinv _ (reachable_call no_coercion _
                        (CallAddLayer (VNum (Fin 2)) (Some (object_of activations.tanh))
                                      (VNum (Fin 7))) Hreach)) as Hchained.
  revert Hchained. cbn [run]. rewrite final_state_bind.
  destruct one_neuron_network_ok as (s & g & -> & Hok & _ & _ & Hlen & _).
  destruct (Network.layers s) as [| l0 [| ? ?]] eqn:Hl; try discriminate.
  destruct (addLayer_returns no_coercion 2 activations.tanh (VNum (Fin 7)) s g)
    as (l1 & g1 & k & Hrun & _).
  { lia. }
  { rewrite Hl. discriminate. }
  { apply Hok. }
  change (Num.of_nat 2) with (Fin 2) in Hrun.
  assert (Hlast : last (Network.layers (fst (s, g))) = Some l0)
    by (simpl; rewrite Hl; reflexivity).
  destruct (Hnext _ _ _ _ _ _ l0 Hlast Hrun) as (l & Hls & Hsize).
  rewrite Hrun. intros Hchained.
  exists (with_layer l1 s), g1, l0, l1.
  simpl in Hls. rewrite Hl in Hls. simpl in Hls. injection Hls as <-.
  split_and!; try reflexivity.
  - simpl. rewrite Hl. reflexivity.
  - simpl in Hchained. rewrite Hl in Hchained. exact Hchained.
  - exact Hsize.
Defined.

(** ** Failures and the state they leave *)

Section Failures.
Import Num.
Local Open Scope js_scope.
Context (coerce : value -> number).

Lemma Neuron_forward_unchanged (inputs : value) (f : number -> number) :
  unchanged_on_failure (Neuron.forward inputs (returning f)).
Proof.
  intros s e s' H.
  destruct (Neuron_forward_outcome inputs f s) as [(e' & _ & H') | [_ H']];
    rewrite H' in H; [injection H as _ <-; reflexivity | discriminate].
Qed.

Lemma Neuron_updateWeights_unchanged (delta learningRate : number) :
  unchanged_on_failure (Neuron.updateWeights delta learningRate).
Proof.
  intros s e s' H. destruct (Neuron.lastInputs s) as [inputs |] eqn:Hin.
  - rewrite (updateWeights_returns s delta learningRate inputs Hin) in H. discriminate.
  - rewrite (updateWeights_no_inputs s delta learningRate Hin) in H.
    injection H as _ <-. reflexivity.
Qed.

Lemma Neuron_setWeights_unchanged (weights : value) (bias : number) :
  unchanged_on_failure (Neuron.setWeights weights bias).
Proof.
  intros s e s'. unfold Neuron.setWeights. cbn [bind read].
  destruct (negb (Js.isArray weights) || _); simpl; intros H;
    [injection H as _ <-; reflexivity | discriminate].
Qed.

Lemma Layer_constructor_unchanged (neuronCount inputSize : value)
    (activationFunction : option activation_object) :
  unchanged_on_failure (Layer.constructor neuronCount inputSize activationFunction).
Proof.
  intros g e g' H.
  destruct (Layer_constructor_outcome neuronCount inputSize activationFunction g)
    as [(e' & H' & _) | (l & g1 & f & d & nm & H' & _)];
    rewrite H' in H; [injection H as _ <-; reflexivity | discriminate].
Qed.

(** Whether a neuron accepts an input depends on the number of its
    weights only. *)
Lemma Neuron_validateInputs_same (inputs : value) (a b : Neuron.t) :
  length (Neuron.weights a) = length (Neuron.weights b) ->
  Neuron.validateInputs inputs a = Returned tt a ->
  Neuron.validateInputs inputs b = Returned tt b.
Proof.
  unfold Neuron.validateInputs. cbn [bind read]. intros ->.
  destruct (negb (Js.isArray inputs)); [discriminate |].
  destruct (negb (Js.strict_eq _ _)); [discriminate |].
  destruct (existsb _ _); [discriminate |]. reflexivity.
Qed.

Lemma Neuron_validateInputs_elements (inputs : value) (a : Neuron.t) :
  Neuron.validateInputs inputs a = Returned tt a ->
  existsb (fun input => negb (Js.is_number input) || negb (Js.isFinite input))
          (Js.elements inputs) = false.
Proof.
  unfold Neuron.validateInputs. cbn [bind read].
  destruct (negb (Js.isArray inputs)); [discriminate |].
  destruct (negb (Js.strict_eq _ _)); [discriminate |].
  destruct (existsb _ _); [discriminate |]. reflexivity.
Qed.

(** When [neurons.map(neuron => neuron.forward(...))] throws in a layer
    whose neurons have the same number of weights, it throws in the first
    neuron, before anything is stored. *)
Lemma map_forward_thrown (inputs : value) (f : number -> number) (ns ns' : list Neuron.t)
    (k : nat) (e : error) :
  Forall (fun n => length (Neuron.weights n) = k) ns ->
  map_objects (Neuron.forward inputs (returning f)) ns = Thrown e ns' ->
  ns' = ns.
Proof.
  intros Hall H. destruct ns as [| n0 rest]; [discriminate |].
  inversion Hall as [| ? ? Hn0 Hrest]; subst.
  cbn [map_objects] in H.
  destruct (Neuron_forward_outcome inputs f n0) as [(e' & _ & H0) | [Hv H0]];
    rewrite H0 in H.
  - injection H as _ <-. reflexivity.
  - rewrite (map_objects_pure (Neuron.forward inputs (returning f))
               (fun s => f (weighted_sum s (map Js.number_of (Js.elements inputs))))
               (neuron_after f (map Js.number_of (Js.elements inputs)))) in H;
      [discriminate |].
    eapply Forall_impl; [exact Hrest |]. intros n Hn. cbv beta in Hn.
    destruct (Neuron_forward_outcome inputs f n) as [(e' & Hv' & _) | [_ Hn']];
      [| exact Hn'].
    rewrite (Neuron_validateInputs_same inputs n0 n) in Hv'; [discriminate | congruence |].
    exact Hv.
Qed.

Lemma map_forward_returned (inputs : value) (f : number -> number) (n0 : Neuron.t)
    (rest ns' : list Neuron.t) (outs : list number) :
  map_objects (Neuron.forward inputs (returning f)) (n0 :: rest) = Returned outs ns' ->
  Neuron.validateInputs inputs n0 = Returned tt n0.
Proof.
  cbn [map_objects]. intros H.
  destruct (Neuron_forward_outcome inputs f n0) as [(e' & _ & H0) | [Hv _]];
    [rewrite H0 in H; discriminate | exact Hv].
Qed.

Lemma Layer_validateInputs_readonly (inputs : value) :
  readonly (Layer.validateInputs inputs).
Proof.
  intros l. unfold Layer.validateInputs. cbn [bind read].
  destruct (negb (Js.isArray inputs) || _); reflexivity.
Qed.

Lemma set_neurons_same (l : Layer.t) : Layer.set_neurons (Layer.neurons l) l = l.
Proof. destruct l; reflexivity. Qed.

Lemma Layer_forward_unchanged (inputs : value) (l l' : Layer.t) (k : nat) (e : error) :
  Forall (fun n => length (Neuron.weights n) = k) (Layer.neurons l) ->
  Layer.forward inputs l = Thrown e l' -> l' = l.
Proof.
  intros Hall H. unfold Layer.forward in H.
  apply bind_inv_thrown in H as [H | ([] & l1 & Hv & H)].
  - apply (readonly_unchanged _ (Layer_validateInputs_readonly inputs) _ _ _ H).
  - pose proof (Layer_validateInputs_readonly inputs l) as Hro.
    rewrite Hv in Hro. simpl in Hro. subst l1.
    cbn [bind read zoom] in H.
    destruct (map_objects _ (Layer.neurons l)) as [outs ns' | e' ns'] eqn:Hmap;
      [discriminate |].
    apply (map_forward_thrown _ _ _ _ k) in Hmap; [| exact Hall].
    subst ns'. injection H as _ <-. apply set_neurons_same.
Qed.

(** A layer with a neuron refuses an input that holds something else
    than finite numbers. *)
Lemma Layer_forward_rejects (inputs : value) (l : Layer.t) (k : nat) :
  Forall (fun n => length (Neuron.weights n) = k) (Layer.neurons l) ->
  Layer.neurons l <> [] ->
  existsb (fun input => negb (Js.is_number input) || negb (Js.isFinite input))
          (Js.elements inputs) = true ->
  exists e, Layer.forward inputs l = Thrown e l /\ kind_of e = Some ValidationError.
Proof.
  intros Hall Hne Hbad.
  unfold Layer.forward.
  pose proof (Layer_validateInputs_readonly inputs l) as Hro.
  destruct (Layer.validateInputs inputs l) as [[] l1 | e l1] eqn:Hv;
    simpl in Hro; subst l1.
  - rewrite (bind_returned _ _ _ _ _ Hv). cbn [bind read zoom].
    destruct (Layer.neurons l) as [| n0 rest] eqn:Hns; [contradiction |].
    cbn [map_objects].
    destruct (Neuron_forward_outcome inputs (func (Layer.activationFunction l)) n0)
      as [(e & He & ->) | [Hv0 _]].
    + exists e. split.
      * rewrite <- Hns. rewrite set_neurons_same. reflexivity.
      * revert He. unfold Neuron.validateInputs. cbn [bind read].
        destruct (negb (Js.isArray inputs)); [intros [= <-]; reflexivity |].
        destruct (negb (Js.strict_eq _ _)); [intros [= <-]; reflexivity |].
        destruct (existsb _ _); [intros [= <-]; reflexivity | discriminate].
    + apply Neuron_validateInputs_elements in Hv0. congruence.
  - exists e. split; [apply bind_thrown, Hv |].
    revert Hv. unfold Layer.validateInputs. cbn [bind read].
    destruct (negb (Js.isArray inputs) || _); [intros [= <-]; reflexivity | discriminate].
Qed.

Lemma layer_ok_uniform (l : Layer.t) :
  layer_ok l ->
  Forall (fun n => length (Neuron.weights n) = inputs_of l) (Layer.neurons l) /\
  Layer.neurons l <> [].
Proof.
  intros (_ & _ & _ & Hpos & Hlen & Hns & _). split.
  - eapply Forall_impl; [exact Hns |]. intros n (Hn & _). exact Hn.
  - intros Hnil. rewrite Hnil in Hlen. simpl in Hlen. lia.
Qed.

(** The elements of an array that passes the check of the neurons. *)
Lemma finite_elements (inputs : value) :
  Js.isArray inputs = true ->
  existsb (fun input => negb (Js.is_number input) || negb (Js.isFinite input))
          (Js.elements inputs) = false ->
  array_of inputs (map Js.number_of (Js.elements inputs)) /\
  Forall finite (map Js.number_of (Js.elements inputs)).
Proof.
  destruct inputs as [| | | | | r elems |]; try discriminate. intros _. simpl.
  intros H. split.
  - exists r. f_equal. induction elems as [| v vs IH]; [reflexivity |].
    simpl in H. apply orb_false_elim in H as [Hv Hvs].
    simpl. rewrite <- (IH Hvs). destruct v; try discriminate. reflexivity.
  - induction elems as [| v vs IH]; [constructor |].
    simpl in H. apply orb_false_elim in H as [Hv Hvs].
    constructor; [| exact (IH Hvs)].
    destruct v as [| | | n | | |]; try discriminate.
    destruct n; try discriminate. reflexivity.
Qed.

(** [predict] on a well-formed network fails in a validation, before
    anything is stored. *)
Lemma Network_predict_thrown (inputs : value) (s s' : Network.t) (e : error) :
  network_ok s ->
  Network.predict inputs s = Thrown e s' ->
  s' = s /\ kind_of e = Some ValidationError.
Proof.
  intros Hok H.
  pose proof (validatePredictionInputs_readonly inputs s) as Hro.
  destruct (Network.validatePredictionInputs inputs s) as [[] s1 | e1 s1] eqn:Hv;
    simpl in Hro; subst s1.
  2: { unfold Network.predict in H. rewrite (bind_thrown _ _ _ _ _ Hv) in H.
       injection H as <- <-. split; [reflexivity |].
       destruct Hok as (Hne & _).
       revert Hv. unfold Network.validatePredictionInputs. cbn [bind read].
       destruct (negb (Js.isArray inputs)); [intros [= <-]; reflexivity |].
       destruct (Network.layers s) as [| l0 ls]; [contradiction |]. simpl.
       destruct (negb _); [intros [= <-]; reflexivity | discriminate]. }
  destruct Hok as (Hne & Hall & Hch & Hlr).
  destruct (Network.layers s) as [| l0 ls] eqn:Hls; [contradiction |].
  assert (Harr : Js.isArray inputs = true /\
                 length (Js.elements inputs) = inputs_of l0).
  { revert Hv. unfold Network.validatePredictionInputs. cbn [bind read].
    rewrite Hls. simpl.
    destruct inputs as [| | | | | r elems |]; try discriminate. simpl.
    inversion Hall as [| ? ? (Hin & _) _]; subst. rewrite Hin.
    unfold of_nat. simpl. rewrite Reqb_INR.
    destruct (length elems =? inputs_of l0)%nat eqn:Heq; [| discriminate].
    intros _. split; [reflexivity |]. apply Nat.eqb_eq, Heq. }
  destruct Harr as [Harr Hlen].
  destruct (existsb (fun input => negb (Js.is_number input) || negb (Js.isFinite input))
                    (Js.elements inputs)) eqn:Hbad.
  - inversion Hall as [| ? ? Hl0 _]; subst.
    destruct (layer_ok_uniform l0 Hl0) as [Hu Hn0].
    destruct (Layer_forward_rejects (VArr 0 (Js.elements inputs)) l0 _ Hu Hn0 Hbad)
      as (e0 & He0 & Hk).
    unfold Network.predict in H. rewrite (bind_returned _ _ _ _ _ Hv) in H.
    cbn [bind read] in H. rewrite Hls in H.
    cbn [length for_range seq for_of] in H.
    unfold bind at 1 2 in H. cbn [zoom on_index] in H.
    rewrite Hls in H.
    assert (Hon : on_index 0 (Layer.forward (VArr 0 (Js.elements inputs))) (l0 :: ls)
                  = Thrown e0 (l0 :: ls))
      by (unfold on_index; simpl; rewrite He0; reflexivity).
    rewrite Hon in H.
    injection H as <- <-. split; [| exact Hk].
    rewrite <- Hls. destruct s; reflexivity.
  - exfalso.
    destruct (finite_elements inputs Harr Hbad) as [Ha Hf].
    destruct (Network_predict_ok inputs (map Js.number_of (Js.elements inputs)) s)
      as (outs & s1 & Hrun & _).
    + split_and!; try assumption; rewrite Hls; assumption.
    + exact Ha.
    + unfold network_inputs. rewrite Hls. simpl. rewrite length_map. exact Hlen.
    + exact Hf.
    + congruence.
Qed.

End Failures.

(** ** Validation and mutation *)

Section Validation.
Import Num.
Local Open Scope js_scope.
Context (coerce : value -> number).

Lemma addLayer_unchanged (neuronCount : value)
    (activationFunction : option activation_object) (inputSize : value) :
  unchanged_on_failure (Network.addLayer coerce neuronCount activationFunction inputSize).
Proof.
  intros [s g] e w' H.
  destruct (addLayer_outcome coerce neuronCount activationFunction inputSize s g)
    as [(e' & H' & _) | (l & g' & _ & H')];
    rewrite H' in H; [injection H as _ <-; reflexivity | discriminate].
Qed.

Lemma compile_unchanged : unchanged_on_failure Network.compile.
Proof.
  intros s e s' H.
  destruct (Network_compile_outcome s) as [[_ H'] | [_ H']];
    rewrite H' in H; [injection H as _ <-; reflexivity | discriminate].
Qed.

Lemma setLearningRate_unchanged (rate : value) :
  unchanged_on_failure (Network.setLearningRate rate).
Proof.
  intros s e s'. unfold Network.setLearningRate.
  destruct (negb (Js.is_number rate) || _); simpl; intros H;
    [injection H as _ <-; reflexivity | discriminate].
Qed.

(** The examples have [k] inputs and the network takes another number of
    inputs: [prepareForTraining] has compiled the network and emptied its
    history when it finds out. *)
Lemma train_input_size_mismatch (r : nat) (first : value) (rest : list value)
    (epochs : nat) (options : train_options) (s : Network.t) (g : generator) (k : nat) :
  network_ok s ->
  Forall (example_ok k (network_outputs s)) (first :: rest) ->
  k <> network_inputs s ->
  Network.train coerce (VArr r (first :: rest)) epochs options (s, g)
  = Thrown (Error (MsgNetworkInputSize (of_nat (network_inputs s)) (VNum (of_nat k))))
           (Network.set_trainingHistory [] (Network.set_isCompiled true s), g).
Proof.
  intros Hok Hex Hk.
  destruct (network_ok_layers s Hok) as (l0 & lz & Hl0 & Hlz & Hin & Hout).
  inversion Hex as [| ? ? Hfirst _]; subst.
  destruct (example_ok_fields _ _ _ Hfirst) as (fi & ft & Hgi & Hgt & _ & _ & Hli & Hlt).
  assert (Hne : Network.layers s <> []) by apply Hok.
  unfold Network.train.
  rewrite (bind_returned _ _ (s, g) (s, g) tt)
    by (eapply validateTrainingData_returns; exact Hex).
  apply bind_thrown. apply on_network_thrown.
  unfold Network.prepareForTraining.
  rewrite (bind_returned _ _ s s s) by reflexivity.
  rewrite (bind_returned _ _ _ _ _ (compile_if_needed s (or_intror Hne))).
  set (s2 := Network.set_trainingHistory [] (Network.set_isCompiled true s)).
  rewrite (bind_returned _ _ _ s2 tt) by reflexivity.
  cbn [Js.at_index nth].
  rewrite (bind_returned _ _ s2 s2 fi) by (rewrite Hgi; reflexivity).
  rewrite (bind_returned _ _ s2 s2 (VNum (of_nat k))) by (rewrite Hli; reflexivity).
  rewrite (bind_returned _ _ s2 s2 ft) by (rewrite Hgt; reflexivity).
  rewrite (bind_returned _ _ s2 s2 (VNum (of_nat (network_outputs s))))
    by (rewrite Hlt; reflexivity).
  rewrite (bind_returned _ _ s2 s2 s2) by reflexivity.
  rewrite (bind_returned _ _ s2 s2 l0) by (simpl; rewrite Hl0; reflexivity).
  rewrite Hin, strict_eq_of_nat.
  destruct (Nat.eqb_spec (network_inputs s) k) as [Heq | _]; [congruence |].
  reflexivity.
Qed.

End Validation.

(** C2 as stated fails for [train].  The network takes one input and the
    example has two: the validation of the data passes,
    [prepareForTraining] compiles the network, empties the history, and
    then throws; the network was not compiled before the call and is
    compiled after it. *)
Lemma train_failure_compiles_network :
  exists e w',
    Network.train no_coercion wide_example 1 no_options one_neuron_network = Thrown e w' /\
    kind_of e = Some ValidationError /\
    Network.isCompiled (fst one_neuron_network) = false /\
    Network.isCompiled (fst w') = true.
Proof.
  destruct one_neuron_network_ok as (s & g & -> & Hok & Hi & Ho & _ & Hc & _).
  eexists _, _. split_and!.
  - apply (train_input_size_mismatch no_coercion 1 (Js.at_index wide_example 0) []
             1 no_options s g 2 Hok).
    + rewrite Ho. exact wide_example_ok.
    + rewrite Hi. discriminate.
  - reflexivity.
  - exact Hc.
  - reflexivity.
Qed.


(** * Further properties of the code *)

(** ** Neurons *)

Section NeuronProperties.
Import Num.
Local Open Scope js_scope.

Lemma weighted_fold (W : list R) (xs : list R) (k : nat) (a : R) :
  (length xs + k <= length W)%nat ->
  fold_left (fun acc ix => acc + snd ix * nth (fst ix) (map Fin W) NaN)
            (imap (fun i x => ((k + i)%nat, x)) (map Fin xs)) (Fin a)
  = Fin (a + dot xs (drop k W)).
Proof.
  revert k a. induction xs as [| x xs IH]; intros k a Hlen.
  - simpl. f_equal. destruct (drop k W); simpl; lra.
  - simpl in Hlen.
    destruct (drop k W) as [| w rest] eqn:Hdrop.
    { apply (f_equal length) in Hdrop. rewrite length_drop in Hdrop. simpl in Hdrop. lia. }
    assert (Hk : W !! k = Some w).
    { rewrite <- (Nat.add_0_r k), <- lookup_drop, Hdrop. reflexivity. }
    assert (Hrest : drop (S k) W = rest).
    { replace (S k) with (k + 1)%nat by lia.
      rewrite <- (drop_drop W 1 k). rewrite Hdrop. reflexivity. }
    cbn [map imap fold_left fst snd]. rewrite Nat.add_0_r.
    rewrite (nth_lookup_Some _ _ NaN (Fin w))
      by (rewrite list_lookup_fmap, Hk; reflexivity).
    cbn [Num.mul Num.add].
    rewrite (imap_ext _ (fun i x => ((S k + i)%nat, x)))
      by (intros i y _; simpl; f_equal; lia).
    rewrite (IH (S k)) by lia. rewrite Hrest. simpl. f_equal. lra.
Qed.

(** The sum that [calculateWeightedSum] accumulates from the bias on. *)
Lemma weighted_sum_dot (ws xs : list R) (b : R) (li : option (list number))
    (lo : option number) :
  length xs = length ws ->
  weighted_sum (real_neuron ws b li lo) (map Fin xs) = Fin (b + dot xs ws).
Proof.
  intros Hlen. unfold weighted_sum, reduce, real_neuron. cbn [Neuron.weights Neuron.bias].
  rewrite (imap_ext _ (fun i x => ((0 + i)%nat, x))) by reflexivity.
  rewrite (weighted_fold ws xs 0 b) by lia. reflexivity.
Qed.

Lemma existsb_not_finite_number (elems : list value) :
  existsb (fun input => negb (Js.is_number input) || negb (Js.isFinite input)) elems
  = true <-> Exists not_finite_number elems.
Proof.
  split.
  - intros (v & Hin & Hv)%existsb_exists. apply Exists_exists. exists v.
    split; [apply list_elem_of_In, Hin |].
    intros r ->. discriminate.
  - intros (v & Hin & Hv)%Exists_exists. apply existsb_exists. exists v.
    split; [apply list_elem_of_In, Hin |].
    destruct v as [| | | [| | | x] | | |]; try reflexivity.
    exfalso. apply (Hv x). reflexivity.
Qed.

(** X1.  [forward] on as many finite inputs as the neuron has weights
    returns the activation of [bias + x_0 w_0 + ... + x_(n-1) w_(n-1)],
    stores the inputs and the output, and leaves weights and bias as
    they were. *)
Theorem Neuron_forward_weighted (ws xs : list R) (b : R) (f : number -> number)
    (li : option (list number)) (lo : option number) :
  length xs = length ws ->
  Neuron.forward (Js.array (map Fin xs)) (returning f) (real_neuron ws b li lo)
  = Returned (f (Fin (b + dot xs ws)))
             (real_neuron ws b (Some (map Fin xs)) (Some (f (Fin (b + dot xs ws))))).
Proof.
  intros Hlen.
  rewrite (Neuron_forward_returns (Js.array (map Fin xs)) (map Fin xs) f
             (real_neuron ws b li lo)).
  - unfold neuron_after. rewrite (weighted_sum_dot ws xs b li lo Hlen). reflexivity.
  - exists 0%nat. reflexivity.
  - simpl. rewrite !length_map. exact Hlen.
  - apply Forall_fmap, Forall_forall. intros x _. reflexivity.
Qed.

(** The example of the tests: weights [0.5, -0.3], bias 0.1 and inputs
    [1.0, 0.5] give the activation of 0.45. *)
Lemma Neuron_forward_weighted_witness :
  Neuron.forward (Js.array [Fin 1; Fin 0.5]) (returning (func activations.linear))
                 (real_neuron [0.5; -0.3] 0.1 None None)
  = Returned (Fin 0.45)
             (real_neuron [0.5; -0.3] 0.1 (Some [Fin 1; Fin 0.5]) (Some (Fin 0.45))).
Proof.
  pose proof (Neuron_forward_weighted [0.5; -0.3] [1; 0.5] 0.1 (func activations.linear)
                None None eq_refl) as H.
  replace (0.1 + dot [1; 0.5] [0.5; -0.3])%R with 0.45%R in H by (simpl; lra).
  exact H.
Defined.

(** [forward] once the inputs have passed the validation: the inputs
    are stored, and then the activation is called. *)
Lemma Neuron_forward_call (inputs : value) (f : callable) (this : Neuron.t) :
  Neuron.validateInputs inputs this = Returned tt this ->
  Neuron.forward inputs f this
  = match f with
    | NotCallable =>
        Thrown TypeError
               (Neuron.set_lastInputs (Some (map Js.number_of (Js.elements inputs))) this)
    | Callable body =>
        match body (weighted_sum this (map Js.number_of (Js.elements inputs))) with
        | Normal y =>
            Returned y
              (Neuron.set_lastOutput (Some y)
                 (Neuron.set_lastInputs (Some (map Js.number_of (Js.elements inputs)))
                                        this))
        | Abrupt e =>
            Thrown e
              (Neuron.set_lastInputs (Some (map Js.number_of (Js.elements inputs))) this)
        end
    end.
Proof.
  intros Hv. unfold Neuron.forward.
  rewrite (bind_returned _ _ _ _ _ Hv).
  cbn [bind modify Neuron.calculateWeightedSum read ret].
  destruct f as [| body]; [reflexivity |].
  cbn [invoke]. unfold weighted_sum.
  cbn [Neuron.weights Neuron.bias Neuron.set_lastInputs].
  destruct (body _); reflexivity.
Qed.

(** Every failure of [forward]: a refusal, or a failure of the call of
    the activation after the inputs have been stored. *)
Lemma Neuron_forward_thrown (inputs : value) (f : callable) (this : Neuron.t) :
  forall e this',
  Neuron.forward inputs f this = Thrown e this' ->
  (this' = this /\ kind_of e = Some ValidationError /\
   (Js.isArray inputs = false \/
    length (Js.elements inputs) <> length (Neuron.weights this) \/
    Exists not_finite_number (Js.elements inputs))) \/
  (this' = Neuron.set_lastInputs
             (Some (map Js.number_of (Js.elements inputs))) this /\
   Neuron.validateInputs inputs this = Returned tt this /\
   ((f = NotCallable /\ e = TypeError) \/
    exists body,
      f = Callable body /\
      body (weighted_sum this (map Js.number_of (Js.elements inputs)))
      = Abrupt e)).
Proof.
  intros e this' H.
  pose proof (Neuron_validateInputs_readonly inputs this) as Hro.
  destruct (Neuron.validateInputs inputs this) as [[] s1 | e1 s1] eqn:Hv;
    simpl in Hro; subst s1.
  - right. rewrite (Neuron_forward_call inputs f this Hv) in H.
    destruct f as [| body].
    + injection H as <- <-. split_and!; [reflexivity | reflexivity |].
      left. split; reflexivity.
    + destruct (body _) as [y | e'] eqn:Hb; [discriminate |].
      injection H as <- <-. split_and!; [reflexivity | reflexivity |].
      right. exists body. split; [reflexivity | exact Hb].
  - left. unfold Neuron.forward in H. rewrite (bind_thrown _ _ _ _ _ Hv) in H.
    injection H as <- <-. split; [reflexivity |].
    revert Hv. unfold Neuron.validateInputs. cbn [bind read].
    destruct inputs as [| | | | | r elems |];
      try (intros [= <-]; split; [reflexivity | left; reflexivity]).
    cbn [Js.isArray negb Js.length_opt Js.length_of Js.elements].
    rewrite strict_eq_of_nat.
    destruct (Nat.eqb_spec (length elems) (length (Neuron.weights this)))
      as [Heq | Hne]; cbn [negb].
    + destruct (existsb _ elems) eqn:Hbad; [| discriminate].
      intros [= <-]. split; [reflexivity |]. right. right.
      apply existsb_not_finite_number, Hbad.
    + intros [= <-]. split; [reflexivity |]. right. left. exact Hne.
Qed.

(** A value that cannot be called fails the call, after the inputs have
    been stored. *)
Lemma Neuron_forward_not_callable (xs : list number) (this : Neuron.t) :
  length xs = length (Neuron.weights this) -> Forall finite xs ->
  Neuron.forward (Js.array xs) NotCallable this
  = Thrown TypeError (Neuron.set_lastInputs (Some xs) this).
Proof.
  intros Hlen Hxs. rewrite Neuron_forward_call.
  - unfold Js.array. cbn [Js.elements]. rewrite number_of_elements. reflexivity.
  - destruct (Neuron_forward_outcome (Js.array xs) (fun x => x) this)
      as [(e & Hv & _) | (Hv & _)]; [| exact Hv].
    exfalso. revert Hv. unfold Neuron.validateInputs, Js.array. simpl.
    unfold Js.length_opt. simpl. rewrite length_map, Hlen.
    rewrite Reqb_INR, Nat.eqb_refl. simpl.
    rewrite existsb_not_finite by exact Hxs. discriminate.
Qed.

(** X2.  [forward] refuses, in this order, an argument that is not an
    array, an array of another length than the weights, and an array that
    holds something else than finite numbers; every time the neuron is
    left as it was.  The only other failure of [forward] is a failure of
    the call of the activation: a value that is not callable, or a
    function that throws.  It comes after the inputs have been stored, so
    that the neuron is left with [lastInputs] overwritten; with an
    activation that returns, every failure of [forward] is a refusal. *)
Theorem Neuron_forward_validation (inputs : value) (f : callable) (this : Neuron.t) :
  (Js.isArray inputs = false ->
   Neuron.forward inputs f this = Thrown (Error MsgInputNotArray) this) /\
  (forall r elems,
     inputs = VArr r elems -> length elems <> length (Neuron.weights this) ->
     Neuron.forward inputs f this
     = Thrown (Error (MsgInputSizeWeights (VNum (of_nat (length elems)))
                                          (length (Neuron.weights this)))) this) /\
  (forall r elems,
     inputs = VArr r elems -> length elems = length (Neuron.weights this) ->
     Exists not_finite_number elems ->
     Neuron.forward inputs f this = Thrown (Error MsgInputsNotFinite) this) /\
  (forall e this',
     Neuron.forward inputs f this = Thrown e this' ->
     (this' = this /\ kind_of e = Some ValidationError /\
      (Js.isArray inputs = false \/
       length (Js.elements inputs) <> length (Neuron.weights this) \/
       Exists not_finite_number (Js.elements inputs))) \/
     (this' = Neuron.set_lastInputs (Some (map Js.number_of (Js.elements inputs))) this /\
      Neuron.validateInputs inputs this = Returned tt this /\
      ((f = NotCallable /\ e = TypeError) \/
       exists body,
         f = Callable body /\
         body (weighted_sum this (map Js.number_of (Js.elements inputs))) = Abrupt e))) /\
  (forall g e this',
     f = returning g -> Neuron.forward inputs f this = Thrown e this' ->
     this' = this /\ kind_of e = Some ValidationError) /\
  (forall xs,
     inputs = Js.array xs -> length xs = length (Neuron.weights this) ->
     Forall finite xs -> f = NotCallable ->
     Neuron.forward inputs f this
     = Thrown TypeError (Neuron.set_lastInputs (Some xs) this)).
Proof.
  pose proof (Neuron_forward_thrown inputs f this) as Hthrown.
  split_and!.
  - intros Harr. unfold Neuron.forward. apply bind_thrown.
    unfold Neuron.validateInputs. cbn [bind read]. rewrite Harr. reflexivity.
  - intros r elems -> Hlen. unfold Neuron.forward. apply bind_thrown.
    unfold Neuron.validateInputs. cbn [bind read Js.isArray negb Js.length_opt Js.length_of].
    rewrite strict_eq_of_nat.
    destruct (Nat.eqb_spec (length elems) (length (Neuron.weights this))); [contradiction |].
    reflexivity.
  - intros r elems -> Hlen Hbad. unfold Neuron.forward. apply bind_thrown.
    unfold Neuron.validateInputs. cbn [bind read Js.isArray negb Js.length_opt Js.length_of].
    rewrite strict_eq_of_nat, Hlen, Nat.eqb_refl. cbn [negb Js.elements].
    apply existsb_not_finite_number in Hbad. rewrite Hbad. reflexivity.
  - exact Hthrown.
  - intros g e this' -> H.
    destruct (Hthrown e this' H) as [(H1 & H2 & _) | (_ & _ & [[Hf _] | (body & Hf & Hb)])].
    + split; assumption.
    + discriminate.
    + injection Hf as <-. discriminate.
  - intros xs -> Hlen Hxs ->. apply Neuron_forward_not_callable; assumption.
Qed.

Lemma Neuron_forward_validation_witness :
  Neuron.forward (VStr "invalid") (returning (func activations.sigmoid))
                 (real_neuron [0.5; -0.3] 0.1 None None)
  = Thrown (Error MsgInputNotArray) (real_neuron [0.5; -0.3] 0.1 None None) /\
  Neuron.forward (Js.array [Fin 1]) (returning (func activations.sigmoid))
                 (real_neuron [0.5; -0.3] 0.1 None None)
  = Thrown (Error (MsgInputSizeWeights (VNum (of_nat 1)) 2))
           (real_neuron [0.5; -0.3] 0.1 None None) /\
  Neuron.forward (VArr 0 [VNum (Fin 1); VNum PosInf]) (returning (func activations.sigmoid))
                 (real_neuron [0.5; -0.3] 0.1 None None)
  = Thrown (Error MsgInputsNotFinite) (real_neuron [0.5; -0.3] 0.1 None None) /\
  Neuron.forward (Js.array [Fin 1; Fin 0.5]) NotCallable
                 (real_neuron [0.5; -0.3] 0.1 None None)
  = Thrown TypeError (real_neuron [0.5; -0.3] 0.1 (Some [Fin 1; Fin 0.5]) None).
Proof.
  split_and!.
  - apply (Neuron_forward_validation (VStr "invalid")
             (returning (func activations.sigmoid))).
    reflexivity.
  - apply (proj1 (proj2 (Neuron_forward_validation (Js.array [Fin 1])
                           (returning (func activations.sigmoid))
                           (real_neuron [0.5; -0.3] 0.1 None None))) 0%nat [VNum (Fin 1)]).
    + reflexivity.
    + simpl. lia.
  - apply (proj1 (proj2 (proj2 (Neuron_forward_validation
                                  (VArr 0 [VNum (Fin 1); VNum PosInf])
                                  (returning (func activations.sigmoid))
                                  (real_neuron [0.5; -0.3] 0.1 None None))))
             0%nat [VNum (Fin 1); VNum PosInf]).
    + reflexivity.
    + reflexivity.
    + apply Exists_cons_tl, Exists_cons_hd. intros r. discriminate.
  - apply (Neuron_forward_validation (Js.array [Fin 1; Fin 0.5]) NotCallable
             (real_neuron [0.5; -0.3] 0.1 None None)).
    + reflexivity.
    + reflexivity.
    + repeat constructor.
    + reflexivity.
Defined.

(** X3.  [setWeights] followed by [getWeights] gives back the weights and
    the bias that were set, when the array has as many numbers as the
    neuron has weights; the caches are not touched.  An argument that is
    not an array, or an array of another length, is refused and the
    neuron is left as it was. *)
Theorem Neuron_setWeights_getWeights (this : Neuron.t) :
  (forall ws b,
     length ws = length (Neuron.weights this) ->
     exists this',
       Neuron.setWeights (Js.array ws) b this = Returned tt this' /\
       Neuron.getWeights this' = (ws, b) /\
       Neuron.lastInputs this' = Neuron.lastInputs this /\
       Neuron.lastOutput this' = Neuron.lastOutput this) /\
  (forall v b,
     Js.isArray v = false \/ length (Js.elements v) <> length (Neuron.weights this) ->
     Neuron.setWeights v b this = Thrown (Error MsgInvalidWeights) this).
Proof.
  split.
  - intros ws b Hlen. eexists. split.
    + unfold Neuron.setWeights. cbn [bind read Js.array Js.isArray negb Js.length_opt
                                        Js.length_of].
      rewrite strict_eq_of_nat, length_map, Hlen, Nat.eqb_refl. reflexivity.
    + cbn. rewrite number_of_elements. split_and!; reflexivity.
  - intros v b H. unfold Neuron.setWeights. cbn [bind read].
    destruct v as [| | | | | r elems |]; try reflexivity.
    destruct H as [H | H]; [discriminate |].
    cbn [Js.isArray negb Js.length_opt Js.length_of Js.elements] in *.
    rewrite strict_eq_of_nat.
    destruct (Nat.eqb_spec (length elems) (length (Neuron.weights this)));
      [contradiction | reflexivity].
Qed.

Lemma Neuron_setWeights_getWeights_witness :
  exists this',
    Neuron.setWeights (Js.array [Fin 0.1; Fin 0.2; Fin 0.3]) (Fin 0.4)
                      (real_neuron [0; 0; 0] 0 None None)
    = Returned tt this' /\
    Neuron.getWeights this' = ([Fin 0.1; Fin 0.2; Fin 0.3], Fin 0.4).
Proof.
  destruct (proj1 (Neuron_setWeights_getWeights (real_neuron [0; 0; 0] 0 None None))
              [Fin 0.1; Fin 0.2; Fin 0.3] (Fin 0.4) eq_refl)
    as (this' & Hrun & Hget & _).
  exists this'. split; assumption.
Defined.

Lemma fold_imap_indices {A B} (f : B -> A -> B) (l : list A) (g h : nat -> nat) (c : B) :
  fold_left (fun acc (ix : nat * A) => f acc (snd ix)) (imap (fun i w => (g i, w)) l) c
  = fold_left (fun acc (ix : nat * A) => f acc (snd ix)) (imap (fun i w => (h i, w)) l) c.
Proof.
  revert g h c. induction l as [| y l IH]; intros g h c; [reflexivity |].
  cbn [imap fold_left snd].
  exact (IH (fun i => g (S i)) (fun i => h (S i)) (f c y)).
Qed.

Lemma abs_fold (ws : list R) (a : R) :
  fold_left (fun acc (ix : nat * number) => acc + Math_abs (snd ix))
            (imap (fun i w => (i, w)) (map Fin ws)) (Fin a)
  = Fin (a + abs_sum ws).
Proof.
  revert a. induction ws as [| w ws IH]; intros a.
  - simpl. f_equal. lra.
  - cbn [map imap fold_left snd Math_abs Num.add].
    rewrite (fold_imap_indices (fun acc w => acc + Math_abs w) (map Fin ws)
               (fun i => S i) (fun i => i)).
    rewrite IH. simpl. f_equal. lra.
Qed.

(** X4.  [getInfo()] of a neuron reports the number of its weights and the
    sum of their absolute values, which is not negative. *)
Theorem Neuron_getInfo_weightsSum (ws : list R) (b : R) (li : option (list number))
    (lo : option number) :
  Neuron.info_inputSize (Neuron.getInfo (real_neuron ws b li lo)) = length ws /\
  Neuron.info_weightsSum (Neuron.getInfo (real_neuron ws b li lo)) = Fin (abs_sum ws) /\
  0 <= abs_sum ws /\
  Neuron.info_bias (Neuron.getInfo (real_neuron ws b li lo)) = Fin b /\
  Neuron.info_lastOutput (Neuron.getInfo (real_neuron ws b li lo)) = lo.
Proof.
  split_and!; try reflexivity.
  - simpl. apply length_map.
  - unfold Neuron.getInfo, reduce. cbn [Neuron.info_weightsSum real_neuron Neuron.weights].
    rewrite (abs_fold ws 0). f_equal. lra.
  - induction ws as [| w ws IH]; simpl; [lra |].
    pose proof (Rabs_pos w). lra.
Qed.

End NeuronProperties.

(** ** Layers *)

Section LayerProperties.
Import Num.
Local Open Scope js_scope.
Context (coerce : value -> number).

Lemma finite_values (l : list number) :
  Forall finite l -> l = map Fin (map value_of l).
Proof.
  induction 1 as [| x l Hx _ IH]; [reflexivity |].
  simpl. rewrite <- IH. destruct x; try discriminate. reflexivity.
Qed.

(** The weighted sum of a neuron with finite weights on finite inputs. *)
Lemma weighted_sum_value (n : Neuron.t) (xs : list number) :
  neuron_ok (length xs) n -> Forall finite xs ->
  weighted_sum n xs
  = Fin (value_of (Neuron.bias n)
         + dot (map value_of xs) (map value_of (Neuron.weights n))).
Proof.
  intros (Hlen & Hws & Hb) Hxs.
  rewrite (finite_values xs Hxs) at 1.
  destruct n as [ws b li lo]. simpl in *.
  destruct b as [| | | b]; try discriminate.
  rewrite (finite_values ws Hws) at 1.
  apply (weighted_sum_dot (map value_of ws) (map value_of xs) b li lo).
  rewrite !length_map. symmetry. exact Hlen.
Qed.

(** X5.  [forward] on a layer as the constructor builds it, given as many
    finite inputs as [inputSize], returns one output per neuron, the
    activation of [bias + x_0 w_0 + ...] for the weights and the bias of
    that neuron; it stores the outputs in [outputs] and the inputs in
    every neuron, and changes no weight and no bias. *)
Theorem Layer_forward_outputs (v : value) (xs : list number) (l : Layer.t) :
  layer_ok l -> array_of v xs -> length xs = inputs_of l -> Forall finite xs ->
  exists outs l',
    Layer.forward v l = Returned outs l' /\
    length outs = length (Layer.neurons l) /\
    (forall i n, Layer.neurons l !! i = Some n ->
       outs !! i
       = Some (func (Layer.activationFunction l)
                 (Fin (value_of (Neuron.bias n)
                       + dot (map value_of xs) (map value_of (Neuron.weights n)))))) /\
    Layer.outputs l' = outs /\
    Forall (fun n => Neuron.lastInputs n = Some xs) (Layer.neurons l') /\
    Layer.getWeights l' = Layer.getWeights l.
Proof.
  intros Hok Harr Hlen Hxs.
  exists (layer_outputs l xs), (layer_after l xs).
  split; [apply Layer_forward_returns; assumption |].
  destruct Hok as (_ & _ & _ & _ & _ & Hns & _).
  split_and!.
  - apply length_map.
  - intros i n Hn. unfold layer_outputs. rewrite list_lookup_fmap, Hn. simpl.
    do 2 f_equal. apply weighted_sum_value; [| exact Hxs].
    rewrite Hlen. apply (Forall_lookup_1 _ _ _ _ Hns Hn).
  - reflexivity.
  - simpl. apply Forall_fmap, Forall_forall. intros n _. reflexivity.
  - unfold Layer.getWeights. simpl. rewrite map_map. reflexivity.
Qed.

(** What [validateInputs] of a layer checks. *)
Lemma Layer_validateInputs_outcome (inputs : value) (l : Layer.t) :
  Layer.validateInputs inputs l
  = if Js.isArray inputs && Js.strict_eq (Js.length_opt inputs) (VNum (Layer.inputSize l))
    then Returned tt l
    else Thrown (Error (MsgInputSizeExpected (Js.length_opt inputs) (Layer.inputSize l))) l.
Proof.
  unfold Layer.validateInputs. cbn [bind read].
  destruct (Js.isArray inputs); [| reflexivity].
  destruct (Js.strict_eq _ _); reflexivity.
Qed.


(** The loop of [backwardOutput] and [backwardHidden]: neuron after
    neuron, the delta is computed from the error and the stored output,
    and the neuron makes its step. *)
Lemma update_loop_returns (err : nat -> number) (learningRate : number) (l : Layer.t)
    (body : list number -> nat -> M Layer.t (list number)) :
  has_inputs l ->
  (forall deltas i s,
     Layer.outputs s = Layer.outputs l ->
     Layer.activationFunction s = Layer.activationFunction l ->
     body deltas i s = Layer.update_neuron (err i) learningRate i deltas s) ->
  forall m, (m <= length (Layer.neurons l))%nat ->
    for_of (seq 0 m) [] body l
    = Returned (map (fun i => delta_of l i (err i)) (seq 0 m))
        (Layer.set_neurons
           (imap (fun i n => if (i <? m)%nat
                             then neuron_step (delta_of l i (err i)) learningRate n
                             else n)
                 (Layer.neurons l)) l).
Proof.
  intros Hin Hbody. induction m as [| m IH]; intros Hm.
  - cbn [seq for_of map ret]. f_equal.
    replace (imap _ (Layer.neurons l)) with (Layer.neurons l);
      [destruct l; reflexivity |].
    apply list_eq. intros i. rewrite list_lookup_imap.
    destruct (Layer.neurons l !! i); reflexivity.
  - rewrite seq_S, for_of_app, IH by lia. cbn [Nat.add for_of].
    set (ns := imap (fun i n => if (i <? m)%nat
                                then neuron_step (delta_of l i (err i)) learningRate n
                                else n) (Layer.neurons l)).
    rewrite (bind_returned _ _ _
               (Layer.set_neurons (<[m := neuron_step (delta_of l m (err m)) learningRate
                                             (nth m (Layer.neurons l)
                                                  (real_neuron [] 0 None None))]> ns) l)
               (map (fun i => delta_of l i (err i)) (seq 0 m) ++ [delta_of l m (err m)])).
    + cbn [ret]. rewrite map_app. cbn [map]. f_equal. f_equal.
      apply list_eq. intros i.
      destruct (lookup_lt_is_Some_2 (Layer.neurons l) m ltac:(lia)) as [nm Hnm].
      rewrite (nth_lookup_Some _ _ _ _ Hnm).
      destruct (decide (i = m)) as [-> | Hne].
      * rewrite list_lookup_insert_eq by (unfold ns; rewrite length_imap; lia).
        rewrite list_lookup_imap, Hnm. simpl.
        rewrite (proj2 (Nat.ltb_lt m (S m))) by lia. reflexivity.
      * rewrite list_lookup_insert_ne by congruence.
        unfold ns. rewrite !list_lookup_imap.
        destruct (Layer.neurons l !! i) as [n |]; [| reflexivity]. simpl.
        destruct (Nat.ltb_spec i m), (Nat.ltb_spec i (S m)); try lia; reflexivity.
    + rewrite Hbody by reflexivity.
      destruct (lookup_lt_is_Some_2 (Layer.neurons l) m ltac:(lia)) as [nm Hnm].
      rewrite (nth_lookup_Some _ _ _ _ Hnm).
      unfold Layer.update_neuron. cbn [bind read zoom Layer.neurons Layer.set_neurons
                                         Layer.outputs Layer.activationFunction].
      assert (Hlook : ns !! m = Some nm).
      { unfold ns. rewrite list_lookup_imap, Hnm. simpl.
        rewrite (proj2 (Nat.ltb_ge m m)) by lia. reflexivity. }
      unfold on_index. rewrite Hlook.
      assert (Hsome : Neuron.lastInputs nm <> None)
        by (apply (Forall_lookup_1 _ _ _ _ Hin Hnm)).
      destruct (Neuron.lastInputs nm) as [inputs |] eqn:Hli; [| contradiction].
      fold (delta_of l m (err m)).
      rewrite (updateWeights_returns nm _ learningRate inputs Hli).
      unfold neuron_step. rewrite Hli. reflexivity.
Qed.

Lemma update_loop_all (err : nat -> number) (learningRate : number) (l : Layer.t)
    (body : list number -> nat -> M Layer.t (list number)) :
  has_inputs l ->
  (forall deltas i s,
     Layer.outputs s = Layer.outputs l ->
     Layer.activationFunction s = Layer.activationFunction l ->
     body deltas i s = Layer.update_neuron (err i) learningRate i deltas s) ->
  for_range (length (Layer.neurons l)) [] body l
  = Returned (map (fun i => delta_of l i (err i)) (seq 0 (length (Layer.neurons l))))
      (layer_updated l (map (fun i => delta_of l i (err i))
                            (seq 0 (length (Layer.neurons l)))) learningRate).
Proof.
  intros Hin Hbody. unfold for_range.
  rewrite (update_loop_returns err learningRate l body Hin Hbody) by lia.
  f_equal. unfold layer_updated. f_equal.
  apply imap_ext. intros i n Hn. simpl.
  apply lookup_lt_Some in Hn as Hi.
  rewrite (proj2 (Nat.ltb_lt _ _) Hi).
  rewrite (nth_lookup_Some _ _ _ (delta_of l i (err i))); [reflexivity |].
  rewrite list_lookup_fmap, lookup_seq_lt by lia. reflexivity.
Qed.

(** The deltas of an output layer and of a hidden layer. *)
Lemma Layer_backwardOutput_returns (r : nat) (ts : list number) (learningRate : number)
    (l : Layer.t) :
  has_inputs l -> length ts = length (Layer.neurons l) ->
  Layer.backwardOutput coerce (VArr r (map VNum ts)) learningRate l
  = Returned
      (map (fun i => delta_of l i (Js.ToNumber coerce (nth i (map VNum ts) VUndefined)
                                   - nth i (Layer.outputs l) NaN))
           (seq 0 (length (Layer.neurons l))))
      (layer_updated l
         (map (fun i => delta_of l i (Js.ToNumber coerce (nth i (map VNum ts) VUndefined)
                                      - nth i (Layer.outputs l) NaN))
              (seq 0 (length (Layer.neurons l))))
         learningRate).
Proof.
  intros Hin Hlen. unfold Layer.backwardOutput.
  rewrite (bind_returned _ _ l l tt).
  2: { unfold Layer.validateTargets.
       cbn [bind read Js.isArray negb Js.length_opt Js.length_of orb].
       rewrite strict_eq_of_nat, length_map, Hlen, Nat.eqb_refl. reflexivity. }
  cbn [bind read].
  apply (update_loop_all
           (fun i => Js.ToNumber coerce (nth i (map VNum ts) VUndefined)
                     - nth i (Layer.outputs l) NaN) learningRate l); [exact Hin |].
  intros deltas i s Hout _. cbn [bind read Js.at_index]. rewrite Hout. reflexivity.
Qed.

Lemma Layer_backwardHidden_returns (nextLayerDeltas : list number)
    (nextLayerWeights : list (list number)) (learningRate : number) (l : Layer.t) :
  length nextLayerDeltas = length nextLayerWeights -> has_inputs l ->
  Layer.backwardHidden nextLayerDeltas nextLayerWeights learningRate l
  = Returned
      (map (fun i => delta_of l i
                       (Layer.calculateNeuronError i nextLayerDeltas nextLayerWeights))
           (seq 0 (length (Layer.neurons l))))
      (layer_updated l
         (map (fun i => delta_of l i
                          (Layer.calculateNeuronError i nextLayerDeltas nextLayerWeights))
              (seq 0 (length (Layer.neurons l))))
         learningRate).
Proof.
  intros Hlen Hin.
  unfold Layer.backwardHidden, Layer.validateBackpropagationInputs.
  rewrite Hlen, Nat.eqb_refl. cbn [negb bind ret read].
  apply (update_loop_all
           (fun i => Layer.calculateNeuronError i nextLayerDeltas nextLayerWeights)
           learningRate l); [exact Hin |].
  intros deltas i s _ _. reflexivity.
Qed.

(** X7.  [backwardOutput] on a layer that has made a forward pass, given
    as many targets as the layer has neurons, returns for every neuron
    the delta [(targets[i] - outputs[i]) * derivative(outputs[i])] and
    lets every neuron make its step with its own delta; the outputs are
    not touched. *)
Theorem Layer_backwardOutput_deltas (r : nat) (ts : list number) (learningRate : number)
    (l : Layer.t) :
  has_inputs l -> length ts = length (Layer.neurons l) ->
  exists deltas,
    Layer.backwardOutput coerce (VArr r (map VNum ts)) learningRate l
    = Returned deltas (layer_updated l deltas learningRate) /\
    length deltas = length (Layer.neurons l) /\
    forall i t, ts !! i = Some t ->
      deltas !! i
      = Some ((t - nth i (Layer.outputs l) NaN)
              * derivative (Layer.activationFunction l) (nth i (Layer.outputs l) NaN)).
Proof.
  intros Hin Hlen.
  set (err := fun i => Js.ToNumber coerce (Js.at_index (VArr r (map VNum ts)) i)
                       - nth i (Layer.outputs l) NaN).
  exists (map (fun i => delta_of l i (err i)) (seq 0 (length (Layer.neurons l)))).
  split_and!.
  - unfold Layer.backwardOutput.
    rewrite (bind_returned _ _ l l tt).
    2: { unfold Layer.validateTargets.
         cbn [bind read Js.isArray negb Js.length_opt Js.length_of orb].
         rewrite strict_eq_of_nat, length_map, Hlen, Nat.eqb_refl. reflexivity. }
    cbn [bind read].
    apply (update_loop_all err learningRate l); [exact Hin |].
    intros deltas i s Hout _. cbn [bind read]. unfold err. rewrite Hout. reflexivity.
  - rewrite length_map, length_seq. reflexivity.
  - intros i t Ht. apply lookup_lt_Some in Ht as Hi.
    rewrite list_lookup_fmap, lookup_seq_lt by lia. simpl.
    unfold delta_of, err. cbn [Js.at_index].
    rewrite (nth_lookup_Some _ _ _ (VNum t)) by (rewrite list_lookup_fmap, Ht; reflexivity).
    reflexivity.
Qed.

(** X8.  [backwardHidden], given as many deltas as weight vectors, on a
    layer that has made a forward pass, returns for every neuron [i] the
    delta [(sum over j of deltas[j] * weights[j][i]) * derivative(outputs[i])]
    and lets every neuron make its step with its own delta; with another
    number of deltas than weight vectors it throws and the layer is left
    as it was. *)
Theorem Layer_backwardHidden_deltas (nextLayerDeltas : list number)
    (nextLayerWeights : list (list number)) (learningRate : number) (l : Layer.t) :
  (length nextLayerDeltas <> length nextLayerWeights ->
   Layer.backwardHidden nextLayerDeltas nextLayerWeights learningRate l
   = Thrown (Error MsgDeltasCount) l) /\
  (length nextLayerDeltas = length nextLayerWeights -> has_inputs l ->
   exists deltas,
     Layer.backwardHidden nextLayerDeltas nextLayerWeights learningRate l
     = Returned deltas (layer_updated l deltas learningRate) /\
     length deltas = length (Layer.neurons l) /\
     forall i, (i < length (Layer.neurons l))%nat ->
       deltas !! i
       = Some (Layer.calculateNeuronError i nextLayerDeltas nextLayerWeights
               * derivative (Layer.activationFunction l) (nth i (Layer.outputs l) NaN))).
Proof.
  split.
  - intros Hne. unfold Layer.backwardHidden, Layer.validateBackpropagationInputs.
    apply bind_thrown.
    destruct (Nat.eqb_spec (length nextLayerDeltas) (length nextLayerWeights));
      [contradiction | reflexivity].
  - intros Hlen Hin.
    set (err := fun i => Layer.calculateNeuronError i nextLayerDeltas nextLayerWeights).
    exists (map (fun i => delta_of l i (err i)) (seq 0 (length (Layer.neurons l)))).
    split_and!.
    + unfold Layer.backwardHidden, Layer.validateBackpropagationInputs.
      rewrite Hlen, Nat.eqb_refl. cbn [negb bind ret read].
      apply (update_loop_all err learningRate l); [exact Hin |].
      intros deltas i s _ _. reflexivity.
    + rewrite length_map, length_seq. reflexivity.
    + intros i Hi. rewrite list_lookup_fmap, lookup_seq_lt by lia. reflexivity.
Qed.

End LayerProperties.

Lemma sample_layer_ok : layer_ok sample_layer.
Proof.
  unfold layer_ok, inputs_of, outputs_of.
  cbn [sample_layer Layer.inputSize Layer.size Layer.neurons Layer.activationFunction].
  rewrite !to_nat_of_nat.
  destruct (Forall_inv finite_preserving_catalog) as [Hf Hd].
  split_and!; try reflexivity; try lia; try assumption.
  repeat constructor.
Qed.

Lemma Layer_forward_outputs_witness :
  exists outs l',
    Layer.forward (Js.array [Fin 1; Fin 0.5]) sample_layer = Returned outs l' /\
    outs !! 0%nat = Some (func activations.sigmoid (Fin 0.75)) /\
    outs !! 1%nat = Some (func activations.sigmoid (Fin (-0.1))) /\
    Layer.outputs l' = outs.
Proof.
  destruct (Layer_forward_outputs (Js.array [Fin 1; Fin 0.5]) [Fin 1; Fin 0.5]
              sample_layer sample_layer_ok)
    as (outs & l' & Hrun & _ & Hout & Hstored & _).
  { exists 0%nat. reflexivity. }
  { unfold inputs_of. cbn [sample_layer Layer.inputSize].
    rewrite to_nat_of_nat. reflexivity. }
  { repeat constructor. }
  exists outs, l'. split_and!; try assumption.
  - rewrite (Hout 0%nat _ eq_refl).
    cbn [sample_layer Layer.activationFunction real_neuron Neuron.bias Neuron.weights
         value_of map dot].
    match goal with
    | |- Some (_ (Fin ?a)) = Some (_ (Fin ?b)) => replace a with b by lra
    end.
    reflexivity.
  - rewrite (Hout 1%nat _ eq_refl).
    cbn [sample_layer Layer.activationFunction real_neuron Neuron.bias Neuron.weights
         value_of map dot].
    match goal with
    | |- Some (_ (Fin ?a)) = Some (_ (Fin ?b)) => replace a with b by lra
    end.
    reflexivity.
Defined.


Lemma Layer_backwardOutput_deltas_witness :
  exists deltas,
    Layer.backwardOutput no_coercion (VArr 0 [VNum (Fin 0.8); VNum (Fin 0.2)]) (Fin 0.1)
                         (layer_after sample_layer [Fin 1; Fin 0.5])
    = Returned deltas
               (layer_updated (layer_after sample_layer [Fin 1; Fin 0.5]) deltas (Fin 0.1)) /\
    length deltas = 2%nat.
Proof.
  destruct (Layer_backwardOutput_deltas no_coercion 0 [Fin 0.8; Fin 0.2] (Fin 0.1)
              (layer_after sample_layer [Fin 1; Fin 0.5]))
    as (deltas & Hrun & Hlen & _).
  { repeat constructor; discriminate. }
  { reflexivity. }
  exists deltas. split; assumption.
Defined.

Lemma Layer_backwardHidden_deltas_witness :
  Layer.backwardHidden [Fin 0.1; Fin 0.2] [[Fin 1; Fin 2]] (Fin 0.1)
                       (layer_after sample_layer [Fin 1; Fin 1])
  = Thrown (Error MsgDeltasCount) (layer_after sample_layer [Fin 1; Fin 1]) /\
  exists deltas,
    Layer.backwardHidden [Fin 0.1; Fin (-0.05); Fin 0.02]
      [[Fin 0.3; Fin (-0.2)]; [Fin 0.1; Fin 0.4]; [Fin (-0.1); Fin 0.2]] (Fin 0.1)
      (layer_after sample_layer [Fin 1; Fin 0.5])
    = Returned deltas
               (layer_updated (layer_after sample_layer [Fin 1; Fin 0.5]) deltas (Fin 0.1)) /\
    length deltas = 2%nat.
Proof.
  split.
  - apply (proj1 (Layer_backwardHidden_deltas [Fin 0.1; Fin 0.2] [[Fin 1; Fin 2]] (Fin 0.1)
                    (layer_after sample_layer [Fin 1; Fin 1]))).
    simpl. lia.
  - destruct (proj2 (Layer_backwardHidden_deltas [Fin 0.1; Fin (-0.05); Fin 0.02]
                       [[Fin 0.3; Fin (-0.2)]; [Fin 0.1; Fin 0.4]; [Fin (-0.1); Fin 0.2]]
                       (Fin 0.1) (layer_after sample_layer [Fin 1; Fin 0.5])))
      as (deltas & Hrun & Hlen & _).
    { reflexivity. }
    { repeat constructor; discriminate. }
    exists deltas. split; assumption.
Defined.

(** ** The constructor of a layer *)

Section LayerConstruction.
Import Num.
Local Open Scope js_scope.

Lemma Neuron_constructor_draws (n : nat) (g : generator) :
  exists this g',
    Neuron.constructor n g = Returned this g' /\
    (forall k, g' k = g (n + 1 + k)%nat) /\
    length (Neuron.weights this) = n /\
    Forall (fun w => exists r : R, w = Fin r /\ Rabs r <= sqrt (6 / (INR n + 1)))
           (Neuron.weights this) /\
    (exists b : R, Neuron.bias this = Fin b /\ Rabs b <= 0.1) /\
    Neuron.lastInputs this = None /\ Neuron.lastOutput this = None.
Proof.
  unfold Neuron.constructor.
  rewrite (bind_returned _ _ _ _ _ (initializeWeights_returns n g)).
  eexists _, _. split; [reflexivity |]. cbn.
  split_and!; try reflexivity.
  - intros k. f_equal. lia.
  - rewrite length_map, length_seq. reflexivity.
  - apply Forall_fmap, Forall_forall. intros k _. simpl.
    eexists. split; [reflexivity |]. apply scaled_draw_bound, sqrt_pos.
  - eexists. split; [reflexivity |]. apply scaled_draw_bound. lra.
Qed.

Lemma createNeurons_draws (a b : nat) (acc : list Neuron.t) (g : generator) :
  exists ns g',
    for_of (repeat tt a) acc
           (fun acc _ => n <- Neuron.constructor b ;; ret (acc ++ [n])) g
    = Returned (acc ++ ns) g' /\
    (forall k, g' k = g (a * (b + 1) + k)%nat) /\
    length ns = a /\
    Forall (fun n =>
              length (Neuron.weights n) = b /\
              Forall (fun w => exists r : R, w = Fin r /\ Rabs r <= sqrt (6 / (INR b + 1)))
                     (Neuron.weights n) /\
              (exists c : R, Neuron.bias n = Fin c /\ Rabs c <= 0.1) /\
              Neuron.lastInputs n = None /\ Neuron.lastOutput n = None) ns.
Proof.
  revert acc g. induction a as [| a IH]; intros acc g.
  - exists [], g. simpl. rewrite app_nil_r. split_and!; try reflexivity. constructor.
  - destruct (Neuron_constructor_draws b g) as (n & g1 & Hn & Hg1 & Hprops).
    destruct (IH (acc ++ [n]) g1) as (ns & g' & Hrun & Hg' & Hlen & Hall).
    exists (n :: ns), g'. cbn [repeat for_of].
    rewrite (bind_returned _ _ g g1 (acc ++ [n])).
    2: { rewrite (bind_returned _ _ _ _ _ Hn). reflexivity. }
    rewrite Hrun, <- app_assoc. split_and!.
    + reflexivity.
    + intros k. rewrite Hg', Hg1. f_equal. lia.
    + simpl. rewrite Hlen. reflexivity.
    + constructor; assumption.
Qed.

(** X9.  The constructor of a layer refuses, in this order, a neuron
    count that is not a positive integer, an input size that is not a
    positive integer, and an activation without a [func] or a
    [derivative]; it has then drawn no random number.  Otherwise it
    builds [neuronCount] neurons with [inputSize] weights each, within
    the bounds of the initialization and without cached values, an empty
    [outputs], and it has drawn [neuronCount * (inputSize + 1)] random
    numbers. *)
Theorem Layer_constructor_builds (neuronCount inputSize : value)
    (activationFunction : option activation_object) (g : generator) :
  (Js.isInteger neuronCount = false \/ (Js.number_of neuronCount <=? 0) = true ->
   Layer.constructor neuronCount inputSize activationFunction g
   = Thrown (Error MsgNeuronCount) g) /\
  (Js.isInteger neuronCount = true -> (Js.number_of neuronCount <=? 0) = false ->
   Js.isInteger inputSize = false \/ (Js.number_of inputSize <=? 0) = true ->
   Layer.constructor neuronCount inputSize activationFunction g
   = Thrown (Error MsgInputSizePositive) g) /\
  (Js.isInteger neuronCount = true -> (Js.number_of neuronCount <=? 0) = false ->
   Js.isInteger inputSize = true -> (Js.number_of inputSize <=? 0) = false ->
   (forall f d nm, activationFunction
                   <> Some {| obj_func := Some f; obj_derivative := Some d;
                              obj_name := nm |}) ->
   Layer.constructor neuronCount inputSize activationFunction g
   = Thrown (Error MsgActivationMethods) g) /\
  (forall a b af,
     (0 < a)%nat -> (0 < b)%nat ->
     neuronCount = VNum (of_nat a) -> inputSize = VNum (of_nat b) ->
     activationFunction = Some (object_of af) ->
     exists l g',
       Layer.constructor neuronCount inputSize activationFunction g = Returned l g' /\
       (forall k, g' k = g (a * (b + 1) + k)%nat) /\
       length (Layer.neurons l) = a /\
       Forall (fun n =>
                 length (Neuron.weights n) = b /\
                 Forall (fun w => exists r : R,
                                    w = Fin r /\ Rabs r <= sqrt (6 / (INR b + 1)))
                        (Neuron.weights n) /\
                 (exists c : R, Neuron.bias n = Fin c /\ Rabs c <= 0.1) /\
                 Neuron.lastInputs n = None /\ Neuron.lastOutput n = None)
              (Layer.neurons l) /\
       Layer.outputs l = [] /\
       Layer.size l = of_nat a /\ Layer.inputSize l = of_nat b /\
       func (Layer.activationFunction l) = func af /\
       derivative (Layer.activationFunction l) = derivative af).
Proof.
  unfold Layer.constructor, Layer.validateParameters. split_and!.
  - intros [H | H]; rewrite H; [reflexivity |]. rewrite orb_true_r. reflexivity.
  - intros H1 H2 [H | H]; rewrite H1, H2, H; [reflexivity |].
    cbn [negb orb]. rewrite orb_true_r. reflexivity.
  - intros H1 H2 H3 H4 Hact. rewrite H1, H2, H3, H4. cbn [negb orb].
    destruct activationFunction as [[[f |] [d |] nm] |]; try reflexivity.
    exfalso. apply (Hact f d nm). reflexivity.
  - intros a b af Ha Hb -> -> ->.
    destruct (of_nat_positive a Ha) as [Hai Hap].
    destruct (of_nat_positive b Hb) as [Hbi Hbp].
    cbn [Js.isInteger Js.number_of]. rewrite Hai, Hap, Hbi, Hbp.
    cbn [negb orb object_of].
    destruct (createNeurons_draws a b [] g) as (ns & g' & Hrun & Hg' & Hlen & Hall).
    exists {| Layer.neurons := ns;
              Layer.activationFunction :=
                {| func := func af; derivative := derivative af; name := name af |};
              Layer.outputs := []; Layer.size := of_nat a; Layer.inputSize := of_nat b |},
           g'.
    split_and!; try reflexivity; try assumption.
    rewrite (bind_returned _ _ g g {| func := func af; derivative := derivative af;
                                      name := name af |}) by reflexivity.
    rewrite (bind_returned _ _ g g' ns); [reflexivity |].
    unfold Layer.createNeurons, map_of. rewrite !to_nat_of_nat. exact Hrun.
Qed.

End LayerConstruction.

Lemma Layer_constructor_builds_witness :
  Layer.constructor (VNum (Fin 1.5)) (VNum (Fin 2)) (Some (object_of activations.sigmoid))
                    zeros
  = Thrown (Error MsgNeuronCount) zeros /\
  exists l g',
    Layer.constructor (VNum (Num.of_nat 3)) (VNum (Num.of_nat 2))
                      (Some (object_of activations.sigmoid)) zeros
    = Returned l g' /\
    length (Layer.neurons l) = 3%nat /\
    Forall (fun n => length (Neuron.weights n) = 2%nat) (Layer.neurons l).
Proof.
  split.
  - apply (proj1 (Layer_constructor_builds (VNum (Fin 1.5)) (VNum (Fin 2))
                    (Some (object_of activations.sigmoid)) zeros)).
    left. cbn [Js.isInteger Num.isInteger].
    apply Reqb_false. intros H.
    assert (H2 : IZR (2 * Zfloor 1.5) = IZR 3) by (rewrite mult_IZR, H; lra).
    apply eq_IZR in H2. lia.
  - destruct (proj2 (proj2 (proj2 (Layer_constructor_builds (VNum (Num.of_nat 3))
                                     (VNum (Num.of_nat 2))
                                     (Some (object_of activations.sigmoid)) zeros)))
                3%nat 2%nat activations.sigmoid)
      as (l & g' & Hrun & _ & Hlen & Hall & _); try reflexivity; try lia.
    exists l, g'. split_and!; try assumption.
    eapply Forall_impl; [exact Hall |]. intros n (Hn & _). exact Hn.
Defined.

(** ** Setting the weights of a layer *)

Section LayerWeights.
Import Num.
Local Open Scope js_scope.

Lemma Neuron_setWeights_entry (wb : list number * number) (n : Neuron.t) :
  Neuron.setWeights (Js.array (fst wb)) (snd wb) n
  = if (length (fst wb) =? length (Neuron.weights n))%nat
    then Returned tt (neuron_set wb n)
    else Thrown (Error MsgInvalidWeights) n.
Proof.
  unfold Neuron.setWeights.
  cbn [bind read Js.array Js.isArray negb Js.length_opt Js.length_of orb].
  rewrite strict_eq_of_nat, length_map.
  destruct (length (fst wb) =? length (Neuron.weights n))%nat; [| reflexivity].
  cbn. rewrite number_of_elements. reflexivity.
Qed.

(** The neurons once the entries of index below [m] have been taken. *)
Lemma setWeights_loop (r : nat) (data : list (list number * number)) (l : Layer.t) :
  forall m,
    (m <= length data)%nat -> (m <= length (Layer.neurons l))%nat ->
    (forall i wb n, (i < m)%nat -> data !! i = Some wb -> Layer.neurons l !! i = Some n ->
                    length (fst wb) = length (Neuron.weights n)) ->
    for_of (imap (fun index d => (index, d)) (take m (map (weights_entry r) data))) tt
      (fun _ entry =>
         w <- runtime (Js.get (snd entry) "weights") ;;
         b <- runtime (Js.get (snd entry) "bias") ;;
         zoom Layer.neurons Layer.set_neurons
              (on_index (fst entry) (Neuron.setWeights w (Js.number_of b)))) l
    = Returned tt
        (Layer.set_neurons
           (imap (fun i n => if (i <? m)%nat then neuron_set (nth i data ([], NaN)) n else n)
                 (Layer.neurons l)) l).
Proof.
  induction m as [| m IH]; intros Hm Hn Hgood.
  - cbn [take imap for_of ret]. f_equal.
    replace (imap _ (Layer.neurons l)) with (Layer.neurons l);
      [destruct l; reflexivity |].
    apply list_eq. intros i. rewrite list_lookup_imap.
    destruct (Layer.neurons l !! i); reflexivity.
  - destruct (lookup_lt_is_Some_2 data m ltac:(lia)) as [wb Hwb].
    destruct (lookup_lt_is_Some_2 (Layer.neurons l) m ltac:(lia)) as [nm Hnm].
    rewrite (take_S_r _ m (weights_entry r wb))
      by (rewrite list_lookup_fmap, Hwb; reflexivity).
    rewrite imap_app, for_of_app.
    rewrite IH by (try lia; intros i wb' n' Hi; apply Hgood; lia).
    rewrite length_take, length_map, Nat.min_l by lia.
    cbn [imap for_of fst snd]. rewrite Nat.add_0_r.
    set (ns := imap (fun i n => if (i <? m)%nat
                                then neuron_set (nth i data ([], NaN)) n else n)
                    (Layer.neurons l)).
    assert (Hlook : ns !! m = Some nm).
    { unfold ns. rewrite list_lookup_imap, Hnm. simpl.
      rewrite (proj2 (Nat.ltb_ge m m)) by lia. reflexivity. }
    cbn [weights_entry Js.get Js.assoc String.eqb Ascii.eqb Bool.eqb bind runtime ret
         Js.number_of zoom Layer.neurons Layer.set_neurons].
    unfold on_index. rewrite Hlook, Neuron_setWeights_entry.
    rewrite (Hgood m wb nm ltac:(lia) Hwb Hnm), Nat.eqb_refl.
    apply (f_equal (Returned tt)).
    transitivity (Layer.set_neurons (<[m := neuron_set wb nm]> ns) l); [reflexivity |].
    f_equal. apply list_eq. intros i.
    destruct (decide (i = m)) as [-> | Hne].
    + rewrite list_lookup_insert_eq by (unfold ns; rewrite length_imap; lia).
      rewrite list_lookup_imap, Hnm. simpl.
      rewrite (proj2 (Nat.ltb_lt m (S m))) by lia.
      rewrite (nth_lookup_Some _ _ _ _ Hwb). reflexivity.
    + rewrite list_lookup_insert_ne by congruence.
      unfold ns. rewrite !list_lookup_imap.
      destruct (Layer.neurons l !! i) as [n |]; [| reflexivity]. simpl.
      destruct (Nat.ltb_spec i m), (Nat.ltb_spec i (S m)); try lia; reflexivity.
Qed.

Lemma getWeights_neuron_set (wb : list number * number) (n : Neuron.t) :
  Neuron.getWeights (neuron_set wb n) = wb.
Proof. destruct wb. reflexivity. Qed.

(** X10.  [Layer.setWeights] followed by [getWeights] gives back the
    entries that were set: one entry [{weights, bias}] per neuron, each
    with as many weights as the neuron has.  The cached values of the
    neurons and the outputs are not touched. *)
Theorem Layer_setWeights_getWeights (r r' : nat) (data : list (list number * number))
    (l : Layer.t) :
  Forall2 (fun wb n => length (fst wb) = length (Neuron.weights n)) data (Layer.neurons l) ->
  exists l',
    Layer.setWeights (VArr r (map (weights_entry r') data)) l = Returned tt l' /\
    Layer.getWeights l' = data /\
    map Neuron.lastInputs (Layer.neurons l') = map Neuron.lastInputs (Layer.neurons l) /\
    map Neuron.lastOutput (Layer.neurons l') = map Neuron.lastOutput (Layer.neurons l) /\
    Layer.outputs l' = Layer.outputs l.
Proof.
  intros Hall. pose proof (Forall2_length _ _ _ Hall) as Hlen.
  eexists. split.
  - unfold Layer.setWeights.
    cbn [bind read Js.isArray negb Js.length_opt Js.length_of orb Js.elements].
    rewrite strict_eq_of_nat, length_map, Hlen, Nat.eqb_refl.
    rewrite <- (firstn_all (map (weights_entry r') data)), length_map.
    apply (setWeights_loop r' data l (length data)); [lia | lia |].
    intros i wb n _ Hwb Hn. exact (Forall2_lookup_lr _ _ _ _ _ _ Hall Hwb Hn).
  - cbn [Layer.set_neurons Layer.neurons Layer.outputs]. split_and!.
    + unfold Layer.getWeights. cbn [Layer.set_neurons Layer.neurons].
      apply list_eq. intros i. rewrite list_lookup_fmap, list_lookup_imap.
      destruct (data !! i) as [wb |] eqn:Hwb.
      * destruct (Forall2_lookup_l _ _ _ _ _ Hall Hwb) as (n & Hn & _).
        rewrite Hn. simpl. apply lookup_lt_Some in Hwb as Hi.
        rewrite (proj2 (Nat.ltb_lt _ _) Hi), getWeights_neuron_set.
        rewrite (nth_lookup_Some _ _ _ _ Hwb). reflexivity.
      * apply lookup_ge_None in Hwb.
        rewrite (proj2 (lookup_ge_None (Layer.neurons l) i)) by lia. reflexivity.
    + apply list_eq. intros i. rewrite !list_lookup_fmap, list_lookup_imap.
      destruct (Layer.neurons l !! i); [| reflexivity]. simpl.
      destruct (i <? length data)%nat; reflexivity.
    + apply list_eq. intros i. rewrite !list_lookup_fmap, list_lookup_imap.
      destruct (Layer.neurons l !! i); [| reflexivity]. simpl.
      destruct (i <? length data)%nat; reflexivity.
    + reflexivity.
Qed.

(** X11.  [Layer.setWeights] checks each entry when its turn comes.  When
    the entries before the index [k] fit their neurons and the entry [k]
    has another number of weights than its neuron, the call throws, and
    the neurons before [k] have already taken their entries: a failing
    call does not leave the layer as it was. *)
Theorem Layer_setWeights_partial (r r' : nat) (data : list (list number * number))
    (l : Layer.t) (k : nat) (bad : list number * number) (nk : Neuron.t) :
  length data = length (Layer.neurons l) ->
  data !! k = Some bad -> Layer.neurons l !! k = Some nk ->
  length (fst bad) <> length (Neuron.weights nk) ->
  (forall i wb n, (i < k)%nat -> data !! i = Some wb -> Layer.neurons l !! i = Some n ->
                  length (fst wb) = length (Neuron.weights n)) ->
  exists l',
    Layer.setWeights (VArr r (map (weights_entry r') data)) l
    = Thrown (Error MsgInvalidWeights) l' /\
    Layer.getWeights l' = take k data ++ drop k (Layer.getWeights l).
Proof.
  intros Hlen Hbad Hnk Hne Hgood.
  apply lookup_lt_Some in Hbad as Hk.
  exists (Layer.set_neurons
            (imap (fun i n => if (i <? k)%nat
                              then neuron_set (nth i data ([], NaN)) n else n)
                  (Layer.neurons l)) l).
  split.
  - unfold Layer.setWeights.
    cbn [bind read Js.isArray negb Js.length_opt Js.length_of orb Js.elements].
    rewrite strict_eq_of_nat, length_map, Hlen, Nat.eqb_refl.
    replace (map (weights_entry r') data)
      with (take k (map (weights_entry r') data) ++ drop k (map (weights_entry r') data))
      by apply take_drop.
    cbn [negb]. rewrite imap_app, for_of_app.
    rewrite (setWeights_loop r' data l k) by (try lia; exact Hgood).
    rewrite length_take, length_map, Nat.min_l by lia.
    rewrite (drop_S _ (weights_entry r' bad) k)
      by (rewrite list_lookup_fmap, Hbad; reflexivity).
    cbn [imap for_of fst snd]. rewrite Nat.add_0_r.
    apply bind_thrown.
    set (ns := imap (fun i n => if (i <? k)%nat
                                then neuron_set (nth i data ([], NaN)) n else n)
                    (Layer.neurons l)).
    assert (Hlook : ns !! k = Some nk).
    { unfold ns. rewrite list_lookup_imap, Hnk. simpl.
      rewrite (proj2 (Nat.ltb_ge k k)) by lia. reflexivity. }
    cbn [weights_entry Js.get Js.assoc String.eqb Ascii.eqb Bool.eqb bind runtime ret
         Js.number_of zoom Layer.neurons Layer.set_neurons].
    unfold on_index. rewrite Hlook, Neuron_setWeights_entry.
    rewrite (proj2 (Nat.eqb_neq _ _) Hne).
    rewrite (list_insert_id _ _ _ Hlook). reflexivity.
  - unfold Layer.getWeights. cbn [Layer.set_neurons Layer.neurons].
    apply list_eq. intros i. rewrite list_lookup_fmap, list_lookup_imap.
    destruct (Nat.ltb_spec i k) as [Hi | Hi].
    + rewrite lookup_app_l by (rewrite length_take; lia).
      rewrite lookup_take_lt by lia.
      destruct (lookup_lt_is_Some_2 data i ltac:(lia)) as [wb Hwb].
      destruct (lookup_lt_is_Some_2 (Layer.neurons l) i ltac:(lia)) as [n Hn].
      rewrite Hn, Hwb. simpl. rewrite getWeights_neuron_set.
      rewrite (nth_lookup_Some _ _ _ _ Hwb). reflexivity.
    + rewrite lookup_app_r by (rewrite length_take; lia).
      rewrite length_take, Nat.min_l by lia.
      rewrite lookup_drop, list_lookup_fmap.
      replace (k + (i - k))%nat with i by lia.
      destruct (Layer.neurons l !! i); reflexivity.
Qed.

End LayerWeights.

Lemma Layer_setWeights_getWeights_witness :
  exists l',
    Layer.setWeights
      (VArr 0 (map (weights_entry 1) [([Fin 0.1; Fin 0.2], Fin 0.3);
                                      ([Fin 0.4; Fin 0.5], Fin 0.6)]))
      sample_layer
    = Returned tt l' /\
    Layer.getWeights l' = [([Fin 0.1; Fin 0.2], Fin 0.3); ([Fin 0.4; Fin 0.5], Fin 0.6)].
Proof.
  destruct (Layer_setWeights_getWeights 0 1
              [([Fin 0.1; Fin 0.2], Fin 0.3); ([Fin 0.4; Fin 0.5], Fin 0.6)] sample_layer)
    as (l' & Hrun & Hget & _).
  { repeat constructor. }
  exists l'. split; assumption.
Defined.

Lemma Layer_setWeights_partial_witness :
  exists l',
    Layer.setWeights
      (VArr 0 (map (weights_entry 1) [([Fin 0.1; Fin 0.2], Fin 0.3); ([Fin 0.4], Fin 0.6)]))
      sample_layer
    = Thrown (Error MsgInvalidWeights) l' /\
    Layer.getWeights l' = [([Fin 0.1; Fin 0.2], Fin 0.3); ([Fin (-0.2); Fin 0.4], Fin (-0.1))].
Proof.
  destruct (Layer_setWeights_partial 0 1
              [([Fin 0.1; Fin 0.2], Fin 0.3); ([Fin 0.4], Fin 0.6)] sample_layer 1
              ([Fin 0.4], Fin 0.6) (real_neuron [-0.2; 0.4] (-0.1) None None))
    as (l' & Hrun & Hget); try reflexivity.
  { simpl. lia. }
  { intros i wb n Hi Hwb Hn. destruct i as [| i]; [| lia].
    injection Hwb as <-. injection Hn as <-. reflexivity. }
  exists l'. split; [exact Hrun | exact Hget].
Defined.

(** ** Backpropagation without a forward pass, and the information of a layer *)

Section LayerState.
Import Num.
Local Open Scope js_scope.
Context (coerce : value -> number).

Lemma update_neuron_no_inputs (error learningRate : number) (deltas : list number)
    (l : Layer.t) (n0 : Neuron.t) :
  Layer.neurons l !! 0%nat = Some n0 -> Neuron.lastInputs n0 = None ->
  Layer.update_neuron error learningRate 0 deltas l = Thrown (Error MsgNoLastInputs) l.
Proof.
  intros Hn0 Hli. unfold Layer.update_neuron. cbn [bind read zoom].
  unfold on_index. rewrite Hn0, (updateWeights_no_inputs n0 _ learningRate Hli).
  rewrite (list_insert_id _ _ _ Hn0), set_neurons_same. reflexivity.
Qed.

(** X12.  On a layer whose first neuron holds no inputs, as after the
    constructor or after [reset], [backwardOutput] with as many targets
    as neurons and [backwardHidden] with as many deltas as weight vectors
    throw the error of a missing forward pass, and leave the layer as it
    was. *)
Theorem Layer_backward_needs_forward (r : nat) (ts : list number) (learningRate : number)
    (l : Layer.t) (n0 : Neuron.t) :
  Layer.neurons l !! 0%nat = Some n0 -> Neuron.lastInputs n0 = None ->
  (length ts = length (Layer.neurons l) ->
   Layer.backwardOutput coerce (VArr r (map VNum ts)) learningRate l
   = Thrown (Error MsgNoLastInputs) l) /\
  (forall deltas weights,
     length deltas = length weights ->
     Layer.backwardHidden deltas weights learningRate l
     = Thrown (Error MsgNoLastInputs) l) /\
  kind_of (Error MsgNoLastInputs) = Some StateError.
Proof.
  intros Hn0 Hli.
  assert (Hpos : exists m, length (Layer.neurons l) = S m).
  { destruct (Layer.neurons l); [discriminate | eexists; reflexivity]. }
  destruct Hpos as [m Hm].
  split_and!; [| | reflexivity].
  - intros Hlen. unfold Layer.backwardOutput.
    rewrite (bind_returned _ _ l l tt).
    2: { unfold Layer.validateTargets.
         cbn [bind read Js.isArray negb Js.length_opt Js.length_of orb].
         rewrite strict_eq_of_nat, length_map, Hlen, Nat.eqb_refl. reflexivity. }
    cbn [bind read]. rewrite Hm. unfold for_range. cbn [seq for_of].
    apply bind_thrown. cbn [bind read].
    apply (update_neuron_no_inputs _ _ _ _ n0 Hn0 Hli).
  - intros deltas weights Hlen.
    unfold Layer.backwardHidden, Layer.validateBackpropagationInputs.
    rewrite Hlen, Nat.eqb_refl. cbn [negb bind ret read].
    rewrite Hm. unfold for_range. cbn [seq for_of].
    apply bind_thrown. apply (update_neuron_no_inputs _ _ _ _ n0 Hn0 Hli).
Qed.

(** X13.  [getInfo()] of a layer as the constructor builds it reports as
    [totalWeights] the number of weights that its neurons hold; the
    activation is reported by its [name] when it has a name that is not
    the empty string, and as 'unknown' otherwise, which is the case of
    every activation of the catalog. *)
Theorem Layer_getInfo_totals (l : Layer.t) :
  layer_ok l ->
  Layer.info_totalWeights (Layer.getInfo l)
  = of_nat (list_sum (map (fun n => length (Neuron.weights n)) (Layer.neurons l))) /\
  Layer.info_neuronCount (Layer.getInfo l) = of_nat (length (Layer.neurons l)) /\
  Layer.info_lastOutputs (Layer.getInfo l) = Layer.outputs l /\
  (In (Layer.activationFunction l)
      [activations.sigmoid; activations.relu; activations.leakyRelu; activations.elu;
       activations.tanh; activations.swish; activations.mish; activations.sin;
       activations.cos; activations.gaussian; activations.step; activations.linear] ->
   Layer.info_activationFunction (Layer.getInfo l) = "unknown"%string) /\
  (forall nm, name (Layer.activationFunction l) = Some nm -> nm <> ""%string ->
              Layer.info_activationFunction (Layer.getInfo l) = nm) /\
  (name (Layer.activationFunction l) = None
   \/ name (Layer.activationFunction l) = Some ""%string ->
   Layer.info_activationFunction (Layer.getInfo l) = "unknown"%string).
Proof.
  intros (Hin & Hout & _ & _ & Hn & Hns & _). split_and!.
  - unfold Layer.getInfo. cbn [Layer.info_totalWeights]. rewrite Hin, Hn.
    assert (Hsum : list_sum (map (fun n => length (Neuron.weights n)) (Layer.neurons l))
                   = (length (Layer.neurons l) * inputs_of l)%nat).
    { clear Hn. induction Hns as [| n ns (Hw & _) _ IH]; [reflexivity |].
      simpl. rewrite IH, Hw. reflexivity. }
    rewrite Hsum, Hn. unfold of_nat. cbn [Num.mul]. rewrite mult_INR. reflexivity.
  - unfold Layer.getInfo. cbn [Layer.info_neuronCount]. rewrite Hout, Hn. reflexivity.
  - reflexivity.
  - intros Hcat. unfold Layer.getInfo. cbn [Layer.info_activationFunction].
    simpl in Hcat.
    repeat (destruct Hcat as [<- | Hcat]; [reflexivity |]). contradiction.
  - intros nm Hnm Hne. unfold Layer.getInfo. cbn [Layer.info_activationFunction].
    rewrite Hnm. destruct (String.eqb_spec nm ""); [contradiction | reflexivity].
  - intros [Hnm | Hnm]; unfold Layer.getInfo; cbn [Layer.info_activationFunction];
      rewrite Hnm; reflexivity.
Qed.

End LayerState.

Lemma Layer_backward_needs_forward_witness :
  Layer.backwardOutput no_coercion (VArr 0 (map VNum [Fin 0.8; Fin 0.2])) (Fin 0.1)
                       sample_layer
  = Thrown (Error MsgNoLastInputs) sample_layer.
Proof.
  apply (proj1 (Layer_backward_needs_forward no_coercion 0 [Fin 0.8; Fin 0.2] (Fin 0.1)
                  sample_layer (real_neuron [0.5; 0.3] 0.1 None None) eq_refl eq_refl)).
  reflexivity.
Defined.

Lemma named_layer_ok : layer_ok named_layer.
Proof.
  unfold layer_ok, inputs_of, outputs_of.
  cbn [named_layer sample_layer Layer.inputSize Layer.size Layer.neurons
       Layer.activationFunction named_sigmoid func derivative].
  rewrite !to_nat_of_nat.
  destruct (Forall_inv finite_preserving_catalog) as [Hf Hd].
  split_and!; try reflexivity; try lia; try assumption.
  repeat constructor.
Qed.

Lemma Layer_getInfo_totals_witness :
  Layer.info_totalWeights (Layer.getInfo sample_layer) = Num.of_nat 4 /\
  Layer.info_activationFunction (Layer.getInfo sample_layer) = "unknown"%string /\
  Layer.info_activationFunction (Layer.getInfo named_layer) = "sigmoid"%string.
Proof.
  destruct (Layer_getInfo_totals sample_layer sample_layer_ok)
    as (Htotal & _ & _ & Hcatalog & _).
  destruct (Layer_getInfo_totals named_layer named_layer_ok)
    as (_ & _ & _ & _ & Hname & _).
  split_and!; [exact Htotal | |].
  - apply Hcatalog. left. reflexivity.
  - apply (Hname "sigmoid"%string); [reflexivity | discriminate].
Defined.

(** ** Forward passes on any numbers *)

Section ForwardRuns.
Import Num.
Local Open Scope js_scope.

Lemma layer_ok_shaped (l : Layer.t) : layer_ok l -> layer_shaped l.
Proof.
  intros (Hin & Hout & _ & Hpos & Hlen & Hns & _). split_and!.
  - exact Hin.
  - rewrite Hlen. exact Hout.
  - intros Hnil. rewrite Hnil in Hlen. simpl in Hlen. lia.
  - eapply Forall_impl; [exact Hns |]. intros n (Hn & _). exact Hn.
Qed.

Lemma network_ok_shaped (s : Network.t) : network_ok s -> network_shaped s.
Proof.
  intros (Hne & Hall & Hch & _). split_and!; [exact Hne | | exact Hch].
  eapply Forall_impl; [exact Hall |]. exact layer_ok_shaped.
Qed.

Lemma forallb_finite (xs : list number) :
  forallb isFinite xs = true <-> Forall finite xs.
Proof.
  rewrite forallb_forall, Forall_forall. unfold finite.
  split; intros H x Hx; apply H; [apply list_elem_of_In | apply list_elem_of_In]; exact Hx.
Qed.

Lemma existsb_not_all_finite (xs : list number) :
  forallb isFinite xs = false ->
  existsb (fun input => negb (Js.is_number input) || negb (Js.isFinite input))
          (map VNum xs) = true.
Proof.
  induction xs as [| x xs IH]; simpl; [discriminate |].
  unfold Js.isFinite at 1. simpl.
  destruct (isFinite x); simpl; [exact IH | reflexivity].
Qed.

(** [forward] on a layer of the right shape: the numbers it holds play
    no part in whether it returns. *)
Lemma Layer_forward_shaped (r : nat) (xs : list number) (l : Layer.t) :
  layer_shaped l -> length xs = inputs_of l -> Forall finite xs ->
  Layer.forward (VArr r (map VNum xs)) l
  = Returned (layer_outputs l xs) (layer_after l xs).
Proof.
  intros (Hin & _ & _ & Hns) Hlen Hxs.
  unfold Layer.forward, Layer.validateInputs. simpl.
  unfold Js.length_opt. simpl. rewrite length_map, Hlen, Hin. simpl.
  rewrite Reqb_INR, Nat.eqb_refl. simpl.
  rewrite (map_objects_pure _
             (fun n => func (Layer.activationFunction l) (weighted_sum n xs))
             (neuron_after (func (Layer.activationFunction l)) xs)).
  - reflexivity.
  - eapply Forall_impl; [exact Hns |]. intros n Hw.
    apply Neuron_forward_returns; [exists r; reflexivity | congruence | exact Hxs].
Qed.

Lemma Layer_forward_not_finite (r : nat) (xs : list number) (l : Layer.t) :
  layer_shaped l -> length xs = inputs_of l -> forallb isFinite xs = false ->
  Layer.forward (VArr r (map VNum xs)) l = Thrown (Error MsgInputsNotFinite) l.
Proof.
  intros (Hin & _ & Hne & Hns) Hlen Hxs.
  unfold Layer.forward.
  rewrite (bind_returned _ _ l l tt).
  2: { unfold Layer.validateInputs. cbn [bind read Js.isArray negb orb].
       unfold Js.length_opt. cbn [Js.length_of]. rewrite length_map, Hlen, Hin.
       rewrite strict_eq_of_nat, Nat.eqb_refl. reflexivity. }
  cbn [bind read zoom].
  destruct (Layer.neurons l) as [| n0 rest] eqn:Hl; [contradiction |].
  inversion Hns as [| ? ? Hn0 _]; subst.
  cbn [map_objects].
  assert (H0 : Neuron.forward (VArr r (map VNum xs))
                 (returning (func (Layer.activationFunction l))) n0
               = Thrown (Error MsgInputsNotFinite) n0).
  { unfold Neuron.forward. apply bind_thrown.
    unfold Neuron.validateInputs. cbn [bind read Js.isArray negb].
    unfold Js.length_opt. cbn [Js.length_of Js.elements].
    rewrite length_map, Hlen, <- Hn0, strict_eq_of_nat, Nat.eqb_refl. cbn [negb].
    rewrite (existsb_not_all_finite xs Hxs). reflexivity. }
  rewrite H0. rewrite <- Hl, set_neurons_same. reflexivity.
Qed.

Lemma chained_rest (l : Layer.t) (rest : list Layer.t) :
  chained (l :: rest) -> chained rest.
Proof. intros Hc i a b Ha Hb. exact (Hc (S i) a b Ha Hb). Qed.

Lemma network_set_layers_same (s : Network.t) :
  Network.set_layers (Network.layers s) s = s.
Proof. destruct s; reflexivity. Qed.

Lemma layer_outputs_length (l : Layer.t) (xs : list number) :
  length (layer_outputs l xs) = length (Layer.neurons l).
Proof. unfold layer_outputs. apply length_map. Qed.

(** The loop of [predict], from the layer of index [length done] on. *)
Lemma forward_loop (rest : list Layer.t) :
  forall (done : list Layer.t) (cur : list number) (s : Network.t),
    Network.layers s = done ++ rest ->
    Forall layer_shaped rest -> chained rest ->
    (forall l, head rest = Some l -> length cur = inputs_of l) ->
    for_of (seq (length done) (length rest)) (Js.array cur)
      (fun currentInputs i =>
         outs <- zoom Network.layers Network.set_layers
                   (on_index i (Layer.forward currentInputs)) ;;
         ret (Js.array outs)) s
    = match snd (forward_run rest cur) with
      | Some outs =>
          Returned (Js.array outs)
                   (Network.set_layers (done ++ fst (forward_run rest cur)) s)
      | None =>
          Thrown (Error MsgInputsNotFinite)
                 (Network.set_layers (done ++ fst (forward_run rest cur)) s)
      end.
Proof.
  induction rest as [| l rest IH]; intros done cur s Hls Hall Hch Hhead.
  - cbn [length seq for_of ret forward_run fst snd]. f_equal.
    rewrite <- Hls. symmetry. apply network_set_layers_same.
  - inversion Hall as [| ? ? Hl Hrest]; subst.
    pose proof (Hhead l eq_refl) as Hlen.
    cbn [length seq for_of forward_run].
    destruct (forallb isFinite cur) eqn:Hfin.
    + apply forallb_finite in Hfin. cbn [fst snd].
      rewrite (bind_returned _ _ s
                 (Network.set_layers (done ++ layer_after l cur :: rest) s)
                 (Js.array (layer_outputs l cur))).
      2: { rewrite (bind_returned _ _ s
                      (Network.set_layers (done ++ layer_after l cur :: rest) s)
                      (layer_outputs l cur)); [reflexivity |].
           cbn [zoom]. unfold on_index. rewrite Hls.
           rewrite list_lookup_middle by reflexivity.
           unfold Js.array.
           rewrite (Layer_forward_shaped 0 cur l Hl Hlen Hfin).
           rewrite insert_app_r_alt, Nat.sub_diag by lia. reflexivity. }
      replace (S (length done)) with (length (done ++ [layer_after l cur]))
        by (rewrite length_app; simpl; lia).
      rewrite (IH (done ++ [layer_after l cur]) (layer_outputs l cur)).
      * rewrite <- !app_assoc. reflexivity.
      * simpl. rewrite <- app_assoc. reflexivity.
      * exact Hrest.
      * exact (chained_rest l rest Hch).
      * intros l2 Hl2. rewrite layer_outputs_length.
        destruct rest as [| l2' rest']; [discriminate |]. injection Hl2 as ->.
        destruct Hl as (_ & Hsize & _).
        pose proof (Hch 0%nat l l2 eq_refl eq_refl) as Hc.
        unfold inputs_of. rewrite Hc, Hsize, to_nat_of_nat. reflexivity.
    + cbn [fst snd]. apply bind_thrown. apply bind_thrown.
      cbn [zoom]. unfold on_index. rewrite Hls.
      rewrite list_lookup_middle by reflexivity.
      unfold Js.array.
      rewrite (Layer_forward_not_finite 0 cur l Hl Hlen Hfin).
      rewrite insert_app_r_alt, Nat.sub_diag by lia. reflexivity.
Qed.

Lemma validatePredictionInputs_shaped (r : nat) (xs : list number) (s : Network.t) :
  network_shaped s -> length xs = network_inputs s ->
  Network.validatePredictionInputs (VArr r (map VNum xs)) s = Returned tt s.
Proof.
  intros (Hne & Hall & _) Hlen.
  unfold Network.validatePredictionInputs, network_inputs in *. simpl.
  destruct (Network.layers s) as [| l ls] eqn:Hls; [contradiction |]. simpl in *.
  inversion Hall as [| ? ? Hl _]; subst.
  destruct Hl as (-> & _).
  unfold Js.length_opt. simpl. rewrite length_map, Hlen, Reqb_INR, Nat.eqb_refl.
  reflexivity.
Qed.

(** What [predict] does on a network of the right shape, given as many
    numbers as the first layer takes. *)
Lemma predict_outcome (r : nat) (xs : list number) (s : Network.t) :
  network_shaped s -> length xs = network_inputs s ->
  Network.predict (VArr r (map VNum xs)) s
  = match snd (forward_run (Network.layers s) xs) with
    | Some outs =>
        Returned outs (Network.set_layers (fst (forward_run (Network.layers s) xs)) s)
    | None =>
        Thrown (Error MsgInputsNotFinite)
               (Network.set_layers (fst (forward_run (Network.layers s) xs)) s)
    end.
Proof.
  intros Hs Hlen. unfold Network.predict.
  rewrite (bind_returned _ _ s s tt)
    by (apply validatePredictionInputs_shaped; assumption).
  rewrite (bind_returned _ _ s s s) by reflexivity.
  cbn [Js.elements]. unfold for_range.
  destruct Hs as (Hne & Hall & Hch).
  assert (Hhead : forall l, head (Network.layers s) = Some l -> length xs = inputs_of l).
  { intros l Hl. rewrite Hlen. unfold network_inputs.
    destruct (Network.layers s); [discriminate |]. injection Hl as ->. reflexivity. }
  pose proof (forward_loop (Network.layers s) [] xs s eq_refl Hall Hch Hhead) as Hloop.
  cbn [length app] in Hloop. unfold Js.array in Hloop at 1.
  destruct (snd (forward_run (Network.layers s) xs)) as [outs |].
  - rewrite (bind_returned _ _ _ _ _ Hloop).
    cbn [ret Js.array Js.elements]. rewrite number_of_elements. reflexivity.
  - apply bind_thrown. exact Hloop.
Qed.

Lemma forward_run_finite (ls : list Layer.t) (xs : list number) :
  forward_finite ls xs ->
  forward_run ls xs = (forward_layers ls xs, Some (feed_forward ls xs)).
Proof.
  revert xs. induction ls as [| l ls IH]; intros xs; [reflexivity |].
  intros [Hxs Hrest]. cbn [forward_run forward_layers feed_forward].
  rewrite (proj2 (forallb_finite xs) Hxs), (IH _ Hrest). reflexivity.
Qed.

Lemma forward_run_not_finite (ls : list Layer.t) (xs : list number) :
  ~ forward_finite ls xs -> snd (forward_run ls xs) = None.
Proof.
  revert xs. induction ls as [| l ls IH]; intros xs H; [exfalso; apply H; exact I |].
  cbn [forward_run].
  destruct (forallb isFinite xs) eqn:Hfin; [| reflexivity].
  cbn [snd]. apply IH. intros Hrest. apply H. split; [| exact Hrest].
  apply forallb_finite, Hfin.
Qed.

Lemma forward_run_returned (ls : list Layer.t) (xs outs : list number) :
  snd (forward_run ls xs) = Some outs ->
  forward_finite ls xs /\ outs = feed_forward ls xs /\
  fst (forward_run ls xs) = forward_layers ls xs.
Proof.
  revert xs. induction ls as [| l ls IH]; intros xs.
  - cbn. intros [= <-]. split_and!; reflexivity || exact I.
  - cbn [forward_run]. destruct (forallb isFinite xs) eqn:Hfin; [| discriminate].
    cbn [fst snd]. intros H. destruct (IH _ H) as (H1 & H2 & H3).
    split_and!.
    + split; [apply forallb_finite, Hfin | exact H1].
    + exact H2.
    + cbn [forward_layers]. rewrite H3. reflexivity.
Qed.

Lemma layer_after_weights (l : Layer.t) (xs : list number) :
  Layer.getWeights (layer_after l xs) = Layer.getWeights l.
Proof. unfold Layer.getWeights, layer_after. simpl. rewrite map_map. reflexivity. Qed.

(** Forward passes change no weight and no bias. *)
Lemma forward_run_weights (ls : list Layer.t) (xs : list number) :
  map Layer.getWeights (fst (forward_run ls xs)) = map Layer.getWeights ls.
Proof.
  revert xs. induction ls as [| l ls IH]; intros xs; [reflexivity |].
  cbn [forward_run]. destruct (forallb isFinite xs); [| reflexivity].
  cbn [fst map]. rewrite IH, layer_after_weights. reflexivity.
Qed.

Lemma forward_finite_dec (ls : list Layer.t) (xs : list number) :
  forward_finite ls xs \/ ~ forward_finite ls xs.
Proof.
  revert xs. induction ls as [| l ls IH]; intros xs; [left; exact I |].
  cbn [forward_finite].
  destruct (forallb isFinite xs) eqn:Hfin.
  - apply forallb_finite in Hfin.
    destruct (IH (layer_outputs l xs)) as [H | H]; [left; split; assumption |].
    right. intros [_ H']. contradiction.
  - right. intros [H _]. apply forallb_finite in H. congruence.
Qed.

(** On a well-formed network finite inputs stay finite. *)
Lemma forward_finite_ok (ls : list Layer.t) (xs : list number) :
  Forall layer_ok ls -> chained ls ->
  (forall l, head ls = Some l -> length xs = inputs_of l) ->
  Forall finite xs -> forward_finite ls xs.
Proof.
  revert xs. induction ls as [| l ls IH]; intros xs Hall Hch Hhead Hxs; [exact I |].
  inversion Hall as [| ? ? Hl Hrest]; subst.
  pose proof (Hhead l eq_refl) as Hlen.
  split; [exact Hxs |].
  assert (Hout : length (layer_outputs l xs) = outputs_of l /\
                 Forall finite (layer_outputs l xs)).
  { destruct Hl as (_ & _ & _ & _ & Hn & Hns & Hf & _). unfold layer_outputs. split.
    - rewrite length_map. exact Hn.
    - apply Forall_fmap. eapply Forall_impl; [exact Hns |]. intros n Hnok. simpl.
      apply finite_apply; [exact Hf |].
      apply weighted_sum_finite; [rewrite Hlen; exact Hnok | exact Hxs]. }
  destruct Hout as [Hlo Hfo].
  apply IH; [exact Hrest | exact (chained_rest l ls Hch) | | exact Hfo].
  intros l2 Hl2. rewrite Hlo. symmetry.
  destruct ls as [| l2' rest']; [discriminate |]. injection Hl2 as ->.
  apply (chained_sizes (l :: l2 :: rest') 0 l l2 Hch); reflexivity.
Qed.

(** Every failure of [predict] on a network of the right shape: either
    nothing has been stored, or a layer after the first has refused
    outputs that are not finite. *)
Lemma predict_thrown_shaped (inputs : value) (s s' : Network.t) (e : error) :
  network_shaped s ->
  Network.predict inputs s = Thrown e s' ->
  (s' = s /\ kind_of e = Some ValidationError) \/
  (e = Error MsgInputsNotFinite /\
   exists xs,
     array_of inputs xs /\ Forall finite xs /\ length xs = network_inputs s /\
     snd (forward_run (Network.layers s) xs) = None /\
     s' = Network.set_layers (fst (forward_run (Network.layers s) xs)) s).
Proof.
  intros Hok H.
  pose proof (validatePredictionInputs_readonly inputs s) as Hro.
  destruct (Network.validatePredictionInputs inputs s) as [[] s1 | e1 s1] eqn:Hv;
    simpl in Hro; subst s1.
  2: { left. unfold Network.predict in H. rewrite (bind_thrown _ _ _ _ _ Hv) in H.
       injection H as <- <-. split; [reflexivity |].
       destruct Hok as (Hne & _).
       revert Hv. unfold Network.validatePredictionInputs. cbn [bind read].
       destruct (negb (Js.isArray inputs)); [intros [= <-]; reflexivity |].
       destruct (Network.layers s) as [| l0 ls]; [contradiction |]. simpl.
       destruct (negb _); [intros [= <-]; reflexivity | discriminate]. }
  pose proof Hok as (Hne & Hall & Hch).
  destruct (Network.layers s) as [| l0 ls] eqn:Hls; [contradiction |].
  assert (Harr : Js.isArray inputs = true /\
                 length (Js.elements inputs) = inputs_of l0).
  { revert Hv. unfold Network.validatePredictionInputs. cbn [bind read].
    rewrite Hls. simpl.
    destruct inputs as [| | | | | r elems |]; try discriminate. simpl.
    inversion Hall as [| ? ? (Hin & _) _]; subst. rewrite Hin.
    unfold of_nat. simpl. rewrite Reqb_INR.
    destruct (length elems =? inputs_of l0)%nat eqn:Heq; [| discriminate].
    intros _. split; [reflexivity |]. apply Nat.eqb_eq, Heq. }
  destruct Harr as [Harr Hlen].
  destruct (existsb (fun input => negb (Js.is_number input) || negb (Js.isFinite input))
                    (Js.elements inputs)) eqn:Hbad.
  - left. inversion Hall as [| ? ? Hl0 _]; subst.
    destruct Hl0 as (_ & _ & Hn0 & Hu).
    destruct (Layer_forward_rejects (VArr 0 (Js.elements inputs)) l0 _ Hu Hn0 Hbad)
      as (e0 & He0 & Hk).
    unfold Network.predict in H. rewrite (bind_returned _ _ _ _ _ Hv) in H.
    cbn [bind read] in H. rewrite Hls in H.
    cbn [length for_range seq for_of] in H.
    unfold bind at 1 2 in H. cbn [zoom on_index] in H.
    rewrite Hls in H.
    assert (Hon : on_index 0 (Layer.forward (VArr 0 (Js.elements inputs))) (l0 :: ls)
                  = Thrown e0 (l0 :: ls))
      by (unfold on_index; simpl; rewrite He0; reflexivity).
    rewrite Hon in H.
    injection H as <- <-. split; [| exact Hk].
    rewrite <- Hls. destruct s; reflexivity.
  - right.
    destruct (finite_elements inputs Harr Hbad) as [[r Ha] Hf].
    assert (Hlen' : length (map Js.number_of (Js.elements inputs)) = network_inputs s).
    { unfold network_inputs. rewrite Hls. simpl. rewrite length_map. exact Hlen. }
    rewrite Ha in H at 1.
    rewrite (predict_outcome r _ s Hok Hlen') in H.
    rewrite Hls in H.
    destruct (snd (forward_run (l0 :: ls) (map Js.number_of (Js.elements inputs))))
      eqn:Hrun; [discriminate |].
    injection H as <- <-. split; [reflexivity |].
    exists (map Js.number_of (Js.elements inputs)).
    split_and!; try assumption; try reflexivity.
    exists r. exact Ha.
Qed.

(** What a failure of [predict] leaves behind. *)
Lemma predict_thrown_frame (inputs : value) (s s' : Network.t) (e : error) :
  network_shaped s -> Network.predict inputs s = Thrown e s' ->
  kind_of e = Some ValidationError /\
  map Layer.getWeights (Network.layers s') = map Layer.getWeights (Network.layers s) /\
  Network.learningRate s' = Network.learningRate s /\
  Network.trainingHistory s' = Network.trainingHistory s /\
  Network.isCompiled s' = Network.isCompiled s /\
  (s' = s \/
   (e = Error MsgInputsNotFinite /\ (1 < length (Network.layers s))%nat /\
    exists xs,
      array_of inputs xs /\ Forall finite xs /\
      ~ forward_finite (Network.layers s) xs /\
      s' = Network.set_layers (fst (forward_run (Network.layers s) xs)) s)).
Proof.
  intros Hok H.
  destruct (predict_thrown_shaped inputs s s' e Hok H)
    as [(-> & Hk) | (-> & xs & Harr & Hxs & Hlen & Hnone & ->)].
  - split_and!; try reflexivity; [exact Hk | left; reflexivity].
  - split_and!; try reflexivity; [apply forward_run_weights |].
    right. split; [reflexivity |].
    assert (Hnot : ~ forward_finite (Network.layers s) xs).
    { intros Hfin. rewrite (forward_run_finite _ _ Hfin) in Hnone. discriminate. }
    split.
    + destruct (Network.layers s) as [| l0 [| l1 rest]]; [| | simpl; lia].
      * exfalso. apply Hnot. exact I.
      * exfalso. apply Hnot. split; [exact Hxs | exact I].
    + exists xs. split_and!; try assumption. reflexivity.
Qed.

(** A second layer that is handed an output that is not finite. *)
Lemma predict_second_layer_refuses (r : nat) (xs : list number) (s : Network.t)
    (l1 l2 : Layer.t) (rest : list Layer.t) :
  network_shaped s -> Network.layers s = l1 :: l2 :: rest ->
  length xs = network_inputs s -> Forall finite xs ->
  ~ Forall finite (layer_outputs l1 xs) ->
  Network.predict (VArr r (map VNum xs)) s
  = Thrown (Error MsgInputsNotFinite)
           (Network.set_layers (layer_after l1 xs :: l2 :: rest) s).
Proof.
  intros Hs Hls Hlen Hxs Hout.
  rewrite (predict_outcome r xs s Hs Hlen), Hls.
  cbn [forward_run]. rewrite (proj2 (forallb_finite xs) Hxs).
  destruct (forallb isFinite (layer_outputs l1 xs)) eqn:Hfin.
  - exfalso. apply Hout, forallb_finite, Hfin.
  - reflexivity.
Qed.

End ForwardRuns.

(** ** Predictions *)

Section Predictions.
Import Num.
Local Open Scope js_scope.

Lemma set_layers_same (s : Network.t) : Network.set_layers (Network.layers s) s = s.
Proof. destruct s; reflexivity. Qed.

Lemma layer_outputs_ok (l : Layer.t) (xs : list number) :
  layer_ok l -> length xs = inputs_of l -> Forall finite xs ->
  length (layer_outputs l xs) = outputs_of l /\ Forall finite (layer_outputs l xs).
Proof.
  intros (_ & _ & _ & _ & Hn & Hns & Hf & _) Hlen Hxs. unfold layer_outputs. split.
  - rewrite length_map. exact Hn.
  - apply Forall_fmap. eapply Forall_impl; [exact Hns |]. intros n Hnok. simpl.
    apply finite_apply; [exact Hf |].
    apply weighted_sum_finite; [rewrite Hlen; exact Hnok | exact Hxs].
Qed.

Lemma chained_tail (l : Layer.t) (rest : list Layer.t) :
  chained (l :: rest) -> chained rest.
Proof. intros Hc i a b Ha Hb. exact (Hc (S i) a b Ha Hb). Qed.

(** The loop of [predict], from the layer of index [length done] on. *)
Lemma predict_loop (rest : list Layer.t) :
  forall (done : list Layer.t) (cur : list number) (s : Network.t),
    Network.layers s = done ++ rest ->
    Forall layer_ok rest -> chained rest ->
    (forall l, head rest = Some l -> length cur = inputs_of l) ->
    Forall finite cur ->
    for_of (seq (length done) (length rest)) (Js.array cur)
      (fun currentInputs i =>
         outs <- zoom Network.layers Network.set_layers
                   (on_index i (Layer.forward currentInputs)) ;;
         ret (Js.array outs)) s
    = Returned (Js.array (feed_forward rest cur))
               (Network.set_layers (done ++ forward_layers rest cur) s).
Proof.
  induction rest as [| l rest IH]; intros done cur s Hls Hall Hch Hhead Hcur.
  - cbn [length seq for_of ret feed_forward forward_layers]. f_equal.
    rewrite <- Hls. symmetry. apply set_layers_same.
  - inversion Hall as [| ? ? Hl Hrest]; subst.
    pose proof (Hhead l eq_refl) as Hlen.
    destruct (layer_outputs_ok l cur Hl Hlen Hcur) as [Hlo Hfo].
    cbn [length seq for_of feed_forward forward_layers].
    rewrite (bind_returned _ _ s
               (Network.set_layers (done ++ layer_after l cur :: rest) s)
               (Js.array (layer_outputs l cur))).
    2: { rewrite (bind_returned _ _ s
                    (Network.set_layers (done ++ layer_after l cur :: rest) s)
                    (layer_outputs l cur)); [reflexivity |].
         cbn [zoom]. unfold on_index. rewrite Hls.
         rewrite list_lookup_middle by reflexivity.
         rewrite (Layer_forward_returns (Js.array cur) cur l Hl) ;
           [| exists 0%nat; reflexivity | exact Hlen | exact Hcur].
         rewrite insert_app_r_alt, Nat.sub_diag by lia. reflexivity. }
    replace (S (length done)) with (length (done ++ [layer_after l cur]))
      by (rewrite length_app; simpl; lia).
    rewrite (IH (done ++ [layer_after l cur]) (layer_outputs l cur)).
    + rewrite <- app_assoc. reflexivity.
    + simpl. rewrite <- app_assoc. reflexivity.
    + exact Hrest.
    + exact (chained_tail l rest Hch).
    + intros l2 Hl2. rewrite Hlo. symmetry.
      destruct rest as [| l2' rest']; [discriminate |]. injection Hl2 as ->.
      apply (chained_sizes (l :: l2 :: rest') 0 l l2 Hch); reflexivity.
    + exact Hfo.
Qed.

Lemma predict_returns (v : value) (xs : list number) (s : Network.t) :
  network_ok s -> array_of v xs -> length xs = network_inputs s -> Forall finite xs ->
  Network.predict v s
  = Returned (feed_forward (Network.layers s) xs)
             (Network.set_layers (forward_layers (Network.layers s) xs) s).
Proof.
  intros Hok Harr Hlen Hxs. unfold Network.predict.
  rewrite (bind_returned _ _ s s tt)
    by (eapply validatePredictionInputs_returns; eassumption).
  rewrite (bind_returned _ _ s s s) by reflexivity.
  destruct Harr as [r ->]. cbn [Js.elements].
  destruct Hok as (Hne & Hall & Hch & _).
  unfold for_range.
  rewrite (bind_returned _ _ s
             (Network.set_layers ([] ++ forward_layers (Network.layers s) xs) s)
             (Js.array (feed_forward (Network.layers s) xs))).
  - cbn [ret Js.array Js.elements]. rewrite number_of_elements. reflexivity.
  - apply (predict_loop (Network.layers s) [] xs s); try assumption; try reflexivity.
    intros l Hl. rewrite Hlen. unfold network_inputs.
    destruct (Network.layers s); [discriminate |]. injection Hl as ->. reflexivity.
Qed.

Lemma weighted_sum_after (f : number -> number) (xs ys : list number) (n : Neuron.t) :
  weighted_sum (neuron_after f xs n) ys = weighted_sum n ys.
Proof. reflexivity. Qed.

Lemma layer_outputs_after (l : Layer.t) (xs ys : list number) :
  layer_outputs (layer_after l xs) ys = layer_outputs l ys.
Proof.
  unfold layer_outputs, layer_after. simpl. rewrite map_map. reflexivity.
Qed.

Lemma layer_after_after (l : Layer.t) (xs : list number) :
  layer_after (layer_after l xs) xs = layer_after l xs.
Proof.
  unfold layer_after at 1. rewrite layer_outputs_after.
  unfold layer_after. simpl. rewrite map_map. reflexivity.
Qed.

Lemma feed_forward_after (ls : list Layer.t) (xs : list number) :
  feed_forward (forward_layers ls xs) xs = feed_forward ls xs /\
  forward_layers (forward_layers ls xs) xs = forward_layers ls xs /\
  map Layer.getWeights (forward_layers ls xs) = map Layer.getWeights ls.
Proof.
  revert xs. induction ls as [| l ls IH]; intros xs; [split_and!; reflexivity |].
  cbn [forward_layers feed_forward map].
  rewrite layer_outputs_after, layer_after_after.
  destruct (IH (layer_outputs l xs)) as (H1 & H2 & H3).
  rewrite H1, H2, H3. split_and!; try reflexivity.
  f_equal. unfold Layer.getWeights, layer_after. simpl. rewrite map_map. reflexivity.
Qed.

Lemma feed_forward_length (ls : list Layer.t) (xs : list number) (lz : Layer.t) :
  Forall layer_shaped ls -> last ls = Some lz ->
  length (feed_forward ls xs) = outputs_of lz.
Proof.
  revert xs. induction ls as [| l ls IH]; intros xs Hall Hlast; [discriminate |].
  inversion Hall as [| ? ? Hl Hrest]; subst.
  destruct ls as [| l2 rest].
  - injection Hlast as <-. cbn [feed_forward].
    destruct Hl as (_ & Hsize & _).
    unfold layer_outputs, outputs_of. rewrite length_map, Hsize, to_nat_of_nat.
    reflexivity.
  - cbn [feed_forward]. apply IH; [exact Hrest | exact Hlast].
Qed.

(** X14.  [predict] on a network of the shape that [addLayer] builds,
    whatever numbers it holds, given an array of as many numbers as the
    first layer takes.  When these numbers and the outputs of every layer
    but the last are finite, it returns what the layers compute one after
    the other, each neuron the activation of its weighted sum of the
    outputs of the layer before, one number per neuron of the last layer,
    and every layer has stored its outputs.  Otherwise it throws, and the
    layers before the one that has refused its inputs have stored theirs.
    In both cases no weight and no bias is changed, and neither the
    learning rate, the history nor the compiled flag. *)
Theorem predict_feed_forward (r : nat) (xs : list number) (s : Network.t) :
  network_shaped s -> length xs = network_inputs s ->
  (forward_finite (Network.layers s) xs ->
   Network.predict (VArr r (map VNum xs)) s
   = Returned (feed_forward (Network.layers s) xs)
              (Network.set_layers (forward_layers (Network.layers s) xs) s)) /\
  (~ forward_finite (Network.layers s) xs ->
   Network.predict (VArr r (map VNum xs)) s
   = Thrown (Error MsgInputsNotFinite)
            (Network.set_layers (fst (forward_run (Network.layers s) xs)) s)) /\
  (forall outs s',
     Network.predict (VArr r (map VNum xs)) s = Returned outs s' ->
     forward_finite (Network.layers s) xs) /\
  length (feed_forward (Network.layers s) xs) = network_outputs s /\
  map Layer.getWeights (forward_layers (Network.layers s) xs)
  = map Layer.getWeights (Network.layers s) /\
  map Layer.getWeights (fst (forward_run (Network.layers s) xs))
  = map Layer.getWeights (Network.layers s).
Proof.
  intros Hs Hlen.
  pose proof (predict_outcome r xs s Hs Hlen) as Hrun.
  split_and!.
  - intros Hfin. rewrite Hrun, (forward_run_finite _ _ Hfin). reflexivity.
  - intros Hfin. rewrite Hrun, (forward_run_not_finite _ _ Hfin). reflexivity.
  - intros outs s' H. rewrite Hrun in H.
    destruct (snd (forward_run (Network.layers s) xs)) as [outs' |] eqn:Hsnd;
      [| discriminate].
    apply (forward_run_returned _ _ _ Hsnd).
  - destruct Hs as (Hne & Hall & _). unfold network_outputs.
    destruct (last (Network.layers s)) as [lz |] eqn:Hlast.
    + apply feed_forward_length; assumption.
    + apply last_None in Hlast. contradiction.
  - apply feed_forward_after.
  - apply forward_run_weights.
Qed.


End Predictions.

(** ** The sample network *)

Lemma sample_output_layer_ok : layer_ok sample_output_layer.
Proof.
  unfold layer_ok, inputs_of, outputs_of.
  cbn [sample_output_layer Layer.inputSize Layer.size Layer.neurons
       Layer.activationFunction].
  rewrite !to_nat_of_nat.
  destruct (Forall_inv finite_preserving_catalog) as [Hf Hd].
  split_and!; try reflexivity; try lia; try assumption.
  repeat constructor.
Qed.

Lemma sample_layers_chained (l : Layer.t) :
  Layer.size l = Num.of_nat 2 -> chained [l; sample_output_layer].
Proof.
  intros Hl i a b Ha Hb.
  destruct i as [| [| i]]; simpl in Ha, Hb; try discriminate.
  injection Ha as <-. injection Hb as <-. rewrite Hl. reflexivity.
Qed.

Lemma sample_network_ok :
  network_ok sample_network /\
  network_inputs sample_network = 2%nat /\ network_outputs sample_network = 1%nat.
Proof.
  split_and!.
  - split_and!.
    + discriminate.
    + constructor; [exact sample_layer_ok |].
      constructor; [exact sample_output_layer_ok | constructor].
    + apply sample_layers_chained. reflexivity.
    + reflexivity.
  - unfold network_inputs, inputs_of.
    cbn [sample_network Network.set_layers Network.layers lookup list_lookup
         sample_layer Layer.inputSize].
    apply to_nat_of_nat.
  - unfold network_outputs, outputs_of.
    cbn [sample_network Network.set_layers Network.layers last
         sample_output_layer Layer.size].
    apply to_nat_of_nat.
Qed.

Lemma sample_examples_ok :
  Forall (example_ok 2 1) (Js.elements sample_examples).
Proof.
  repeat constructor.
  - exists (VArr 3 [VNum (Fin 1); VNum (Fin 0.5)]), (VArr 4 [VNum (Fin 0.8)]),
           [Fin 1; Fin 0.5], [Fin 0.8].
    split_and!; try reflexivity; try (eexists; reflexivity); repeat constructor.
  - exists (VArr 6 [VNum (Fin 0); VNum (Fin 1)]), (VArr 7 [VNum (Fin 0.2)]),
           [Fin 0; Fin 1], [Fin 0.2].
    split_and!; try reflexivity; try (eexists; reflexivity); repeat constructor.
Qed.

(** The sample network once it has been used: its caches are filled and
    its history is not empty. *)
Lemma sample_network_used_ok :
  network_ok sample_network_used /\
  network_inputs sample_network_used = 2%nat /\
  network_outputs sample_network_used = 1%nat /\
  Forall (fun l => Layer.outputs l <> [] /\ has_inputs l)
         (Network.layers sample_network_used) /\
  Network.trainingHistory sample_network_used <> [].
Proof.
  destruct sample_network_ok as (Hok & Hi & Ho).
  destruct (Network_predict_ok (Js.array [Fin 1; Fin 0.5]) [Fin 1; Fin 0.5]
              sample_network Hok)
    as (outs & s1 & Hrun & Hs1 & _ & Hfr & _).
  { exists 0%nat. reflexivity. }
  { rewrite Hi. reflexivity. }
  { repeat constructor. }
  rewrite (predict_returns (Js.array [Fin 1; Fin 0.5]) [Fin 1; Fin 0.5] sample_network)
    in Hrun;
    [| exact Hok | exists 0%nat; reflexivity | rewrite Hi; reflexivity
     | repeat constructor].
  injection Hrun as _ <-.
  destruct (network_frame_sizes _ _ Hfr) as (Hi1 & Ho1 & _).
  split_and!.
  - exact Hs1.
  - transitivity (network_inputs sample_network); [exact Hi1 | exact Hi].
  - transitivity (network_outputs sample_network); [exact Ho1 | exact Ho].
  - repeat constructor; discriminate.
  - discriminate.
Qed.

(** The layer with an infinite weight hands on an infinite output. *)
Lemma infinite_layer_outputs :
  forallb Num.isFinite (layer_outputs infinite_layer [Fin 1; Fin 0.5]) = false.
Proof.
  unfold layer_outputs.
  cbn [infinite_layer Layer.neurons Layer.activationFunction map activations.linear func].
  unfold weighted_sum at 1. unfold reduce.
  cbn [imap fold_left fst snd Neuron.weights Neuron.bias nth Num.mul Num.add].
  unfold Num.signed_inf. rewrite (Rltb_true 0 1) by lra.
  cbn [Num.add forallb Num.isFinite andb]. reflexivity.
Qed.

Lemma infinite_network_shaped :
  network_shaped infinite_network /\ network_inputs infinite_network = 2%nat.
Proof.
  split; [split_and! |].
  - discriminate.
  - constructor; [| constructor; [| constructor]].
    + unfold layer_shaped, inputs_of. cbn [infinite_layer Layer.inputSize Layer.size
                                           Layer.neurons].
      rewrite to_nat_of_nat. split_and!; try reflexivity; [discriminate |].
      repeat constructor.
    + apply (layer_ok_shaped _ sample_output_layer_ok).
  - apply sample_layers_chained. reflexivity.
  - unfold network_inputs, inputs_of.
    cbn [infinite_network Network.set_layers Network.layers lookup list_lookup
         infinite_layer Layer.inputSize].
    rewrite to_nat_of_nat. reflexivity.
Qed.

(** [predict] on the network with an infinite weight: the second layer
    refuses the outputs of the first, which has stored them. *)
Lemma infinite_network_run :
  Network.predict (Js.array [Fin 1; Fin 0.5]) infinite_network
  = Thrown (Error MsgInputsNotFinite)
           (Network.set_layers
              [layer_after infinite_layer [Fin 1; Fin 0.5]; sample_output_layer]
              infinite_network).
Proof.
  destruct infinite_network_shaped as [Hs Hi].
  unfold Js.array. rewrite (predict_outcome 0 [Fin 1; Fin 0.5] infinite_network Hs)
    by (rewrite Hi; reflexivity).
  cbn [infinite_network Network.set_layers Network.layers forward_run forallb
       Num.isFinite andb].
  rewrite infinite_layer_outputs. reflexivity.
Qed.

Lemma predict_feed_forward_witness :
  Network.predict (Js.array [Fin 1; Fin 0.5]) sample_network
  = Returned (feed_forward (Network.layers sample_network) [Fin 1; Fin 0.5])
             (Network.set_layers
                (forward_layers (Network.layers sample_network) [Fin 1; Fin 0.5])
                sample_network) /\
  length (feed_forward (Network.layers sample_network) [Fin 1; Fin 0.5]) = 1%nat /\
  Network.predict (Js.array [Fin 1; Fin 0.5]) infinite_network
  = Thrown (Error MsgInputsNotFinite)
           (Network.set_layers
              [layer_after infinite_layer [Fin 1; Fin 0.5]; sample_output_layer]
              infinite_network).
Proof.
  destruct sample_network_ok as (Hok & Hi & Ho).
  destruct (predict_feed_forward 0 [Fin 1; Fin 0.5] sample_network
              (network_ok_shaped _ Hok))
    as (Hrun & _ & _ & Hlen & _).
  { rewrite Hi. reflexivity. }
  destruct infinite_network_shaped as [Hshaped Hinputs].
  destruct (predict_feed_forward 0 [Fin 1; Fin 0.5] infinite_network Hshaped)
    as (_ & Hthrow & _).
  { rewrite Hinputs. reflexivity. }
  split_and!.
  - apply Hrun. destruct Hok as (_ & Hall & Hch & _).
    apply forward_finite_ok; try assumption; [| repeat constructor].
    intros l [= <-]. unfold inputs_of. cbn [sample_layer Layer.inputSize].
    rewrite to_nat_of_nat. reflexivity.
  - rewrite Hlen. exact Ho.
  - unfold Js.array. rewrite Hthrow.
    + cbn [infinite_network Network.set_layers Network.layers forward_run forallb
           Num.isFinite andb].
      rewrite infinite_layer_outputs. reflexivity.
    + intros (_ & Hfin & _). apply forallb_finite in Hfin.
      rewrite infinite_layer_outputs in Hfin. discriminate.
Defined.


Section PredictValidation.
Import Num.
Local Open Scope js_scope.


End PredictValidation.


(** ** Reset *)

Section Reset.
Import Num.
Local Open Scope js_scope.

Lemma Layer_reset_returns (l : Layer.t) : Layer.reset l = Returned tt (layer_cleared l).
Proof. reflexivity. Qed.

Lemma reset_loop (s : Network.t) :
  forall m, (m <= length (Network.layers s))%nat ->
    for_of (seq 0 m) tt
      (fun _ i => zoom Network.layers Network.set_layers (on_index i Layer.reset)) s
    = Returned tt
        (Network.set_layers
           (imap (fun i l => if (i <? m)%nat then layer_cleared l else l)
                 (Network.layers s)) s).
Proof.
  induction m as [| m IH]; intros Hm.
  - cbn [seq for_of ret]. f_equal.
    replace (imap _ (Network.layers s)) with (Network.layers s);
      [symmetry; apply set_layers_same |].
    apply list_eq. intros i. rewrite list_lookup_imap.
    destruct (Network.layers s !! i); reflexivity.
  - rewrite seq_S, for_of_app, IH by lia. cbn [Nat.add for_of].
    destruct (lookup_lt_is_Some_2 (Network.layers s) m ltac:(lia)) as [lm Hlm].
    set (ls := imap (fun i l => if (i <? m)%nat then layer_cleared l else l)
                    (Network.layers s)).
    assert (Hlook : ls !! m = Some lm).
    { unfold ls. rewrite list_lookup_imap, Hlm. simpl.
      rewrite (proj2 (Nat.ltb_ge m m)) by lia. reflexivity. }
    rewrite (bind_returned _ _ _
               (Network.set_layers (<[m := layer_cleared lm]> ls) s) tt).
    + cbn [ret]. f_equal. f_equal. apply list_eq. intros i.
      destruct (decide (i = m)) as [-> | Hne].
      * rewrite list_lookup_insert_eq by (unfold ls; rewrite length_imap; lia).
        rewrite list_lookup_imap, Hlm. simpl.
        rewrite (proj2 (Nat.ltb_lt m (S m))) by lia. reflexivity.
      * rewrite list_lookup_insert_ne by congruence.
        unfold ls. rewrite !list_lookup_imap.
        destruct (Network.layers s !! i) as [l |]; [| reflexivity]. simpl.
        destruct (Nat.ltb_spec i m), (Nat.ltb_spec i (S m)); try lia; reflexivity.
    + cbn [zoom Network.layers Network.set_layers]. unfold on_index.
      rewrite Hlook, Layer_reset_returns. reflexivity.
Qed.

Lemma Network_reset_returns (s : Network.t) :
  Network.reset s
  = Returned tt
      (Network.set_trainingHistory []
         (Network.set_layers (map layer_cleared (Network.layers s)) s)).
Proof.
  unfold Network.reset. cbn [bind read]. unfold for_range.
  rewrite (reset_loop s (length (Network.layers s))) by lia.
  cbn [modify]. do 3 f_equal.
  apply list_eq. intros i. rewrite list_lookup_imap, list_lookup_fmap.
  destruct (Network.layers s !! i) eqn:Hl; [| reflexivity]. simpl.
  apply lookup_lt_Some in Hl. rewrite (proj2 (Nat.ltb_lt _ _) Hl). reflexivity.
Qed.

Lemma layer_outputs_cleared (l : Layer.t) (xs : list number) :
  layer_outputs (layer_cleared l) xs = layer_outputs l xs.
Proof. unfold layer_outputs, layer_cleared. simpl. rewrite map_map. reflexivity. Qed.

Lemma feed_forward_cleared (ls : list Layer.t) (xs : list number) :
  feed_forward (map layer_cleared ls) xs = feed_forward ls xs.
Proof.
  revert xs. induction ls as [| l ls IH]; intros xs; [reflexivity |].
  cbn [map feed_forward]. rewrite layer_outputs_cleared. apply IH.
Qed.

Lemma layer_cleared_ok (l : Layer.t) : layer_ok l -> layer_ok (layer_cleared l).
Proof.
  intros (Hin & Hout & Hpi & Hpo & Hn & Hns & Hf & Hd).
  unfold layer_ok, inputs_of, outputs_of, layer_cleared in *. simpl.
  split_and!; try assumption.
  - rewrite length_map. exact Hn.
  - apply Forall_fmap. eapply Forall_impl; [exact Hns |]. intros n H. exact H.
Qed.

Lemma network_cleared_ok (s : Network.t) :
  network_ok s ->
  network_ok (Network.set_trainingHistory []
                (Network.set_layers (map layer_cleared (Network.layers s)) s)) /\
  network_inputs (Network.set_trainingHistory []
                    (Network.set_layers (map layer_cleared (Network.layers s)) s))
  = network_inputs s.
Proof.
  intros (Hne & Hall & Hch & Hlr). split.
  - split_and!; simpl.
    + destruct (Network.layers s); [contradiction | discriminate].
    + apply Forall_fmap. eapply Forall_impl; [exact Hall |]. apply layer_cleared_ok.
    + intros i a b Ha Hb. rewrite list_lookup_fmap in Ha, Hb.
      destruct (Network.layers s !! i) as [a0 |] eqn:Ha0; [| discriminate].
      destruct (Network.layers s !! S i) as [b0 |] eqn:Hb0; [| discriminate].
      injection Ha as <-. injection Hb as <-. simpl. exact (Hch i a0 b0 Ha0 Hb0).
    + exact Hlr.
  - unfold network_inputs. simpl. rewrite list_lookup_fmap.
    destruct (Network.layers s !! 0%nat); reflexivity.
Qed.

(** X17.  [reset] never throws.  It empties the history, and in every
    layer the outputs and the cached inputs and output of every neuron;
    it changes no weight and no bias, and neither the learning rate nor
    the compiled flag. *)
Theorem Network_reset_clears (s : Network.t) :
  exists s',
    Network.reset s = Returned tt s' /\
    Network.trainingHistory s' = [] /\
    Forall (fun l => Layer.outputs l = [] /\
                     Forall (fun n => Neuron.lastInputs n = None /\
                                      Neuron.lastOutput n = None) (Layer.neurons l))
           (Network.layers s') /\
    map Layer.getWeights (Network.layers s') = map Layer.getWeights (Network.layers s) /\
    map Layer.size (Network.layers s') = map Layer.size (Network.layers s) /\
    Network.learningRate s' = Network.learningRate s /\
    Network.isCompiled s' = Network.isCompiled s.
Proof.
  eexists. split; [apply Network_reset_returns |].
  cbn [Network.set_trainingHistory Network.set_layers Network.layers
       Network.trainingHistory Network.learningRate Network.isCompiled].
  split_and!; try reflexivity.
  - apply Forall_fmap, Forall_forall. intros l _. simpl. split; [reflexivity |].
    apply Forall_fmap, Forall_forall. intros n _. split; reflexivity.
  - rewrite map_map. apply map_ext. intros l.
    unfold Layer.getWeights, layer_cleared. simpl. rewrite map_map. reflexivity.
  - rewrite map_map. reflexivity.
Qed.


End Reset.


(** ** The error of a prediction *)

Section ErrorOfPrediction.
Import Num.
Local Open Scope js_scope.
Context (coerce : value -> number).

Lemma squared_fold (T : list R) (ps : list R) (r : nat) (k : nat) (a : R) :
  (length ps + k <= length T)%nat ->
  fold_left (fun acc (ix : nat * number) =>
               acc + Math_pow (snd ix
                               - Js.ToNumber coerce
                                   (Js.at_index (VArr r (map (fun t => VNum (Fin t)) T))
                                                (fst ix))) 2)
            (imap (fun i x => ((k + i)%nat, x)) (map Fin ps)) (Fin a)
  = Fin (a + squared_error ps (drop k T)).
Proof.
  set (f := fun (acc : number) (ix : nat * number) =>
              acc + Math_pow (snd ix
                              - Js.ToNumber coerce
                                  (Js.at_index (VArr r (map (fun t => VNum (Fin t)) T))
                                               (fst ix))) 2).
  assert (Hstep : forall i t p c,
             T !! i = Some t ->
             f (Fin c) (i, Fin p) = Fin (c + (p - t) * (p - t))).
  { intros i t p c Hi. unfold f. cbn [fst snd Js.at_index].
    rewrite (nth_lookup_Some _ _ VUndefined (VNum (Fin t)))
      by (rewrite list_lookup_fmap, Hi; reflexivity).
    reflexivity. }
  clearbody f.
  revert k a. induction ps as [| p ps IH]; intros k a Hlen.
  - simpl. f_equal. destruct (drop k T); simpl; lra.
  - simpl in Hlen.
    destruct (drop k T) as [| t rest] eqn:Hdrop.
    { apply (f_equal length) in Hdrop. rewrite length_drop in Hdrop. simpl in Hdrop. lia. }
    assert (Hk : T !! k = Some t).
    { rewrite <- (Nat.add_0_r k), <- lookup_drop, Hdrop. reflexivity. }
    assert (Hrest : drop (S k) T = rest).
    { replace (S k) with (k + 1)%nat by lia.
      rewrite <- (drop_drop T 1 k). rewrite Hdrop. reflexivity. }
    cbn [map imap fold_left]. rewrite Nat.add_0_r, (Hstep k t p a Hk).
    rewrite (imap_ext _ (fun i x => ((S k + i)%nat, x)))
      by (intros i y _; simpl; f_equal; lia).
    rewrite (IH (S k)) by lia. rewrite Hrest. simpl. f_equal. lra.
Qed.

Lemma squared_error_nonneg (ps ts : list R) : (0 <= squared_error ps ts)%R.
Proof.
  revert ts. induction ps as [| p ps IH]; intros [| t ts]; simpl; try lra.
  pose proof (IH ts) as H. pose proof (Rle_0_sqr (p - t)) as Hsq.
  unfold Rsqr in Hsq. lra.
Qed.

(** [calculateError] on as many predicted as actual finite numbers. *)
Lemma calculateError_squared {S} (r : nat) (s : S) (ps ts : list R) :
  length ps = length ts -> (0 < length ps)%nat ->
  Network.calculateError coerce (map Fin ps) (VArr r (map (fun t => VNum (Fin t)) ts)) s
  = Returned (Fin (squared_error ps ts / INR (length ps))) s /\
  (0 <= squared_error ps ts / INR (length ps))%R.
Proof.
  intros Hlen Hpos. split.
  - unfold Network.calculateError.
    rewrite (bind_returned _ _ s s (VNum (of_nat (length ts))))
      by (cbn; rewrite length_map; reflexivity).
    rewrite strict_eq_of_nat, !length_map, Hlen.
    rewrite Nat.eqb_refl. cbn [negb ret]. f_equal.
    unfold reduce.
    rewrite (imap_ext _ (fun i x => ((0 + i)%nat, x))) by reflexivity.
    rewrite (squared_fold ts ps r 0 0) by lia.
    cbn [drop]. unfold of_nat. cbn [Num.div].
    rewrite Reqb_false by (apply not_0_INR; lia).
    rewrite <- Hlen. f_equal. f_equal. rewrite drop_0. lra.
  - apply Rmult_le_pos; [apply squared_error_nonneg |].
    apply Rlt_le, Rinv_0_lt_compat, lt_0_INR. exact Hpos.
Qed.

(** X19.  [calculateError] on as many predicted as actual finite numbers
    returns the mean of the squared differences, which is not negative;
    for two empty arrays it returns [NaN] (0 / 0); for arrays of
    different lengths it throws.  It never changes the state. *)
Theorem calculateError_mean_squared {S} (r : nat) (s : S) :
  (forall ps ts,
     length ps = length ts -> (0 < length ps)%nat ->
     Network.calculateError coerce (map Fin ps) (VArr r (map (fun t => VNum (Fin t)) ts)) s
     = Returned (Fin (squared_error ps ts / INR (length ps))) s /\
     (0 <= squared_error ps ts / INR (length ps))%R) /\
  (forall predicted actual,
     length predicted <> length actual ->
     Network.calculateError coerce predicted (VArr r actual) s
     = Thrown (Error MsgPredictedActualLength) s) /\
  Network.calculateError coerce [] (VArr r []) s = Returned NaN s.
Proof.
  split_and!.
  - intros ps ts Hlen Hpos. apply calculateError_squared; assumption.
  - intros predicted actual Hne. unfold Network.calculateError.
    rewrite (bind_returned _ _ s s (VNum (of_nat (length actual)))) by reflexivity.
    rewrite strict_eq_of_nat.
    rewrite (proj2 (Nat.eqb_neq _ _) Hne). reflexivity.
  - unfold Network.calculateError. cbn.
    rewrite !Reqb_true by reflexivity.
    unfold Num.signed_inf. rewrite !Rltb_false by lra. reflexivity.
Qed.

End ErrorOfPrediction.

Lemma calculateError_mean_squared_witness :
  Network.calculateError no_coercion (map Fin [1; 0])
                         (VArr 0 (map (fun t => VNum (Fin t)) [0; 0])) tt
  = Returned (Fin 0.5) tt.
Proof.
  destruct (proj1 (calculateError_mean_squared no_coercion 0 tt) [1; 0] [0; 0] eq_refl)
    as [Hrun _].
  { simpl. lia. }
  rewrite Hrun. do 2 f_equal. simpl. lra.
Defined.

(** ** The shuffle *)

Section ShuffleDraws.
Import Num.
Local Open Scope js_scope.

Lemma for_of_draws {A B} (h : B -> A -> number -> B) (l : list A) (acc : B)
    (g : generator) :
  exists acc',
    for_of l acc (fun acc x => r <- Math_random ;; ret (h acc x r)) g
    = Returned acc' (fun k => g (length l + k)%nat).
Proof.
  revert acc g. induction l as [| x l IH]; intros acc g.
  - exists acc. reflexivity.
  - destruct (IH (h acc x (Fin (g 0%nat))) (fun k => g (S k))) as [acc' Hrun].
    exists acc'. cbn [for_of]. unfold bind at 1. unfold bind at 1.
    unfold Math_random at 1. cbn [ret]. rewrite Hrun. f_equal.
Qed.

(** X20.  [shuffleArray] returns a permutation of its argument, of the
    same length, and draws one random number per element but the first:
    the generator is left [length - 1] draws further. *)
Theorem shuffleArray_permutes (array : list value) (g : generator) :
  exists shuffled,
    Network.shuffleArray array g
    = Returned shuffled (fun k => g (length array - 1 + k)%nat) /\
    Permutation array shuffled /\
    length shuffled = length array.
Proof.
  destruct (shuffleArray_returns array g) as (shuffled & g' & Hrun & Hperm).
  exists shuffled.
  destruct (for_of_draws
              (fun arr i r => Network.swap arr i (to_nat (Math_floor (r * (of_nat i + 1)))))
              (Network.countdown (length array)) array g) as [acc' Hdraws].
  unfold Network.shuffleArray in Hrun. rewrite Hdraws in Hrun.
  injection Hrun as -> <-.
  split_and!.
  - unfold Network.shuffleArray. rewrite Hdraws.
    unfold Network.countdown. rewrite length_rev, length_seq. reflexivity.
  - exact Hperm.
  - symmetry. apply Permutation_length, Hperm.
Qed.

End ShuffleDraws.

(** ** Training *)

Section TrainingProperties.
Import Num.
Local Open Scope js_scope.
Context (coerce : value -> number).

(** X21.  A call of [train] without early stopping that returns has run
    every epoch: it returns the network itself, the loop has not been
    left early, the history holds [epochs] errors, the network is
    compiled, and the learning rate, the sizes of the layers and the
    number of neurons and of weights of every layer are as before. *)
Theorem train_runs_all_epochs (data : value) (epochs : nat) (options : train_options)
    (w w' : Network.world) (res : Network.t * loop_exit) :
  Js.truthy (default VNull (validationData options))
  && Js.truthy (default VNull (earlyStoppingPatience options)) = false ->
  Network.train coerce data epochs options w = Returned res w' ->
  res = (fst w', Exhausted) /\
  length (Network.trainingHistory (fst w')) = epochs /\
  Network.isCompiled (fst w') = true /\
  Network.learningRate (fst w') = Network.learningRate (fst w) /\
  map Layer.size (Network.layers (fst w')) = map Layer.size (Network.layers (fst w)) /\
  map Layer.inputSize (Network.layers (fst w'))
  = map Layer.inputSize (Network.layers (fst w)) /\
  map (fun l => map (fun n => length (Neuron.weights n)) (Layer.neurons l))
      (Network.layers (fst w'))
  = map (fun l => map (fun n => length (Neuron.weights n)) (Layer.neurons l))
        (Network.layers (fst w)).
Proof.
  intros Hno Hrun.
  destruct (train_returned coerce _ _ _ _ _ _ Hrun) as (_ & _ & Hloop & Hres).
  pose proof (train_loop_history coerce _ _ _ _ _ _ _ _ _ _ Hloop) as Hhist.
  pose proof (train_loop_frame coerce data
                (default VNull (validationData options))
                (default VNull (earlyStoppingPatience options)) epochs 0 PosInf 0
                (Network.set_trainingHistory [] (Network.set_isCompiled true (fst w)),
                 snd w))
    as Hframe.
  rewrite Hloop in Hframe. destruct Hframe as (Hlr & Hc & Hls).
  simpl in Hlr, Hc, Hls, Hhist.
  destruct res as [this exit]. cbn [fst snd] in *. subst this.
  destruct exit as [| e].
  2: { destruct Hhist as (_ & _ & Hv & Hp). rewrite Hv, Hp in Hno. discriminate. }
  unfold layers_frame in Hls. simpl in Hls.
  split_and!; try reflexivity; try assumption.
  - symmetry. exact Hc.
  - symmetry. exact Hlr.
  - clear -Hls. induction Hls as [| a b la lb (Hsz & _) _ IH]; [reflexivity |].
    simpl. rewrite Hsz, IH. reflexivity.
  - clear -Hls. induction Hls as [| a b la lb (_ & Hin & _) _ IH]; [reflexivity |].
    simpl. rewrite Hin, IH. reflexivity.
  - clear -Hls. induction Hls as [| a b la lb (_ & _ & _ & Hns) _ IH]; [reflexivity |].
    simpl. rewrite IH. f_equal.
    clear -Hns. induction Hns as [| x y lx ly Hxy _ IH]; [reflexivity |].
    simpl. unfold neuron_frame in Hxy. rewrite Hxy, IH. reflexivity.
Qed.

(** The size loop of [validateTrainingData] on examples of the sizes of
    the first one. *)
Lemma size_loop_passes {S} (a b : nat) (l : list value) (s : S) :
  Forall (example_ok a b) l ->
  for_of l tt
    (fun _ example =>
       input <- runtime (Js.get example "input") ;;
       input_length <- runtime (Js.length_of input) ;;
       if negb (Js.strict_eq input_length (VNum (of_nat a)))
       then throw (Error MsgInputVectorsSize)
       else
         target <- runtime (Js.get example "target") ;;
         target_length <- runtime (Js.length_of target) ;;
         if negb (Js.strict_eq target_length (VNum (of_nat b)))
         then throw (Error MsgTargetVectorsSize)
         else ret tt) s
  = Returned tt s.
Proof.
  intros Hall. induction Hall as [| example l Hex _ IH]; [reflexivity |].
  destruct (example_ok_fields _ _ _ Hex) as (ei & et & Hgi & Hgt & _ & _ & Hli & Hlt).
  cbn [for_of].
  erewrite bind_returned; [exact IH |].
  rewrite (bind_returned _ _ s s ei) by (rewrite Hgi; reflexivity).
  rewrite (bind_returned _ _ s s (VNum (of_nat a))) by (rewrite Hli; reflexivity).
  rewrite strict_eq_of_nat, Nat.eqb_refl. cbn [negb].
  rewrite (bind_returned _ _ s s et) by (rewrite Hgt; reflexivity).
  rewrite (bind_returned _ _ s s (VNum (of_nat b))) by (rewrite Hlt; reflexivity).
  rewrite strict_eq_of_nat, Nat.eqb_refl. reflexivity.
Qed.

(** X22.  [train] refuses data that is not a non-empty array, a first
    example without [input] or [target], and, after well-formed examples
    of the sizes of the first one, an example whose input or whose target
    has another length.  Each time the network and the generator are
    left as they were, and no epoch has run. *)
Theorem train_rejects_malformed_data (epochs : nat) (options : train_options)
    (w : Network.world) :
  (forall data,
     Js.isArray data = false \/ Js.elements data = [] ->
     Network.train coerce data epochs options w = Thrown (Error MsgTrainingDataEmpty) w) /\
  (forall r first rest input,
     Js.get first "input" = Some input ->
     Js.truthy input = false \/ Js.get first "target" = Some VUndefined ->
     Network.train coerce (VArr r (first :: rest)) epochs options w
     = Thrown (Error MsgExampleFields) w) /\
  (forall r a b first good bad rest r' xs,
     Forall (example_ok a b) (first :: good) ->
     Js.get bad "input" = Some (VArr r' xs) -> length xs <> a ->
     Network.train coerce (VArr r (first :: good ++ bad :: rest)) epochs options w
     = Thrown (Error MsgInputVectorsSize) w) /\
  (forall r a b first good bad rest r1 xs r2 ts,
     Forall (example_ok a b) (first :: good) ->
     Js.get bad "input" = Some (VArr r1 xs) -> length xs = a ->
     Js.get bad "target" = Some (VArr r2 ts) -> length ts <> b ->
     Network.train coerce (VArr r (first :: good ++ bad :: rest)) epochs options w
     = Thrown (Error MsgTargetVectorsSize) w).
Proof.
  split_and!.
  - intros data H. apply train_rejects_empty, H.
  - intros r first rest input Hin H. eapply train_rejects_first_example; eassumption.
  - intros r a b first good bad rest r' xs Hall Hbad Hne.
    apply train_validation_failure.
    inversion Hall as [| ? ? Hfirst _]; subst.
    destruct (example_ok_fields _ _ _ Hfirst)
      as (fi & ft & Hgi & Hgt & Hti & Htt & Hli & Hlt).
    unfold Network.validateTrainingData.
    cbn [Js.isArray Js.elements negb orb length Nat.eqb Js.at_index nth].
    rewrite (bind_returned _ _ w w fi) by (rewrite Hgi; reflexivity).
    rewrite Hti. cbn [negb].
    rewrite (bind_returned _ _ w w ft) by (rewrite Hgt; reflexivity).
    rewrite Htt. cbn [negb].
    rewrite (bind_returned _ _ w w (VNum (of_nat a))) by (rewrite Hli; reflexivity).
    rewrite (bind_returned _ _ w w (VNum (of_nat b))) by (rewrite Hlt; reflexivity).
    change (first :: good ++ bad :: rest) with ((first :: good) ++ bad :: rest).
    rewrite for_of_app, (size_loop_passes a b _ w Hall).
    cbn [for_of]. apply bind_thrown.
    rewrite (bind_returned _ _ w w (VArr r' xs)) by (rewrite Hbad; reflexivity).
    rewrite (bind_returned _ _ w w (VNum (of_nat (length xs)))) by reflexivity.
    rewrite strict_eq_of_nat, (proj2 (Nat.eqb_neq _ _) Hne). reflexivity.
  - intros r a b first good bad rest r1 xs r2 ts Hall Hin Hlen Htg Hne.
    apply train_validation_failure.
    inversion Hall as [| ? ? Hfirst _]; subst.
    destruct (example_ok_fields _ _ _ Hfirst)
      as (fi & ft & Hgi & Hgt & Hti & Htt & Hli & Hlt).
    unfold Network.validateTrainingData.
    cbn [Js.isArray Js.elements negb orb length Nat.eqb Js.at_index nth].
    rewrite (bind_returned _ _ w w fi) by (rewrite Hgi; reflexivity).
    rewrite Hti. cbn [negb].
    rewrite (bind_returned _ _ w w ft) by (rewrite Hgt; reflexivity).
    rewrite Htt. cbn [negb].
    rewrite (bind_returned _ _ w w (VNum (of_nat (length xs))))
      by (rewrite Hli; reflexivity).
    rewrite (bind_returned _ _ w w (VNum (of_nat b))) by (rewrite Hlt; reflexivity).
    change (first :: good ++ bad :: rest) with ((first :: good) ++ bad :: rest).
    rewrite for_of_app, (size_loop_passes (length xs) b _ w Hall).
    cbn [for_of]. apply bind_thrown.
    rewrite (bind_returned _ _ w w (VArr r1 xs)) by (rewrite Hin; reflexivity).
    rewrite (bind_returned _ _ w w (VNum (of_nat (length xs)))) by reflexivity.
    rewrite strict_eq_of_nat, Nat.eqb_refl. cbn [negb].
    rewrite (bind_returned _ _ w w (VArr r2 ts)) by (rewrite Htg; reflexivity).
    rewrite (bind_returned _ _ w w (VNum (of_nat (length ts)))) by reflexivity.
    rewrite strict_eq_of_nat, (proj2 (Nat.eqb_neq _ _) Hne). reflexivity.
Qed.

End TrainingProperties.

Lemma train_runs_all_epochs_witness :
  exists s' g',
    Network.train no_coercion sample_examples 3 no_options (sample_network, zeros)
    = Returned (s', Exhausted) (s', g') /\
    length (Network.trainingHistory s') = 3%nat /\
    Network.isCompiled sample_network = false /\
    Network.isCompiled s' = true.
Proof.
  destruct sample_network_ok as (Hok & Hi & Ho).
  destruct (train_returns no_coercion 1 (Js.at_index sample_examples 0)
              [Js.at_index sample_examples 1] 3 no_options sample_network zeros Hok)
    as (res & [s' g'] & Hrun & _).
  { rewrite Hi, Ho. exact sample_examples_ok. }
  { discriminate. }
  destruct (train_runs_all_epochs no_coercion sample_examples 3 no_options
              (sample_network, zeros) (s', g') res eq_refl Hrun)
    as (Hres & Hlen & Hc & _).
  exists s', g'. rewrite Hres in Hrun.
  split_and!; [exact Hrun | exact Hlen | reflexivity | exact Hc].
Defined.

Lemma train_rejects_malformed_data_witness :
  Network.train no_coercion (VStr "invalid") 1 no_options one_neuron_network
  = Thrown (Error MsgTrainingDataEmpty) one_neuron_network /\
  Network.train no_coercion
    (VArr 0 [VObj 1 [("input"%string, Js.array [Fin 1; Fin 2]);
                     ("target"%string, Js.array [Fin 0])];
             VObj 2 [("input"%string, Js.array [Fin 1]);
                     ("target"%string, Js.array [Fin 0])]])
    1 no_options one_neuron_network
  = Thrown (Error MsgInputVectorsSize) one_neuron_network.
Proof.
  destruct (train_rejects_malformed_data no_coercion 1 no_options one_neuron_network)
    as (Hempty & _ & Hinput & _).
  split.
  - apply Hempty. left. reflexivity.
  - apply (Hinput 0%nat 2%nat 1%nat _ [] _ [] 0%nat [VNum (Fin 1)]).
    + repeat constructor.
      exists (Js.array [Fin 1; Fin 2]), (Js.array [Fin 0]), [Fin 1; Fin 2], [Fin 0].
      split_and!; try reflexivity; try (exists 0%nat; reflexivity); repeat constructor.
    + reflexivity.
    + simpl. lia.
Defined.

(** ** Adding layers *)

Section AddingLayers.
Import Num.
Local Open Scope js_scope.
Context (coerce : value -> number).

(** X23.  [addLayer] refuses, in this order, a neuron count that is not a
    positive integer, an activation without a [func], and, on a network
    without layers, an input size that is missing, [null] or not
    positive.  An activation with a [func] and no [derivative] passes
    these checks and is refused by the constructor of the layer.  Every
    failure of [addLayer] is a validation error that leaves the network
    and the generator as they were. *)
Theorem addLayer_validation (neuronCount : value)
    (activationFunction : option activation_object) (inputSize : value)
    (s : Network.t) (g : generator) :
  (Js.isInteger neuronCount = false \/ (Js.number_of neuronCount <=? 0) = true ->
   Network.addLayer coerce neuronCount activationFunction inputSize (s, g)
   = Thrown (Error MsgNeuronCount) (s, g)) /\
  (Js.isInteger neuronCount = true -> (Js.number_of neuronCount <=? 0) = false ->
   (forall a, activationFunction = Some a -> obj_func a = None) ->
   Network.addLayer coerce neuronCount activationFunction inputSize (s, g)
   = Thrown (Error MsgActivationFunc) (s, g)) /\
  (forall a f,
     Js.isInteger neuronCount = true -> (Js.number_of neuronCount <=? 0) = false ->
     activationFunction = Some a -> obj_func a = Some f ->
     Network.layers s = [] ->
     inputSize = VUndefined \/ inputSize = VNull
     \/ (Js.ToNumber coerce inputSize <=? 0) = true ->
     Network.addLayer coerce neuronCount activationFunction inputSize (s, g)
     = Thrown (Error MsgFirstLayerInputSize) (s, g)) /\
  (forall a b f nm,
     (0 < a)%nat -> (0 < b)%nat ->
     neuronCount = VNum (of_nat a) -> inputSize = VNum (of_nat b) ->
     Network.layers s = [] ->
     activationFunction
     = Some {| obj_func := Some f; obj_derivative := None; obj_name := nm |} ->
     Network.addLayer coerce neuronCount activationFunction inputSize (s, g)
     = Thrown (Error MsgActivationMethods) (s, g)) /\
  (forall e w',
     Network.addLayer coerce neuronCount activationFunction inputSize (s, g)
     = Thrown e w' ->
     w' = (s, g) /\ kind_of e = Some ValidationError).
Proof.
  split_and!.
  - intros H. unfold Network.addLayer. apply bind_thrown. apply on_network_thrown.
    unfold Network.validateLayerParameters. cbn [bind read].
    destruct H as [H | H]; rewrite H; [reflexivity |].
    rewrite orb_true_r. reflexivity.
  - intros H1 H2 Hact. unfold Network.addLayer. apply bind_thrown.
    apply on_network_thrown.
    unfold Network.validateLayerParameters. cbn [bind read]. rewrite H1, H2.
    cbn [negb orb].
    destruct activationFunction as [[[f |] d nm] |]; try reflexivity.
    specialize (Hact _ eq_refl). discriminate.
  - intros a f H1 H2 -> Hf Hl Hisz. unfold Network.addLayer. apply bind_thrown.
    apply on_network_thrown.
    unfold Network.validateLayerParameters. cbn [bind read]. rewrite H1, H2, Hl.
    cbn [negb orb length Nat.eqb andb].
    destruct a as [[f' |] d nm]; [| discriminate].
    destruct Hisz as [-> | [-> | H]]; try reflexivity.
    destruct inputSize; cbn [default] in *; try reflexivity;
      rewrite H, orb_true_r; reflexivity.
  - intros a b f nm Ha Hb -> -> Hl ->.
    destruct (of_nat_positive a Ha) as [Hai Hap].
    destruct (of_nat_positive b Hb) as [Hbi Hbp].
    unfold Network.addLayer. cbn [default].
    rewrite (bind_returned _ _ (s, g) (s, g) tt).
    2: { apply on_network_returned.
         unfold Network.validateLayerParameters. cbn [bind read Js.isInteger Js.number_of].
         rewrite Hai, Hap, Hl.
         cbn [negb orb length Nat.eqb andb Js.strict_eq Js.ToNumber]. rewrite Hbp.
         reflexivity. }
    rewrite (bind_returned _ _ (s, g) (s, g) (VNum (of_nat b))).
    2: { apply on_network_returned.
         unfold Network.determineLayerInputSize. cbn [bind read]. rewrite Hl. reflexivity. }
    apply bind_thrown.
    unfold Network.on_generator, zoom. cbn [snd fst].
    unfold Layer.constructor, Layer.validateParameters.
    cbn [Js.isInteger Js.number_of]. rewrite Hai, Hap, Hbi, Hbp. destruct s; reflexivity.
  - intros e w' H.
    destruct (addLayer_outcome coerce neuronCount activationFunction inputSize s g)
      as [(e' & H' & Hk) | (l & g' & _ & H')]; rewrite H' in H; [| discriminate].
    injection H as <- <-. split; [reflexivity | exact Hk].
Qed.

(** X24.  [addLayer] with a positive neuron count and an activation that
    keeps finite numbers finite returns the network itself, with one
    more layer at the end, of [neuronCount] neurons; the compiled flag is
    cleared, the history and the learning rate are as before.  On a
    network without layers (with a positive input size) or on a
    well-formed network, the result is a well-formed network. *)
Theorem addLayer_appends (a : nat) (af : ActivationFunction) (inputSize : value)
    (s : Network.t) (g : generator) :
  (0 < a)%nat ->
  finite_preserving (func af) -> finite_preserving (derivative af) ->
  finite (Network.learningRate s) ->
  (Network.layers s = [] /\ exists b, inputSize = VNum (of_nat b) /\ (0 < b)%nat)
  \/ network_ok s ->
  exists s' l g',
    Network.addLayer coerce (VNum (of_nat a)) (Some (object_of af)) inputSize (s, g)
    = Returned s' (s', g') /\
    Network.layers s' = Network.layers s ++ [l] /\
    length (Layer.neurons l) = a /\
    Network.isCompiled s' = false /\
    Network.trainingHistory s' = Network.trainingHistory s /\
    Network.learningRate s' = Network.learningRate s /\
    network_ok s' /\ network_outputs s' = a.
Proof.
  intros Ha Hf Hd Hlr Hs.
  destruct (addLayer_returns coerce a af inputSize s g Ha)
    as (l & g' & k & Hrun & Hk & Hkpos & Hsize & Hisz & _ & Hok).
  { intros Hl. destruct Hs as [[_ Hb] | (Hne & _)]; [exact Hb | contradiction]. }
  { destruct Hs as [[-> _] | (_ & Hall & _)]; [constructor | exact Hall]. }
  specialize (Hok Hf Hd).
  exists (with_layer l s), l, g'.
  assert (Hout : outputs_of l = a).
  { unfold outputs_of. rewrite Hsize. apply to_nat_of_nat. }
  split_and!; try reflexivity; try assumption.
  - destruct Hok as (_ & _ & _ & _ & Hn & _). congruence.
  - split_and!; cbn [with_layer Network.layers Network.set_isCompiled Network.set_layers
                     Network.learningRate].
    + destruct (Network.layers s); discriminate.
    + apply Forall_app. split; [| constructor; [exact Hok | constructor]].
      destruct Hs as [[-> _] | (_ & Hall & _)]; [constructor | exact Hall].
    + apply chained_app.
      * destruct Hs as [[-> _] | (_ & _ & Hch & _)]; [| exact Hch].
        intros i x y Hx. destruct i; discriminate.
      * intros lz Hlz. unfold layer_input_size in Hk. rewrite Hlz in Hk.
        injection Hk as Hk. rewrite Hisz, Hk. reflexivity.
    + exact Hlr.
  - unfold network_outputs. cbn [with_layer Network.layers Network.set_isCompiled
                                 Network.set_layers].
    rewrite last_snoc. exact Hout.
Qed.

End AddingLayers.

Lemma addLayer_validation_witness :
  Network.addLayer no_coercion (VNum (Fin 0)) (Some (object_of activations.sigmoid))
                   (VNum (Fin 2)) (Network.constructor, zeros)
  = Thrown (Error MsgNeuronCount) (Network.constructor, zeros) /\
  Network.addLayer no_coercion (VNum (Num.of_nat 2)) (Some (object_of activations.sigmoid))
                   VUndefined (Network.constructor, zeros)
  = Thrown (Error MsgFirstLayerInputSize) (Network.constructor, zeros).
Proof.
  split.
  - apply (proj1 (addLayer_validation no_coercion (VNum (Fin 0))
                    (Some (object_of activations.sigmoid)) (VNum (Fin 2))
                    Network.constructor zeros)).
    right. cbn [Js.number_of Num.le]. apply Rleb_true. lra.
  - destruct (of_nat_positive 2 ltac:(lia)) as [Hi Hp].
    apply (proj1 (proj2 (proj2 (addLayer_validation no_coercion (VNum (Num.of_nat 2))
                                  (Some (object_of activations.sigmoid)) VUndefined
                                  Network.constructor zeros)))
             (object_of activations.sigmoid) (func activations.sigmoid));
      try reflexivity; try assumption.
    left. reflexivity.
Defined.

Lemma addLayer_appends_witness :
  exists s' l g',
    Network.addLayer no_coercion (VNum (Num.of_nat 4)) (Some (object_of activations.relu))
                     (VNum (Num.of_nat 2)) (Network.constructor, zeros)
    = Returned s' (s', g') /\
    Network.layers s' = [l] /\ length (Layer.neurons l) = 4%nat /\ network_ok s'.
Proof.
  destruct (Forall_inv (Forall_inv_tail (Forall_inv_tail finite_preserving_catalog)))
    as [Hf Hd].
  destruct (addLayer_appends no_coercion 4 activations.relu (VNum (Num.of_nat 2))
              Network.constructor zeros)
    as (s' & l & g' & Hrun & Hl & Hn & _ & _ & _ & Hok & _); try assumption.
  { lia. }
  { reflexivity. }
  { left. split; [reflexivity |]. exists 2%nat. split; [reflexivity | lia]. }
  exists s', l, g'. split_and!; assumption.
Defined.

(** ** The information of a network *)

Section NetworkInformation.
Import Num.
Local Open Scope js_scope.

Lemma reduce_fold {A B} (f : B -> A -> B) (init : B) (l : list A) :
  reduce (fun acc x _ => f acc x) init l = fold_left f l init.
Proof.
  unfold reduce. revert init. induction l as [| x l IH]; intros init; [reflexivity |].
  cbn [imap fold_left snd fst].
  rewrite <- IH.
  apply (fold_imap_indices f l (fun i => S i) (fun i => i)).
Qed.

Lemma parameters_fold (ls : list Layer.t) (c : nat) :
  Forall layer_ok ls ->
  fold_left (fun total layer =>
               total + Layer.size layer * Layer.inputSize layer + Layer.size layer)
            ls (of_nat c)
  = of_nat (c + list_sum
                  (map (fun l => list_sum (map (fun n => length (Neuron.weights n) + 1)%nat
                                               (Layer.neurons l))) ls)).
Proof.
  intros Hall. revert c. induction Hall as [| l ls Hl _ IH]; intros c.
  - simpl. rewrite Nat.add_0_r. reflexivity.
  - destruct Hl as (Hin & Hout & _ & _ & Hn & Hns & _).
    assert (Hsum : list_sum (map (fun n => length (Neuron.weights n) + 1)%nat
                                 (Layer.neurons l))
                   = (outputs_of l * inputs_of l + outputs_of l)%nat).
    { rewrite <- Hn. clear Hn.
      induction Hns as [| n ns (Hw & _) _ IHn]; [reflexivity |].
      simpl. rewrite IHn, Hw. lia. }
    cbn [fold_left map list_sum]. rewrite Hin, Hout.
    replace (of_nat c + of_nat (outputs_of l) * of_nat (inputs_of l)
             + of_nat (outputs_of l))
      with (of_nat (c + (outputs_of l * inputs_of l + outputs_of l))).
    + rewrite IH, Hsum. f_equal. simpl. lia.
    + unfold of_nat. cbn [Num.add Num.mul]. rewrite !plus_INR, mult_INR. f_equal. ring.
Qed.

(** X25.  [getInfo()] of a network whose layers are as the constructor
    builds them reports as [totalParameters] the number of weights and
    biases that the neurons hold, as [inputSize] and [outputSize] the
    inputs of the first layer and the neurons of the last one (0 for a
    network without layers), as [trainedEpochs] the length of the
    history and as [lastError] its last entry ([null] when it is empty). *)
Theorem Network_getInfo_totals (s : Network.t) :
  Forall layer_ok (Network.layers s) ->
  Network.info_totalParameters (Network.getInfo s)
  = of_nat (list_sum
              (map (fun l => list_sum (map (fun n => length (Neuron.weights n) + 1)%nat
                                           (Layer.neurons l)))
                   (Network.layers s))) /\
  Network.info_layers (Network.getInfo s) = length (Network.layers s) /\
  Network.info_architecture (Network.getInfo s)
  = map (fun l => of_nat (length (Layer.neurons l))) (Network.layers s) /\
  Network.info_inputSize (Network.getInfo s) = of_nat (network_inputs s) /\
  Network.info_outputSize (Network.getInfo s) = of_nat (network_outputs s) /\
  Network.info_trainedEpochs (Network.getInfo s) = length (Network.trainingHistory s) /\
  Network.info_lastError (Network.getInfo s) = last (Network.trainingHistory s).
Proof.
  intros Hall. split_and!; try reflexivity.
  - unfold Network.getInfo. cbn [Network.info_totalParameters].
    rewrite (reduce_fold (fun total layer =>
                            total + Layer.size layer * Layer.inputSize layer
                            + Layer.size layer)).
    apply (parameters_fold (Network.layers s) 0 Hall).
  - unfold Network.getInfo. cbn [Network.info_architecture].
    apply map_ext_Forall. eapply Forall_impl; [exact Hall |].
    intros l (_ & Hout & _ & _ & Hn & _). rewrite Hout, Hn. reflexivity.
  - unfold Network.getInfo, network_inputs. cbn [Network.info_inputSize].
    destruct Hall as [| l ls (Hin & _) _]; [reflexivity |]. exact Hin.
  - unfold Network.getInfo, network_outputs. cbn [Network.info_outputSize].
    destruct (last (Network.layers s)) as [lz |] eqn:Hlz; [| reflexivity].
    apply last_Some in Hlz as [ls Hls]. rewrite Hls in Hall.
    apply Forall_app in Hall as [_ Hlzok].
    inversion Hlzok as [| ? ? (_ & Hout & _) _]. exact Hout.
Qed.

End NetworkInformation.

Lemma Network_getInfo_totals_witness :
  Network.info_totalParameters
    (Network.getInfo (Network.set_layers [sample_layer] Network.constructor))
  = Num.of_nat 6 /\
  Network.info_lastError
    (Network.getInfo (Network.set_layers [sample_layer] Network.constructor))
  = None.
Proof.
  destruct (Network_getInfo_totals (Network.set_layers [sample_layer] Network.constructor))
    as (Htotal & _ & _ & _ & _ & _ & Hlast).
  { constructor; [exact sample_layer_ok | constructor]. }
  split; assumption.
Defined.

(** ** Backpropagation before a prediction *)

Section BackpropagationState.
Import Num.
Local Open Scope js_scope.
Context (coerce : value -> number).

(** X26.  [backpropagate] on a network whose last layer has made no
    forward pass, as after [addLayer] or [reset], given as many targets as
    the last layer has neurons, throws the error of a missing forward
    pass and leaves the network as it was. *)
Theorem backpropagate_needs_predict (r : nat) (ts : list number) (s : Network.t)
    (lz : Layer.t) (n0 : Neuron.t) :
  last (Network.layers s) = Some lz ->
  Layer.neurons lz !! 0%nat = Some n0 -> Neuron.lastInputs n0 = None ->
  length ts = length (Layer.neurons lz) ->
  Network.backpropagate coerce (VArr r (map VNum ts)) s
  = Thrown (Error MsgNoLastInputs) s /\
  kind_of (Error MsgNoLastInputs) = Some StateError.
Proof.
  intros Hlz Hn0 Hli Hlen. split; [| reflexivity].
  unfold Network.backpropagate. cbn [bind read]. 
  rewrite last_lookup in Hlz.
  replace (pred (length (Network.layers s))) with (length (Network.layers s) - 1)%nat
    in Hlz by lia.
  apply bind_thrown. cbn [zoom]. unfold on_index. rewrite Hlz.
  assert (Hthrow : Layer.backwardOutput coerce (VArr r (map VNum ts))
                     (Network.learningRate s) lz
                   = Thrown (Error MsgNoLastInputs) lz).
  { unfold Layer.backwardOutput.
    rewrite (bind_returned _ _ lz lz tt).
    2: { unfold Layer.validateTargets.
         cbn [bind read Js.isArray negb Js.length_opt Js.length_of orb].
         rewrite strict_eq_of_nat, length_map, Hlen, Nat.eqb_refl. reflexivity. }
    cbn [bind read].
    destruct (Layer.neurons lz) as [| n ns] eqn:Hns; [discriminate |].
    unfold for_range. cbn [length seq for_of].
    apply bind_thrown. cbn [bind read].
    apply (update_neuron_no_inputs _ _ _ _ n0); [rewrite Hns; exact Hn0 | exact Hli]. }
  rewrite Hthrow, (list_insert_id _ _ _ Hlz), set_layers_same. reflexivity.
Qed.

End BackpropagationState.

Lemma backpropagate_needs_predict_witness :
  Network.backpropagate no_coercion (VArr 0 (map VNum [Fin 0.8; Fin 0.2]))
                        (Network.set_layers [sample_layer] Network.constructor)
  = Thrown (Error MsgNoLastInputs) (Network.set_layers [sample_layer] Network.constructor).
Proof.
  apply (proj1 (backpropagate_needs_predict no_coercion 0 [Fin 0.8; Fin 0.2]
                  (Network.set_layers [sample_layer] Network.constructor)
                  sample_layer (real_neuron [0.5; 0.3] 0.1 None None)
                  eq_refl eq_refl eq_refl eq_refl)).
Defined.

(** ** The ranges of the activations *)

Section ActivationRanges.
Import Num.

Lemma tanh_bounds (x : R) : -1 < tanh x < 1.
Proof.
  unfold tanh, sinh, cosh.
  pose proof (exp_pos x) as Ha. pose proof (exp_pos (- x)) as Hb.
  assert (Hc : 0 < (exp x + exp (- x)) / 2) by lra.
  split.
  - apply Rmult_lt_reg_r with ((exp x + exp (- x)) / 2); [exact Hc |].
    unfold Rdiv at 2. rewrite Rmult_assoc, Rinv_l by lra. lra.
  - apply Rmult_lt_reg_r with ((exp x + exp (- x)) / 2); [exact Hc |].
    unfold Rdiv at 1. rewrite Rmult_assoc, Rinv_l by lra. lra.
Qed.

(** X27.  On every finite input, [relu.func] is not negative and not
    below its input, [tanh.func], [sin.func] and [cos.func] lie between
    -1 and 1, [gaussian.func] between 0 and 1, [elu.func] is not below
    -1, and [step.func] is 0 or 1.  On the outputs of the sigmoid,
    between 0 and 1, [sigmoid.derivative] lies between 0 and 1/4, and on
    the outputs of tanh, between -1 and 1, [tanh.derivative] lies between
    0 and 1. *)
Theorem activation_ranges (x : R) :
  (exists y, func activations.relu (Fin x) = Fin y /\ 0 <= y /\ x <= y) /\
  (exists y, func activations.tanh (Fin x) = Fin y /\ -1 <= y <= 1) /\
  (exists y, func activations.gaussian (Fin x) = Fin y /\ 0 <= y <= 1) /\
  (exists y, func activations.elu (Fin x) = Fin y /\ -1 <= y) /\
  (exists y, func activations.sin (Fin x) = Fin y /\ -1 <= y <= 1) /\
  (exists y, func activations.cos (Fin x) = Fin y /\ -1 <= y <= 1) /\
  (func activations.step (Fin x) = Fin 0 \/ func activations.step (Fin x) = Fin 1) /\
  (0 < x < 1 ->
   exists d, derivative activations.sigmoid (Fin x) = Fin d /\ 0 <= d <= 1 / 4) /\
  (-1 < x < 1 ->
   exists d, derivative activations.tanh (Fin x) = Fin d /\ 0 <= d <= 1).
Proof.
  split_and!.
  - exists (Rmax 0 x). split; [apply relu_func_fin |].
    split; [apply Rmax_l | apply Rmax_r].
  - exists (tanh x). split; [apply tanh_func_fin |].
    pose proof (tanh_bounds x). lra.
  - exists (exp (- x * x)). split; [apply gaussian_func_fin |].
    split; [apply Rlt_le, exp_pos |].
    rewrite <- exp_0. apply exp_le_mono. nra.
  - rewrite elu_func_fin. destruct (Rleb 0 x) eqn:Hx.
    + exists x. split; [reflexivity |]. apply Rleb_spec in Hx. lra.
    + exists (exp x - 1). split; [reflexivity |]. pose proof (exp_pos x). lra.
  - exists (sin x). split; [apply sin_func_fin | apply SIN_bound].
  - exists (cos x). split; [apply cos_func_fin | apply COS_bound].
  - rewrite step_func_fin. destruct (Rltb 0 x); [right | left]; reflexivity.
  - intros Hx. exists (x * (1 - x)). split; [apply sigmoid_derivative_fin |]. split.
    + apply Rlt_le, Rmult_lt_0_compat; lra.
    + replace (x * (1 - x)) with (1 / 4 - (x - 1 / 2) * (x - 1 / 2)) by field.
      pose proof (Rle_0_sqr (x - 1 / 2)) as Hsq. unfold Rsqr in Hsq. lra.
  - intros Hx. exists (1 - x * x). split; [apply tanh_derivative_fin |]. split.
    + replace (1 - x * x) with ((1 - x) * (1 + x)) by ring.
      apply Rlt_le, Rmult_lt_0_compat; lra.
    + pose proof (Rle_0_sqr x) as Hsq. unfold Rsqr in Hsq. lra.
Qed.

End ActivationRanges.

Lemma activation_ranges_witness :
  exists d, derivative activations.sigmoid (Fin 0.5) = Fin d /\ 0 <= d <= 1 / 4.
Proof.
  destruct (activation_ranges 0.5) as (_ & _ & _ & _ & _ & _ & _ & Hsig & _).
  apply Hsig. lra.
Defined.

(** ** Backpropagation through two layers *)

Section TwoLayers.
Import Num.
Local Open Scope js_scope.
Context (coerce : value -> number).

Lemma output_deltas_targets (l : Layer.t) (ts : list number) :
  length ts = length (Layer.neurons l) ->
  map (fun i => delta_of l i (Js.ToNumber coerce (nth i (map VNum ts) VUndefined)
                              - nth i (Layer.outputs l) NaN))
      (seq 0 (length (Layer.neurons l)))
  = output_deltas l ts.
Proof.
  intros Hlen. unfold output_deltas. apply map_ext_in. intros i Hi.
  apply in_seq in Hi.
  destruct (lookup_lt_is_Some_2 ts i ltac:(lia)) as [t Ht].
  rewrite (nth_lookup_Some _ _ _ (VNum t)) by (rewrite list_lookup_fmap, Ht; reflexivity).
  rewrite (nth_lookup_Some _ _ _ t Ht). reflexivity.
Qed.

(** X28.  [backpropagate] on a network of two layers that have made a
    forward pass first updates the output layer, with the deltas
    [(targets[j] - outputs[j]) * derivative(outputs[j])], and then the
    hidden layer, whose errors are computed from those deltas and from
    the weights of the output layer as they are after their update. *)
Theorem backpropagate_two_layers (r : nat) (ts : list number) (s : Network.t)
    (hidden output : Layer.t) :
  Network.layers s = [hidden; output] ->
  has_inputs hidden -> has_inputs output ->
  length ts = length (Layer.neurons output) ->
  let output_ds := output_deltas output ts in
  let output' := layer_updated output output_ds (Network.learningRate s) in
  let hidden_ds := hidden_deltas hidden output_ds (Layer.getConnectionWeights output') in
  Network.backpropagate coerce (VArr r (map VNum ts)) s
  = Returned tt
      (Network.set_layers
         [layer_updated hidden hidden_ds (Network.learningRate s); output'] s).
Proof.
  intros Hls Hh Ho Hlen output_ds output' hidden_ds.
  assert (H1 : zoom Network.layers Network.set_layers
                 (on_index 1 (Layer.backwardOutput coerce (VArr r (map VNum ts))
                                                   (Network.learningRate s))) s
               = Returned output_ds (Network.set_layers [hidden; output'] s)).
  { cbn [zoom]. unfold on_index. rewrite Hls. cbn [lookup list_lookup].
    rewrite (Layer_backwardOutput_returns coerce r ts _ output Ho Hlen).
    rewrite (output_deltas_targets output ts Hlen). reflexivity. }
  assert (H2 : Network.backpropagate_hidden 0 output_ds
                 (Network.set_layers [hidden; output'] s)
               = Returned hidden_ds
                   (Network.set_layers
                      [layer_updated hidden hidden_ds (Network.learningRate s); output']
                      s)).
  { unfold Network.backpropagate_hidden.
    cbn [bind read Network.layers Network.set_layers Nat.add lookup list_lookup runtime
         Network.learningRate zoom ret].
    unfold on_index. cbn [lookup list_lookup Network.layers Network.set_layers].
    rewrite (Layer_backwardHidden_returns output_ds (Layer.getConnectionWeights output')
               (Network.learningRate s) hidden); [reflexivity | | exact Hh].
    unfold output_ds, output_deltas, output', layer_updated, Layer.getConnectionWeights.
    cbn [Layer.neurons Layer.set_neurons].
    rewrite !length_map, length_seq, length_imap. reflexivity. }
  unfold Network.backpropagate. cbn [bind read]. rewrite Hls. cbn [length Nat.sub].
  rewrite H1. cbn [seq rev app for_of bind]. rewrite H2. reflexivity.
Qed.

End TwoLayers.

Lemma backpropagate_two_layers_witness :
  exists s',
    Network.backpropagate no_coercion (VArr 0 (map VNum [Fin 0.8; Fin 0.2]))
      (Network.set_layers [layer_after sample_layer [Fin 1; Fin 0.5];
                           layer_after sample_layer [Fin 0.6; Fin 0.4]]
                          Network.constructor)
    = Returned tt s' /\
    length (Network.layers s') = 2%nat.
Proof.
  eexists. split.
  - apply (backpropagate_two_layers no_coercion 0 [Fin 0.8; Fin 0.2]
             (Network.set_layers [layer_after sample_layer [Fin 1; Fin 0.5];
                                  layer_after sample_layer [Fin 0.6; Fin 0.4]]
                                 Network.constructor)
             (layer_after sample_layer [Fin 1; Fin 0.5])
             (layer_after sample_layer [Fin 0.6; Fin 0.4])).
    + reflexivity.
    + repeat constructor; discriminate.
    + repeat constructor; discriminate.
    + reflexivity.
  - reflexivity.
Defined.

(** ** Validation *)

Section ValidationError.
Import Num.
Local Open Scope js_scope.
Context (coerce : value -> number).

Lemma feed_forward_forwarded (ls : list Layer.t) (ys xs : list number) :
  feed_forward (forward_layers ls ys) xs = feed_forward ls xs.
Proof.
  revert ys xs. induction ls as [| l ls IH]; intros ys xs; [reflexivity |].
  cbn [forward_layers feed_forward]. rewrite layer_outputs_after. apply IH.
Qed.

Lemma calculateError_mean {S} (predicted : list number) (actual : value)
    (ts : list number) (s : S) :
  array_of actual ts -> length predicted = length ts ->
  Network.calculateError coerce predicted actual s
  = Returned (mean_squared coerce predicted actual) s.
Proof.
  intros [r ->] Hlen. unfold Network.calculateError.
  rewrite (bind_returned _ _ s s (VNum (of_nat (length ts))))
    by (cbn; rewrite length_map; reflexivity).
  rewrite <- Hlen, strict_eq_of_nat, Nat.eqb_refl. reflexivity.
Qed.

(** The examples of a validation set, one after the other. *)
Lemma validation_loop (s : Network.t) (examples : list value) :
  forall (c : Network.t) (total : number),
    network_ok c ->
    network_inputs c = network_inputs s -> network_outputs c = network_outputs s ->
    (forall xs, feed_forward (Network.layers c) xs = feed_forward (Network.layers s) xs) ->
    map Layer.getWeights (Network.layers c) = map Layer.getWeights (Network.layers s) ->
    Network.learningRate c = Network.learningRate s ->
    Network.trainingHistory c = Network.trainingHistory s ->
    Network.isCompiled c = Network.isCompiled s ->
    Forall (example_ok (network_inputs s) (network_outputs s)) examples ->
    exists c',
      for_of examples total
        (fun totalError example =>
           input <- runtime (Js.get example "input") ;;
           output <- Network.predict input ;;
           target <- runtime (Js.get example "target") ;;
           error <- Network.calculateError coerce output target ;;
           ret (totalError + error)) c
      = Returned (fold_left (fun t ex => t + example_error coerce (Network.layers s) ex)
                            examples total) c' /\
      map Layer.getWeights (Network.layers c') = map Layer.getWeights (Network.layers s) /\
      Network.learningRate c' = Network.learningRate s /\
      Network.trainingHistory c' = Network.trainingHistory s /\
      Network.isCompiled c' = Network.isCompiled s.
Proof.
  induction examples as [| example examples IH];
    intros c total Hc Hi Ho Hff Hw Hlr Hh Hcomp Hall.
  - exists c. split_and!; try assumption. reflexivity.
  - inversion Hall as [| ? ? Hex Hrest]; subst.
    destruct Hex as (input & target & xs & ts & Hgi & Hgt & Hai & Hli & Hfi
                     & Hat & Hlt & Hft).
    assert (Hxs : map Js.number_of (Js.elements input) = xs).
    { destruct Hai as [r ->]. apply number_of_elements. }
    pose proof (predict_returns input xs c Hc Hai ltac:(congruence) Hfi) as Hrun.
    destruct (Network_predict_ok input xs c Hc Hai ltac:(congruence) Hfi)
      as (outs & c1 & Hrun1 & Hc1 & _ & Hfr & Hlo & _).
    rewrite Hrun in Hrun1. injection Hrun1 as <- <-.
    destruct (network_frame_sizes _ _ Hfr) as (Hi1 & Ho1 & _).
    set (c1 := Network.set_layers (forward_layers (Network.layers c) xs) c) in *.
    destruct (IH c1 (total + example_error coerce (Network.layers s) example))
      as (c' & Hloop & Hrest'); try assumption; try congruence.
    { intros ys. unfold c1. cbn [Network.layers Network.set_layers].
      rewrite feed_forward_forwarded. apply Hff. }
    { unfold c1. cbn [Network.layers Network.set_layers].
      destruct (feed_forward_after (Network.layers c) xs) as (_ & _ & ->). exact Hw. }
    exists c'. split; [| exact Hrest'].
    cbn [for_of fold_left].
    rewrite (bind_returned _ _ c c1
               (total + example_error coerce (Network.layers s) example));
      [exact Hloop |].
    rewrite (bind_returned _ _ c c input) by (rewrite Hgi; reflexivity).
    rewrite (bind_returned _ _ _ _ _ Hrun).
    rewrite (bind_returned _ _ c1 c1 target) by (rewrite Hgt; reflexivity).
    assert (Hlen : length (feed_forward (Network.layers c) xs) = length ts)
      by congruence.
    rewrite (bind_returned _ _ _ _ _ (calculateError_mean _ target ts c1 Hat Hlen)).
    cbn [ret]. unfold example_error. rewrite Hgi, Hgt, Hxs, Hff. reflexivity.
Qed.


End ValidationError.


(** ** Backpropagation through any number of layers *)

Section BackwardPasses.
Import Num.
Local Open Scope js_scope.
Context (coerce : value -> number).

Lemma layer_updated_neurons (l : Layer.t) (deltas : list number) (learningRate : number) :
  length (Layer.neurons (layer_updated l deltas learningRate)) = length (Layer.neurons l).
Proof. unfold layer_updated. cbn [Layer.neurons Layer.set_neurons]. apply length_imap. Qed.

Lemma hidden_deltas_length (l : Layer.t) (deltas : list number)
    (weights : list (list number)) :
  length (hidden_deltas l deltas weights) = length (Layer.neurons l).
Proof. unfold hidden_deltas. rewrite length_map, length_seq. reflexivity. Qed.

Lemma output_deltas_length (l : Layer.t) (ts : list number) :
  length (output_deltas l ts) = length (Layer.neurons l).
Proof. unfold output_deltas. rewrite length_map, length_seq. reflexivity. Qed.

Lemma rev_seq_S (k : nat) : rev (seq 0 (S k)) = k :: rev (seq 0 k).
Proof. rewrite seq_S, rev_app_distr. reflexivity. Qed.

(** The loop over the hidden layers, from the last one to the first.
    [rev_hidden] are the layers that remain, in the order of the loop;
    [next'] is the layer after them, already updated. *)
Lemma hidden_loop (rev_hidden : list Layer.t) :
  forall (next' : Layer.t) (tail : list Layer.t) (deltas : list number) (s : Network.t),
    Network.layers s = rev rev_hidden ++ next' :: tail ->
    Forall has_inputs rev_hidden ->
    length deltas = length (Layer.neurons next') ->
    exists deltas',
      for_of (rev (seq 0 (length rev_hidden))) deltas
             (fun deltas i => Network.backpropagate_hidden i deltas) s
      = Returned deltas'
          (Network.set_layers
             (rev (backward_hidden (Network.learningRate s) rev_hidden deltas next')
              ++ next' :: tail) s).
Proof.
  induction rev_hidden as [| l before IH]; intros next' tail deltas s Hls Hin Hlen.
  - exists deltas. cbn [length seq rev for_of ret backward_hidden app] in *. f_equal.
    rewrite <- Hls. destruct s; reflexivity.
  - inversion Hin as [| ? ? Hl Hbefore]; subst.
    cbn [length]. rewrite rev_seq_S. cbn [for_of backward_hidden].
    set (ds := hidden_deltas l deltas (Layer.getConnectionWeights next')).
    set (l' := layer_updated l ds (Network.learningRate s)).
    assert (Hk : length (rev before) = length before) by apply length_rev.
    cbn [rev] in Hls. rewrite <- app_assoc in Hls. cbn [app] in Hls.
    assert (Hstep : Network.backpropagate_hidden (length before) deltas s
                    = Returned ds
                        (Network.set_layers (rev before ++ l' :: next' :: tail) s)).
    { assert (Hnext : Network.layers s !! (length before + 1)%nat = Some next').
      { rewrite Hls.
        replace (length before + 1)%nat with (length (rev before ++ [l]))
          by (rewrite length_app, Hk; reflexivity).
        change (rev before ++ l :: next' :: tail)
          with (rev before ++ [l] ++ next' :: tail).
        rewrite app_assoc, list_lookup_middle by reflexivity. reflexivity. }
      unfold Network.backpropagate_hidden. cbn [bind read]. rewrite Hnext.
      cbn [runtime ret zoom]. unfold on_index. rewrite Hls.
      rewrite list_lookup_middle by (symmetry; exact Hk).
      rewrite (Layer_backwardHidden_returns deltas (Layer.getConnectionWeights next')
                 (Network.learningRate s) l); [| | exact Hl].
      - rewrite insert_app_r_alt by lia. rewrite Hk, Nat.sub_diag. reflexivity.
      - unfold Layer.getConnectionWeights. rewrite length_map. exact Hlen. }
    destruct (IH l' (next' :: tail) ds
                (Network.set_layers (rev before ++ l' :: next' :: tail) s))
      as (deltas' & Hrest).
    + reflexivity.
    + exact Hbefore.
    + unfold ds, l'. rewrite hidden_deltas_length, layer_updated_neurons. reflexivity.
    + exists deltas'. rewrite (bind_returned _ _ _ _ _ Hstep). rewrite Hrest.
      cbn [Network.learningRate Network.set_layers rev].
      rewrite <- app_assoc. reflexivity.
Qed.

(** [backpropagate] on layers that have all made a forward pass. *)
Lemma backpropagate_returns (r : nat) (ts : list number) (s : Network.t) (output : Layer.t) :
  last (Network.layers s) = Some output ->
  Forall has_inputs (Network.layers s) ->
  length ts = length (Layer.neurons output) ->
  Network.backpropagate coerce (VArr r (map VNum ts)) s
  = Returned tt
      (Network.set_layers
         (backward_layers (Network.learningRate s) (Network.layers s) ts) s).
Proof.
  intros Hlast Hin Hlen.
  apply last_Some in Hlast as [hidden Hls].
  assert (Hrev : rev (Network.layers s) = output :: rev hidden)
    by (rewrite Hls, rev_app_distr; reflexivity).
  rewrite Hls in Hin. apply Forall_app in Hin as [Hhidden Hout].
  inversion Hout as [| ? ? Ho _]; subst.
  set (ds := output_deltas output ts).
  set (output' := layer_updated output ds (Network.learningRate s)).
  assert (H1 : zoom Network.layers Network.set_layers
                 (on_index (length (Network.layers s) - 1)
                    (Layer.backwardOutput coerce (VArr r (map VNum ts))
                                          (Network.learningRate s))) s
               = Returned ds (Network.set_layers (hidden ++ [output']) s)).
  { cbn [zoom]. unfold on_index. rewrite Hls.
    replace (length (hidden ++ [output]) - 1)%nat with (length hidden)
      by (rewrite length_app; simpl; lia).
    rewrite list_lookup_middle by reflexivity.
    rewrite (Layer_backwardOutput_returns coerce r ts _ output Ho Hlen).
    rewrite (output_deltas_targets coerce output ts Hlen).
    rewrite insert_app_r_alt, Nat.sub_diag by lia. reflexivity. }
  destruct (hidden_loop (rev hidden) output' [] ds
              (Network.set_layers (hidden ++ [output']) s))
    as (deltas' & Hloop).
  { cbn [Network.layers Network.set_layers]. rewrite rev_involutive. reflexivity. }
  { apply Forall_rev. exact Hhidden. }
  { unfold ds, output'. rewrite output_deltas_length, layer_updated_neurons.
    reflexivity. }
  unfold Network.backpropagate. cbn [bind read].
  rewrite H1.
  replace (length (Network.layers s) - 1)%nat with (length (rev hidden))
    by (rewrite Hls, length_app, length_rev; simpl; lia).
  rewrite Hloop. cbn [ret Network.learningRate Network.set_layers]. f_equal.
  unfold backward_layers. rewrite Hrev. cbn [rev]. reflexivity.
Qed.

End BackwardPasses.

(** ** An epoch as a function of the layers *)

Section EpochRuns.
Import Num.
Local Open Scope js_scope.
Context (coerce : value -> number).

Lemma forward_layers_inputs (ls : list Layer.t) (xs : list number) :
  Forall has_inputs (forward_layers ls xs).
Proof.
  revert xs. induction ls as [| l ls IH]; intros xs; [constructor |].
  cbn [forward_layers]. constructor; [| apply IH].
  unfold has_inputs, layer_after. cbn [Layer.neurons Layer.set_neurons Layer.set_outputs].
  apply Forall_fmap, Forall_forall. intros n _. discriminate.
Qed.

Lemma forward_layers_last (ls : list Layer.t) (xs : list number) (lz : Layer.t) :
  last ls = Some lz ->
  exists out,
    last (forward_layers ls xs) = Some out /\
    length (Layer.neurons out) = length (Layer.neurons lz).
Proof.
  revert xs. induction ls as [| l ls IH]; intros xs Hlast; [discriminate |].
  destruct ls as [| l2 rest].
  - injection Hlast as <-. exists (layer_after l xs). split; [reflexivity |].
    unfold layer_after. cbn [Layer.neurons Layer.set_neurons Layer.set_outputs].
    apply length_map.
  - cbn [forward_layers].
    destruct (IH (layer_outputs l xs) Hlast) as (out & Hout & Hlen).
    exists out. split; [| exact Hlen].
    cbn [forward_layers] in Hout. exact Hout.
Qed.

Lemma network_last_layer (s : Network.t) :
  network_ok s ->
  exists lz, last (Network.layers s) = Some lz /\
             length (Layer.neurons lz) = network_outputs s.
Proof.
  intros (Hne & Hall & _). unfold network_outputs.
  destruct (last (Network.layers s)) as [lz |] eqn:Hlast.
  - exists lz. split; [reflexivity |].
    apply last_Some in Hlast as [l' Hl]. rewrite Hl in Hall.
    apply Forall_app in Hall as [_ Hall].
    inversion Hall as [| ? ? Hok _]; subst.
    destruct Hok as (_ & _ & _ & _ & Hn & _). exact Hn.
  - apply last_None in Hlast. contradiction.
Qed.

Lemma set_layers_twice (a b : list Layer.t) (s : Network.t) :
  Network.set_layers a (Network.set_layers b s) = Network.set_layers a s.
Proof. reflexivity. Qed.

(** One example of an epoch, on a well-formed network. *)
Lemma train_example_closed (total : number) (example : value) (s : Network.t) :
  network_ok s -> example_ok (network_inputs s) (network_outputs s) example ->
  Network.train_example coerce total example s
  = Returned (total + example_error coerce (Network.layers s) example)
             (Network.set_layers
                (train_step (Network.learningRate s) (Network.layers s) example) s).
Proof.
  intros Hok (input & target & xs & ts & Hgi & Hgt & Hai & Hli & Hfi & Hat & Hlt & Hft).
  pose proof (predict_returns input xs s Hok Hai Hli Hfi) as Hpredict.
  destruct (network_last_layer s Hok) as (lz & Hlast & Hlz).
  destruct (forward_layers_last (Network.layers s) xs lz Hlast) as (out & Hout & Hlen).
  assert (Hxs : example_numbers example "input" = xs).
  { unfold example_numbers. rewrite Hgi. destruct Hai as [r ->].
    apply number_of_elements. }
  assert (Hts : example_numbers example "target" = ts).
  { unfold example_numbers. rewrite Hgt. destruct Hat as [r ->].
    apply number_of_elements. }
  assert (Houts : length (feed_forward (Network.layers s) xs) = length ts).
  { rewrite Hlt. destruct Hok as (_ & Hall & _).
    rewrite (feed_forward_length (Network.layers s) xs lz); [| | exact Hlast].
    - rewrite <- Hlz. apply last_Some in Hlast as [l' Hl]. rewrite Hl in Hall.
      apply Forall_app in Hall as [_ Hall].
      inversion Hall as [| ? ? Hlzok _]; subst.
      destruct Hlzok as (_ & _ & _ & _ & Hn & _). symmetry. exact Hn.
    - eapply Forall_impl; [exact Hall |]. exact layer_ok_shaped. }
  unfold Network.train_example.
  rewrite (bind_returned _ _ s s input) by (rewrite Hgi; reflexivity).
  rewrite (bind_returned _ _ _ _ _ Hpredict).
  set (s1 := Network.set_layers (forward_layers (Network.layers s) xs) s).
  rewrite (bind_returned _ _ s1 s1 target) by (rewrite Hgt; reflexivity).
  rewrite (bind_returned _ _ _ _ _
             (calculateError_mean coerce _ target ts s1 Hat Houts)).
  destruct Hat as [r' ->].
  rewrite (bind_returned _ _ s1
             (Network.set_layers
                (backward_layers (Network.learningRate s1) (Network.layers s1) ts) s1)
             tt).
  - cbn [ret]. unfold example_error, train_step. rewrite Hgi, Hgt, Hxs, Hts.
    destruct Hai as [r ->]. cbn [Js.elements]. rewrite number_of_elements.
    reflexivity.
  - apply (backpropagate_returns coerce r' ts s1 out).
    + exact Hout.
    + apply forward_layers_inputs.
    + rewrite Hlen, Hlz. exact Hlt.
Qed.

(** The examples of an epoch, one after the other. *)
Lemma example_loop_closed (examples : list value) :
  forall (total : number) (s : Network.t),
    network_ok s ->
    Forall (example_ok (network_inputs s) (network_outputs s)) examples ->
    for_of examples total (Network.train_example coerce) s
    = Returned (epoch_error coerce (Network.learningRate s) (Network.layers s)
                            examples total)
               (Network.set_layers
                  (epoch_layers (Network.learningRate s) (Network.layers s) examples) s).
Proof.
  induction examples as [| example examples IH]; intros total s Hok Hall.
  - cbn [for_of ret epoch_error epoch_layers fold_left]. f_equal.
    destruct s; reflexivity.
  - inversion Hall as [| ? ? Hex Hrest]; subst.
    pose proof (train_example_closed total example s Hok Hex) as Hstep.
    destruct (train_example_ok coerce total example s Hok Hex)
      as (total' & s2 & Hrun & Hs2 & Hfr).
    rewrite Hstep in Hrun. injection Hrun as <- <-.
    destruct (network_frame_sizes _ _ Hfr) as (Hi & Ho & _).
    cbn [for_of]. rewrite (bind_returned _ _ _ _ _ Hstep).
    rewrite IH; [| exact Hs2 | rewrite Hi, Ho; exact Hrest].
    reflexivity.
Qed.

End EpochRuns.

(** ** What a shuffle does to the last element *)

Section ShuffleOrder.
Import Num.
Local Open Scope js_scope.

Lemma swap_lookup_first (array : list value) (i j : nat) :
  (i < length array)%nat -> (j <= i)%nat ->
  Network.swap array i j !! i = array !! j.
Proof.
  intros Hi Hj. unfold Network.swap.
  destruct (lookup_lt_is_Some_2 array j ltac:(lia)) as [x Hx].
  destruct (lookup_lt_is_Some_2 array i Hi) as [y Hy].
  rewrite (nth_lookup_Some _ _ _ x Hx), (nth_lookup_Some _ _ _ y Hy), Hx.
  destruct (decide (i = j)) as [-> | Hne].
  - rewrite list_lookup_insert_eq by (rewrite length_insert; exact Hi). congruence.
  - rewrite list_lookup_insert_ne by congruence.
    apply list_lookup_insert_eq. exact Hi.
Qed.

Lemma swap_lookup_other (array : list value) (i j m : nat) :
  i <> m -> j <> m -> Network.swap array i j !! m = array !! m.
Proof.
  intros Hi Hj. unfold Network.swap.
  rewrite !list_lookup_insert_ne by congruence. reflexivity.
Qed.

(** Steps at indices below [m] leave the element of index [m] alone. *)
Lemma shuffle_steps_keep (m : nat) (idxs : list nat) :
  forall (arr arr' : list value) (g g' : generator),
    Forall (fun i => (i < m)%nat) idxs ->
    for_of idxs arr
      (fun array i =>
         r <- Math_random ;;
         ret (Network.swap array i (to_nat (Math_floor (r * (of_nat i + 1)))))) g
    = Returned arr' g' ->
    arr' !! m = arr !! m /\ length arr' = length arr.
Proof.
  induction idxs as [| i idxs IH]; intros arr arr' g g' Hall H.
  - cbn [for_of ret] in H. injection H as <- _. split; reflexivity.
  - inversion Hall as [| ? ? Hi Hrest]; subst.
    cbn [for_of] in H. unfold bind at 1 in H. unfold bind at 1 in H.
    unfold Math_random at 1 in H. cbn [ret] in H.
    destruct (IH _ _ _ _ Hrest H) as [Hm Hlen].
    destruct (random_index_bound (g 0%nat) i) as (j & Hj & Hle).
    rewrite Hj, to_nat_of_nat in Hm, Hlen.
    rewrite Hm, Hlen, swap_length. split; [| reflexivity].
    apply swap_lookup_other; lia.
Qed.

(** The first step of the shuffle moves the element of index
    [floor(random * length)] to the end, where it stays. *)
Lemma shuffle_last (array shuffled : list value) (g g' : generator) :
  (2 <= length array)%nat ->
  Network.shuffleArray array g = Returned shuffled g' ->
  last shuffled
  = array !! to_nat (Math_floor (Fin (g 0%nat) * (of_nat (length array - 1) + 1))).
Proof.
  intros Hn H. unfold Network.shuffleArray, Network.countdown in H.
  replace (length array - 1)%nat with (S (length array - 2)) in H at 1 by lia.
  rewrite seq_S, rev_app_distr in H. cbn [rev app for_of] in H.
  replace (1 + (length array - 2))%nat with (length array - 1)%nat in H by lia.
  unfold bind at 1 in H. unfold bind at 1 in H.
  unfold Math_random at 1 in H. cbn [ret] in H.
  destruct (random_index_bound (g 0%nat) (length array - 1)) as (j & Hj & Hle).
  rewrite Hj, to_nat_of_nat in H |- *.
  assert (Hall : Forall (fun i => (i < length array - 1)%nat)
                        (rev (seq 1 (length array - 2)))).
  { apply Forall_forall. intros i Hi.
    apply list_elem_of_In, in_rev, in_seq in Hi. lia. }
  destruct (shuffle_steps_keep (length array - 1) _ _ _ _ _ Hall H) as [Hm Hlen].
  rewrite swap_length in Hlen.
  rewrite last_lookup, Hlen.
  replace (Init.Nat.pred (length array)) with (length array - 1)%nat by lia.
  rewrite Hm. apply swap_lookup_first; lia.
Qed.

End ShuffleOrder.

(** ** One epoch of training *)

Section OneEpoch.
Import Num.
Local Open Scope js_scope.
Context (coerce : value -> number).


End OneEpoch.

(** With draws that are all 0 the shuffle of two examples exchanges
    them. *)
Lemma zero_draw_index (i : nat) :
  Num.to_nat (Num.Math_floor (Num.mul (Fin (zeros 0%nat))
                                      (Num.add (Num.of_nat i) (Fin 1)))) = 0%nat.
Proof.
  unfold Num.to_nat, Num.Math_floor, Num.of_nat. cbn [Num.add Num.mul].
  cbn [zeros zero_draw draw_value].
  replace (0 * (INR i + 1))%R with (IZR 0) by ring.
  rewrite !ZfloorZ. reflexivity.
Qed.


(** ** Validation and mutation *)

Section ValidationAndMutation.
Import Num.
Local Open Scope js_scope.
Context (coerce : value -> number).

(** C2, amended.  A failing call leaves the receiver as it was in
    [Neuron.updateWeights], [Neuron.setWeights], the constructor of
    [Layer] (which has drawn no random number), [Layer.forward] on a
    layer of the shape the constructor builds, [Network.addLayer],
    [Network.compile] and [Network.setLearningRate].

    [Neuron.forward] leaves the neuron as it was when it refuses its
    inputs; it stores the inputs before it calls the activation, so that
    a call whose activation cannot be called or throws leaves
    [lastInputs] overwritten.

    [Network.predict] changes no weight when it fails, and leaves the
    network as it was when it fails in its own checks or in the first
    layer; when a later layer refuses outputs that are not finite, the
    layers before it have stored their outputs and their inputs.

    A failing [train] leaves the network as it was when the validation
    of the data or [compile] fails; any later failure finds the network
    compiled, with the learning rate and the shape of the layers as
    before, and when the examples do not have the number of inputs of
    the network the state left is the network compiled, with an empty
    history. *)
Theorem validation_before_mutation :
  (forall inputs f this e this',
     Neuron.forward inputs f this = Thrown e this' ->
     (this' = this /\ kind_of e = Some ValidationError) \/
     (this' = Neuron.set_lastInputs (Some (map Js.number_of (Js.elements inputs))) this /\
      Neuron.validateInputs inputs this = Returned tt this /\
      ((f = NotCallable /\ e = TypeError) \/
       exists body,
         f = Callable body /\
         body (weighted_sum this (map Js.number_of (Js.elements inputs))) = Abrupt e))) /\
  (forall inputs g, unchanged_on_failure (Neuron.forward inputs (returning g))) /\
  (forall xs this,
     length xs = length (Neuron.weights this) -> Forall finite xs ->
     Neuron.forward (Js.array xs) NotCallable this
     = Thrown TypeError (Neuron.set_lastInputs (Some xs) this)) /\
  (forall delta learningRate,
     unchanged_on_failure (Neuron.updateWeights delta learningRate)) /\
  (forall weights bias, unchanged_on_failure (Neuron.setWeights weights bias)) /\
  (forall neuronCount inputSize activationFunction,
     unchanged_on_failure (Layer.constructor neuronCount inputSize activationFunction)) /\
  (forall inputs l e l',
     layer_shaped l -> Layer.forward inputs l = Thrown e l' -> l' = l) /\
  (forall neuronCount activationFunction inputSize,
     unchanged_on_failure
       (Network.addLayer coerce neuronCount activationFunction inputSize)) /\
  unchanged_on_failure Network.compile /\
  (forall rate, unchanged_on_failure (Network.setLearningRate rate)) /\
  (forall inputs s e s',
     network_shaped s -> Network.predict inputs s = Thrown e s' ->
     map Layer.getWeights (Network.layers s') = map Layer.getWeights (Network.layers s) /\
     Network.learningRate s' = Network.learningRate s /\
     Network.trainingHistory s' = Network.trainingHistory s /\
     Network.isCompiled s' = Network.isCompiled s /\
     (s' = s \/
      (e = Error MsgInputsNotFinite /\ (1 < length (Network.layers s))%nat /\
       exists xs,
         array_of inputs xs /\ Forall finite xs /\
         ~ forward_finite (Network.layers s) xs /\
         s' = Network.set_layers (fst (forward_run (Network.layers s) xs)) s))) /\
  (forall r xs s l1 l2 rest,
     network_shaped s -> Network.layers s = l1 :: l2 :: rest ->
     length xs = network_inputs s -> Forall finite xs ->
     ~ Forall finite (layer_outputs l1 xs) ->
     Network.predict (VArr r (map VNum xs)) s
     = Thrown (Error MsgInputsNotFinite)
              (Network.set_layers (layer_after l1 xs :: l2 :: rest) s)) /\
  (forall data epochs options w e w',
     Network.train coerce data epochs options w = Thrown e w' ->
     (w' = w /\
      (Network.validateTrainingData data w = Thrown e w \/
       (Network.isCompiled (fst w) = false /\ Network.layers (fst w) = [] /\
        e = Error MsgCompileNoLayers))) \/
     (Network.validateTrainingData data w = Returned tt w /\
      Network.isCompiled (fst w') = true /\
      Network.learningRate (fst w') = Network.learningRate (fst w) /\
      layers_frame (fst w) (fst w'))) /\
  (forall r first rest epochs options s g k,
     network_ok s ->
     Forall (example_ok k (network_outputs s)) (first :: rest) ->
     k <> network_inputs s ->
     Network.train coerce (VArr r (first :: rest)) epochs options (s, g)
     = Thrown (Error (MsgNetworkInputSize (of_nat (network_inputs s)) (VNum (of_nat k))))
              (Network.set_trainingHistory [] (Network.set_isCompiled true s), g)).
Proof.
  split_and!.
  - intros inputs f this e this' H.
    destruct (Neuron_forward_thrown inputs f this e this' H)
      as [(H1 & H2 & _) | H1]; [left; split; assumption | right; exact H1].
  - intros inputs g. apply Neuron_forward_unchanged.
  - intros xs this. apply Neuron_forward_not_callable.
  - exact Neuron_updateWeights_unchanged.
  - exact Neuron_setWeights_unchanged.
  - exact Layer_constructor_unchanged.
  - intros inputs l e l' (_ & _ & _ & Hu) H.
    exact (Layer_forward_unchanged inputs l l' _ e Hu H).
  - exact (addLayer_unchanged coerce).
  - exact compile_unchanged.
  - exact setLearningRate_unchanged.
  - intros inputs s e s' Hs H.
    destruct (predict_thrown_frame inputs s s' e Hs H) as (_ & H1).
    exact H1.
  - intros r xs s l1 l2 rest. apply predict_second_layer_refuses.
  - intros data epochs options w e w' H.
    destruct (train_outcome coerce data epochs options w)
      as [(e1 & Hv & H1) | [(Hv & Hc & Hl & H1) | [(Hv & _ & e1 & _ & H1) | (Hv & _ & Hfr)]]].
    + rewrite H1 in H. injection H as <- <-. left. split; [reflexivity |]. left. exact Hv.
    + rewrite H1 in H. injection H as <- <-. left. split; [reflexivity |]. right.
      split_and!; [assumption | assumption | reflexivity].
    + rewrite H1 in H. injection H as <- <-. right.
      split_and!; [exact Hv | reflexivity | reflexivity |].
      unfold layers_frame. simpl. reflexivity.
    + rewrite H in Hfr. destruct Hfr as (Hlr & Hc & Hls). right.
      split_and!; [exact Hv | | |].
      * simpl in Hc. rewrite <- Hc. reflexivity.
      * simpl in Hlr. rewrite <- Hlr. reflexivity.
      * exact Hls.
  - intros. apply train_input_size_mismatch; assumption.
Qed.

End ValidationAndMutation.

(** A failure after a mutation in [predict] and in [Neuron.forward]: the
    second layer refuses the infinite output of the first, which has
    stored its outputs; and a neuron that is handed a value that cannot
    be called has stored its inputs. *)
Lemma validation_before_mutation_witness :
  Network.predict (Js.array [Fin 1; Fin 0.5]) infinite_network
  = Thrown (Error MsgInputsNotFinite)
           (Network.set_layers
              [layer_after infinite_layer [Fin 1; Fin 0.5]; sample_output_layer]
              infinite_network) /\
  Layer.outputs infinite_layer = [] /\
  Layer.outputs (layer_after infinite_layer [Fin 1; Fin 0.5]) <> [] /\
  Neuron.forward (Js.array [Fin 1; Fin 0.5]) NotCallable
                 (real_neuron [0.5; -0.3] 0.1 None None)
  = Thrown TypeError (real_neuron [0.5; -0.3] 0.1 (Some [Fin 1; Fin 0.5]) None).
Proof.
  destruct (validation_before_mutation no_coercion)
    as (_ & _ & Hcall & _ & _ & _ & _ & _ & _ & _ & _ & Hpredict & _).
  destruct infinite_network_shaped as [Hs Hi].
  split_and!.
  - apply (Hpredict 0%nat [Fin 1; Fin 0.5] infinite_network infinite_layer
             sample_output_layer [] Hs eq_refl).
    + rewrite Hi. reflexivity.
    + repeat constructor.
    + intros Hfin. apply forallb_finite in Hfin.
      rewrite infinite_layer_outputs in Hfin. discriminate.
  - reflexivity.
  - discriminate.
  - apply (Hcall [Fin 1; Fin 0.5] (real_neuron [0.5; -0.3] 0.1 None None)).
    + reflexivity.
    + repeat constructor.
Defined.

(** ** The sigmoid on doubles *)

Section RoundedSigmoid.

Lemma ln_2_pos : 0 < ln 2.
Proof. pose proof ln_lt_2. lra. Qed.

Lemma pow2_pos (z : Z) : 0 < powerRZ 2 z.
Proof. apply powerRZ_lt. lra. Qed.

Lemma pow2_add (a b : Z) : powerRZ 2 (a + b) = powerRZ 2 a * powerRZ 2 b.
Proof. apply powerRZ_add. lra. Qed.

Lemma pow2_exp (z : Z) : powerRZ 2 z = exp (IZR z * ln 2).
Proof. rewrite powerRZ_Rpower by lra. reflexivity. Qed.

Lemma pow2_le (a b : Z) : (a <= b)%Z -> powerRZ 2 a <= powerRZ 2 b.
Proof.
  intros H. rewrite !pow2_exp. apply exp_le_mono.
  apply Rmult_le_compat_r; [left; apply ln_2_pos | apply IZR_le, H].
Qed.

Lemma pow2_lt (a b : Z) : (a < b)%Z -> powerRZ 2 a < powerRZ 2 b.
Proof.
  intros H. rewrite !pow2_exp. apply exp_increasing.
  apply Rmult_lt_compat_r; [apply ln_2_pos | apply IZR_lt, H].
Qed.

Lemma pow2_lt_inv (a b : Z) : powerRZ 2 a < powerRZ 2 b -> (a < b)%Z.
Proof.
  intros H. destruct (Z_lt_le_dec a b) as [Hlt | Hle]; [exact Hlt |].
  apply pow2_le in Hle. lra.
Qed.

Lemma pow2_IZR (z : Z) : (0 <= z)%Z -> powerRZ 2 z = IZR (2 ^ z).
Proof.
  intros H. rewrite <- (Z2Nat.id z H).
  rewrite <- pow_powerRZ. apply pow_IZR.
Qed.

Lemma pow2_nat (n : nat) : powerRZ 2 (Z.of_nat n) = 2 ^ n.
Proof. symmetry. apply pow_powerRZ. Qed.

Lemma two_53 : 2 ^ 53 = 2 * IZR (2 ^ 52).
Proof.
  change (IZR (2 ^ 52)) with (IZR (2 ^ Z.of_nat 52)).
  rewrite <- pow_IZR. reflexivity.
Qed.

(** The binade of a positive real. *)
Lemma binade_bounds (x : R) :
  0 < x ->
  powerRZ 2 (Zfloor (ln x / ln 2)) <= x < powerRZ 2 (Zfloor (ln x / ln 2) + 1).
Proof.
  intros Hx. pose proof ln_2_pos as H2.
  destruct (Zfloor_bound (ln x / ln 2)) as [Hlo Hhi].
  rewrite !pow2_exp, plus_IZR.
  rewrite <- (exp_ln x Hx) at 2 3.
  split.
  - apply exp_le_mono.
    apply Rmult_le_reg_r with (/ ln 2); [apply Rinv_0_lt_compat, H2 |].
    rewrite Rmult_assoc, Rinv_r by lra. unfold Rdiv in Hlo. lra.
  - apply exp_increasing.
    apply Rmult_lt_reg_r with (/ ln 2); [apply Rinv_0_lt_compat, H2 |].
    rewrite Rmult_assoc, Rinv_r by lra. unfold Rdiv in Hhi. lra.
Qed.

Lemma exponent_eq (e : Z) (x : R) :
  (-1022 <= e)%Z -> powerRZ 2 e <= x < powerRZ 2 (e + 1) -> Double.exponent x = e.
Proof.
  intros He [Hlo Hhi].
  assert (Hx : 0 < x) by (pose proof (pow2_pos e); lra).
  destruct (binade_bounds x Hx) as [Hlo' Hhi'].
  unfold Double.exponent. rewrite Rabs_right by lra.
  assert (H1 : (e < Zfloor (ln x / ln 2) + 1)%Z) by (apply pow2_lt_inv; lra).
  assert (H2 : (Zfloor (ln x / ln 2) < e + 1)%Z) by (apply pow2_lt_inv; lra).
  lia.
Qed.

Lemma nearest_even_cases (t : R) :
  (Double.nearest_even t = Zfloor t /\ t - IZR (Zfloor t) <= / 2) \/
  (Double.nearest_even t = (Zfloor t + 1)%Z /\ / 2 <= t - IZR (Zfloor t)).
Proof.
  unfold Double.nearest_even, Rltb.
  destruct (Rlt_dec (t - IZR (Zfloor t)) (/ 2)) as [H1 | H1]; [left; split; [reflexivity | lra] |].
  destruct (Rlt_dec (/ 2) (t - IZR (Zfloor t))) as [H2 | H2]; [right; split; [reflexivity | lra] |].
  destruct (Z.even (Zfloor t)); [left | right]; split; try reflexivity; lra.
Qed.

Lemma nearest_even_ge (k : Z) (t : R) : IZR k <= t -> (k <= Double.nearest_even t)%Z.
Proof.
  intros H. pose proof (Zfloor_lub k t H) as Hk.
  destruct (nearest_even_cases t) as [[-> _] | [-> _]]; lia.
Qed.

Lemma nearest_even_le (k : Z) (t : R) : t <= IZR k -> (Double.nearest_even t <= k)%Z.
Proof.
  intros H. destruct (Zfloor_bound t) as [Hlo Hhi].
  destruct (nearest_even_cases t) as [[-> _] | [-> Hhalf]].
  - apply le_IZR. lra.
  - assert (Hlt : (Zfloor t < k)%Z) by (apply lt_IZR; lra). lia.
Qed.

Lemma nearest_even_near (t : R) : Rabs (IZR (Double.nearest_even t) - t) <= / 2.
Proof.
  destruct (Zfloor_bound t) as [Hlo Hhi].
  destruct (nearest_even_cases t) as [[-> Hhalf] | [-> Hhalf]].
  - rewrite Rabs_left1 by lra. lra.
  - rewrite plus_IZR. rewrite Rabs_right by lra. lra.
Qed.

Lemma nearest_even_below_half (k : Z) (t : R) :
  IZR k <= t < IZR k + / 2 -> Double.nearest_even t = k.
Proof.
  intros [Hlo Hhi].
  assert (Hf : Zfloor t = k) by (apply Zfloor_eq; lra).
  unfold Double.nearest_even. rewrite Hf, Rltb_true by lra. reflexivity.
Qed.

(** Rounding keeps a value between the powers of two that enclose it, and
    moves it by at most half a unit in the last place. *)
Lemma round_between (p q : Z) (x : R) :
  (-1022 <= p)%Z -> (q <= 1023)%Z ->
  powerRZ 2 p <= x <= powerRZ 2 q ->
  exists y : R,
    Double.round x = Fin y /\
    powerRZ 2 p <= y <= powerRZ 2 q /\
    Rabs (y - x) <= x / 2 ^ 53.
Proof.
  intros Hp Hq [Hlo Hhi].
  assert (Hx : 0 < x) by (pose proof (pow2_pos p); lra).
  destruct (binade_bounds x Hx) as [Hlo' Hhi'].
  set (e := Zfloor (ln x / ln 2)) in *.
  assert (Hpe : (p <= e)%Z).
  { assert (p < e + 1)%Z by (apply pow2_lt_inv; lra). lia. }
  assert (Heq : (e <= q)%Z).
  { assert (e < q + 1)%Z.
    { apply pow2_lt_inv. pose proof (pow2_lt q (q + 1) ltac:(lia)). lra. }
    lia. }
  assert (Hexp : Double.exponent x = e) by (apply exponent_eq; [lia | lra]).
  unfold Double.round, Double.ulp. rewrite Hexp.
  set (u := powerRZ 2 (e - 52)).
  assert (Hu : 0 < u) by apply pow2_pos.
  assert (He : powerRZ 2 e = IZR (2 ^ 52) * u).
  { unfold u. rewrite <- (pow2_IZR 52) by lia. rewrite <- pow2_add. f_equal. lia. }
  assert (Hqu : powerRZ 2 q = IZR (2 ^ (q - e + 52)) * u).
  { unfold u. rewrite <- (pow2_IZR (q - e + 52)) by lia. rewrite <- pow2_add.
    f_equal. lia. }
  set (m := x / u).
  assert (Hm : x = m * u) by (unfold m; field; lra).
  assert (Hmlo : IZR (2 ^ 52) <= m).
  { apply Rmult_le_reg_r with u; [exact Hu |]. lra. }
  assert (Hmhi : m <= IZR (2 ^ (q - e + 52))).
  { apply Rmult_le_reg_r with u; [exact Hu |]. lra. }
  pose proof (nearest_even_ge _ _ Hmlo) as Hnlo.
  pose proof (nearest_even_le _ _ Hmhi) as Hnhi.
  pose proof (nearest_even_near m) as Hnear.
  set (n := Double.nearest_even m) in *.
  apply IZR_le in Hnlo, Hnhi.
  assert (Hylo : powerRZ 2 e <= IZR n * u).
  { rewrite He. apply Rmult_le_compat_r; lra. }
  assert (Hyhi : IZR n * u <= powerRZ 2 q).
  { rewrite Hqu. apply Rmult_le_compat_r; lra. }
  assert (Hy : 0 < IZR n * u) by (pose proof (pow2_pos e); lra).
  exists (IZR n * u). split; [| split].
  - cbv zeta. rewrite Rabs_right by lra.
    unfold Rleb. destruct (Rle_dec _ _) as [Hov | _]; [| reflexivity].
    pose proof (pow2_le q 1023 Hq). pose proof (pow2_lt 1023 1024 ltac:(lia)). lra.
  - pose proof (pow2_le p e Hpe). lra.
  - replace (IZR n * u - x) with ((IZR n - m) * u) by (rewrite Hm; ring).
    rewrite Rabs_mult, (Rabs_right u) by lra.
    pose proof two_53 as H53.
    assert (Hk : 0 < IZR (2 ^ 52)) by (apply IZR_lt; reflexivity).
    apply Rle_trans with (/ 2 * u).
    + apply Rmult_le_compat_r; lra.
    + apply Rle_trans with (powerRZ 2 e / 2 ^ 53).
      * rewrite He, H53. right. field. lra.
      * unfold Rdiv. apply Rmult_le_compat_r; [| lra].
        left. apply Rinv_0_lt_compat. rewrite H53. lra.
Qed.

(** Just above 1 the doubles are [2^-52] apart: what exceeds 1 by less
    than half of that is rounded to 1. *)
Lemma round_above_one (x : R) : 1 <= x < 1 + / 2 ^ 53 -> Double.round x = Fin 1.
Proof.
  intros [Hlo Hhi].
  pose proof two_53 as H53.
  assert (Hk : 0 < IZR (2 ^ 52)) by (apply IZR_lt; reflexivity).
  assert (Hi : 0 < / IZR (2 ^ 52)) by (apply Rinv_0_lt_compat, Hk).
  assert (Hinv : / 2 ^ 53 = / 2 * / IZR (2 ^ 52)).
  { rewrite H53. field. lra. }
  assert (H0 : powerRZ 2 0 = 1) by reflexivity.
  assert (H1 : powerRZ 2 (0 + 1) = 2) by (simpl; ring).
  assert (Hexp : Double.exponent x = 0%Z).
  { apply exponent_eq; [lia |]. rewrite H0, H1.
    assert (/ IZR (2 ^ 52) <= 1).
    { rewrite <- Rinv_1. apply Rinv_le_contravar; [lra |].
      apply IZR_le. vm_compute. discriminate. }
    lra. }
  unfold Double.round, Double.ulp. rewrite Hexp.
  set (u := powerRZ 2 (0 - 52)).
  assert (Hu : u = / IZR (2 ^ 52)).
  { unfold u. change (0 - 52)%Z with (Z.opp 52).
    rewrite powerRZ_neg', (pow2_IZR 52) by lia. reflexivity. }
  assert (Hn : Double.nearest_even (x / u) = (2 ^ 52)%Z).
  { apply nearest_even_below_half. rewrite Hu. unfold Rdiv. rewrite Rinv_inv.
    split; [nra |].
    apply Rmult_lt_reg_r with (/ IZR (2 ^ 52)); [exact Hi |].
    rewrite Rmult_assoc, Rinv_r by lra.
    rewrite Rmult_plus_distr_r, Rinv_r by lra. lra. }
  cbv zeta. rewrite Hn, Hu, Rinv_r by lra.
  rewrite Rabs_right by lra.
  unfold Rleb. destruct (Rle_dec _ _) as [Hov | _]; [| reflexivity].
  pose proof (pow2_lt 0 1024 ltac:(lia)). lra.
Qed.

End RoundedSigmoid.

Section SigmoidOnDoubles.

Lemma exp_500_pow2 : exp 500 <= powerRZ 2 1000.
Proof.
  replace 500 with (INR 500) by (rewrite INR_IZR_INZ; reflexivity).
  rewrite exp_INR.
  apply Rle_trans with (3 ^ 500).
  - apply pow_incr. split; [left; apply exp_pos | apply exp_le_3].
  - rewrite pow2_IZR by lia. rewrite pow_IZR.
    apply IZR_le, Z.leb_le. vm_compute. reflexivity.
Qed.

Lemma exp_mult_nat (a : R) (n : nat) : exp (INR n * a) = exp a ^ n.
Proof.
  induction n as [| n IH].
  - simpl. rewrite Rmult_0_l. apply exp_0.
  - rewrite S_INR, Rmult_plus_distr_r, Rmult_1_l, exp_plus, IH. simpl. ring.
Qed.

Lemma exp_40_pow2 : 2 ^ 54 <= exp 40.
Proof.
  replace 40 with (INR 320 * / 8) by (rewrite INR_IZR_INZ; simpl IZR; field).
  rewrite exp_mult_nat.
  apply Rle_trans with ((9 / 8) ^ 320).
  - apply Rmult_le_reg_r with (8 ^ 320); [apply pow_lt; lra |].
    rewrite <- Rpow_mult_distr.
    replace (9 / 8 * 8) with 9 by field.
    rewrite !pow_IZR, <- mult_IZR.
    apply IZR_le, Z.leb_le. vm_compute. reflexivity.
  - apply pow_incr. pose proof (exp_ineq1 (/ 8) ltac:(lra)). lra.
Qed.

Lemma exp_clamped (x : R) :
  -500 <= x <= 500 -> powerRZ 2 (-1000) <= exp x <= powerRZ 2 1000.
Proof.
  intros [Hlo Hhi]. pose proof exp_500_pow2 as H500. split.
  - change (-1000)%Z with (Z.opp 1000). rewrite powerRZ_neg'.
    replace x with (- - x) by ring. rewrite exp_Ropp.
    apply Rinv_le_contravar; [apply exp_pos |].
    apply Rle_trans with (exp 500); [apply exp_le_mono; lra | exact H500].
  - apply Rle_trans with (exp 500); [apply exp_le_mono; lra | exact H500].
Qed.

Lemma inv_pow_52 : 0 < / 2 ^ 52 <= / 2 /\ / 2 ^ 53 = / 2 * / 2 ^ 52 /\
                   / 2 ^ 54 = / 4 * / 2 ^ 52.
Proof.
  assert (H51 : 1 <= 2 ^ 51) by (apply pow_R1_Rle; lra).
  assert (H52 : 2 ^ 52 = 2 * 2 ^ 51) by reflexivity.
  assert (H53 : 2 ^ 53 = 2 * 2 ^ 52) by reflexivity.
  assert (H54 : 2 ^ 54 = 4 * 2 ^ 52) by (change (2 ^ 54) with (2 * (2 * 2 ^ 52)); ring).
  split; [split |].
  - apply Rinv_0_lt_compat. lra.
  - apply Rinv_le_contravar; lra.
  - split; [rewrite H53 | rewrite H54]; field; lra.
Qed.

(** The correctly rounded exponential is an accurate one. *)
Lemma Math_exp_accurate : Double.accurate_exp Double.Math_exp.
Proof.
  intros x Hx.
  destruct (round_between (-1000) 1000 (exp x)) as (y & Hy & _ & Herr);
    [lia | lia | apply exp_clamped, Hx |].
  exists y. split; [exact Hy |].
  eapply Rle_trans; [exact Herr |].
  destruct inv_pow_52 as (H52 & H53 & _).
  pose proof (exp_pos x). unfold Rdiv. rewrite H53. nra.
Qed.

(** From 40 on an accurate exponential of the negated argument is below
    [2^-53], half the distance from 1 to the next double. *)
Lemma exp_small_from_40 (Math_exp : number -> number) (c : R) :
  Double.accurate_exp Math_exp -> 40 <= c <= 500 ->
  exists t : R, Math_exp (Fin (- c)) = Fin t /\ 0 < t < / 2 ^ 53.
Proof.
  intros Hacc Hc.
  destruct (Hacc (- c)) as (t & Ht & Hterr); [lra |].
  pose proof (exp_pos (- c)) as Hepos.
  destruct inv_pow_52 as (H52 & H53 & H54).
  assert (HE : exp (- c) <= / 2 ^ 54).
  { apply Rle_trans with (exp (- (40))); [apply exp_le_mono; lra |].
    rewrite exp_Ropp. apply Rinv_le_contravar; [apply pow_lt; lra |].
    apply exp_40_pow2. }
  exists t. split; [exact Ht |].
  unfold Rabs, Rdiv in Hterr. destruct (Rcase_abs _) in Hterr; nra.
Qed.

Lemma sigmoid_func_infinite (Math_exp : number -> number) :
  Double.sigmoid_func Math_exp PosInf = Double.sigmoid_func Math_exp (Fin 500) /\
  Double.sigmoid_func Math_exp NegInf = Double.sigmoid_func Math_exp (Fin (-500)).
Proof.
  unfold Double.sigmoid_func. cbn [Num.Math_min Num.Math_max Num.neg].
  rewrite (Rmin_left 500 500), (Rmin_right 500 (-500)), (Rmax_left (-500) (-500)) by lra.
  split; reflexivity.
Qed.

(** C10. On doubles [sigmoid.func] clamps its input to [-500, 500] and
    computes [1 / (1 + e^(-c))] of the clamped value [c] in three rounded
    operations.  For every implementation of [Math.exp] that is accurate to
    one unit in the last place and for every real input: the exponential,
    the sum and the quotient are finite, so that nothing overflows, each
    is within its rounding error of the exact operation, and the result
    lies in the interval (0, 1], closed at 1.  From the input 40 on the sum
    [1 + e^(-c)] is rounded to 1 and the result is exactly 1.  The two
    infinities are treated as 500 and -500. *)
Theorem sigmoid_func_rounded_range (Math_exp : number -> number) (x : R) :
  Double.accurate_exp Math_exp ->
  (exists t d y : R,
     Math_exp (Fin (- clamp500 x)) = Fin t /\
     Double.add (Fin 1) (Fin t) = Fin d /\
     Double.div (Fin 1) (Fin d) = Fin y /\
     Double.sigmoid_func Math_exp (Fin x) = Fin y /\
     -500 <= clamp500 x <= 500 /\
     Rabs (t - exp (- clamp500 x)) <= exp (- clamp500 x) / 2 ^ 52 /\
     Rabs (d - (1 + t)) <= (1 + t) / 2 ^ 53 /\
     Rabs (y - 1 / d) <= 1 / d / 2 ^ 53 /\
     0 < t /\ 1 + t < MAX_VALUE /\
     1 <= d < MAX_VALUE /\
     0 < y <= 1 /\
     (40 <= x -> y = 1)) /\
  Double.sigmoid_func Math_exp PosInf = Double.sigmoid_func Math_exp (Fin 500) /\
  Double.sigmoid_func Math_exp NegInf = Double.sigmoid_func Math_exp (Fin (-500)).
Proof.
  intros Hacc. split; [| apply sigmoid_func_infinite].
  pose proof (clamp500_bounds x) as Hc.
  destruct (Hacc (- clamp500 x)) as (t & Ht & Hterr); [lra |].
  destruct (exp_clamped (- clamp500 x)) as [_ Hehi]; [lra |].
  pose proof (exp_pos (- clamp500 x)) as Hepos.
  destruct inv_pow_52 as (H52 & H53 & H54).
  set (E := exp (- clamp500 x)) in *.
  assert (Htb : E * (1 - / 2 ^ 52) <= t <= E * (1 + / 2 ^ 52)).
  { unfold Rabs, Rdiv in Hterr. destruct (Rcase_abs _) in Hterr; lra. }
  assert (Htpos : 0 < t) by nra.
  assert (Hthi : t <= powerRZ 2 1001).
  { change 1001%Z with (1 + 1000)%Z. rewrite pow2_add.
    change (powerRZ 2 1) with (2 * 1). nra. }
  assert (Hsum : powerRZ 2 0 <= 1 + t <= powerRZ 2 1002).
  { change (powerRZ 2 0) with 1. split; [lra |].
    change 1002%Z with (1 + 1001)%Z. rewrite pow2_add.
    change (powerRZ 2 1) with (2 * 1).
    pose proof (pow2_le 0 1001 ltac:(lia)) as H1.
    change (powerRZ 2 0) with 1 in H1. lra. }
  destruct (round_between 0 1002 (1 + t)) as (d & Hd & [Hdlo Hdhi] & Hderr);
    [lia | lia | exact Hsum |].
  change (powerRZ 2 0) with 1 in Hdlo.
  assert (Hquot : powerRZ 2 (-1002) <= 1 / d <= powerRZ 2 0).
  { change (powerRZ 2 0) with 1.
    change (-1002)%Z with (Z.opp 1002). rewrite powerRZ_neg'.
    unfold Rdiv. rewrite Rmult_1_l. split.
    - apply Rinv_le_contravar; lra.
    - rewrite <- Rinv_1. apply Rinv_le_contravar; lra. }
  destruct (round_between (-1002) 0 (1 / d)) as (y & Hy & [Hylo Hyhi] & Hyerr);
    [lia | lia | exact Hquot |].
  change (powerRZ 2 0) with 1 in Hyhi.
  assert (Hadd : Double.add (Fin 1) (Fin t) = Fin d) by exact Hd.
  assert (Hdiv : Double.div (Fin 1) (Fin d) = Fin y).
  { unfold Double.div, Num.div. rewrite Reqb_false by lra. exact Hy. }
  assert (Hmax : powerRZ 2 1002 < MAX_VALUE).
  { unfold MAX_VALUE.
    pose proof (pow2_lt 1002 1023 ltac:(lia)) as Hlt.
    rewrite <- (pow2_nat 1023).
    change (Z.of_nat 1023) with 1023%Z.
    pose proof (pow2_pos 1023). nra. }
  exists t, d, y.
  split; [exact Ht |]. split; [exact Hadd |]. split; [exact Hdiv |].
  split.
  { unfold Double.sigmoid_func. cbn [Num.Math_min Num.Math_max Num.neg].
    fold (clamp500 x). rewrite Ht, Hadd. exact Hdiv. }
  split; [exact Hc |]. split; [exact Hterr |]. split; [exact Hderr |].
  split; [exact Hyerr |]. split; [exact Htpos |].
  split; [lra |]. split; [lra |].
  split; [pose proof (pow2_pos (-1002)); lra |].
  intros Hx.
  assert (Hc40 : 40 <= clamp500 x).
  { unfold clamp500. eapply Rle_trans; [| apply Rmax_r].
    apply Rmin_glb; lra. }
  destruct (exp_small_from_40 Math_exp (clamp500 x) Hacc) as (t' & Ht' & Hsmall);
    [lra |].
  assert (t' = t) as -> by congruence.
  assert (Hd1 : Double.round (1 + t) = Fin 1).
  { apply round_above_one. lra. }
  assert (d = 1) as -> by congruence.
  replace (1 / 1) with 1 in Hy by field.
  rewrite round_above_one in Hy; [congruence |].
  lra.
Qed.

End SigmoidOnDoubles.

Lemma sigmoid_func_rounded_range_witness :
  Double.accurate_exp Double.Math_exp /\
  exists y : R,
    Double.sigmoid_func Double.Math_exp (Fin 0.5) = Fin y /\ 0 < y <= 1.
Proof.
  split; [exact Math_exp_accurate |].
  destruct (sigmoid_func_rounded_range Double.Math_exp 0.5 Math_exp_accurate)
    as [(t & d & y & _ & _ & _ & Hy & _ & _ & _ & _ & _ & _ & _ & Hrange & _) _].
  exists y. split; [exact Hy | exact Hrange].
Defined.

(** With the correctly rounded exponential, [sigmoid.func(40)] is 1:
    [e^(-40)] is less than half the distance from 1 to the next double, so
    [1 + Math.exp(-40)] is 1.  The result is not inside (0, 1). *)
Lemma sigmoid_func_reaches_one :
  Double.sigmoid_func Double.Math_exp (Fin 40) = Fin 1 /\
  ~ (exists y : R,
       Double.sigmoid_func Double.Math_exp (Fin 40) = Fin y /\ 0 < y < 1).
Proof.
  destruct (exp_small_from_40 Double.Math_exp 40 Math_exp_accurate)
    as (t & Ht & Htpos & Htlt); [lra |].
  assert (Hval : Double.sigmoid_func Double.Math_exp (Fin 40) = Fin 1).
  { unfold Double.sigmoid_func. cbn [Num.Math_min Num.Math_max Num.neg].
    rewrite (Rmin_right 500 40), (Rmax_right (-500) 40) by lra.
    rewrite Ht. unfold Double.add. cbn [Num.add Double.rounded].
    rewrite round_above_one by lra.
    unfold Double.div, Num.div. rewrite Reqb_false by lra.
    cbn [Double.rounded]. replace (1 / 1) with 1 by field.
    apply round_above_one. pose proof (proj1 (proj1 inv_pow_52)). lra. }
  split; [exact Hval |].
  intros (y & Heq & Hlt). rewrite Hval in Heq. injection Heq as <-. lra.
Qed.
